(** * Zigbee2MQTT adapter: value codec, enum maps, expose compiler,
      device registry and connection state machine.

    A shallow embedding of [src/z2madapter.cpp] (class [Z2mAdapter] and
    the helpers of its anonymous namespace).

    Conventions of the embedding:
    - [QString] is [string]; case folding is the ASCII one.
    - C++ [double] is IEEE 754 binary64. The brightness codec, whose
      round trip depends on rounding, computes on Rocq's primitive
      floats (module [Double]). Elsewhere a double is held as the
      rational it denotes ([Q]), and the scalings by a constant of the
      other numeric channels are written on the rationals.
    - C++ [int] is a [Z] kept in the 32-bit range by [wrap32].
    - [QHash] is stdpp's [gmap]; [QJsonObject] is a [gmap] from member
      names to JSON values.
    - Qt signals are collected in an event trace, MQTT publishes in an
      outbox; the outcome of a publish is an oracle of the environment. *)

From Stdlib Require Import ZArith QArith Qabs Qround Lia Lqa List String Ascii Bool.
From Stdlib Require Import DecimalString.
From Stdlib Require Floats Uint63.
From Stdlib Require Import Permutation Sorting.Sorted.
From stdpp Require Import base gmap strings list fin_maps.

Local Open Scope Z_scope.

(** * Part I: the embedding *)

(** ** Qt strings *)

Module QtString.

Local Open Scope nat_scope.

(** The double quote character, for the JSON literals compared by the
    bridge/state handler. *)
Definition dquote : string := String (ascii_of_nat 34) EmptyString.

Definition isUpper (c : ascii) : bool :=
  let n := nat_of_ascii c in (65 <=? n) && (n <=? 90).

Definition isLower (c : ascii) : bool :=
  let n := nat_of_ascii c in (97 <=? n) && (n <=? 122).

Definition isDigit (c : ascii) : bool :=
  let n := nat_of_ascii c in (48 <=? n) && (n <=? 57).

(** [QChar::isSpace] on the ASCII range: space, and tab to carriage return. *)
Definition isSpace (c : ascii) : bool :=
  let n := nat_of_ascii c in (n =? 32) || ((9 <=? n) && (n <=? 13)).

Definition toLowerChar (c : ascii) : ascii :=
  if isUpper c then ascii_of_nat (nat_of_ascii c + 32) else c.

Definition toUpperChar (c : ascii) : ascii :=
  if isLower c then ascii_of_nat (nat_of_ascii c - 32) else c.

(** [QString::toLower]. *)
Fixpoint toLower (s : string) : string :=
  match s with
  | EmptyString => EmptyString
  | String c s' => String (toLowerChar c) (toLower s')
  end.

Definition isEmpty (s : string) : bool :=
  match s with EmptyString => true | _ => false end.

Fixpoint trimLeft (s : string) : string :=
  match s with
  | EmptyString => EmptyString
  | String c s' => if isSpace c then trimLeft s' else s
  end.

(** [QString::trimmed]. *)
Definition trimmed (s : string) : string :=
  String.rev (trimLeft (String.rev (trimLeft s))).

(** [QString::startsWith], [endsWith], [contains]. *)
Definition startsWith (s p : string) : bool := String.prefix p s.

Definition endsWith (s p : string) : bool :=
  String.prefix (String.rev p) (String.rev s).

Fixpoint contains (s sub : string) : bool :=
  String.prefix sub s ||
  match s with
  | EmptyString => false
  | String _ s' => contains s' sub
  end.

(** [QString::indexOf(QLatin1Char)]: position of the first occurrence,
    or -1. *)
Fixpoint indexOfChar (s : string) (c : ascii) : Z :=
  match s with
  | EmptyString => (-1)%Z
  | String x s' =>
      if Ascii.eqb x c then 0%Z
      else let r := indexOfChar s' c in if (r <? 0)%Z then (-1)%Z else (r + 1)%Z
  end.

(** [QString::left(n)] and [QString::mid(n)]. *)
Definition left (s : string) (n : nat) : string := String.substring 0 n s.
Definition mid (s : string) (n : nat) : string :=
  String.substring n (String.length s - n) s.

(** [QString::chop(1)]. *)
Definition chop1 (s : string) : string :=
  String.substring 0 (String.length s - 1) s.

(** Lexicographic order on character codes. *)
Fixpoint str_leb (a b : string) : bool :=
  match a, b with
  | EmptyString, _ => true
  | String _ _, EmptyString => false
  | String x a', String y b' =>
      let nx := nat_of_ascii x in
      let ny := nat_of_ascii y in
      if nx <? ny then true
      else if ny <? nx then false
      else str_leb a' b'
  end.

(** The order of [QString::compare(.., Qt::CaseInsensitive)]: the
    strings are compared after case folding. *)
Definition ci_leb (a b : string) : bool := str_leb (toLower a) (toLower b).
Definition ci_le (a b : string) : Prop := ci_leb a b = true.

(** [a.compare(b, Qt::CaseInsensitive) == 0]. *)
Definition equalsCI (a b : string) : bool := String.eqb (toLower a) (toLower b).

(** [QString::number(int)]. *)
Definition number (z : Z) : string := NilZero.string_of_int (Z.to_int z).

(** Digits of a decimal literal, most significant first. *)
Fixpoint digitsValue (s : string) (acc : Z) : option Z :=
  match s with
  | EmptyString => Some acc
  | String c s' =>
      if isDigit c
      then digitsValue s' (10 * acc + Z.of_nat (nat_of_ascii c - 48))%Z
      else None
  end.

Definition INT_MIN : Z := (-2147483648)%Z.
Definition INT_MAX : Z := 2147483647%Z.

Definition inIntRange (z : Z) : bool := ((INT_MIN <=? z) && (z <=? INT_MAX))%Z.

(** [QString::toInt(&ok)] in base 10: surrounding white space is
    ignored, one sign is allowed, the value must fit an [int]. [None]
    stands for [ok = false] (the call then returns 0). *)
Definition toInt (s : string) : option Z :=
  let body (neg : bool) (ds : string) :=
    if isEmpty ds then None
    else match digitsValue ds 0%Z with
         | Some v => let z := if neg then (- v)%Z else v in
                     if inIntRange z then Some z else None
         | None => None
         end in
  match trimmed s with
  | EmptyString => None
  | String c rest =>
      if Ascii.eqb c "-"%char then body true rest
      else if Ascii.eqb c "+"%char then body false rest
      else body false (String c rest)
  end.

(** [QString::split(QLatin1Char(c), Qt::SkipEmptyParts)]. *)
Fixpoint splitSkipEmpty (c : ascii) (s : string) (cur : string) : list string :=
  let flush (k : list string) :=
    if isEmpty cur then k else String.rev cur :: k in
  match s with
  | EmptyString => flush []
  | String x s' =>
      if Ascii.eqb x c then flush (splitSkipEmpty c s' EmptyString)
      else splitSkipEmpty c s' (String x cur)
  end.

Definition capitalize (s : string) : string :=
  match s with
  | EmptyString => EmptyString
  | String c s' => String (toUpperChar c) s'
  end.

End QtString.

(** Two's complement wrap-around of a 32-bit [int]. *)
Definition wrap32 (z : Z) : Z := (z + 2147483648) mod 4294967296 - 2147483648.

(** ** Binary64 numbers

    A C++ [double] is an IEEE 754 binary64 number and its arithmetic
    rounds to nearest, ties to even: this is the arithmetic of Rocq's
    primitive floats, infinities and NaN included. Each operation is
    rounded on its own, as the compiler does without extended precision
    and without contraction to fused multiply-add. *)

Module Double.

Import PrimFloat SpecFloat FloatOps.

Local Open Scope float_scope.

(** [qMin], [qMax] and [qBound] of QtGlobal at type [double]:
    [qMin(a, b) = (a < b) ? a : b], [qMax(a, b) = (a < b) ? b : a] and
    [qBound(min, val, max) = qMax(min, qMin(max, val))]. *)
Definition qMin (a b : float) : float := if a <? b then a else b.
Definition qMax (a b : float) : float := if a <? b then b else a.
Definition qBound (mn v mx : float) : float := qMax mn (qMin mx v).

(** The conversion of an [int] to [double]; it is exact. *)
Definition ofInt (z : Z) : float :=
  match z with
  | Z0 => 0
  | Zpos p => of_uint63 (Uint63.of_pos p)
  | Zneg p => - of_uint63 (Uint63.of_pos p)
  end.

(** The binary64 number nearest to a rational (ties to even, overflow
    to an infinity): the rational itself when it is a binary64 number. *)
Definition ofQ (q : Q) : float :=
  let num :=
    match Qnum q with
    | Z0 => S754_zero false
    | Zpos p => S754_finite false p 0
    | Zneg p => S754_finite true p 0
    end in
  SF2Prim (SFdiv prec emax num (S754_finite false (Qden q) 0)).

(** The rational that a finite binary64 number denotes. *)
Definition exact (d : float) : option Q :=
  match Prim2SF d with
  | S754_zero _ => Some 0%Q
  | S754_finite s m e =>
      let n := if s then Zneg m else Zpos m in
      Some match e with
           | Z0 => inject_Z n
           | Zpos k => inject_Z (n * Zpos (2 ^ k))
           | Zneg k => n # (2 ^ k)
           end
  | S754_infinity _ | S754_nan => None
  end.

(** Back to the rational reading, in lowest terms. The rationals have
    no infinity and no NaN: a result that is not finite reads as 0. *)
Definition toQ (d : float) : Q :=
  match exact d with
  | Some q => Qred q
  | None => 0%Q
  end.

End Double.

(** ** Value codec (component A): brightness scaling *)

Module Codec.

Import PrimFloat.

(** [qBound] on the rational reading of a [double], for the link
    quality; comparisons do not round. *)
Definition qMin (a b : Q) : Q := if Qlt_le_dec a b then a else b.
Definition qMax (a b : Q) : Q := if Qlt_le_dec a b then b else a.
Definition qBound (mn v mx : Q) : Q := qMax mn (qMin mx v).

Local Open Scope float_scope.

(** [Z2mAdapter::scaleToPercent]. *)
Definition scaleToPercent (raw rawMin rawMax : float) : float :=
  if rawMax <=? rawMin then raw
  else
    let clamped := Double.qBound rawMin raw rawMax in
    ((clamped - rawMin) / (rawMax - rawMin)) * 100.

(** [Z2mAdapter::scaleFromPercent]. *)
Definition scaleFromPercent (percent rawMin rawMax : float) : float :=
  if rawMax <=? rawMin then percent
  else
    let clamped := Double.qBound 0 percent 100 in
    rawMin + ((rawMax - rawMin) * (clamped / 100)).

End Codec.

(** ** JSON values *)

#[local] Set Warnings "-register-all".

(** [QJsonValue]; a number is a [double]. *)
Inductive QJsonValue : Type :=
| JNull
| JUndefined
| JBool (b : bool)
| JDouble (d : Q)
| JString (s : string)
| JArray (l : list QJsonValue)
| JObject (o : gmap string QJsonValue).

Abbreviation QJsonObject := (gmap string QJsonValue).

Module Json.

Definition isDouble (v : QJsonValue) : bool :=
  match v with JDouble _ => true | _ => false end.
Definition isString (v : QJsonValue) : bool :=
  match v with JString _ => true | _ => false end.
Definition isBool (v : QJsonValue) : bool :=
  match v with JBool _ => true | _ => false end.
Definition isObject (v : QJsonValue) : bool :=
  match v with JObject _ => true | _ => false end.
Definition isArray (v : QJsonValue) : bool :=
  match v with JArray _ => true | _ => false end.
Definition isUndefined (v : QJsonValue) : bool :=
  match v with JUndefined => true | _ => false end.

(** [QJsonObject::value]: a missing member reads as undefined. *)
Definition value (o : QJsonObject) (key : string) : QJsonValue :=
  default JUndefined (o !! key).

Definition contains (o : QJsonObject) (key : string) : bool :=
  bool_decide (is_Some (o !! key)).

Definition toString (v : QJsonValue) (def : string) : string :=
  match v with JString s => s | _ => def end.

Definition toBool (v : QJsonValue) (def : bool) : bool :=
  match v with JBool b => b | _ => def end.

Definition toDouble (v : QJsonValue) (def : Q) : Q :=
  match v with JDouble d => d | _ => def end.

(** [QJsonValue::toInt]: the number when it is integral and fits an
    [int], the default otherwise. *)
Definition toInt (v : QJsonValue) (def : Z) : Z :=
  match v with
  | JDouble d =>
      let r := Qred d in
      if (Zpos (Qden r) =? 1) && QtString.inIntRange (Qnum r) then Qnum r else def
  | _ => def
  end.

Definition toObject (v : QJsonValue) : QJsonObject :=
  match v with JObject o => o | _ => ∅ end.

Definition toArray (v : QJsonValue) : list QJsonValue :=
  match v with JArray l => l | _ => [] end.

Definition ofInt (z : Z) : QJsonValue := JDouble (inject_Z z).

End Json.

(** ** Types of the adapter API ([types.h], [channel.h], [device.h], [color.h]) *)

Inductive CmdStatus : Type :=
| Success | Failure | Timeout | NotSupported | InvalidArgument | Busy
| TemporarilyOffline | NotAuthorized | NotImplemented | InternalError.

Inductive DeviceClass : Type :=
| DcUnknown | DcLight | DcSwitch | DcSensor | DcButton | DcPlug | DcCover
| DcThermostat | DcGateway | DcMediaPlayer | DcHeater | DcGate | DcValve.

Inductive ChannelKind : Type :=
| KUnknown | KPowerOnOff | KButtonEvent
| KBrightness | KColorTemperature | KColorRGB | KColorTemperaturePreset
| KVolume | KMute | KHdmiInput | KPlayPause
| KTemperature | KHumidity | KIlluminance | KMotion | KBattery | KCO2
| KRelativeRotation | KConnectivityStatus | KDeviceSoftwareUpdate
| KSignalStrength | KPower | KVoltage | KCurrent | KEnergy | KLinkQuality
| KDuration | KContact | KTamper | KAmbientLightLevel
| KPhValue | KOrpValue | KSaltPpm | KConductivity | KTdsValue
| KSpecificGravity | KWaterHardness | KFreeChlorine | KFilterPressure
| KWaterFlow | KSceneTrigger.

Inductive ChannelDataType : Type :=
| TUnknown | TBool | TInt | TFloat | TString | TColor | TEnum.

Inductive ConnectivityStatus : Type :=
| CsUnknown | CsConnected | CsLimited | CsDisconnected.

Inductive ButtonEventCode : Type :=
| BtnNone | InitialPress | DoublePress | TriplePress | QuadruplePress
| QuintuplePress | LongPress | LongPressRelease | ShortPressRelease | Repeat.

#[global] Instance CmdStatus_eq_dec : EqDecision CmdStatus.
Proof. solve_decision. Defined.
#[global] Instance ChannelDataType_eq_dec : EqDecision ChannelDataType.
Proof. solve_decision. Defined.
#[global] Instance DeviceClass_eq_dec : EqDecision DeviceClass.
Proof. solve_decision. Defined.

(** [static_cast<int>] of the enumerators that travel as integers. *)
Definition connectivityCode (s : ConnectivityStatus) : Z :=
  match s with
  | CsUnknown => 0 | CsConnected => 1 | CsLimited => 2 | CsDisconnected => 3
  end.

Definition buttonCode (c : ButtonEventCode) : Z :=
  match c with
  | BtnNone => 0 | InitialPress => 1 | DoublePress => 2 | TriplePress => 3
  | QuadruplePress => 4 | QuintuplePress => 5 | LongPress => 10
  | LongPressRelease => 11 | ShortPressRelease => 12 | Repeat => 20
  end.

(** [ChannelFlags] is a bit mask. *)
Definition ChannelFlagNone : Z := 0.
Definition ChannelFlagReadable : Z := 1.
Definition ChannelFlagWritable : Z := 2.
Definition ChannelFlagReportable : Z := 4.
Definition ChannelFlagRetained : Z := 8.
Definition ChannelFlagDefaultRead : Z :=
  Z.lor (Z.lor ChannelFlagReadable ChannelFlagReportable) ChannelFlagRetained.

Definition testFlag (flags flag : Z) : bool := Z.land flags flag =? flag.

Definition DeviceFlagNone : Z := 0.
Definition DeviceFlagWireless : Z := 1.
Definition DeviceFlagBattery : Z := 2.

(** [phicore::Color] and [phicore::Hsv]. *)
Record Color : Type := mkColor { c_r : Q; c_g : Q; c_b : Q }.
Record Hsv : Type := mkHsv { hDeg : Q; hsv_s : Q; hsv_v : Q }.

(** [QVariant], restricted to the payload types that reach the adapter. *)
Inductive QVariant : Type :=
| VInvalid
| VBool (b : bool)
| VInt (z : Z)
| VLongLong (z : Z)
| VDouble (d : Q)
| VString (s : string)
| VColor (c : Color)
| VJsonObject (o : QJsonObject).

Record AdapterConfigOption : Type := mkOption {
  opt_value : string;
  opt_label : string
}.

Record Channel : Type := mkChannel {
  ch_name : string;
  ch_id : string;
  ch_kind : ChannelKind;
  ch_dataType : ChannelDataType;
  ch_flags : Z;
  ch_unit : string;
  ch_minValue : Q;
  ch_maxValue : Q;
  ch_stepValue : Q;
  ch_meta : QJsonObject;
  ch_choices : list AdapterConfigOption
}.

Record Device : Type := mkDevice {
  dev_name : string;
  dev_deviceClass : DeviceClass;
  dev_flags : Z;
  dev_id : string;
  dev_manufacturer : string;
  dev_firmware : string;
  dev_model : string;
  dev_meta : QJsonObject
}.

Record CmdResponse : Type := mkCmdResponse {
  resp_id : Z;
  resp_status : CmdStatus;
  resp_error : string;
  resp_tsMs : Z
}.

(** ** What the platform supplies

    Library code outside the repository, and the floating-point colour
    conversions of [color.h], are taken as parameters. *)
Record Platform : Type := mkPlatform {
  (** [QStringList::sort(Qt::CaseInsensitive)] *)
  sortCI : list string -> list string;
  (** [QString::toDouble], behind [QVariant::toDouble] of a string *)
  qstringToDouble : string -> option Q;
  (** the conversion of a [double] held by a [QVariant] to [int] and to
      [QString] *)
  doubleToInt : Q -> Z;
  doubleToString : Q -> string;
  (** [QDateTime::fromString(.., Qt::ISODate).toMSecsSinceEpoch()],
      [None] when the date is not valid *)
  parseIsoDate : string -> option Z;
  (** [phicore::colorFromXy], [hsvToColor], [colorToXy], [colorToHsv] *)
  colorFromXy : Q -> Q -> Q -> Color;
  hsvToColor : Q -> Q -> Q -> Color;
  colorToXy : Color -> Q * Q;
  colorToHsv : Color -> Hsv;
  (** message id returned by [MqttClient::publish] for the n-th publish
      of the run; negative on failure *)
  publishResult : nat -> string -> QJsonObject -> Z
}.

(** ** Enum helpers of the anonymous namespace *)

Module EnumMap.

Import QtString.

(** [enumLabelFor]. *)
Definition enumLabelFor (enumName : string) (value : Z) : string :=
  if equalsCI enumName "RockerMode" then
    match value with
    | 1 => "SingleRocker"
    | 2 => "DualRocker"
    | 3 => "SinglePush"
    | 4 => "DualPush"
    | _ => ""
    end
  else if equalsCI enumName "SensitivityLevel" then
    match value with
    | 1 => "Low"
    | 2 => "Medium"
    | 3 => "High"
    | 4 => "VeryHigh"
    | 5 => "Max"
    | _ => ""
    end
  else "".

(** [isKnownEnumName]. *)
Definition isKnownEnumName (name enumName : string) : bool :=
  equalsCI name enumName.

(** [mapRockerMode]. *)
Definition mapRockerMode (raw : string) : option Z :=
  let key := toLower (trimmed raw) in
  if String.eqb key "single_rocker" || String.eqb key "singlerocker" then Some 1
  else if String.eqb key "dual_rocker" || String.eqb key "dualrocker" then Some 2
  else if String.eqb key "single_push_button" || String.eqb key "singlepushbutton"
  then Some 3
  else if String.eqb key "dual_push_button" || String.eqb key "dualpushbutton"
  then Some 4
  else None.

(** [mapSensitivityLevel]. *)
Definition mapSensitivityLevel (raw : string) : option Z :=
  let key := toLower (trimmed raw) in
  if String.eqb key "low" then Some 1
  else if String.eqb key "medium" then Some 2
  else if String.eqb key "high" then Some 3
  else if String.eqb key "very_high" || String.eqb key "veryhigh" then Some 4
  else if String.eqb key "max" then Some 5
  else None.

(** First loop of [buildStableEnumMap]: one member of [existing]. *)
Definition existingStep (key : string) (val : QJsonValue)
    (acc : gmap string Z * Z) : gmap string Z * Z :=
  let '(map, maxValue) := acc in
  if negb (Json.isDouble val) then acc
  else
    let v := Json.toInt val 0 in
    if v <=? 0 then acc
    else (<[key := v]> map, if maxValue <? v then v else maxValue).

(** Second loop of [buildStableEnumMap]: one raw key; [++maxValue] is
    an [int] increment. *)
Definition rawKeyStep (acc : gmap string Z * Z) (key : string)
    : gmap string Z * Z :=
  let '(map, maxValue) := acc in
  if isEmpty key then acc
  else if bool_decide (is_Some (map !! key)) then acc
  else
    let maxValue' := wrap32 (maxValue + 1) in
    (<[key := maxValue']> map, maxValue').

(** [buildStableEnumMap]; [sort] is [QStringList::sort(Qt::CaseInsensitive)]. *)
Definition buildStableEnumMap (sort : list string -> list string)
    (rawKeys : list string) (existing : QJsonObject) : gmap string Z :=
  let acc := map_fold existingStep (∅, 0) existing in
  fst (foldl rawKeyStep acc (sort rawKeys)).

(** The members of [existing] that the first loop keeps: numbers that
    are positive integers. *)
Definition positiveInt (val : QJsonValue) : option Z :=
  if Json.isDouble val && (0 <? Json.toInt val 0) then Some (Json.toInt val 0)
  else None.

Definition keptEntries (existing : QJsonObject) : gmap string Z :=
  omap positiveInt existing.

(** [M] is the largest value of [m], or 0 when [m] is empty. *)
Definition isMaxValue (m : gmap string Z) (M : Z) : Prop :=
  (forall k v, m !! k = Some v -> v <= M) /\
  (M = 0 \/ exists k, m !! k = Some M).

(** A stable insertion sort on the case-insensitive order, one
    admissible instance of [QStringList::sort(Qt::CaseInsensitive)]. *)
Fixpoint insertCI (x : string) (l : list string) : list string :=
  match l with
  | [] => [x]
  | y :: l' => if ci_leb x y then x :: l else y :: insertCI x l'
  end.

Definition insertionSortCI (l : list string) : list string :=
  foldr insertCI [] l.

End EnumMap.

(** ** Expose compiler (component B) *)

(** [Z2mAdapter::Z2mChannelBinding]. *)
Record Z2mChannelBinding : Type := mkBinding {
  b_channelId : string;
  b_property : string;
  b_kind : ChannelKind;
  b_dataType : ChannelDataType;
  b_flags : Z;
  b_unit : string;
  b_rawMin : Q;
  b_rawMax : Q;
  b_rawStep : Q;
  b_valueScale : Q;
  b_endpoint : string;
  b_valueOn : string;
  b_valueOff : string;
  b_colorMode : string;
  b_scalePercent : bool;
  b_isAvailability : bool;
  b_enumRawToValue : gmap string Z;
  b_enumValueToRaw : gmap Z string
}.

(** [Z2mAdapter::Z2mDeviceEntry]; the [QMultiHash] keeps its values in
    a list, most recent first. *)
Record Z2mDeviceEntry : Type := mkEntry {
  e_device : Device;
  e_mqttId : string;
  e_channels : list Channel;
  e_bindingsByChannel : gmap string Z2mChannelBinding;
  e_channelByProperty : gmap string (list string)
}.

Module Expose.

Import QtString EnumMap.

Definition kAccessState : Z := 1.
Definition kAccessSet : Z := 2.

Definition Qltb (a b : Q) : bool := negb (Qle_bool b a).

(** [forceReadOnly]. *)
Definition forceReadOnly (flags : Z) : Z :=
  let flags :=
    if testFlag flags ChannelFlagWritable
    then Z.lxor flags ChannelFlagWritable else flags in
  Z.lor flags
    (Z.lor (Z.lor ChannelFlagReadable ChannelFlagReportable) ChannelFlagRetained).

(** [Z2mAdapter::flagsFromAccess]. *)
Definition flagsFromAccess (access : Z) : Z :=
  let flags := ChannelFlagNone in
  let flags :=
    if negb (Z.land access kAccessState =? 0)
    then Z.lor flags
           (Z.lor (Z.lor ChannelFlagReadable ChannelFlagReportable)
                  ChannelFlagRetained)
    else flags in
  let flags :=
    if negb (Z.land access kAccessSet =? 0)
    then Z.lor flags ChannelFlagWritable else flags in
  if flags =? ChannelFlagNone then ChannelFlagDefaultRead else flags.

(** [Z2mAdapter::labelFromProperty]. *)
Definition labelFromProperty (property fallback : string) : string :=
  if negb (isEmpty (trimmed fallback)) then trimmed fallback
  else if String.eqb property "color_temp" then "Color Temperature"
  else if String.eqb property "co2" then "CO2"
  else String.concat " " (map capitalize (splitSkipEmpty "_" property "")).

Record Mapping : Type := mkMapping {
  map_kind : ChannelKind;
  map_dataType : ChannelDataType;
  map_unit : string;
  map_scalePercent : bool
}.

(** The table [kMappings] of [addChannelFromExpose] (Table T1). *)
Definition kMappings (property : string) : option Mapping :=
  let prop_is := String.eqb property in
  if prop_is "state" then Some (mkMapping KPowerOnOff TBool "" false)
  else if prop_is "brightness" then Some (mkMapping KBrightness TFloat "%" true)
  else if prop_is "color_temp" then Some (mkMapping KColorTemperature TFloat "mired" false)
  else if prop_is "color" then Some (mkMapping KColorRGB TColor "" false)
  else if prop_is "temperature" then Some (mkMapping KTemperature TFloat "C" false)
  else if prop_is "humidity" then Some (mkMapping KHumidity TFloat "%" false)
  else if prop_is "illuminance" then Some (mkMapping KIlluminance TInt "lx" false)
  else if prop_is "illumination" then Some (mkMapping KAmbientLightLevel TEnum "" false)
  else if prop_is "occupancy" then Some (mkMapping KMotion TBool "" false)
  else if prop_is "motion" then Some (mkMapping KMotion TBool "" false)
  else if prop_is "battery" then Some (mkMapping KBattery TInt "%" false)
  else if prop_is "battery_low" then Some (mkMapping KUnknown TBool "" false)
  else if prop_is "linkquality" then Some (mkMapping KLinkQuality TFloat "%" false)
  else if prop_is "keep_time" then Some (mkMapping KDuration TInt "s" false)
  else if prop_is "tamper" then Some (mkMapping KTamper TBool "" false)
  else if prop_is "power" then Some (mkMapping KPower TFloat "W" false)
  else if prop_is "voltage" then Some (mkMapping KVoltage TFloat "V" false)
  else if prop_is "current" then Some (mkMapping KCurrent TFloat "A" false)
  else if prop_is "energy" then Some (mkMapping KEnergy TFloat "kWh" false)
  else if prop_is "co2" then Some (mkMapping KCO2 TFloat "ppm" false)
  else if prop_is "action" then Some (mkMapping KButtonEvent TInt "" false)
  else None.

(** The lambda [isSensorMeasurementKind]. *)
Definition isSensorMeasurementKind (kind : ChannelKind) : bool :=
  match kind with
  | KTemperature | KHumidity | KIlluminance | KCO2 | KPower | KVoltage
  | KCurrent | KEnergy | KBattery | KMotion | KTamper | KAmbientLightLevel
  | KLinkQuality | KSignalStrength | KButtonEvent => true
  | _ => false
  end.

Definition writableSensorConfigTokens : list string :=
  ["calibration"; "sensitivity"; "threshold"; "alarm"; "keep_time";
   "interval"; "unit"; "mode"].

Definition isKind (k : ChannelKind) (kind : ChannelKind) : bool :=
  match k, kind with
  | KUnknown, KUnknown | KBrightness, KBrightness | KLinkQuality, KLinkQuality
  | KBattery, KBattery | KVoltage, KVoltage | KPowerOnOff, KPowerOnOff
  | KColorRGB, KColorRGB => true
  | _, _ => false
  end.

(** The raw key of one element of the expose's [values] array. *)
Definition enumKeyOf (val : QJsonValue) : string :=
  if Json.isString val then Json.toString val ""
  else if Json.isDouble val then number (Json.toInt val 0)
  else "".

(** The name of the normalised enum of a property, or the empty string. *)
Definition enumNameOf (property : string) : string :=
  if String.eqb property "device_mode" then "RockerMode"
  else if String.eqb property "motion_sensitivity"
          || String.eqb property "sensitivity" then "SensitivityLevel"
  else "".

Record EnumScan : Type := mkScan {
  scan_rawKeys : list string;
  scan_normalizedMap : gmap string Z;
  scan_allNumeric : bool
}.

(** Body of the loop over [values]. *)
Definition scanValue (enumName : string) (acc : EnumScan) (val : QJsonValue)
    : EnumScan :=
  let key := enumKeyOf val in
  if isEmpty key then acc
  else
    let allNumeric :=
      match toInt key with
      | Some _ => scan_allNumeric acc
      | None => false
      end in
    let normalized :=
      if negb (isEmpty enumName) then
        if isKnownEnumName enumName "RockerMode" then
          match mapRockerMode key with
          | Some mapped => <[key := mapped]> (scan_normalizedMap acc)
          | None => scan_normalizedMap acc
          end
        else if isKnownEnumName enumName "SensitivityLevel" then
          match mapSensitivityLevel key with
          | Some mapped => <[key := mapped]> (scan_normalizedMap acc)
          | None => scan_normalizedMap acc
          end
        else scan_normalizedMap acc
      else scan_normalizedMap acc in
    mkScan (scan_rawKeys acc ++ [key]) normalized allNumeric.

Definition scanValues (enumName : string) (values : list QJsonValue) : EnumScan :=
  let nonEmpty := match values with [] => false | _ :: _ => true end in
  foldl (scanValue enumName) (mkScan [] ∅ nonEmpty) values.

(** The map [fallbackMap]: numeric raw values map to themselves, other
    value sets go through [buildStableEnumMap]. *)
Definition numericStep (m : gmap string Z) (key : string) : gmap string Z :=
  match toInt key with
  | Some numeric => <[key := numeric]> m
  | None => m
  end.

Definition fallbackMapOf (sort : list string -> list string) (sc : EnumScan)
    : gmap string Z :=
  if scan_allNumeric sc then foldl numericStep ∅ (scan_rawKeys sc)
  else buildStableEnumMap sort (scan_rawKeys sc)
         (Json.ofInt <$> scan_normalizedMap sc).

Record EnumTables : Type := mkTables {
  tab_choices : list AdapterConfigOption;
  tab_rawToValue : gmap string Z;
  tab_valueToRaw : gmap Z string
}.

(** Body of the loop that fills [choices] and the two enum tables. *)
Definition choiceStep (enumName : string) (fallbackMap : gmap string Z)
    (acc : EnumTables) (key : string) : EnumTables :=
  let mappedValue := default 0 (fallbackMap !! key) in
  if mappedValue =? 0 then acc
  else
    let label :=
      if negb (isEmpty enumName) then enumLabelFor enumName mappedValue
      else "" in
    let label := if isEmpty label then key else label in
    mkTables
      (tab_choices acc ++ [mkOption (number mappedValue) label])
      (<[key := mappedValue]> (tab_rawToValue acc))
      (if bool_decide (is_Some (tab_valueToRaw acc !! mappedValue))
       then tab_valueToRaw acc
       else <[mappedValue := key]> (tab_valueToRaw acc)).

Definition enumTablesOf (enumName : string) (fallbackMap : gmap string Z)
    (rawKeys : list string) : EnumTables :=
  foldl (choiceStep enumName fallbackMap) (mkTables [] ∅ ∅) rawKeys.

(** The [meta] of an enum channel. *)
Definition enumMeta (enumName : string) (fallbackMap : gmap string Z)
    : QJsonObject :=
  let meta : QJsonObject := ∅ in
  let meta :=
    if negb (isEmpty enumName)
    then <["enumName" := JString enumName]> meta else meta in
  if negb (bool_decide (fallbackMap = ∅))
  then <["enumMap" := JObject (Json.ofInt <$> fallbackMap)]> meta
  else meta.

(** The colour mode read off the features of a composite colour expose. *)
Record ColorFeatures : Type := mkFeatures {
  hasX : bool; hasY : bool; hasHue : bool; hasSat : bool
}.

Definition featureStep (acc : ColorFeatures) (featureVal : QJsonValue)
    : ColorFeatures :=
  if negb (Json.isObject featureVal) then acc
  else
    let fprop :=
      trimmed (Json.toString (Json.value (Json.toObject featureVal) "property") "") in
    if String.eqb fprop "x" then mkFeatures true (hasY acc) (hasHue acc) (hasSat acc)
    else if String.eqb fprop "y"
    then mkFeatures (hasX acc) true (hasHue acc) (hasSat acc)
    else if String.eqb fprop "hue" || String.eqb fprop "h"
    then mkFeatures (hasX acc) (hasY acc) true (hasSat acc)
    else if String.eqb fprop "saturation" || String.eqb fprop "s"
    then mkFeatures (hasX acc) (hasY acc) (hasHue acc) true
    else acc.

Definition colorModeOf (features : list QJsonValue) : string :=
  let f := foldl featureStep (mkFeatures false false false false) features in
  if hasX f && hasY f then "xy"
  else if hasHue f && hasSat f then "hs"
  else "xy".

(** [Z2mAdapter::collectExposeEntries]: the exposes that carry a
    property, depth first; a composite colour is not entered. The
    recursive call on the [features] member is taken through [fmap] so
    that the recursion is structural ([collectExposeEntries_object]
    gives the direct reading). *)
Fixpoint collectExposeEntries (value : QJsonValue) (out : list QJsonObject)
    {struct value} : list QJsonObject :=
  match value with
  | JArray arr =>
      (fix loop (l : list QJsonValue) (acc : list QJsonObject) :=
         match l with
         | [] => acc
         | entry :: l' => loop l' (collectExposeEntries entry acc)
         end) arr out
  | JObject obj =>
      let property := trimmed (Json.toString (Json.value obj "property") "") in
      let type := trimmed (Json.toString (Json.value obj "type") "") in
      let out := if negb (isEmpty property) then out ++ [obj] else out in
      if negb (isEmpty property)
         && String.eqb property "color" && String.eqb type "composite"
      then out
      else
        match ((fun f => (Json.isArray f, collectExposeEntries f)) <$> obj)
                !! "features" with
        | Some (true, collectFeatures) => collectFeatures out
        | _ => out
        end
  | _ => out
  end.

Record ClassScan : Type := mkClassScan {
  hasLight : bool; hasSwitch : bool; hasSensor : bool; hasButton : bool
}.

Definition classStep (acc : ClassScan) (expose : QJsonObject) : ClassScan :=
  let property := Json.toString (Json.value expose "property") "" in
  let prop_is := String.eqb property in
  if prop_is "brightness" || prop_is "color_temp" || prop_is "color"
  then mkClassScan true (hasSwitch acc) (hasSensor acc) (hasButton acc)
  else if prop_is "state"
  then mkClassScan (hasLight acc) true (hasSensor acc) (hasButton acc)
  else if prop_is "action"
  then mkClassScan (hasLight acc) (hasSwitch acc) (hasSensor acc) true
  else if prop_is "temperature" || prop_is "humidity" || prop_is "illuminance"
          || prop_is "illumination" || prop_is "occupancy" || prop_is "motion"
          || prop_is "co2"
  then mkClassScan (hasLight acc) (hasSwitch acc) true (hasButton acc)
  else acc.

(** [Z2mAdapter::inferDeviceClass]. *)
Definition inferDeviceClass (exposes : list QJsonObject) : DeviceClass :=
  let f := foldl classStep (mkClassScan false false false false) exposes in
  if hasLight f then DcLight
  else if hasSwitch f then DcSwitch
  else if hasButton f then DcButton
  else if hasSensor f then DcSensor
  else DcUnknown.

(** [Z2mAdapter::actionToButtonEvent]. *)
Definition actionToButtonEvent (action : string) : ButtonEventCode :=
  let value := toLower action in
  if contains value "double" then DoublePress
  else if contains value "triple" then TriplePress
  else if contains value "quad" then QuadruplePress
  else if contains value "quint" then QuintuplePress
  else if contains value "long_release" || contains value "hold_release"
  then LongPressRelease
  else if contains value "release" then ShortPressRelease
  else if contains value "hold" || contains value "long" then LongPress
  else if contains value "single" || contains value "press" then InitialPress
  else BtnNone.

Section Compile.

Variable sort : list string -> list string.

(** [Z2mAdapter::addChannelFromExpose]: the entry is returned unchanged
    where the source returns early. *)
Definition addChannelFromExpose (expose : QJsonObject) (entry : Z2mDeviceEntry)
    : Z2mDeviceEntry :=
  let property := trimmed (Json.toString (Json.value expose "property") "") in
  if isEmpty property then entry
  else
  let propLower := toLower property in
  let isMinMaxHelper :=
    String.eqb propLower "min" || String.eqb propLower "max"
    || startsWith propLower "min_" || startsWith propLower "max_"
    || endsWith propLower "_min" || endsWith propLower "_max" in
  if isMinMaxHelper then entry
  else
  let endpointVal := Json.value expose "endpoint" in
  let endpoint :=
    if Json.isString endpointVal then trimmed (Json.toString endpointVal "")
    else if Json.isDouble endpointVal then number (Json.toInt endpointVal 0)
    else "" in
  let channelId :=
    if negb (isEmpty endpoint) then property +:+ "_" +:+ endpoint
    else property in
  if bool_decide (is_Some (e_bindingsByChannel entry !! channelId)) then entry
  else
  let mapIt := kMappings property in
  let exposeType := trimmed (Json.toString (Json.value expose "type") "") in
  let isEnum := String.eqb exposeType "enum" in
  let isBinary := String.eqb exposeType "binary" in
  let isNumeric := String.eqb exposeType "numeric" in
  if negb (bool_decide (is_Some mapIt)) && negb (isEnum || isBinary || isNumeric)
  then entry
  else
  let name :=
    labelFromProperty property (Json.toString (Json.value expose "label") "") in
  let kind := match mapIt with Some m => map_kind m | None => KUnknown end in
  let dataType :=
    match mapIt with
    | Some m => map_dataType m
    | None => if isEnum then TEnum else if isBinary then TBool else TFloat
    end in
  let unit := match mapIt with Some m => map_unit m | None => "" end in
  let dataType := if isEnum then TEnum else dataType in
  let access := Json.toInt (Json.value expose "access") kAccessState in
  let flags := flagsFromAccess access in
  let flags :=
    if bool_decide (dev_deviceClass (e_device entry) = DcSensor) then
      let sensorConfigWritable :=
        existsb (contains propLower) writableSensorConfigTokens in
      let flags :=
        if isSensorMeasurementKind kind then forceReadOnly flags else flags in
      if isKind kind KUnknown && negb sensorConfigWritable
      then forceReadOnly flags else flags
    else flags in
  let rawMin := Json.toDouble (Json.value expose "value_min") 0 in
  let rawMax := Json.toDouble (Json.value expose "value_max") 0 in
  let rawStep := Json.toDouble (Json.value expose "value_step") 1 in
  let resetRange := isKind kind KBrightness && Qle_bool rawMax rawMin in
  let rawMin := if resetRange then 0%Q else rawMin in
  let rawMax := if resetRange then 254%Q else rawMax in
  let numericRange :=
    bool_decide (dataType = TFloat) || bool_decide (dataType = TInt) in
  let batteryRange := isKind kind KBattery && bool_decide (dataType = TInt) in
  let minValue :=
    if isKind kind KBrightness then 0%Q
    else if isKind kind KLinkQuality then 0%Q
    else if batteryRange then 0%Q
    else if numericRange then rawMin
    else 0%Q in
  let maxValue :=
    if isKind kind KBrightness then 100%Q
    else if isKind kind KLinkQuality then 100%Q
    else if batteryRange then (if Qltb 0 rawMax then rawMax else 100%Q)
    else if numericRange then rawMax
    else 0%Q in
  let stepValue :=
    if isKind kind KBrightness then
      (if Qltb rawMin rawMax && Qltb 0 rawStep
       then ((rawStep / (rawMax - rawMin)) * 100)%Q else 1%Q)
    else if isKind kind KLinkQuality then 1%Q
    else if batteryRange then (if Qltb 0 rawStep then rawStep else 1%Q)
    else if numericRange then rawStep
    else 0%Q in
  let enumName := if isEnum then enumNameOf property else "" in
  let sc :=
    if isEnum then scanValues enumName (Json.toArray (Json.value expose "values"))
    else mkScan [] ∅ false in
  let fallbackMap := if isEnum then fallbackMapOf sort sc else ∅ in
  let tables :=
    if isEnum then enumTablesOf enumName fallbackMap (scan_rawKeys sc)
    else mkTables [] ∅ ∅ in
  let meta : QJsonObject := if isEnum then enumMeta enumName fallbackMap else ∅ in
  let exposeUnit := trimmed (Json.toString (Json.value expose "unit") "") in
  let unit :=
    if isEmpty unit && negb (isEmpty exposeUnit) then exposeUnit else unit in
  let milliVolt := isKind kind KVoltage && String.eqb exposeUnit "mV" in
  let unit := if milliVolt then "V" else unit in
  let minValue := if milliVolt then (minValue / 1000)%Q else minValue in
  let maxValue := if milliVolt then (maxValue / 1000)%Q else maxValue in
  let stepValue :=
    if milliVolt && Qltb 0 stepValue then (stepValue / 1000)%Q else stepValue in
  let channel :=
    mkChannel name channelId kind dataType flags unit
              minValue maxValue stepValue meta (tab_choices tables) in
  let binding :=
    {| b_channelId := channelId;
       b_property := property;
       b_kind := kind;
       b_dataType := dataType;
       b_flags := flags;
       b_unit := if isKind kind KLinkQuality then "%" else unit;
       b_rawMin := rawMin;
       b_rawMax := rawMax;
       b_rawStep := rawStep;
       b_valueScale :=
         if isKind kind KLinkQuality then (100 / 255)%Q
         else if milliVolt then (1 / 1000)%Q else 1;
       b_endpoint := endpoint;
       b_valueOn :=
         if isKind kind KPowerOnOff
         then Json.toString (Json.value expose "value_on") "" else "";
       b_valueOff :=
         if isKind kind KPowerOnOff
         then Json.toString (Json.value expose "value_off") "" else "";
       b_colorMode :=
         if isKind kind KColorRGB
         then colorModeOf (Json.toArray (Json.value expose "features")) else "";
       b_scalePercent :=
         match mapIt with Some m => map_scalePercent m | None => false end;
       b_isAvailability := false;
       b_enumRawToValue := tab_rawToValue tables;
       b_enumValueToRaw := tab_valueToRaw tables |} in
  {| e_device := e_device entry;
     e_mqttId := e_mqttId entry;
     e_channels := e_channels entry ++ [channel];
     e_bindingsByChannel := <[channelId := binding]> (e_bindingsByChannel entry);
     e_channelByProperty :=
       <[property := channelId :: default [] (e_channelByProperty entry !! property)]>
         (e_channelByProperty entry) |}.

(** A default-constructed [Z2mChannelBinding]. *)
Definition defaultBinding : Z2mChannelBinding :=
  {| b_channelId := ""; b_property := ""; b_kind := KUnknown;
     b_dataType := TUnknown; b_flags := ChannelFlagNone; b_unit := "";
     b_rawMin := 0; b_rawMax := 0; b_rawStep := 0; b_valueScale := 1;
     b_endpoint := ""; b_valueOn := ""; b_valueOff := ""; b_colorMode := "";
     b_scalePercent := false; b_isAvailability := false;
     b_enumRawToValue := ∅; b_enumValueToRaw := ∅ |}.

(** The two implicit channels that [buildDeviceEntry] appends. *)
Definition availabilityChannel : Channel :=
  mkChannel "Connectivity" "connectivity" KConnectivityStatus TEnum
            ChannelFlagDefaultRead "" 0 0 0 ∅ [].

Definition availabilityBinding : Z2mChannelBinding :=
  {| b_channelId := "connectivity"; b_property := "availability";
     b_kind := KConnectivityStatus; b_dataType := TEnum;
     b_flags := ChannelFlagDefaultRead; b_unit := "";
     b_rawMin := 0; b_rawMax := 0; b_rawStep := 0; b_valueScale := 1;
     b_endpoint := ""; b_valueOn := ""; b_valueOff := ""; b_colorMode := "";
     b_scalePercent := false; b_isAvailability := true;
     b_enumRawToValue := ∅; b_enumValueToRaw := ∅ |}.

Definition updateChannel : Channel :=
  mkChannel "Firmware Update" "device_software_update" KDeviceSoftwareUpdate
            TEnum ChannelFlagDefaultRead "" 0 0 0 ∅ [].

Definition updateBinding : Z2mChannelBinding :=
  {| b_channelId := "device_software_update"; b_property := "update";
     b_kind := KDeviceSoftwareUpdate; b_dataType := TEnum;
     b_flags := ChannelFlagDefaultRead; b_unit := "";
     b_rawMin := 0; b_rawMax := 0; b_rawStep := 0; b_valueScale := 1;
     b_endpoint := ""; b_valueOn := ""; b_valueOff := ""; b_colorMode := "";
     b_scalePercent := false; b_isAvailability := false;
     b_enumRawToValue := ∅; b_enumValueToRaw := ∅ |}.

Definition insertIf (c : bool) (key : string) (v : QJsonValue) (o : QJsonObject)
    : QJsonObject :=
  if c then <[key := v]> o else o.

(** The device metadata that [buildDeviceEntry] copies from the
    bridge/devices entry. *)
Definition deviceMetaOf (obj : QJsonObject) : QJsonObject :=
  let mqttId := trimmed (Json.toString (Json.value obj "friendly_name") "") in
  let powerSource := Json.toString (Json.value obj "power_source") "" in
  let def := Json.toObject (Json.value obj "definition") in
  let hasDef := negb (bool_decide (size def = 0%nat)) in
  let model := trimmed (Json.toString (Json.value def "model") "") in
  let ieeeAddress := trimmed (Json.toString (Json.value obj "ieee_address") "") in
  let deviceType := Json.toString (Json.value obj "type") "" in
  let modelId := Json.toString (Json.value obj "model_id") "" in
  let manufacturer := Json.toString (Json.value obj "manufacturer") "" in
  let softwareBuild := Json.toString (Json.value obj "software_build_id") "" in
  let dateCode := Json.toString (Json.value obj "date_code") "" in
  let availabilityValue := Json.value obj "availability" in
  let availabilityState := trimmed (Json.toString availabilityValue "") in
  let availabilityState :=
    if isEmpty availabilityState && Json.isObject availabilityValue
    then trimmed (Json.toString
                    (Json.value (Json.toObject availabilityValue) "state") "")
    else availabilityState in
  let meta : QJsonObject := ∅ in
  let meta :=
    insertIf hasDef "description"
      (JString (Json.toString (Json.value def "description") "")) meta in
  let meta :=
    insertIf (hasDef && negb (isEmpty model)) "iconUrl"
      (JString ("https://www.zigbee2mqtt.io/images/devices/" +:+ model +:+ ".png"))
      meta in
  let meta := <["friendly_name" := JString mqttId]> meta in
  let meta :=
    insertIf (negb (isEmpty ieeeAddress)) "ieee_address" (JString ieeeAddress) meta in
  let meta := <["type" := JString deviceType]> meta in
  let meta := insertIf (negb (isEmpty modelId)) "model_id" (JString modelId) meta in
  let meta :=
    insertIf (negb (isEmpty powerSource)) "power_source" (JString powerSource) meta in
  let meta :=
    insertIf (negb (isEmpty manufacturer)) "manufacturer" (JString manufacturer)
      meta in
  let meta :=
    insertIf (negb (isEmpty softwareBuild)) "software_build_id"
      (JString softwareBuild) meta in
  let meta := insertIf (negb (isEmpty dateCode)) "date_code" (JString dateCode) meta in
  let meta :=
    insertIf (equalsCI deviceType "Coordinator") "coordinator" (JBool true) meta in
  let meta :=
    insertIf (Json.contains obj "interview_completed") "interview_completed"
      (Json.value obj "interview_completed") meta in
  let meta :=
    insertIf (Json.contains obj "interviewing") "interviewing"
      (Json.value obj "interviewing") meta in
  let meta :=
    insertIf (Json.contains obj "supported") "supported"
      (Json.value obj "supported") meta in
  let meta :=
    insertIf (Json.contains obj "disabled") "disabled"
      (Json.value obj "disabled") meta in
  insertIf (negb (isEmpty availabilityState)) "availability"
    (JString availabilityState) meta.

(** [Z2mAdapter::buildDeviceEntry]. The class assigned for a
    coordinator is overwritten by [inferDeviceClass], as in the source. *)
Definition buildDeviceEntry (obj : QJsonObject) : Z2mDeviceEntry :=
  let mqttId := trimmed (Json.toString (Json.value obj "friendly_name") "") in
  let powerSource := Json.toString (Json.value obj "power_source") "" in
  let flags :=
    if equalsCI powerSource "Battery"
    then Z.lor DeviceFlagWireless DeviceFlagBattery else DeviceFlagWireless in
  let def := Json.toObject (Json.value obj "definition") in
  let hasDef := negb (bool_decide (size def = 0%nat)) in
  let ieeeAddress := trimmed (Json.toString (Json.value obj "ieee_address") "") in
  let exposes :=
    if Json.contains def "exposes"
    then collectExposeEntries (Json.value def "exposes") [] else [] in
  let device :=
    {| dev_name := mqttId;
       dev_deviceClass := inferDeviceClass exposes;
       dev_flags := flags;
       dev_id := if negb (isEmpty ieeeAddress) then ieeeAddress else mqttId;
       dev_manufacturer :=
         if hasDef then Json.toString (Json.value def "vendor") "" else "";
       dev_firmware := "";
       dev_model :=
         if hasDef then Json.toString (Json.value def "model") "" else "";
       dev_meta := deviceMetaOf obj |} in
  let entry := mkEntry device mqttId [] ∅ ∅ in
  let entry := foldl (fun e expose => addChannelFromExpose expose e) entry exposes in
  {| e_device := e_device entry;
     e_mqttId := e_mqttId entry;
     e_channels := e_channels entry ++ [availabilityChannel; updateChannel];
     e_bindingsByChannel :=
       <["device_software_update" := updateBinding]>
         (<["connectivity" := availabilityBinding]> (e_bindingsByChannel entry));
     e_channelByProperty :=
       <["availability" :=
           "connectivity" :: default [] (e_channelByProperty entry !! "availability")]>
         (e_channelByProperty entry) |}.

End Compile.

End Expose.

(** ** The adapter object *)

(** [MqttClient::State]. *)
Inductive MqttState : Type := Disconnected | Connecting | Connected.

#[global] Instance MqttState_eq_dec : EqDecision MqttState.
Proof. solve_decision. Defined.

(** What the adapter reads and sets on its [MqttClient]. *)
Record MqttClient : Type := mkClient {
  cl_state : MqttState;
  cl_clientId : string;
  cl_hostname : string;
  cl_port : Z;
  cl_username : string;
  cl_password : string
}.

(** The fields of [phicore::Adapter] that the adapter reads. *)
Record AdapterInfo : Type := mkInfo {
  info_id : string;
  info_ip : string;
  info_port : Z;
  info_user : string;
  info_pw : string;
  info_meta : QJsonObject
}.

(** [Z2mAdapter::PendingRename]. *)
Record PendingRename : Type := mkPendingRename {
  pr_cmdId : Z;
  pr_targetName : string;
  pr_requestedAtMs : Z
}.

(** The reconnect [QTimer]: its interval and whether it is running. *)
Record ReconnectTimer : Type := mkReconnectTimer {
  rt_interval : Z;
  rt_active : bool
}.

(** The member variables of [Z2mAdapter], with the configuration
    record of the base class ([m_info]) and a count of the publishes
    issued so far, which indexes the publish oracle. A post-set refresh
    timer is mapped to [true] while it is running. *)
Record Z2mAdapter : Type := mkAdapter {
  m_info : AdapterInfo;
  m_client : option MqttClient;
  m_reconnectTimer : option ReconnectTimer;
  m_connected : bool;
  m_mqttConnected : bool;
  m_bridgeOnline : bool;
  m_lastSeenRequested : bool;
  m_pendingFullSync : bool;
  m_retryIntervalMs : Z;
  m_baseTopic : string;
  m_devices : gmap string Z2mDeviceEntry;
  m_mqttByExternal : gmap string string;
  m_pendingRename : gmap string PendingRename;
  m_pendingStatePayloads : gmap string QJsonObject;
  m_postSetRefreshTimers : gmap string bool;
  m_coordinatorId : string;
  m_pendingBridgeInfo : QJsonObject;
  m_publishCount : nat
}.

(** The state of a freshly constructed adapter (the default member
    initialisers of [z2madapter.h]). *)
Definition initialAdapter (info : AdapterInfo) : Z2mAdapter :=
  {| m_info := info;
     m_client := None;
     m_reconnectTimer := None;
     m_connected := false;
     m_mqttConnected := false;
     m_bridgeOnline := true;
     m_lastSeenRequested := false;
     m_pendingFullSync := false;
     m_retryIntervalMs := 10000;
     m_baseTopic := "zigbee2mqtt";
     m_devices := ∅;
     m_mqttByExternal := ∅;
     m_pendingRename := ∅;
     m_pendingStatePayloads := ∅;
     m_postSetRefreshTimers := ∅;
     m_coordinatorId := "";
     m_pendingBridgeInfo := ∅;
     m_publishCount := 0%nat |}.

(** Field updates. *)
Definition set_client (v : option MqttClient) (s : Z2mAdapter) : Z2mAdapter :=
  {| m_info := m_info s;
     m_client := v;
     m_reconnectTimer := m_reconnectTimer s;
     m_connected := m_connected s;
     m_mqttConnected := m_mqttConnected s;
     m_bridgeOnline := m_bridgeOnline s;
     m_lastSeenRequested := m_lastSeenRequested s;
     m_pendingFullSync := m_pendingFullSync s;
     m_retryIntervalMs := m_retryIntervalMs s;
     m_baseTopic := m_baseTopic s;
     m_devices := m_devices s;
     m_mqttByExternal := m_mqttByExternal s;
     m_pendingRename := m_pendingRename s;
     m_pendingStatePayloads := m_pendingStatePayloads s;
     m_postSetRefreshTimers := m_postSetRefreshTimers s;
     m_coordinatorId := m_coordinatorId s;
     m_pendingBridgeInfo := m_pendingBridgeInfo s;
     m_publishCount := m_publishCount s |}.

Definition set_reconnectTimer (v : option ReconnectTimer) (s : Z2mAdapter) : Z2mAdapter :=
  {| m_info := m_info s;
     m_client := m_client s;
     m_reconnectTimer := v;
     m_connected := m_connected s;
     m_mqttConnected := m_mqttConnected s;
     m_bridgeOnline := m_bridgeOnline s;
     m_lastSeenRequested := m_lastSeenRequested s;
     m_pendingFullSync := m_pendingFullSync s;
     m_retryIntervalMs := m_retryIntervalMs s;
     m_baseTopic := m_baseTopic s;
     m_devices := m_devices s;
     m_mqttByExternal := m_mqttByExternal s;
     m_pendingRename := m_pendingRename s;
     m_pendingStatePayloads := m_pendingStatePayloads s;
     m_postSetRefreshTimers := m_postSetRefreshTimers s;
     m_coordinatorId := m_coordinatorId s;
     m_pendingBridgeInfo := m_pendingBridgeInfo s;
     m_publishCount := m_publishCount s |}.

Definition set_connected (v : bool) (s : Z2mAdapter) : Z2mAdapter :=
  {| m_info := m_info s;
     m_client := m_client s;
     m_reconnectTimer := m_reconnectTimer s;
     m_connected := v;
     m_mqttConnected := m_mqttConnected s;
     m_bridgeOnline := m_bridgeOnline s;
     m_lastSeenRequested := m_lastSeenRequested s;
     m_pendingFullSync := m_pendingFullSync s;
     m_retryIntervalMs := m_retryIntervalMs s;
     m_baseTopic := m_baseTopic s;
     m_devices := m_devices s;
     m_mqttByExternal := m_mqttByExternal s;
     m_pendingRename := m_pendingRename s;
     m_pendingStatePayloads := m_pendingStatePayloads s;
     m_postSetRefreshTimers := m_postSetRefreshTimers s;
     m_coordinatorId := m_coordinatorId s;
     m_pendingBridgeInfo := m_pendingBridgeInfo s;
     m_publishCount := m_publishCount s |}.

Definition set_mqttConnected (v : bool) (s : Z2mAdapter) : Z2mAdapter :=
  {| m_info := m_info s;
     m_client := m_client s;
     m_reconnectTimer := m_reconnectTimer s;
     m_connected := m_connected s;
     m_mqttConnected := v;
     m_bridgeOnline := m_bridgeOnline s;
     m_lastSeenRequested := m_lastSeenRequested s;
     m_pendingFullSync := m_pendingFullSync s;
     m_retryIntervalMs := m_retryIntervalMs s;
     m_baseTopic := m_baseTopic s;
     m_devices := m_devices s;
     m_mqttByExternal := m_mqttByExternal s;
     m_pendingRename := m_pendingRename s;
     m_pendingStatePayloads := m_pendingStatePayloads s;
     m_postSetRefreshTimers := m_postSetRefreshTimers s;
     m_coordinatorId := m_coordinatorId s;
     m_pendingBridgeInfo := m_pendingBridgeInfo s;
     m_publishCount := m_publishCount s |}.

Definition set_bridgeOnline (v : bool) (s : Z2mAdapter) : Z2mAdapter :=
  {| m_info := m_info s;
     m_client := m_client s;
     m_reconnectTimer := m_reconnectTimer s;
     m_connected := m_connected s;
     m_mqttConnected := m_mqttConnected s;
     m_bridgeOnline := v;
     m_lastSeenRequested := m_lastSeenRequested s;
     m_pendingFullSync := m_pendingFullSync s;
     m_retryIntervalMs := m_retryIntervalMs s;
     m_baseTopic := m_baseTopic s;
     m_devices := m_devices s;
     m_mqttByExternal := m_mqttByExternal s;
     m_pendingRename := m_pendingRename s;
     m_pendingStatePayloads := m_pendingStatePayloads s;
     m_postSetRefreshTimers := m_postSetRefreshTimers s;
     m_coordinatorId := m_coordinatorId s;
     m_pendingBridgeInfo := m_pendingBridgeInfo s;
     m_publishCount := m_publishCount s |}.

Definition set_lastSeenRequested (v : bool) (s : Z2mAdapter) : Z2mAdapter :=
  {| m_info := m_info s;
     m_client := m_client s;
     m_reconnectTimer := m_reconnectTimer s;
     m_connected := m_connected s;
     m_mqttConnected := m_mqttConnected s;
     m_bridgeOnline := m_bridgeOnline s;
     m_lastSeenRequested := v;
     m_pendingFullSync := m_pendingFullSync s;
     m_retryIntervalMs := m_retryIntervalMs s;
     m_baseTopic := m_baseTopic s;
     m_devices := m_devices s;
     m_mqttByExternal := m_mqttByExternal s;
     m_pendingRename := m_pendingRename s;
     m_pendingStatePayloads := m_pendingStatePayloads s;
     m_postSetRefreshTimers := m_postSetRefreshTimers s;
     m_coordinatorId := m_coordinatorId s;
     m_pendingBridgeInfo := m_pendingBridgeInfo s;
     m_publishCount := m_publishCount s |}.

Definition set_pendingFullSync (v : bool) (s : Z2mAdapter) : Z2mAdapter :=
  {| m_info := m_info s;
     m_client := m_client s;
     m_reconnectTimer := m_reconnectTimer s;
     m_connected := m_connected s;
     m_mqttConnected := m_mqttConnected s;
     m_bridgeOnline := m_bridgeOnline s;
     m_lastSeenRequested := m_lastSeenRequested s;
     m_pendingFullSync := v;
     m_retryIntervalMs := m_retryIntervalMs s;
     m_baseTopic := m_baseTopic s;
     m_devices := m_devices s;
     m_mqttByExternal := m_mqttByExternal s;
     m_pendingRename := m_pendingRename s;
     m_pendingStatePayloads := m_pendingStatePayloads s;
     m_postSetRefreshTimers := m_postSetRefreshTimers s;
     m_coordinatorId := m_coordinatorId s;
     m_pendingBridgeInfo := m_pendingBridgeInfo s;
     m_publishCount := m_publishCount s |}.

Definition set_retryIntervalMs (v : Z) (s : Z2mAdapter) : Z2mAdapter :=
  {| m_info := m_info s;
     m_client := m_client s;
     m_reconnectTimer := m_reconnectTimer s;
     m_connected := m_connected s;
     m_mqttConnected := m_mqttConnected s;
     m_bridgeOnline := m_bridgeOnline s;
     m_lastSeenRequested := m_lastSeenRequested s;
     m_pendingFullSync := m_pendingFullSync s;
     m_retryIntervalMs := v;
     m_baseTopic := m_baseTopic s;
     m_devices := m_devices s;
     m_mqttByExternal := m_mqttByExternal s;
     m_pendingRename := m_pendingRename s;
     m_pendingStatePayloads := m_pendingStatePayloads s;
     m_postSetRefreshTimers := m_postSetRefreshTimers s;
     m_coordinatorId := m_coordinatorId s;
     m_pendingBridgeInfo := m_pendingBridgeInfo s;
     m_publishCount := m_publishCount s |}.

Definition set_baseTopic (v : string) (s : Z2mAdapter) : Z2mAdapter :=
  {| m_info := m_info s;
     m_client := m_client s;
     m_reconnectTimer := m_reconnectTimer s;
     m_connected := m_connected s;
     m_mqttConnected := m_mqttConnected s;
     m_bridgeOnline := m_bridgeOnline s;
     m_lastSeenRequested := m_lastSeenRequested s;
     m_pendingFullSync := m_pendingFullSync s;
     m_retryIntervalMs := m_retryIntervalMs s;
     m_baseTopic := v;
     m_devices := m_devices s;
     m_mqttByExternal := m_mqttByExternal s;
     m_pendingRename := m_pendingRename s;
     m_pendingStatePayloads := m_pendingStatePayloads s;
     m_postSetRefreshTimers := m_postSetRefreshTimers s;
     m_coordinatorId := m_coordinatorId s;
     m_pendingBridgeInfo := m_pendingBridgeInfo s;
     m_publishCount := m_publishCount s |}.

Definition set_devices (v : gmap string Z2mDeviceEntry) (s : Z2mAdapter) : Z2mAdapter :=
  {| m_info := m_info s;
     m_client := m_client s;
     m_reconnectTimer := m_reconnectTimer s;
     m_connected := m_connected s;
     m_mqttConnected := m_mqttConnected s;
     m_bridgeOnline := m_bridgeOnline s;
     m_lastSeenRequested := m_lastSeenRequested s;
     m_pendingFullSync := m_pendingFullSync s;
     m_retryIntervalMs := m_retryIntervalMs s;
     m_baseTopic := m_baseTopic s;
     m_devices := v;
     m_mqttByExternal := m_mqttByExternal s;
     m_pendingRename := m_pendingRename s;
     m_pendingStatePayloads := m_pendingStatePayloads s;
     m_postSetRefreshTimers := m_postSetRefreshTimers s;
     m_coordinatorId := m_coordinatorId s;
     m_pendingBridgeInfo := m_pendingBridgeInfo s;
     m_publishCount := m_publishCount s |}.

Definition set_mqttByExternal (v : gmap string string) (s : Z2mAdapter) : Z2mAdapter :=
  {| m_info := m_info s;
     m_client := m_client s;
     m_reconnectTimer := m_reconnectTimer s;
     m_connected := m_connected s;
     m_mqttConnected := m_mqttConnected s;
     m_bridgeOnline := m_bridgeOnline s;
     m_lastSeenRequested := m_lastSeenRequested s;
     m_pendingFullSync := m_pendingFullSync s;
     m_retryIntervalMs := m_retryIntervalMs s;
     m_baseTopic := m_baseTopic s;
     m_devices := m_devices s;
     m_mqttByExternal := v;
     m_pendingRename := m_pendingRename s;
     m_pendingStatePayloads := m_pendingStatePayloads s;
     m_postSetRefreshTimers := m_postSetRefreshTimers s;
     m_coordinatorId := m_coordinatorId s;
     m_pendingBridgeInfo := m_pendingBridgeInfo s;
     m_publishCount := m_publishCount s |}.

Definition set_pendingRename (v : gmap string PendingRename) (s : Z2mAdapter) : Z2mAdapter :=
  {| m_info := m_info s;
     m_client := m_client s;
     m_reconnectTimer := m_reconnectTimer s;
     m_connected := m_connected s;
     m_mqttConnected := m_mqttConnected s;
     m_bridgeOnline := m_bridgeOnline s;
     m_lastSeenRequested := m_lastSeenRequested s;
     m_pendingFullSync := m_pendingFullSync s;
     m_retryIntervalMs := m_retryIntervalMs s;
     m_baseTopic := m_baseTopic s;
     m_devices := m_devices s;
     m_mqttByExternal := m_mqttByExternal s;
     m_pendingRename := v;
     m_pendingStatePayloads := m_pendingStatePayloads s;
     m_postSetRefreshTimers := m_postSetRefreshTimers s;
     m_coordinatorId := m_coordinatorId s;
     m_pendingBridgeInfo := m_pendingBridgeInfo s;
     m_publishCount := m_publishCount s |}.

Definition set_pendingStatePayloads (v : gmap string QJsonObject) (s : Z2mAdapter) : Z2mAdapter :=
  {| m_info := m_info s;
     m_client := m_client s;
     m_reconnectTimer := m_reconnectTimer s;
     m_connected := m_connected s;
     m_mqttConnected := m_mqttConnected s;
     m_bridgeOnline := m_bridgeOnline s;
     m_lastSeenRequested := m_lastSeenRequested s;
     m_pendingFullSync := m_pendingFullSync s;
     m_retryIntervalMs := m_retryIntervalMs s;
     m_baseTopic := m_baseTopic s;
     m_devices := m_devices s;
     m_mqttByExternal := m_mqttByExternal s;
     m_pendingRename := m_pendingRename s;
     m_pendingStatePayloads := v;
     m_postSetRefreshTimers := m_postSetRefreshTimers s;
     m_coordinatorId := m_coordinatorId s;
     m_pendingBridgeInfo := m_pendingBridgeInfo s;
     m_publishCount := m_publishCount s |}.

Definition set_postSetRefreshTimers (v : gmap string bool) (s : Z2mAdapter) : Z2mAdapter :=
  {| m_info := m_info s;
     m_client := m_client s;
     m_reconnectTimer := m_reconnectTimer s;
     m_connected := m_connected s;
     m_mqttConnected := m_mqttConnected s;
     m_bridgeOnline := m_bridgeOnline s;
     m_lastSeenRequested := m_lastSeenRequested s;
     m_pendingFullSync := m_pendingFullSync s;
     m_retryIntervalMs := m_retryIntervalMs s;
     m_baseTopic := m_baseTopic s;
     m_devices := m_devices s;
     m_mqttByExternal := m_mqttByExternal s;
     m_pendingRename := m_pendingRename s;
     m_pendingStatePayloads := m_pendingStatePayloads s;
     m_postSetRefreshTimers := v;
     m_coordinatorId := m_coordinatorId s;
     m_pendingBridgeInfo := m_pendingBridgeInfo s;
     m_publishCount := m_publishCount s |}.

Definition set_coordinatorId (v : string) (s : Z2mAdapter) : Z2mAdapter :=
  {| m_info := m_info s;
     m_client := m_client s;
     m_reconnectTimer := m_reconnectTimer s;
     m_connected := m_connected s;
     m_mqttConnected := m_mqttConnected s;
     m_bridgeOnline := m_bridgeOnline s;
     m_lastSeenRequested := m_lastSeenRequested s;
     m_pendingFullSync := m_pendingFullSync s;
     m_retryIntervalMs := m_retryIntervalMs s;
     m_baseTopic := m_baseTopic s;
     m_devices := m_devices s;
     m_mqttByExternal := m_mqttByExternal s;
     m_pendingRename := m_pendingRename s;
     m_pendingStatePayloads := m_pendingStatePayloads s;
     m_postSetRefreshTimers := m_postSetRefreshTimers s;
     m_coordinatorId := v;
     m_pendingBridgeInfo := m_pendingBridgeInfo s;
     m_publishCount := m_publishCount s |}.

Definition set_pendingBridgeInfo (v : QJsonObject) (s : Z2mAdapter) : Z2mAdapter :=
  {| m_info := m_info s;
     m_client := m_client s;
     m_reconnectTimer := m_reconnectTimer s;
     m_connected := m_connected s;
     m_mqttConnected := m_mqttConnected s;
     m_bridgeOnline := m_bridgeOnline s;
     m_lastSeenRequested := m_lastSeenRequested s;
     m_pendingFullSync := m_pendingFullSync s;
     m_retryIntervalMs := m_retryIntervalMs s;
     m_baseTopic := m_baseTopic s;
     m_devices := m_devices s;
     m_mqttByExternal := m_mqttByExternal s;
     m_pendingRename := m_pendingRename s;
     m_pendingStatePayloads := m_pendingStatePayloads s;
     m_postSetRefreshTimers := m_postSetRefreshTimers s;
     m_coordinatorId := m_coordinatorId s;
     m_pendingBridgeInfo := v;
     m_publishCount := m_publishCount s |}.

Definition set_publishCount (v : nat) (s : Z2mAdapter) : Z2mAdapter :=
  {| m_info := m_info s;
     m_client := m_client s;
     m_reconnectTimer := m_reconnectTimer s;
     m_connected := m_connected s;
     m_mqttConnected := m_mqttConnected s;
     m_bridgeOnline := m_bridgeOnline s;
     m_lastSeenRequested := m_lastSeenRequested s;
     m_pendingFullSync := m_pendingFullSync s;
     m_retryIntervalMs := m_retryIntervalMs s;
     m_baseTopic := m_baseTopic s;
     m_devices := m_devices s;
     m_mqttByExternal := m_mqttByExternal s;
     m_pendingRename := m_pendingRename s;
     m_pendingStatePayloads := m_pendingStatePayloads s;
     m_postSetRefreshTimers := m_postSetRefreshTimers s;
     m_coordinatorId := m_coordinatorId s;
     m_pendingBridgeInfo := m_pendingBridgeInfo s;
     m_publishCount := v |}.


(** ** Signals, requests to the MQTT client, deferred calls *)

(** The closures handed to [QTimer::singleShot]. *)
Inductive Task : Type :=
| TaskRenameTimeout (deviceId : string)
| TaskAvailabilityDefault (availability : string) (lastSeenMs : Z)
                          (externalId channelId : string).

(** What a call of the adapter does to its surroundings: the signals of
    [AdapterInterface] it emits, the requests it makes to the MQTT
    client, and the calls it defers. [StatePayloadApplied] is not a
    signal: it marks, for the analysis of the replay buffer, that
    [handleDeviceStatePayload] applied a payload to a known device. *)
Inductive Effect : Type :=
| ConnectionStateChanged (connected : bool)
| DeviceUpdated (device : Device) (channels : list Channel)
| DeviceRemoved (deviceId : string)
| ChannelStateUpdated (deviceId channelId : string) (value : QVariant) (ts : Z)
| CmdResult (response : CmdResponse)
| ActionResult (response : CmdResponse)
| AdapterMetaUpdated (metaPatch : QJsonObject)
| FullSyncCompleted
| Publish (topic : string) (payload : QJsonObject) (msgId : Z)
| Subscribe (topicFilter : string)
| ConnectToHost (hostname : string) (port : Z)
| DisconnectFromHost
| SingleShot (delayMs : Z) (task : Task)
| StatePayloadApplied (mqttId : string) (payload : QJsonObject) (tsMs : Z).

Definition isChannelStateUpdated (e : Effect) : bool :=
  match e with ChannelStateUpdated _ _ _ _ => true | _ => false end.

Definition isCmdResult (e : Effect) : bool :=
  match e with CmdResult _ => true | _ => false end.

Definition isPublish (e : Effect) : bool :=
  match e with Publish _ _ _ => true | _ => false end.

Definition isDeviceRemoved (e : Effect) : bool :=
  match e with DeviceRemoved _ => true | _ => false end.

(** Projections of a trace: the state payloads applied, the connection
    announcements, the command responses, the removed devices, the
    channel updates, the publishes and the device updates, in order. *)
Definition appliedPayloadOf (e : Effect) : option (string * QJsonObject * Z) :=
  match e with StatePayloadApplied i p t => Some (i, p, t) | _ => None end.

Definition connectionChangeOf (e : Effect) : option bool :=
  match e with ConnectionStateChanged c => Some c | _ => None end.

Definition cmdResultOf (e : Effect) : option CmdResponse :=
  match e with CmdResult r => Some r | _ => None end.

Definition removedDeviceOf (e : Effect) : option string :=
  match e with DeviceRemoved i => Some i | _ => None end.

Definition channelUpdateOf (e : Effect) : option (string * string * QVariant * Z) :=
  match e with
  | ChannelStateUpdated d c v t => Some (d, c, v, t)
  | _ => None
  end.

Definition publishOf (e : Effect) : option (string * QJsonObject) :=
  match e with Publish t p _ => Some (t, p) | _ => None end.

Definition deviceUpdateOf (e : Effect) : option (Device * list Channel) :=
  match e with DeviceUpdated d cs => Some (d, cs) | _ => None end.

Definition appliedPayloads (es : list Effect) : list (string * QJsonObject * Z) :=
  omap appliedPayloadOf es.

Definition connectionChanges (es : list Effect) : list bool :=
  omap connectionChangeOf es.

Definition cmdResults (es : list Effect) : list CmdResponse :=
  omap cmdResultOf es.

Definition removedDevices (es : list Effect) : list string :=
  omap removedDeviceOf es.

Definition channelUpdates (es : list Effect)
    : list (string * string * QVariant * Z) :=
  omap channelUpdateOf es.

Definition publishes (es : list Effect) : list (string * QJsonObject) :=
  omap publishOf es.

Definition deviceUpdates (es : list Effect) : list (Device * list Channel) :=
  omap deviceUpdateOf es.

(** A member function of the adapter: it maps the object to its next
    state and yields what it emitted. *)
Definition Action : Type := Z2mAdapter -> Z2mAdapter * list Effect.

Definition skip : Action := fun s => (s, []).
Definition emit (e : Effect) : Action := fun s => (s, [e]).
Definition modify (f : Z2mAdapter -> Z2mAdapter) : Action := fun s => (f s, []).
Definition andThen (a b : Action) : Action :=
  fun s => let '(s1, e1) := a s in let '(s2, e2) := b s1 in (s2, e1 ++ e2).

Notation "a >> b" := (andThen a b) (at level 62, right associativity).

Fixpoint forEach {A : Type} (l : list A) (body : A -> Action) : Action :=
  match l with
  | [] => skip
  | x :: l' => body x >> forEach l' body
  end.

(** ** Conversions of [QVariant] *)

Module Variant.

Import QtString.

Section Conversions.

Variable P : Platform.

Definition isNumericType (v : QVariant) : bool :=
  match v with VInt _ | VLongLong _ | VDouble _ => true | _ => false end.

Definition toBool (v : QVariant) : bool :=
  match v with
  | VBool b => b
  | VInt z | VLongLong z => negb (z =? 0)
  | VDouble d => negb (Qeq_bool d 0)
  | VString s =>
      negb (isEmpty s || String.eqb s "0" || String.eqb (toLower s) "false")
  | _ => false
  end.

Definition toDouble (v : QVariant) : Q :=
  match v with
  | VBool b => if b then 1 else 0
  | VInt z | VLongLong z => inject_Z z
  | VDouble d => d
  | VString s => default (0 : Q) (qstringToDouble P s)
  | _ => 0
  end.

Definition toInt (v : QVariant) : Z :=
  match v with
  | VBool b => if b then 1 else 0
  | VInt z => z
  | VLongLong z => wrap32 z
  | VDouble d => doubleToInt P d
  | VString s => default 0 (QtString.toInt s)
  | _ => 0
  end.

Definition toString (v : QVariant) : string :=
  match v with
  | VBool b => if b then "true" else "false"
  | VInt z | VLongLong z => number z
  | VDouble d => doubleToString P d
  | VString s => s
  | _ => ""
  end.

Definition canConvertColor (v : QVariant) : bool :=
  match v with VColor _ => true | _ => false end.

Definition toColor (v : QVariant) : Color :=
  match v with VColor c => c | _ => mkColor 0 0 0 end.

End Conversions.

End Variant.

(** ** The adapter: connection handling and commands (components F, G, H) *)

Module Adapter.

Import QtString.

Section WithPlatform.

Variable P : Platform.

Definition kDefaultPort : Z := 1883.

(** [m_client && m_client->state() == MqttClient::State::Connected]. *)
Definition clientConnected (s : Z2mAdapter) : bool :=
  match m_client s with
  | Some c => bool_decide (cl_state c = Connected)
  | None => false
  end.

(** [MqttClient::publish]: the message id comes from the platform. *)
Definition publish (topic : string) (payload : QJsonObject) (s : Z2mAdapter)
    : Z * Z2mAdapter * list Effect :=
  let msgId := publishResult P (m_publishCount s) topic payload in
  (msgId, set_publishCount (S (m_publishCount s)) s, [Publish topic payload msgId]).

Definition publish_ (topic : string) (payload : QJsonObject) : Action :=
  fun s => let '(_, s1, e1) := publish topic payload s in (s1, e1).

(** [Z2mAdapter::stopReconnectTimer]. *)
Definition stopReconnectTimer : Action :=
  modify (fun s =>
    match m_reconnectTimer s with
    | Some t => set_reconnectTimer (Some (mkReconnectTimer (rt_interval t) false)) s
    | None => s
    end).

(** [Z2mAdapter::setConnected]. *)
Definition setConnected (connected : bool) : Action :=
  fun s =>
    if Bool.eqb (m_connected s) connected then (s, [])
    else
      (modify (set_connected connected)
       >> (if connected then stopReconnectTimer else skip)
       >> emit (ConnectionStateChanged connected)) s.

(** [Z2mAdapter::updateConnectionState]. *)
Definition updateConnectionState : Action :=
  fun s => setConnected (m_mqttConnected s && m_bridgeOnline s) s.

Definition portOf (info : AdapterInfo) : Z :=
  if 0 <? info_port info then info_port info else kDefaultPort.

(** [Z2mAdapter::applyConfig]. *)
Definition applyConfig : Action :=
  modify (fun s =>
    let meta := info_meta (m_info s) in
    let retry := Json.toInt (Json.value meta "retryIntervalMs") 10000 in
    let s := set_retryIntervalMs (if 1000 <=? retry then retry else 10000) s in
    let baseTopic := trimmed (Json.toString (Json.value meta "baseTopic") "") in
    let baseTopic := if negb (isEmpty baseTopic) then baseTopic else "zigbee2mqtt" in
    let baseTopic := if endsWith baseTopic "/" then chop1 baseTopic else baseTopic in
    let s := set_baseTopic baseTopic s in
    match m_client s with
    | None => s
    | Some c =>
        let ip := trimmed (info_ip (m_info s)) in
        set_client
          (Some {| cl_state := cl_state c;
                   cl_clientId := cl_clientId c;
                   cl_hostname := if negb (isEmpty ip) then ip else cl_hostname c;
                   cl_port := portOf (m_info s);
                   cl_username := trimmed (info_user (m_info s));
                   cl_password := info_pw (m_info s) |}) s
    end).

(** [Z2mAdapter::connectToBroker]. *)
Definition connectToBroker : Action :=
  fun s =>
    match m_client s with
    | None => (s, [])
    | Some c =>
        if bool_decide (cl_state c = Connected)
           || bool_decide (cl_state c = Connecting) then (s, [])
        else
          let ip := trimmed (info_ip (m_info s)) in
          if isEmpty ip then (s, [])
          else
            (set_client
               (Some {| cl_state := cl_state c;
                        cl_clientId := cl_clientId c;
                        cl_hostname := ip;
                        cl_port := portOf (m_info s);
                        cl_username := cl_username c;
                        cl_password := cl_password c |}) s,
             [ConnectToHost ip (portOf (m_info s))])
    end.

(** [Z2mAdapter::disconnectFromBroker]. *)
Definition disconnectFromBroker : Action :=
  fun s =>
    match m_client s with
    | None => (s, [])
    | Some c =>
        if bool_decide (cl_state c = Connected)
           || bool_decide (cl_state c = Connecting)
        then (s, [DisconnectFromHost]) else (s, [])
    end.

(** [Z2mAdapter::scheduleReconnect]. *)
Definition scheduleReconnect : Action :=
  modify (fun s =>
    if m_retryIntervalMs s <=? 0 then s
    else
      set_reconnectTimer
        (Some (mkReconnectTimer (m_retryIntervalMs s) true)) s).

(** [Z2mAdapter::ensureSubscriptions]. *)
Definition ensureSubscriptions : Action :=
  fun s =>
    if negb (clientConnected s) then (s, [])
    else (s, [Subscribe (m_baseTopic s +:+ "/#")]).

(** [Z2mAdapter::start]; the signal connections made on the new client
    are the inputs [MqttConnected], [MqttDisconnected] and
    [MqttMessage] of the step function below. *)
Definition start : Action :=
  modify (set_pendingFullSync false)
  >> applyConfig
  >> modify (fun s =>
       match m_client s with
       | Some _ => s
       | None =>
           set_client
             (Some {| cl_state := Disconnected;
                      cl_clientId := "phi-core-z2m-" +:+ info_id (m_info s);
                      cl_hostname := "";
                      cl_port := 1883;
                      cl_username := "";
                      cl_password := "" |}) s
       end)
  >> connectToBroker.

(** [Z2mAdapter::stop]. *)
Definition stop : Action :=
  stopReconnectTimer
  >> disconnectFromBroker
  >> modify (set_postSetRefreshTimers ∅)
  >> modify (set_client None)
  >> modify (set_mqttConnected false)
  >> updateConnectionState.

(** [Z2mAdapter::adapterConfigUpdated]. *)
Definition adapterConfigUpdated : Action :=
  disconnectFromBroker >> applyConfig >> connectToBroker.

(** [Z2mAdapter::requestFullSync]. *)
Definition requestFullSync : Action :=
  modify (set_pendingFullSync true)
  >> (fun s =>
        if clientConnected s
        then publish_ (m_baseTopic s +:+ "/bridge/request/devices") ∅ s
        else (s, []))
  >> (fun s =>
        forEach (map_to_list (m_devices s))
                (fun kv => emit (DeviceUpdated (e_device kv.2) (e_channels kv.2))) s).

(** The enum encoding shared by the two enum branches of
    [buildCommandPayload]. *)
Definition encodeEnumValue (binding : Z2mChannelBinding) (value : QVariant)
    : QJsonValue :=
  let byNumber (n : Z) :=
    match b_enumValueToRaw binding !! n with
    | Some raw => JString raw
    | None => Json.ofInt n
    end in
  if Variant.isNumericType value then byNumber (Variant.toInt P value)
  else
    let text := Variant.toString P value in
    if bool_decide (is_Some (b_enumRawToValue binding !! text)) then JString text
    else
      match QtString.toInt text with
      | Some numeric => byNumber numeric
      | None => JString text
      end.

Definition unscale (binding : Z2mChannelBinding) (value : QVariant) : Q :=
  (Variant.toDouble P value
   / (if Expose.Qltb 0 (b_valueScale binding) then b_valueScale binding else 1))%Q.

(** [Z2mAdapter::buildCommandPayload]: the payload, or the error string
    when the source returns [false]. *)
Definition buildCommandPayload (deviceId : string) (binding : Z2mChannelBinding)
    (value : QVariant) : QJsonObject + string :=
  let put (v : QJsonValue) : QJsonObject + string :=
    inl (<[b_property binding := v]> (∅ : QJsonObject)) in
  if bool_decide (b_dataType binding = TEnum) then put (encodeEnumValue binding value)
  else
    match b_kind binding with
    | KPowerOnOff =>
        let on := Variant.toBool value in
        if negb (isEmpty (b_valueOn binding)) || negb (isEmpty (b_valueOff binding))
        then put (JString (if on then b_valueOn binding else b_valueOff binding))
        else put (JString (if on then "ON" else "OFF"))
    | KBrightness =>
        let percent := Double.ofQ (Variant.toDouble P value) in
        let raw := Codec.scaleFromPercent percent (Double.ofQ (b_rawMin binding))
                     (Double.ofQ (b_rawMax binding)) in
        put (JDouble (Double.toQ raw))
    | KColorTemperature => put (JDouble (Variant.toDouble P value))
    | KColorRGB =>
        if negb (Variant.canConvertColor value) then inr "Invalid color value."
        else
          let color := Variant.toColor value in
          if String.eqb (b_colorMode binding) "xy" then
            let '(x, y) := colorToXy P color in
            put (JObject (<["y" := JDouble y]> (<["x" := JDouble x]> ∅)))
          else
            let hsv := colorToHsv P color in
            put (JObject (<["saturation" := JDouble (hsv_s hsv * 100)%Q]>
                            (<["hue" := JDouble (hDeg hsv)]> ∅)))
    | KTemperature | KHumidity | KIlluminance | KCO2 | KPower | KVoltage
    | KCurrent | KEnergy | KSignalStrength | KLinkQuality | KBattery
    | KDuration => put (JDouble (unscale binding value))
    | KUnknown =>
        if bool_decide (b_dataType binding = TBool)
        then put (JBool (Variant.toBool value))
        else if bool_decide (b_dataType binding = TEnum)
        then put (encodeEnumValue binding value)
        else put (JDouble (unscale binding value))
    | _ => inr "Unsupported channel"
    end.

(** [Z2mAdapter::publishCommand]: [None] on success, the error string
    otherwise. *)
Definition publishCommand (deviceId : string) (payload : QJsonObject)
    (endpoint : string) (s : Z2mAdapter)
    : option string * Z2mAdapter * list Effect :=
  if negb (clientConnected s) then (Some "MQTT client not connected.", s, [])
  else
    let topic :=
      if isEmpty endpoint then m_baseTopic s +:+ "/" +:+ deviceId +:+ "/set"
      else m_baseTopic s +:+ "/" +:+ deviceId +:+ "/" +:+ endpoint +:+ "/set" in
    let '(msgId, s1, e1) := publish topic payload s in
    if msgId <? 0 then (Some "MQTT publish failed.", s1, e1)
    else (None, s1, e1).

Definition respond (cmdId : Z) (status : CmdStatus) (error : string) (now : Z)
    : Action :=
  emit (CmdResult (mkCmdResponse cmdId status error now)).

(** [Z2mAdapter::updateChannelState]; [now] is the reading of the clock. *)
Definition updateChannelState (deviceExternalId channelExternalId : string)
    (value : QVariant) (cmdId now : Z) : Action :=
  fun s =>
    let mqttId :=
      default deviceExternalId (m_mqttByExternal s !! deviceExternalId) in
    match m_devices s !! mqttId with
    | None => respond cmdId NotSupported "Unknown device" now s
    | Some entry =>
        match e_bindingsByChannel entry !! channelExternalId with
        | None => respond cmdId NotSupported "Unknown channel" now s
        | Some binding =>
            if negb (testFlag (b_flags binding) ChannelFlagWritable)
            then respond cmdId NotSupported "Channel is read-only" now s
            else if negb (m_connected s) || negb (clientConnected s)
            then respond cmdId TemporarilyOffline "MQTT broker not connected" now s
            else
              match buildCommandPayload deviceExternalId binding value with
              | inr errorString => respond cmdId InvalidArgument errorString now s
              | inl payload =>
                  let '(err, s1, e1) :=
                    publishCommand mqttId payload (b_endpoint binding) s in
                  match err with
                  | Some errorString =>
                      let '(s2, e2) := respond cmdId Failure errorString now s1 in
                      (s2, e1 ++ e2)
                  | None =>
                      let s2 :=
                        set_postSetRefreshTimers
                          (<[mqttId := true]> (m_postSetRefreshTimers s1)) s1 in
                      let '(s3, e3) := respond cmdId Success "" now s2 in
                      (s3, e1 ++ e3)
                  end
              end
        end
    end.

(** The lambda armed by [updateChannelState] on the post-set refresh
    timer of [mqttId]. *)
Definition postSetRefresh (mqttId : string) : Action :=
  fun s =>
    if negb (clientConnected s) then (s, [])
    else publish_ (m_baseTopic s +:+ "/" +:+ mqttId +:+ "/get") ∅ s.

(** [Z2mAdapter::updateDeviceName]. *)
Definition updateDeviceName (deviceId name : string) (cmdId now : Z) : Action :=
  fun s =>
    let trimmedName := trimmed name in
    if isEmpty trimmedName
    then respond cmdId InvalidArgument "Name must not be empty" now s
    else
      let mqttId := default deviceId (m_mqttByExternal s !! deviceId) in
      if isEmpty mqttId then respond cmdId NotSupported "Unknown device" now s
      else if bool_decide (is_Some (m_pendingRename s !! deviceId))
      then respond cmdId TemporarilyOffline "Rename already pending" now s
      else if negb (m_connected s) || negb (clientConnected s)
      then respond cmdId TemporarilyOffline "MQTT broker not connected" now s
      else
        let payload : QJsonObject :=
          <["to" := JString trimmedName]> (<["from" := JString mqttId]> ∅) in
        let '(msgId, s1, e1) :=
          publish (m_baseTopic s +:+ "/bridge/request/device/rename") payload s in
        if msgId <? 0 then
          let '(s2, e2) := respond cmdId Failure "MQTT publish failed." now s1 in
          (s2, e1 ++ e2)
        else
          (set_pendingRename
             (<[deviceId := mkPendingRename cmdId trimmedName now]>
                (m_pendingRename s1)) s1,
           e1 ++ [SingleShot 10000 (TaskRenameTimeout deviceId)]).

(** The lambda scheduled by [updateDeviceName]. *)
Definition renameTimeout (deviceId : string) (now : Z) : Action :=
  fun s =>
    match m_pendingRename s !! deviceId with
    | None => (s, [])
    | Some pending =>
        (set_pendingRename (delete deviceId (m_pendingRename s)) s,
         [CmdResult (mkCmdResponse (pr_cmdId pending) Failure "Rename timeout" now)])
    end.

(** [Z2mAdapter::invokeAdapterAction], with the fallback of
    [AdapterInterface::invokeAdapterAction]. *)
Definition invokeAdapterAction (actionId : string) (params : QJsonObject)
    (cmdId now : Z) : Action :=
  fun s =>
    let result (status : CmdStatus) (error : string) :=
      ActionResult (mkCmdResponse cmdId status error now) in
    if negb (String.eqb actionId "permitJoin")
       && negb (String.eqb actionId "restartZ2M") then
      if String.eqb actionId "settings" then
        (s, AdapterMetaUpdated params
              :: (if cmdId =? 0 then [] else [result Success ""]))
      else
        (s, if cmdId =? 0 then []
            else [result NotImplemented "AdapterInterface action not supported"])
    else if negb (clientConnected s)
    then (s, [result Failure "MQTT client not connected."])
    else if negb (m_bridgeOnline s)
    then (s, [result Failure "Z2M bridge is offline."])
    else
      let '(topic, payload) :=
        if String.eqb actionId "restartZ2M"
        then (m_baseTopic s +:+ "/bridge/request/restart", (∅ : QJsonObject))
        else (m_baseTopic s +:+ "/bridge/request/permit_join",
              <["time" := Json.ofInt 120]> (<["value" := JBool true]> ∅)) in
      let '(msgId, s1, e1) := publish topic payload s in
      if msgId <? 0 then (s1, e1 ++ [result Failure "MQTT publish failed."])
      else (s1, e1 ++ [result Success ""]).

(** *** State ingest (component E) *)

Definition kStaleThresholdMs : Z := 5 * 60 * 1000.

(** [static_cast<qint64>] of a positive [double]. *)
Definition toQint64 (d : Q) : Z := Qfloor d.

(** The reading of a [last_seen] value in milliseconds, 0 when there is
    none (the lambda [lastSeenMsFromValue], and the same code inlined in
    [handleDeviceStatePayload]). *)
Definition lastSeenMsFromValue (val : QJsonValue) : Z :=
  match val with
  | JDouble raw =>
      if Expose.Qltb 1000000000000 raw then toQint64 raw
      else if Expose.Qltb 0 raw then toQint64 (raw * 1000)%Q
      else 0
  | JString str => default 0 (parseIsoDate P str)
  | _ => 0
  end.

(** [QString::number(d, 'f', 0)]: the nearest integer, ties to even. *)
Definition numberF0 (d : Q) : string :=
  let f := Qfloor d in
  let r := (d - inject_Z f)%Q in
  let z :=
    if Expose.Qltb r (1 # 2) then f
    else if Expose.Qltb (1 # 2) r then f + 1
    else if Z.even f then f else f + 1 in
  number z.

(** The first binding of an entry that is the availability binding. *)
Definition availabilityBindingOf (entry : Z2mDeviceEntry)
    : option Z2mChannelBinding :=
  List.find b_isAvailability (map_to_list (e_bindingsByChannel entry)).*2.

(** The value decoded for one binding, [VInvalid] when the payload does
    not decode (the [switch] of [handleDeviceStatePayload]). *)
Definition decodeEnumValue (binding : Z2mChannelBinding) (value : QJsonValue)
    : QVariant :=
  match value with
  | JString raw =>
      match b_enumRawToValue binding !! raw with
      | Some v => VInt v
      | None => VString raw
      end
  | JDouble _ => VInt (Json.toInt value 0)
  | _ => VInvalid
  end.

Definition decodeValue (binding : Z2mChannelBinding) (value : QJsonValue)
    : QVariant :=
  match b_kind binding with
  | KPowerOnOff =>
      match value with
      | JBool b => VBool b
      | JString state =>
          if negb (isEmpty (b_valueOn binding)) || negb (isEmpty (b_valueOff binding))
          then VBool (equalsCI state (b_valueOn binding))
          else VBool (equalsCI state "ON")
      | JDouble d => VBool (negb (Qeq_bool d 0))
      | _ => VInvalid
      end
  | KBrightness =>
      let raw := Double.ofQ (Json.toDouble value 0) in
      VDouble (Double.toQ (Codec.scaleToPercent raw (Double.ofQ (b_rawMin binding))
                             (Double.ofQ (b_rawMax binding))))
  | KColorTemperature => VDouble (Json.toDouble value 0)
  | KColorRGB =>
      match value with
      | JObject colorObj =>
          if String.eqb (b_colorMode binding) "xy" then
            VColor (colorFromXy P (Json.toDouble (Json.value colorObj "x") 0)
                                  (Json.toDouble (Json.value colorObj "y") 0) 1)
          else if String.eqb (b_colorMode binding) "hs" then
            let h := Json.toDouble (Json.value colorObj "hue")
                       (Json.toDouble (Json.value colorObj "h") 0) in
            let sat := Json.toDouble (Json.value colorObj "saturation")
                         (Json.toDouble (Json.value colorObj "s") 0) in
            VColor (hsvToColor P h (sat / 100)%Q 1)
          else VInvalid
      | _ => VInvalid
      end
  | KTemperature | KHumidity | KIlluminance | KCO2 | KPower | KVoltage
  | KCurrent | KEnergy =>
      VDouble (Json.toDouble value 0 * b_valueScale binding)%Q
  | KAmbientLightLevel => decodeEnumValue binding value
  | KDuration | KSignalStrength | KBattery => VInt (Json.toInt value 0)
  | KLinkQuality =>
      VDouble (Codec.qBound 0 (Json.toDouble value 0 * b_valueScale binding)%Q 100)
  | KMotion =>
      match value with
      | JBool b => VBool b
      | JString str =>
          let state := toLower str in
          VBool (String.eqb state "true" || String.eqb state "on"
                 || String.eqb state "occupied")
      | JDouble d => VBool (negb (Qeq_bool d 0))
      | _ => VInvalid
      end
  | KButtonEvent =>
      match value with
      | JString action => VInt (buttonCode (Expose.actionToButtonEvent action))
      | _ => VInvalid
      end
  | KUnknown =>
      match b_dataType binding with
      | TBool =>
          match value with
          | JBool b => VBool b
          | JDouble d => VBool (negb (Qeq_bool d 0))
          | JString str => VBool (String.eqb (toLower str) "true")
          | _ => VInvalid
          end
      | TInt => VInt (Json.toInt value 0)
      | TFloat => VDouble (Json.toDouble value 0 * b_valueScale binding)%Q
      | TEnum => decodeEnumValue binding value
      | _ => VInvalid
      end
  | _ => VInvalid
  end.

(** The update of one non-availability binding, as a list of signals. *)
Definition bindingUpdate (externalId : string) (payload : QJsonObject) (tsMs : Z)
    (binding : Z2mChannelBinding) : list Effect :=
  if b_isAvailability binding then []
  else if String.eqb (b_channelId binding) "device_software_update" then
    match Json.value payload "update" with
    | JObject updateObj =>
        let status := Json.toString (Json.value updateObj "state") "" in
        let currentVersion :=
          if Json.contains updateObj "installed_version"
          then numberF0 (Json.toDouble (Json.value updateObj "installed_version") 0)
          else "" in
        let targetVersion :=
          if Json.contains updateObj "latest_version"
          then numberF0 (Json.toDouble (Json.value updateObj "latest_version") 0)
          else "" in
        let up : QJsonObject :=
          Expose.insertIf (negb (isEmpty status)) "status" (JString status) ∅ in
        let up :=
          Expose.insertIf (negb (isEmpty currentVersion)) "currentVersion"
            (JString currentVersion) up in
        let up :=
          Expose.insertIf (negb (isEmpty targetVersion)) "targetVersion"
            (JString targetVersion) up in
        [ChannelStateUpdated externalId (b_channelId binding) (VJsonObject up) tsMs]
    | _ => []
    end
  else
    let value := Json.value payload (b_property binding) in
    if Json.isUndefined value then []
    else
      match decodeValue binding value with
      | VInvalid => []
      | outValue =>
          [ChannelStateUpdated externalId (b_channelId binding) outValue tsMs]
      end.

(** The connectivity status that a state payload implies, if any. *)
Definition connectivityOf (payload : QJsonObject) (tsMs : Z)
    : option ConnectivityStatus :=
  let fromLastSeen :=
    if Json.contains payload "last_seen" then
      let lastSeenMs := lastSeenMsFromValue (Json.value payload "last_seen") in
      if 0 <? lastSeenMs then
        Some (if kStaleThresholdMs <? tsMs - lastSeenMs
              then CsDisconnected else CsConnected)
      else None
    else None in
  let fromAvailability :=
    if Json.contains payload "availability" then
      let availabilityValue := Json.value payload "availability" in
      let state := toLower (trimmed (Json.toString availabilityValue "")) in
      let state :=
        if isEmpty state && Json.isObject availabilityValue
        then toLower (trimmed (Json.toString
               (Json.value (Json.toObject availabilityValue) "state") ""))
        else state in
      if String.eqb state "online" then Some CsConnected
      else if String.eqb state "offline" then Some CsDisconnected
      else fromLastSeen
    else fromLastSeen in
  match fromAvailability with
  | Some st => Some st
  | None =>
      if negb (bool_decide (size payload = 0%nat)) then Some CsConnected else None
  end.

Definition setDeviceMeta (meta : QJsonObject) (entry : Z2mDeviceEntry)
    : Z2mDeviceEntry :=
  let d := e_device entry in
  mkEntry (mkDevice (dev_name d) (dev_deviceClass d) (dev_flags d) (dev_id d)
                    (dev_manufacturer d) (dev_firmware d) (dev_model d) meta)
          (e_mqttId entry) (e_channels entry) (e_bindingsByChannel entry)
          (e_channelByProperty entry).

(** [Z2mAdapter::handleDeviceStatePayload]. *)
Definition handleDeviceStatePayload (deviceId : string) (payload : QJsonObject)
    (tsMs : Z) : Action :=
  fun s =>
    match m_devices s !! deviceId with
    | None =>
        (set_pendingStatePayloads
           (<[deviceId := payload]> (m_pendingStatePayloads s)) s, [])
    | Some entry =>
        let externalId := dev_id (e_device entry) in
        let hasUpdate :=
          Json.contains payload "update"
          && Json.isObject (Json.value payload "update") in
        let hasLastSeen := Json.contains payload "last_seen" in
        let meta := dev_meta (e_device entry) in
        let meta :=
          Expose.insertIf hasUpdate "update"
            (JObject (Json.toObject (Json.value payload "update"))) meta in
        let meta :=
          Expose.insertIf hasLastSeen "last_seen"
            (Json.value payload "last_seen") meta in
        let metaChanged := hasUpdate || hasLastSeen in
        let entry' := setDeviceMeta meta entry in
        let s1 := set_devices (<[deviceId := entry']> (m_devices s)) s in
        let bindings := (map_to_list (e_bindingsByChannel entry')).*2 in
        (s1,
         [StatePayloadApplied deviceId payload tsMs]
         ++ (if metaChanged
             then [DeviceUpdated (e_device entry') (e_channels entry')] else [])
         ++ match availabilityBindingOf entry', connectivityOf payload tsMs with
            | Some binding, Some status =>
                [ChannelStateUpdated externalId (b_channelId binding)
                   (VInt (connectivityCode status)) tsMs]
            | _, _ => []
            end
         ++ flat_map (bindingUpdate externalId payload tsMs) bindings)
    end.

(** [Z2mAdapter::handleAvailabilityPayload]. *)
Definition handleAvailabilityPayload (deviceId payload : string) (tsMs : Z)
    : Action :=
  fun s =>
    match m_devices s !! deviceId with
    | None => (s, [])
    | Some entry =>
        match availabilityBindingOf entry with
        | None => (s, [])
        | Some binding =>
            let state := toLower (trimmed payload) in
            let status :=
              if String.eqb state "online" then CsConnected
              else if String.eqb state "offline" then CsDisconnected
              else CsUnknown in
            (s, [ChannelStateUpdated (dev_id (e_device entry)) (b_channelId binding)
                   (VInt (connectivityCode status)) tsMs])
        end
    end.

(** *** Device registry (component C) *)

Definition setDevice (d : Device) (entry : Z2mDeviceEntry) : Z2mDeviceEntry :=
  mkEntry d (e_mqttId entry) (e_channels entry) (e_bindingsByChannel entry)
          (e_channelByProperty entry).

(** [Z2mAdapter::handleBridgeInfoPayload]. *)
Definition handleBridgeInfoPayload (payload : QJsonObject) (tsMs : Z) : Action :=
  fun s =>
    if isEmpty (m_coordinatorId s) then (set_pendingBridgeInfo payload s, [])
    else
      let coordinatorMqttId :=
        default (m_coordinatorId s) (m_mqttByExternal s !! m_coordinatorId s) in
      match m_devices s !! coordinatorMqttId with
      | None => (set_pendingBridgeInfo payload s, [])
      | Some entry =>
          let d := e_device entry in
          let coordinator := Json.toObject (Json.value payload "coordinator") in
          let coordinatorMeta := Json.toObject (Json.value coordinator "meta") in
          let manufacturer :=
            Json.toString (Json.value coordinatorMeta "manufacturer") "" in
          let model := Json.toString (Json.value coordinatorMeta "model") "" in
          let firmware := Json.toString (Json.value coordinatorMeta "revision") "" in
          let firmware :=
            if isEmpty firmware
            then Json.toString (Json.value coordinatorMeta "firmware") ""
            else firmware in
          let firmware :=
            if isEmpty firmware
            then Json.toString (Json.value coordinatorMeta "version") ""
            else firmware in
          let config := Json.toObject (Json.value payload "config") in
          let serial := Json.toObject (Json.value config "serial") in
          let serialPort := trimmed (Json.toString (Json.value serial "port") "") in
          let serialAdapter :=
            trimmed (Json.toString (Json.value serial "adapter") "") in
          let meta := <["coordinator" := JObject coordinator]> (dev_meta d) in
          let meta :=
            Expose.insertIf (negb (isEmpty serialPort)) "serial_port"
              (JString serialPort) meta in
          let meta :=
            Expose.insertIf (negb (isEmpty serialAdapter)) "serial_adapter"
              (JString serialAdapter) meta in
          let updated :=
            {| dev_name := dev_name d;
               dev_deviceClass := DcGateway;
               dev_flags := dev_flags d;
               dev_id := dev_id d;
               dev_manufacturer :=
                 if negb (isEmpty manufacturer) then manufacturer
                 else dev_manufacturer d;
               dev_firmware :=
                 if negb (isEmpty firmware) then firmware else dev_firmware d;
               dev_model := if negb (isEmpty model) then model else dev_model d;
               dev_meta := meta |} in
          let entry' := setDevice updated entry in
          let z2mVersion := Json.toString (Json.value payload "version") "" in
          let z2mCommit := Json.toString (Json.value payload "commit") "" in
          let metaPatch : QJsonObject := <["bridge_info" := JObject payload]> ∅ in
          let metaPatch :=
            Expose.insertIf (negb (isEmpty z2mVersion)) "z2m_version"
              (JString z2mVersion) metaPatch in
          let metaPatch :=
            Expose.insertIf (negb (isEmpty z2mCommit)) "z2m_commit"
              (JString z2mCommit) metaPatch in
          let metaPatch :=
            Expose.insertIf (Json.contains payload "permit_join") "permit_join"
              (Json.value payload "permit_join") metaPatch in
          let metaPatch :=
            Expose.insertIf (Json.contains payload "log_level") "log_level"
              (Json.value payload "log_level") metaPatch in
          (set_devices (<[coordinatorMqttId := entry']> (m_devices s)) s,
           [DeviceUpdated updated (e_channels entry'); AdapterMetaUpdated metaPatch]
           ++ (if m_mqttConnected s && m_bridgeOnline s then
                 match availabilityBindingOf entry' with
                 | Some binding =>
                     [ChannelStateUpdated (m_coordinatorId s) (b_channelId binding)
                        (VInt (connectivityCode CsConnected)) tsMs]
                 | None => []
                 end
               else [])
           ++ match Json.value payload "update" with
              | JObject updateObj =>
                  let status := Json.toString (Json.value updateObj "state") "" in
                  let targetVersion :=
                    Json.toString (Json.value updateObj "version") "" in
                  let up : QJsonObject :=
                    Expose.insertIf (negb (isEmpty status)) "status"
                      (JString status) ∅ in
                  let up :=
                    Expose.insertIf (negb (isEmpty targetVersion)) "targetVersion"
                      (JString targetVersion) up in
                  match e_bindingsByChannel entry' !! "device_software_update" with
                  | Some binding =>
                      [ChannelStateUpdated (m_coordinatorId s) (b_channelId binding)
                         (VJsonObject up) tsMs]
                  | None => []
                  end
              | _ => []
              end)
      end.

(** The lambda [availabilityFromValue]. *)
Definition availabilityFromValue (val : QJsonValue) : string :=
  match val with
  | JString str => trimmed str
  | JObject o => trimmed (Json.toString (Json.value o "state") "")
  | _ => ""
  end.

(** Removal of a registry entry: [deviceRemoved], then the external-id
    index entry and the entry itself. *)
Definition removeDevice (mqttId : string) (entry : Z2mDeviceEntry) : Action :=
  emit (DeviceRemoved (dev_id (e_device entry)))
  >> modify (fun s =>
       if negb (isEmpty (dev_id (e_device entry)))
       then set_mqttByExternal
              (delete (dev_id (e_device entry)) (m_mqttByExternal s)) s
       else s)
  >> modify (fun s => set_devices (delete mqttId (m_devices s)) s).

(** An existing entry taken over under a new friendly name. *)
Definition renamedEntry (deviceId : string) (entry : Z2mDeviceEntry)
    : Z2mDeviceEntry :=
  let d := e_device entry in
  mkEntry
    (mkDevice deviceId (dev_deviceClass d) (dev_flags d) (dev_id d)
              (dev_manufacturer d) (dev_firmware d) (dev_model d)
              (<["friendly_name" := JString deviceId]> (dev_meta d)))
    deviceId (e_channels entry) (e_bindingsByChannel entry)
    (e_channelByProperty entry).

(** The steps of the loop body of [handleBridgeDevicesPayload] for an
    element that is interviewed and supported, in the order of the
    source. First the entry kept under the previous friendly name is
    removed when the element renames it. *)
Definition forgetPreviousName (existing : option Z2mDeviceEntry)
    (renameDetected : bool) (previousMqttId : string) : Action :=
  modify (fun s =>
    match existing with
    | Some _ =>
        if renameDetected
        then set_devices (delete previousMqttId (m_devices s)) s else s
    | None => s
    end).

(** A state payload buffered under the previous name moves to the new
    one. *)
Definition migratePendingState (renameDetected : bool)
    (previousMqttId deviceId : string) : Action :=
  modify (fun s =>
    if renameDetected then
      match m_pendingStatePayloads s !! previousMqttId with
      | Some pending =>
          set_pendingStatePayloads
            (delete previousMqttId
               (<[deviceId := pending]> (m_pendingStatePayloads s))) s
      | None => s
      end
    else s).

(** A pending rename command whose target is the name of the entry is
    answered. *)
Definition confirmPendingRename (ieeeAddress : string) (entry : Z2mDeviceEntry)
    (now : Z) : Action :=
  fun s =>
    if negb (isEmpty ieeeAddress) then
      match m_pendingRename s !! ieeeAddress with
      | Some pending =>
          if String.eqb (pr_targetName pending) (e_mqttId entry) then
            (set_pendingRename (delete ieeeAddress (m_pendingRename s)) s,
             [CmdResult (mkCmdResponse (pr_cmdId pending) Success "" now)])
          else (s, [])
      | None => (s, [])
      end
    else (s, []).

(** The entry goes into the registry and the external-id index, and is
    announced. *)
Definition storeEntry (entry : Z2mDeviceEntry) : Action :=
  modify (fun s => set_devices (<[e_mqttId entry := entry]> (m_devices s)) s)
  >> modify (fun s =>
       if negb (isEmpty (dev_id (e_device entry)))
       then set_mqttByExternal
              (<[dev_id (e_device entry) := e_mqttId entry]> (m_mqttByExternal s)) s
       else s)
  >> emit (DeviceUpdated (e_device entry) (e_channels entry)).

(** A state payload buffered under the name of the entry is taken out of
    the buffer and handled. *)
Definition replayPendingState (entry : Z2mDeviceEntry) (now : Z) : Action :=
  fun s =>
    match m_pendingStatePayloads s !! e_mqttId entry with
    | Some pendingPayload =>
        (modify (fun s =>
           set_pendingStatePayloads
             (delete (e_mqttId entry) (m_pendingStatePayloads s)) s)
         >> handleDeviceStatePayload (e_mqttId entry) pendingPayload now) s
    | None => (s, [])
    end.

(** The availability default is deferred for the first availability
    binding. *)
Definition scheduleAvailabilityDefault (entry : Z2mDeviceEntry)
    (availability : string) (lastSeenMs : Z) : Action :=
  fun s =>
    match availabilityBindingOf entry with
    | Some binding =>
        (s, [SingleShot 0
               (TaskAvailabilityDefault availability lastSeenMs
                  (dev_id (e_device entry)) (b_channelId binding))])
    | None => (s, [])
    end.

(** A coordinator becomes the adapter's coordinator, and a bridge info
    payload that waited for it is handled. *)
Definition adoptCoordinator (obj : QJsonObject) (entry : Z2mDeviceEntry) (now : Z)
    : Action :=
  fun s =>
    if equalsCI (Json.toString (Json.value obj "type") "") "Coordinator" then
      (modify (set_coordinatorId (dev_id (e_device entry)))
       >> (fun s =>
             if negb (bool_decide (size (m_pendingBridgeInfo s) = 0%nat)) then
               (handleBridgeInfoPayload (m_pendingBridgeInfo s) now
                >> modify (set_pendingBridgeInfo ∅)) s
             else (s, []))) s
    else (s, []).

(** The friendly name under which the bridge knew the address before,
    empty when it did not. *)
Definition previousMqttIdOf (s : Z2mAdapter) (ieeeAddress : string) : string :=
  if isEmpty ieeeAddress then ""
  else default "" (m_mqttByExternal s !! ieeeAddress).

(** The body of the loop of [handleBridgeDevicesPayload] for an element
    that is interviewed and supported. *)
Definition registerDevice (obj : QJsonObject) (deviceId ieeeAddress : string)
    (now : Z) : Action :=
  fun s =>
    let previousMqttId := previousMqttIdOf s ieeeAddress in
    let renameDetected :=
      negb (isEmpty previousMqttId) && negb (String.eqb previousMqttId deviceId) in
    let existing :=
      if negb (isEmpty previousMqttId) then m_devices s !! previousMqttId
      else None in
    let entry :=
      match existing with
      | Some old => renamedEntry deviceId old
      | None => Expose.buildDeviceEntry (sortCI P) obj
      end in
    let availability :=
      let a := availabilityFromValue (Json.value obj "availability") in
      if isEmpty a
      then trimmed (Json.toString (Json.value obj "availability_state") "")
      else a in
    let lastSeenMs := lastSeenMsFromValue (Json.value obj "last_seen") in
    (forgetPreviousName existing renameDetected previousMqttId
     >> migratePendingState renameDetected previousMqttId deviceId
     >> confirmPendingRename ieeeAddress entry now
     >> storeEntry entry
     >> replayPendingState entry now
     >> scheduleAvailabilityDefault entry availability lastSeenMs
     >> adoptCoordinator obj entry now) s.

(** The body of the loop for an element that is not interviewed or not
    supported: the entry known for it is removed, and so is a state
    payload buffered for it. *)
Definition dropDevice (deviceId ieeeAddress : string) : Action :=
  fun s =>
    let existingMqttId :=
      if isEmpty ieeeAddress then deviceId
      else default deviceId (m_mqttByExternal s !! ieeeAddress) in
    ((fun s =>
        match m_devices s !! existingMqttId with
        | Some entry => removeDevice existingMqttId entry s
        | None => (s, [])
        end)
     >> modify (fun s =>
          set_pendingStatePayloads
            (delete existingMqttId (m_pendingStatePayloads s)) s)) s.

(** One element of the device array: the set [seen] of the loop and
    what the body does. *)
Definition bridgeDeviceStep (now : Z) (value : QJsonValue) (seen : gset string)
    : gset string * Action :=
  match value with
  | JObject obj =>
      let deviceId := trimmed (Json.toString (Json.value obj "friendly_name") "") in
      if isEmpty deviceId then (seen, skip)
      else
        let ieeeAddress :=
          trimmed (Json.toString (Json.value obj "ieee_address") "") in
        let interviewCompleted :=
          Json.toBool (Json.value obj "interview_completed") true in
        let supported := Json.toBool (Json.value obj "supported") true in
        if negb interviewCompleted || negb supported then
          (seen, dropDevice deviceId ieeeAddress)
        else ({[deviceId]} ∪ seen, registerDevice obj deviceId ieeeAddress now)
  | _ => (seen, skip)
  end.

(** The loop over the device array. *)
Fixpoint bridgeDevicesLoop (now : Z) (devices : list QJsonValue)
    (seen : gset string) : gset string * Action :=
  match devices with
  | [] => (seen, skip)
  | value :: rest =>
      let '(seen1, a1) := bridgeDeviceStep now value seen in
      let '(seen2, a2) := bridgeDevicesLoop now rest seen1 in
      (seen2, a1 >> a2)
  end.

(** The sweep of a full snapshot: every entry whose key was not seen is
    removed. *)
Definition sweepUnseen (seen : gset string) : Action :=
  fun s =>
    forEach (map_to_list (m_devices s))
            (fun kv =>
               if bool_decide (kv.1 ∈ seen) then skip else removeDevice kv.1 kv.2) s.

(** [Z2mAdapter::handleBridgeDevicesPayload]. *)
Definition handleBridgeDevicesPayload (devices : list QJsonValue)
    (fullSnapshot : bool) (now : Z) : Action :=
  let '(seen, loop) := bridgeDevicesLoop now devices ∅ in
  loop
  >> (if fullSnapshot then sweepUnseen seen else skip)
  >> (fun s =>
        if m_pendingFullSync s
        then (set_pendingFullSync false s, [FullSyncCompleted])
        else (s, [])).

(** *** Message router (component D) *)

(** An MQTT message: its text ([QString::fromUtf8(message)]) and the
    result of [QJsonDocument::fromJson], [None] on a parse error. *)
Record MqttMessage : Type := mkMessage {
  msg_text : string;
  msg_json : option QJsonValue
}.

(** The document as an object, when parsing succeeded and
    [doc.isObject()]. *)
Definition docObject (message : MqttMessage) : option QJsonObject :=
  match msg_json message with
  | Some (JObject o) => Some o
  | _ => None
  end.

(** The text [{"state":"<st>"}]. *)
Definition stateLiteral (st : string) : string :=
  "{" +:+ dquote +:+ "state" +:+ dquote +:+ ":" +:+ dquote +:+ st +:+ dquote +:+ "}".

(** The one-shot request for numeric [last_seen] values. *)
Definition lastSeenOptions : QJsonObject :=
  <["options" :=
      JObject (<["advanced" :=
                   JObject (<["last_seen" := JString "epoch"]> ∅)]> ∅)]> ∅.

Definition handleBridgeState (online : bool) : Action :=
  modify (set_bridgeOnline online)
  >> updateConnectionState
  >> (fun s =>
        if online && negb (m_lastSeenRequested s) then
          (publish_ (m_baseTopic s +:+ "/bridge/request/options") lastSeenOptions
           >> modify (set_lastSeenRequested true)) s
        else (s, [])).

(** The handler of [bridge/response/device/rename] for one pending
    rename. *)
Definition renameResponseStep (from to : string) (now : Z)
    (kv : string * PendingRename) : Action :=
  fun s =>
    let ieee := kv.1 in
    let currentMqtt := default "" (m_mqttByExternal s !! ieee) in
    if (negb (isEmpty to) && String.eqb (pr_targetName kv.2) to)
       || (negb (isEmpty from) && String.eqb currentMqtt from) then
      let mqttId := if negb (isEmpty to) then to else currentMqtt in
      (set_pendingRename (delete ieee (m_pendingRename s)) s,
       CmdResult (mkCmdResponse (pr_cmdId kv.2) Success "" now)
       :: match m_devices s !! mqttId with
          | Some entry =>
              match availabilityBindingOf entry with
              | Some binding =>
                  [ChannelStateUpdated (dev_id (e_device entry)) (b_channelId binding)
                     (VInt (connectivityCode CsConnected)) now]
              | None => []
              end
          | None => []
          end)
    else (s, []).

Definition handleRenameResponse (resp : QJsonObject) (now : Z) : Action :=
  fun s =>
    let data := Json.toObject (Json.value resp "data") in
    let status := toLower (trimmed (Json.toString (Json.value resp "status") "")) in
    let from := trimmed (Json.toString (Json.value data "from") "") in
    let to := trimmed (Json.toString (Json.value data "to") "") in
    if String.eqb status "ok"
    then forEach (map_to_list (m_pendingRename s)) (renameResponseStep from to now) s
    else (s, []).

Definition handleDeviceGetResponse (resp : QJsonObject) (now : Z) : Action :=
  fun s =>
    let data := Json.toObject (Json.value resp "data") in
    let deviceObj := if bool_decide (size data = 0%nat) then resp else data in
    let ieee := trimmed (Json.toString (Json.value deviceObj "ieee_address") "") in
    let friendly :=
      trimmed (Json.toString (Json.value deviceObj "friendly_name") "") in
    if isEmpty ieee then (s, [])
    else
      match m_pendingRename s !! ieee with
      | None => (s, [])
      | Some pending =>
          (set_pendingRename (delete ieee (m_pendingRename s)) s,
           [CmdResult
              (if negb (isEmpty friendly) && String.eqb friendly (pr_targetName pending)
               then mkCmdResponse (pr_cmdId pending) Success "" now
               else mkCmdResponse (pr_cmdId pending) Failure "Rename not applied" now)])
      end.

(** The device array of a bridge/devices document: the array itself,
    its [data] member, or the [result] member of an [ok] response. *)
Definition deviceArrayOf (doc : QJsonValue) : list QJsonValue :=
  match doc with
  | JArray devices => devices
  | JObject obj =>
      match Json.value obj "data" with
      | JArray devices => devices
      | _ =>
          if String.eqb
               (toLower (trimmed (Json.toString (Json.value obj "status") ""))) "ok"
             && Json.contains obj "result"
             && Json.isArray (Json.value obj "result")
          then Json.toArray (Json.value obj "result")
          else []
      end
  | _ => []
  end.

(** The branch of [handleMqttMessage] for a suffix under [bridge/]. *)
Definition handleBridgeTopic (suffix : string) (message : MqttMessage) (now : Z)
    : Action :=
  let payloadText := toLower (trimmed (msg_text message)) in
  if String.eqb suffix "bridge/state"
     && (String.eqb payloadText (stateLiteral "offline")
         || String.eqb payloadText "offline")
  then handleBridgeState false
  else if String.eqb suffix "bridge/state"
          && (String.eqb payloadText (stateLiteral "online")
              || String.eqb payloadText "online")
  then handleBridgeState true
  else if String.eqb suffix "bridge/health" then
    match docObject message with
    | Some obj => emit (AdapterMetaUpdated (<["health" := JObject obj]> ∅))
    | None => skip
    end
  else if String.eqb suffix "bridge/response/device/rename" then
    match docObject message with
    | Some resp => handleRenameResponse resp now
    | None => skip
    end
  else if String.eqb suffix "bridge/response/options" then skip
  else if String.eqb suffix "bridge/response/device/get" then
    match docObject message with
    | Some resp => handleDeviceGetResponse resp now
    | None => skip
    end
  else if String.eqb suffix "bridge/info" then
    match docObject message with
    | Some obj => handleBridgeInfoPayload obj now
    | None => skip
    end
  else if String.eqb suffix "bridge/devices"
          || String.eqb suffix "bridge/response/devices" then
    match msg_json message with
    | None => skip
    | Some doc =>
        match deviceArrayOf doc with
        | [] => skip
        | devices =>
            handleBridgeDevicesPayload devices
              (String.eqb suffix "bridge/devices") now
        end
    end
  else skip.

(** [Z2mAdapter::handleMqttMessage]. *)
Definition handleMqttMessage (message : MqttMessage) (topic : string) (now : Z)
    : Action :=
  fun s =>
    let prefix := m_baseTopic s +:+ "/" in
    if negb (startsWith topic prefix) then (s, [])
    else
      let suffix := mid topic (String.length prefix) in
      if startsWith suffix "bridge/" then handleBridgeTopic suffix message now s
      else if endsWith suffix "/availability" then
        let slashIndex := indexOfChar suffix "/" in
        if slashIndex <=? 0 then (s, [])
        else
          let deviceId := left suffix (Z.to_nat slashIndex) in
          let payloadText := trimmed (msg_text message) in
          let payloadText :=
            if startsWith payloadText "{" then
              match docObject message with
              | Some obj => Json.toString (Json.value obj "state") payloadText
              | None => payloadText
              end
            else payloadText in
          handleAvailabilityPayload deviceId payloadText now s
      else if endsWith suffix "/get" || endsWith suffix "/set" then (s, [])
      else if contains suffix "/" then (s, [])
      else
        match docObject message with
        | Some obj => handleDeviceStatePayload suffix obj now s
        | None => (s, [])
        end.

(** *** The adapter as a transition system *)

(** The lambda connected to [MqttClient::connected]. *)
Definition onMqttConnected : Action :=
  modify (set_mqttConnected true)
  >> updateConnectionState
  >> ensureSubscriptions
  >> (fun s => publish_ (m_baseTopic s +:+ "/bridge/request/info") ∅ s).

(** The lambda connected to [MqttClient::disconnected]. *)
Definition onMqttDisconnected : Action :=
  modify (set_mqttConnected false) >> updateConnectionState >> scheduleReconnect.

(** The lambda of [handleBridgeDevicesPayload] deferred by
    [QTimer::singleShot(0, ..)]. *)
Definition availabilityDefault (availability : string) (lastSeenMs : Z)
    (externalId channelId : string) (now : Z) : Action :=
  fun s =>
    let state := toLower availability in
    let status :=
      if isEmpty state then
        if 0 <? lastSeenMs then
          Some (if kStaleThresholdMs <? now - lastSeenMs
                then CsDisconnected else CsConnected)
        else None
      else if String.eqb state "online" then Some CsConnected
      else if String.eqb state "offline" then Some CsDisconnected
      else Some CsUnknown in
    match status with
    | Some st =>
        (s, [ChannelStateUpdated externalId channelId
               (VInt (connectivityCode st)) now])
    | None => (s, [])
    end.

Definition runTask (task : Task) (now : Z) : Action :=
  match task with
  | TaskRenameTimeout deviceId => renameTimeout deviceId now
  | TaskAvailabilityDefault availability lastSeenMs externalId channelId =>
      availabilityDefault availability lastSeenMs externalId channelId now
  end.

(** What can happen to the adapter: the calls of the host, the signals
    of the MQTT client, and the timers. Each carries the reading of the
    clock where the handler reads it. *)
Inductive Input : Type :=
| Start
| Stop
| AdapterConfigUpdated
| RequestFullSync
| UpdateChannelState (deviceExternalId channelExternalId : string)
                     (value : QVariant) (cmdId now : Z)
| UpdateDeviceName (deviceId name : string) (cmdId now : Z)
| InvokeAdapterAction (actionId : string) (params : QJsonObject) (cmdId now : Z)
| ClientStateChanged (state : MqttState)
| MqttConnected
| MqttDisconnected
| MqttMessageReceived (message : MqttMessage) (topic : string) (now : Z)
| ReconnectTimeout
| PostSetRefreshTimeout (mqttId : string)
| TaskDue (task : Task) (now : Z).

(** The signals of the client reach the adapter only while the client
    object exists. *)
Definition withClient (a : Action) : Action :=
  fun s => match m_client s with Some _ => a s | None => (s, []) end.

Definition step (i : Input) : Action :=
  match i with
  | Start => start
  | Stop => stop
  | AdapterConfigUpdated => adapterConfigUpdated
  | RequestFullSync => requestFullSync
  | UpdateChannelState d c v cmdId now => updateChannelState d c v cmdId now
  | UpdateDeviceName d n cmdId now => updateDeviceName d n cmdId now
  | InvokeAdapterAction a p cmdId now => invokeAdapterAction a p cmdId now
  | ClientStateChanged st =>
      modify (fun s =>
        match m_client s with
        | Some c =>
            set_client
              (Some (mkClient st (cl_clientId c) (cl_hostname c) (cl_port c)
                              (cl_username c) (cl_password c))) s
        | None => s
        end)
  | MqttConnected => withClient onMqttConnected
  | MqttDisconnected => withClient onMqttDisconnected
  | MqttMessageReceived message topic now =>
      withClient (handleMqttMessage message topic now)
  | ReconnectTimeout =>
      fun s =>
        match m_reconnectTimer s with
        | Some t => if rt_active t then connectToBroker s else (s, [])
        | None => (s, [])
        end
  | PostSetRefreshTimeout mqttId =>
      fun s =>
        match m_postSetRefreshTimers s !! mqttId with
        | Some true =>
            (modify (fun s =>
               set_postSetRefreshTimers
                 (<[mqttId := false]> (m_postSetRefreshTimers s)) s)
             >> postSetRefresh mqttId) s
        | _ => (s, [])
        end
  | TaskDue task now => runTask task now
  end.

(** A run of the adapter over a list of inputs, with its trace. *)
Fixpoint run (inputs : list Input) : Action :=
  match inputs with
  | [] => skip
  | i :: rest => step i >> run rest
  end.

(** The states the adapter can reach from its construction. *)
Definition reachable (info : AdapterInfo) (s : Z2mAdapter) : Prop :=
  exists inputs, (run inputs (initialAdapter info)).1 = s.

End WithPlatform.

End Adapter.

(** ** A reference platform

    One admissible platform, used to run the scenarios of the
    specification: the stable insertion sort, colour conversions that
    are not exercised, and a broker that accepts every publish. *)
Definition referencePlatform : Platform :=
  {| sortCI := EnumMap.insertionSortCI;
     qstringToDouble := fun _ => None;
     doubleToInt := Qfloor;
     doubleToString := fun _ => "";
     parseIsoDate := fun _ => None;
     colorFromXy := fun _ _ _ => mkColor 0 0 0;
     hsvToColor := fun _ _ _ => mkColor 0 0 0;
     colorToXy := fun _ => (0, 0)%Q;
     colorToHsv := fun _ => mkHsv 0 0 0;
     publishResult := fun n _ _ => Z.of_nat n + 1 |}.

(** The same platform with a broker that refuses every publish. *)
Definition refusingPlatform : Platform :=
  {| sortCI := EnumMap.insertionSortCI;
     qstringToDouble := fun _ => None;
     doubleToInt := Qfloor;
     doubleToString := fun _ => "";
     parseIsoDate := fun _ => None;
     colorFromXy := fun _ _ _ => mkColor 0 0 0;
     hsvToColor := fun _ _ _ => mkColor 0 0 0;
     colorToXy := fun _ => (0, 0)%Q;
     colorToHsv := fun _ => mkHsv 0 0 0;
     publishResult := fun _ _ _ => -1 |}.

(** ** Vocabulary of the specification *)

Module Spec.

Import QtString.



Section WithPlatform.

Variable P : Platform.

(** The registry key a command resolves to (step 1 of the command
    pipeline). *)
Definition resolveMqttId (s : Z2mAdapter) (deviceExternalId : string) : string :=
  default deviceExternalId (m_mqttByExternal s !! deviceExternalId).

(** The adapter is Connected for the command pipeline: the connected
    flag is set and the MQTT client is in its Connected state. *)
Definition commandPathConnected (s : Z2mAdapter) : bool :=
  m_connected s && Adapter.clientConnected s.

(** The topic [<baseTopic>/<mqtt_id>[/<endpoint>]/set]. *)
Definition setTopic (s : Z2mAdapter) (mqttId endpoint : string) : string :=
  if isEmpty endpoint then m_baseTopic s +:+ "/" +:+ mqttId +:+ "/set"
  else m_baseTopic s +:+ "/" +:+ mqttId +:+ "/" +:+ endpoint +:+ "/set".

(** The publish of a command is refused by the broker. *)
Definition publishFails (s : Z2mAdapter) (mqttId : string)
    (binding : Z2mChannelBinding) (payload : QJsonObject) : Prop :=
  publishResult P (m_publishCount s) (setTopic s mqttId (b_endpoint binding)) payload
  < 0.

(** The status of a command as the specification words it: the first
    failing check, in order, decides. *)
Inductive CommandOutcome (s : Z2mAdapter) (deviceExternalId channelExternalId : string)
    (value : QVariant) : CmdStatus -> Prop :=
| UnknownDevice :
    m_devices s !! resolveMqttId s deviceExternalId = None ->
    CommandOutcome s deviceExternalId channelExternalId value NotSupported
| UnknownChannel entry :
    m_devices s !! resolveMqttId s deviceExternalId = Some entry ->
    e_bindingsByChannel entry !! channelExternalId = None ->
    CommandOutcome s deviceExternalId channelExternalId value NotSupported
| ReadOnlyChannel entry binding :
    m_devices s !! resolveMqttId s deviceExternalId = Some entry ->
    e_bindingsByChannel entry !! channelExternalId = Some binding ->
    testFlag (b_flags binding) ChannelFlagWritable = false ->
    CommandOutcome s deviceExternalId channelExternalId value NotSupported
| NotConnected entry binding :
    m_devices s !! resolveMqttId s deviceExternalId = Some entry ->
    e_bindingsByChannel entry !! channelExternalId = Some binding ->
    testFlag (b_flags binding) ChannelFlagWritable = true ->
    commandPathConnected s = false ->
    CommandOutcome s deviceExternalId channelExternalId value TemporarilyOffline
| EncodingFails entry binding errorString :
    m_devices s !! resolveMqttId s deviceExternalId = Some entry ->
    e_bindingsByChannel entry !! channelExternalId = Some binding ->
    testFlag (b_flags binding) ChannelFlagWritable = true ->
    commandPathConnected s = true ->
    Adapter.buildCommandPayload P deviceExternalId binding value = inr errorString ->
    CommandOutcome s deviceExternalId channelExternalId value InvalidArgument
| PublishFails entry binding payload :
    m_devices s !! resolveMqttId s deviceExternalId = Some entry ->
    e_bindingsByChannel entry !! channelExternalId = Some binding ->
    testFlag (b_flags binding) ChannelFlagWritable = true ->
    commandPathConnected s = true ->
    Adapter.buildCommandPayload P deviceExternalId binding value = inl payload ->
    publishFails s (resolveMqttId s deviceExternalId) binding payload ->
    CommandOutcome s deviceExternalId channelExternalId value Failure
| Accepted entry binding payload :
    m_devices s !! resolveMqttId s deviceExternalId = Some entry ->
    e_bindingsByChannel entry !! channelExternalId = Some binding ->
    testFlag (b_flags binding) ChannelFlagWritable = true ->
    commandPathConnected s = true ->
    Adapter.buildCommandPayload P deviceExternalId binding value = inl payload ->
    ~ publishFails s (resolveMqttId s deviceExternalId) binding payload ->
    CommandOutcome s deviceExternalId channelExternalId value Success.

End WithPlatform.

End Spec.

(** The inputs that stem from an inbound MQTT message: the message
    itself, and the availability default that the bridge/devices
    handler defers. *)
Definition messageDriven (i : Adapter.Input) : Prop :=
  match i with
  | Adapter.MqttMessageReceived _ _ _ => True
  | Adapter.TaskDue (TaskAvailabilityDefault _ _ _ _) _ => True
  | _ => False
  end.

(** A trace made of command responses and publishes only. *)
Definition onlyResponsesAndPublishes (es : list Effect) : Prop :=
  Forall (fun e => isCmdResult e = true \/ isPublish e = true) es.

(** What [requestFullSync] announces for one registry entry. *)
Definition announcement (kv : string * Z2mDeviceEntry) : Device * list Channel :=
  (e_device kv.2, e_channels kv.2).

(** The three flags of the connection state machine. *)
Definition connectionFlags (s : Z2mAdapter) : bool * bool * bool :=
  (m_connected s, m_mqttConnected s, m_bridgeOnline s).

(** The connected flag agrees with the two flags it is computed from. *)
Definition connectedInv (s : Z2mAdapter) : Prop :=
  m_connected s = m_mqttConnected s && m_bridgeOnline s.

(** The signals of the state ingest: device updates and channel updates. *)
Definition isIngestSignal (e : Effect) : bool :=
  match e with
  | DeviceUpdated _ _ | ChannelStateUpdated _ _ _ _ => true
  | _ => false
  end.

(** The signals of [handleBridgeInfoPayload]. *)
Definition isInfoSignal (e : Effect) : bool :=
  match e with
  | DeviceUpdated _ _ | ChannelStateUpdated _ _ _ _ | AdapterMetaUpdated _ => true
  | _ => false
  end.

(** What a step owes to the connection state machine: the invariant is
    kept, and [connectionStateChanged] is emitted exactly when the
    connected flag changes, with the new value. *)
Definition connectionStep (a : Action) (s : Z2mAdapter) : Prop :=
  connectedInv (a s).1
  /\ connectionChanges (a s).2
     = (if Bool.eqb (m_connected s) (m_connected (a s).1) then []
        else [m_connected (a s).1]).

(** Sample inputs of [buildStableEnumMap]: two persisted assignments
    and a raw key list with two new keys. *)
Definition sampleEnumMap : QJsonObject :=
  <["dual_rocker" := Json.ofInt 2]> (<["single_rocker" := Json.ofInt 1]> ∅).

Definition sampleRawKeys : list string :=
  ["single_rocker"; "dual_rocker"; "Zeta"; "alpha"].

(** The enum tables that [addChannelFromExpose] builds for an expose of
    type [enum], named for the statements about them. *)
Definition exposeProperty (expose : QJsonObject) : string :=
  QtString.trimmed (Json.toString (Json.value expose "property") "").

Definition exposeType (expose : QJsonObject) : string :=
  QtString.trimmed (Json.toString (Json.value expose "type") "").

Definition exposeScan (expose : QJsonObject) : Expose.EnumScan :=
  Expose.scanValues (Expose.enumNameOf (exposeProperty expose))
                    (Json.toArray (Json.value expose "values")).

Definition exposeFallbackMap (sort : list string -> list string)
    (expose : QJsonObject) : gmap string Z :=
  Expose.fallbackMapOf sort (exposeScan expose).

Definition exposeEnumTables (sort : list string -> list string)
    (expose : QJsonObject) : Expose.EnumTables :=
  Expose.enumTablesOf (Expose.enumNameOf (exposeProperty expose))
                      (exposeFallbackMap sort expose)
                      (Expose.scan_rawKeys (exposeScan expose)).

(** Raw strings that stand for one value: both normalise to the same
    constant of the named enum, or both are decimal spellings of the
    same integer. *)
Definition knownAlias (enumName key : string) (v : Z) : Prop :=
  (EnumMap.isKnownEnumName enumName "RockerMode" = true
   /\ EnumMap.mapRockerMode key = Some v)
  \/ (EnumMap.isKnownEnumName enumName "SensitivityLevel" = true
      /\ EnumMap.mapSensitivityLevel key = Some v).

Definition sameValueAliases (enumName k1 k2 : string) (v : Z) : Prop :=
  (knownAlias enumName k1 v /\ knownAlias enumName k2 v)
  \/ (QtString.toInt k1 = Some v /\ QtString.toInt k2 = Some v).

(** What the loop over the raw keys keeps true of the tables it fills:
    [enum_raw_to_value] holds the raw keys with a non-zero mapped value,
    [choices] is empty exactly when it is, and [enum_value_to_raw] picks
    one raw key for each value. *)
Definition tablesInv (fallbackMap : gmap string Z) (l : list string)
    (t : Expose.EnumTables) : Prop :=
  (forall k v, Expose.tab_rawToValue t !! k = Some v
               <-> k ∈ l /\ fallbackMap !! k = Some v /\ v <> 0)
  /\ (Expose.tab_choices t = [] <-> Expose.tab_rawToValue t = ∅)
  /\ (forall v k, Expose.tab_valueToRaw t !! v = Some k ->
                  Expose.tab_rawToValue t !! k = Some v)
  /\ (forall k v, Expose.tab_rawToValue t !! k = Some v ->
                  is_Some (Expose.tab_valueToRaw t !! v)).

(** ** Sample exposes *)

Module Sample.

Definition emptyDevice : Device := mkDevice "" DcUnknown 0 "" "" "" "" ∅.

Definition emptyEntry : Z2mDeviceEntry := mkEntry emptyDevice "" [] ∅ ∅.

(** A numeric illumination expose, as a light sensor reports it. *)
Definition illuminationExpose : QJsonObject :=
  <["type" := JString "numeric"]>
    (<["property" := JString "illumination"]>
       (<["name" := JString "illumination"]>
          (<["access" := Json.ofInt 1]> ∅))).

(** An enum expose whose values spell the same rocker mode twice. *)
Definition rockerExpose : QJsonObject :=
  <["type" := JString "enum"]>
    (<["property" := JString "device_mode"]>
       (<["name" := JString "device_mode"]>
          (<["access" := Json.ofInt 7]>
             (<["values" := JArray [JString "single_rocker"; JString "singlerocker"]]> ∅)))).

(** An enum expose that lists no values. *)
Definition bareEnumExpose : QJsonObject :=
  <["type" := JString "enum"]>
    (<["property" := JString "effect"]>
       (<["values" := JArray []]> ∅)).

End Sample.

(** ** Vocabulary of the registry statements *)

(** The friendly name and the IEEE address of an element of the device
    array, as the loop of [handleBridgeDevicesPayload] reads them. *)
Definition friendlyNameOf (obj : QJsonObject) : string :=
  QtString.trimmed (Json.toString (Json.value obj "friendly_name") "").

Definition ieeeAddressOf (obj : QJsonObject) : string :=
  QtString.trimmed (Json.toString (Json.value obj "ieee_address") "").

(** The element is interviewed and supported. *)
Definition registrable (obj : QJsonObject) : bool :=
  Json.toBool (Json.value obj "interview_completed") true
  && Json.toBool (Json.value obj "supported") true.

(** The name under which the registry knows the device of an element
    that is not registrable. *)
Definition knownNameOf (s : Z2mAdapter) (deviceId ieeeAddress : string) : string :=
  if QtString.isEmpty ieeeAddress then deviceId
  else default deviceId (m_mqttByExternal s !! ieeeAddress).

(** The element gives a new friendly name to an address that the
    registry knows. *)
Definition renames (s : Z2mAdapter) (deviceId ieeeAddress : string) : bool :=
  negb (QtString.isEmpty (Adapter.previousMqttIdOf s ieeeAddress))
  && negb (String.eqb (Adapter.previousMqttIdOf s ieeeAddress) deviceId).

(** The state payload that the registration of [deviceId] finds
    buffered: the one held under the previous name when the element
    renames the device and there is one, else the one held under
    [deviceId]. *)
Definition bufferedFor (s : Z2mAdapter) (deviceId ieeeAddress : string)
    : option QJsonObject :=
  if renames s deviceId ieeeAddress then
    match m_pendingStatePayloads s !! Adapter.previousMqttIdOf s ieeeAddress with
    | Some pending => Some pending
    | None => m_pendingStatePayloads s !! deviceId
    end
  else m_pendingStatePayloads s !! deviceId.

(** ** A sample installation

    A broker, a lamp and a plug, with the messages that the scenarios
    send. *)

Module World.

Import Adapter.

Definition info : AdapterInfo := mkInfo "z2m" "192.0.2.10" 1883 "" "" ∅.

(** The payload [{"state":"<st>"}] of a device state topic. *)
Definition lampState (st : string) : QJsonObject := <["state" := JString st]> ∅.

Definition stateMessage (st : string) : MqttMessage :=
  mkMessage (stateLiteral st) (Some (JObject (lampState st))).

Definition stateExpose : QJsonObject :=
  <["type" := JString "binary"]>
    (<["property" := JString "state"]>
       (<["name" := JString "state"]>
          (<["access" := Json.ofInt 7]>
             (<["value_on" := JString "ON"]>
                (<["value_off" := JString "OFF"]> ∅))))).

(** An element of the device array for the address [ieee]. *)
Definition deviceObject (name ieee : string) (interviewed : bool) : QJsonObject :=
  <["friendly_name" := JString name]>
    (<["ieee_address" := JString ieee]>
       (<["interview_completed" := JBool interviewed]>
          (<["definition" :=
               JObject (<["exposes" := JArray [JObject stateExpose]]> ∅)]> ∅))).

Definition devicesMessage (devices : list QJsonValue) : MqttMessage :=
  mkMessage "" (Some (JArray devices)).

(** The adapter is started and its client reports the connection. *)
Definition connectInputs : list Input :=
  [Start; ClientStateChanged Connected; MqttConnected].

Definition stateOn (now : Z) : Input :=
  MqttMessageReceived (stateMessage "ON") "zigbee2mqtt/lamp" now.

Definition stateOff (now : Z) : Input :=
  MqttMessageReceived (stateMessage "OFF") "zigbee2mqtt/lamp" now.

Definition snapshot (devices : list QJsonValue) (now : Z) : Input :=
  MqttMessageReceived (devicesMessage devices) "zigbee2mqtt/bridge/devices" now.

Definition response (devices : list QJsonValue) (now : Z) : Input :=
  MqttMessageReceived (devicesMessage devices)
    "zigbee2mqtt/bridge/response/devices" now.

Definition lamp : QJsonValue := JObject (deviceObject "lamp" "0x01" true).

Definition lampInInterview : QJsonValue := JObject (deviceObject "lamp" "0x01" false).

Definition plug : QJsonValue := JObject (deviceObject "plug" "0x02" true).

(** The entry that the expose compiler builds for [plug]. *)
Definition plugEntry : Z2mDeviceEntry :=
  Expose.buildDeviceEntry EnumMap.insertionSortCI (deviceObject "plug" "0x02" true).

End World.

(** ** Vocabulary of the device list statements *)

(** The friendly names and the addresses that the elements of a device
    array carry, and the names of the elements that are registered. *)
Definition payloadNames (devices : list QJsonValue) : list string :=
  omap (fun v => match v with JObject obj => Some (friendlyNameOf obj) | _ => None end)
       devices.

Definition payloadAddresses (devices : list QJsonValue) : list string :=
  omap (fun v => match v with JObject obj => Some (ieeeAddressOf obj) | _ => None end)
       devices.

Definition registeredNames (devices : list QJsonValue) : list string :=
  omap (fun v =>
          match v with
          | JObject obj =>
              if negb (QtString.isEmpty (friendlyNameOf obj)) && registrable obj
              then Some (friendlyNameOf obj) else None
          | _ => None
          end) devices.

(** The array mentions the registry entry [k]: an element carries [k] as
    friendly name, or an address that the external-id index maps to
    [k]. *)
Definition mentions (s : Z2mAdapter) (devices : list QJsonValue) (k : string) : bool :=
  bool_decide (k ∈ payloadNames devices)
  || existsb (fun ieee => bool_decide (m_mqttByExternal s !! ieee = Some k))
             (payloadAddresses devices).

(** Every entry of the registry carries the connectivity binding that
    [buildDeviceEntry] adds, and it is the one that the availability
    handlers find. *)
Definition hasConnectivityBinding (entry : Z2mDeviceEntry) : Prop :=
  Adapter.availabilityBindingOf entry = Some Expose.availabilityBinding.

Definition registryOk (s : Z2mAdapter) : Prop :=
  map_Forall (fun _ entry => hasConnectivityBinding entry) (m_devices s).

(** ** Vocabulary of the handler proofs *)

(** [a] emits nothing that the projection [f] selects. *)
Definition omits {X : Type} (f : Effect -> option X) (a : Action) : Prop :=
  forall s, omap f (a s).2 = [].

(** [a] leaves the component [g] of the adapter unchanged. *)
Definition keeps {A : Type} (g : Z2mAdapter -> A) (a : Action) : Prop :=
  forall s, g (a s).1 = g s.

(** [a] leaves [g] unchanged and emits nothing that [f] selects. *)
Definition neutral {A X : Type} (g : Z2mAdapter -> A) (f : Effect -> option X)
    (a : Action) : Prop :=
  forall s, g (a s).1 = g s /\ omap f (a s).2 = [].

(** [a] adds no entry to the external-id index that points to [k]. *)
Definition pointsNoNew (k : string) (a : Action) : Prop :=
  forall s key, m_mqttByExternal (a s).1 !! key = Some k ->
                m_mqttByExternal s !! key = Some k.

(** No binding of the entry is marked as the availability binding. *)
Definition plainBindings (entry : Z2mDeviceEntry) : Prop :=
  forall c b, e_bindingsByChannel entry !! c = Some b -> b_isAvailability b = false.

(** [a] keeps the registry well formed. *)
Definition preservesRegistry (a : Action) : Prop :=
  forall s, registryOk s -> registryOk (a s).1.

(** ** Vocabulary of the further properties *)

(** The literals that an on/off binding sends and recognises: those of
    the expose, or [ON] and [OFF] when the expose names none. *)
Definition onLiteral (binding : Z2mChannelBinding) : string :=
  if negb (QtString.isEmpty (b_valueOn binding))
     || negb (QtString.isEmpty (b_valueOff binding))
  then b_valueOn binding else "ON".

Definition offLiteral (binding : Z2mChannelBinding) : string :=
  if negb (QtString.isEmpty (b_valueOn binding))
     || negb (QtString.isEmpty (b_valueOff binding))
  then b_valueOff binding else "OFF".

(** The binding that the expose compiler builds for one expose of a
    device without other channels. *)
Definition compiledBinding (expose : QJsonObject) (channelId : string)
    : Z2mChannelBinding :=
  default Expose.defaultBinding
    (e_bindingsByChannel
       (Expose.addChannelFromExpose EnumMap.insertionSortCI expose Sample.emptyEntry)
       !! channelId).

(** A dimmer expose with the usual raw range. *)
Definition brightnessExpose : QJsonObject :=
  <["type" := JString "numeric"]>
    (<["property" := JString "brightness"]>
       (<["access" := Json.ofInt 7]>
          (<["value_min" := JDouble 0]>
             (<["value_max" := JDouble 254]> ∅)))).

Definition rockerBinding : Z2mChannelBinding :=
  compiledBinding Sample.rockerExpose "device_mode".

Definition stateBinding : Z2mChannelBinding :=
  compiledBinding World.stateExpose "state".

Definition brightnessBinding : Z2mChannelBinding :=
  compiledBinding brightnessExpose "brightness".

(** Further projections of a trace. *)
Definition actionResultOf (e : Effect) : option CmdResponse :=
  match e with ActionResult r => Some r | _ => None end.

Definition scheduledOf (e : Effect) : option (Z * Task) :=
  match e with SingleShot delay task => Some (delay, task) | _ => None end.

Definition subscriptionOf (e : Effect) : option string :=
  match e with Subscribe topicFilter => Some topicFilter | _ => None end.

Definition fullSyncOf (e : Effect) : option unit :=
  match e with FullSyncCompleted => Some tt | _ => None end.

Definition metaUpdateOf (e : Effect) : option QJsonObject :=
  match e with AdapterMetaUpdated patch => Some patch | _ => None end.

Definition actionResults (es : list Effect) : list CmdResponse := omap actionResultOf es.
Definition scheduled (es : list Effect) : list (Z * Task) := omap scheduledOf es.
Definition subscriptions (es : list Effect) : list string := omap subscriptionOf es.
Definition fullSyncs (es : list Effect) : list unit := omap fullSyncOf es.
Definition metaUpdates (es : list Effect) : list QJsonObject := omap metaUpdateOf es.

(** The two actions that [Z2mAdapter::invokeAdapterAction] handles
    itself, and the request each one publishes. *)
Definition isBridgeAction (actionId : string) : bool :=
  String.eqb actionId "permitJoin" || String.eqb actionId "restartZ2M".

Definition actionRequest (s : Z2mAdapter) (actionId : string) : string * QJsonObject :=
  if String.eqb actionId "restartZ2M"
  then ((m_baseTopic s +:+ "/bridge/request/restart")%string, (∅ : QJsonObject))
  else ((m_baseTopic s +:+ "/bridge/request/permit_join")%string,
        <["time" := Json.ofInt 120]> (<["value" := JBool true]> ∅)).

(** The rename request that [updateDeviceName] publishes. *)
Definition renameRequest (s : Z2mAdapter) (deviceId name : string)
    : string * QJsonObject :=
  ((m_baseTopic s +:+ "/bridge/request/device/rename")%string,
   <["to" := JString (QtString.trimmed name)]>
     (<["from" := JString (default deviceId (m_mqttByExternal s !! deviceId))]> ∅)).

(** The inputs that are signals of the MQTT client carrying traffic. *)
Definition isBrokerTraffic (i : Adapter.Input) : bool :=
  match i with
  | Adapter.MqttConnected | Adapter.MqttMessageReceived _ _ _ => true
  | _ => false
  end.

(** [a], run while the MQTT client is not in its Connected state, leaves
    the client out of that state and sends nothing to the broker. *)
Definition quietOffline (a : Action) : Prop :=
  forall s, Adapter.clientConnected s = false ->
    Adapter.clientConnected (a s).1 = false
    /\ publishes (a s).2 = [] /\ subscriptions (a s).2 = [].

(** The settings that [applyConfig] computes, and the inputs whose
    handlers call it. *)
Definition configOf (s : Z2mAdapter) : Z * string :=
  (m_retryIntervalMs s, m_baseTopic s).

Definition readsConfig (i : Adapter.Input) : bool :=
  match i with
  | Adapter.Start | Adapter.AdapterConfigUpdated => true
  | _ => false
  end.

(** The settings together with the reconnect timer: what the handlers
    of device data leave alone. *)
Definition linkOf (s : Z2mAdapter) : Z * string * option ReconnectTimer :=
  (m_retryIntervalMs s, m_baseTopic s, m_reconnectTimer s).

(** What the handlers of the device list and of device state leave
    alone: the link, and the flag of a requested full sync. *)
Definition dataFrameOf (s : Z2mAdapter) : Z * string * option ReconnectTimer * bool :=
  (m_retryIntervalMs s, m_baseTopic s, m_reconnectTimer s, m_pendingFullSync s).

(** The retry interval is one that [applyConfig] accepts. *)
Definition retryOk (s : Z2mAdapter) : Prop :=
  1000 <= m_retryIntervalMs s <= QtString.INT_MAX.

(** The reconnect timer exists and is running. *)
Definition timerActive (s : Z2mAdapter) : bool :=
  match m_reconnectTimer s with
  | Some t => rt_active t
  | None => false
  end.

(** An action that stops a running reconnect timer only when it leaves
    the adapter connected. *)
Definition timerKept (a : Action) : Prop :=
  forall s, timerActive s = true -> m_connected (a s).1 = false ->
            timerActive (a s).1 = true.

(** The adapter of the sample world after the broker dropped the
    connection. *)
Definition droppedLink : Z2mAdapter :=
  (Adapter.run referencePlatform
     (World.connectInputs ++ [Adapter.MqttDisconnected])
     (initialAdapter World.info)).1.

(** The access bits of an expose, as [addChannelFromExpose] reads them. *)
Definition exposeAccess (expose : QJsonObject) : Z :=
  Json.toInt (Json.value expose "access") Expose.kAccessState.

(** The channel [ch] of the entry has a binding under its id, and the
    two agree on what the channel is. *)
Definition channelBound (e : Z2mDeviceEntry) (ch : Channel) : Prop :=
  exists b, e_bindingsByChannel e !! ch_id ch = Some b
            /\ b_channelId b = ch_id ch
            /\ b_kind b = ch_kind ch
            /\ b_dataType b = ch_dataType ch
            /\ b_flags b = ch_flags ch.

(** What [addChannelFromExpose] keeps of the entry that it extends:
    the channel ids are distinct, every channel is bound, every binding
    belongs to a channel, and on a sensor no measurement is writable. *)
Definition compiledOk (e : Z2mDeviceEntry) : Prop :=
  NoDup (ch_id <$> e_channels e)
  /\ (forall ch, ch ∈ e_channels e -> channelBound e ch)
  /\ (forall c b, e_bindingsByChannel e !! c = Some b ->
        b_channelId b = c
        /\ c ∈ ch_id <$> e_channels e
        /\ (dev_deviceClass (e_device e) = DcSensor ->
            Expose.isSensorMeasurementKind (b_kind b) = true ->
            b_flags b = ChannelFlagDefaultRead)).

(** A temperature sensor whose expose claims to be settable. *)
Definition thermometer : QJsonObject :=
  <["friendly_name" := JString "thermo"]>
    (<["ieee_address" := JString "0x03"]>
       (<["definition" :=
            JObject
              (<["exposes" :=
                   JArray
                     [JObject (<["type" := JString "numeric"]>
                                 (<["property" := JString "temperature"]>
                                    (<["access" := Json.ofInt 3]> ∅)))]]> ∅)]> ∅)).

Definition thermometerEntry : Z2mDeviceEntry :=
  Expose.buildDeviceEntry EnumMap.insertionSortCI thermometer.

(** The property of an expose as [inferDeviceClass] reads it, and the
    properties by which it tells the classes apart. *)
Definition rawProperty (expose : QJsonObject) : string :=
  Json.toString (Json.value expose "property") "".

Definition lightProperties : list string := ["brightness"; "color_temp"; "color"].
Definition switchProperties : list string := ["state"].
Definition buttonProperties : list string := ["action"].
Definition sensorProperties : list string :=
  ["temperature"; "humidity"; "illuminance"; "illumination"; "occupancy";
   "motion"; "co2"].

Definition exposesAny (props : list string) (exposes : list QJsonObject) : bool :=
  existsb (fun expose => existsb (String.eqb (rawProperty expose)) props) exposes.

(** The full syncs that the host asked for in a list of inputs, and the
    one that the adapter still owes. *)
Definition isFullSyncRequest (i : Adapter.Input) : bool :=
  match i with Adapter.RequestFullSync => true | _ => false end.

Definition fullSyncRequests (inputs : list Adapter.Input) : nat :=
  length (filter (fun i => isFullSyncRequest i = true) inputs).

Definition fullSyncOwed (s : Z2mAdapter) : nat :=
  if m_pendingFullSync s then 1%nat else 0%nat.

(** The entry has the channels, the bindings and the device id that
    [buildDeviceEntry] compiles from [obj]. *)
Definition compiledFrom (sort : list string -> list string) (obj : QJsonObject)
    (e : Z2mDeviceEntry) : Prop :=
  e_channels e = e_channels (Expose.buildDeviceEntry sort obj)
  /\ e_bindingsByChannel e = e_bindingsByChannel (Expose.buildDeviceEntry sort obj)
  /\ e_channelByProperty e = e_channelByProperty (Expose.buildDeviceEntry sort obj)
  /\ dev_id (e_device e) = dev_id (e_device (Expose.buildDeviceEntry sort obj)).

(** The entry stored under [k] carries [k] as its friendly name, has a
    device id, and was compiled from some element of a device list. *)
Definition entryOk (sort : list string -> list string) (k : string)
    (e : Z2mDeviceEntry) : Prop :=
  e_mqttId e = k /\ dev_name (e_device e) = k
  /\ QtString.isEmpty (dev_id (e_device e)) = false
  /\ exists obj, compiledFrom sort obj e.

Definition entriesOk (sort : list string -> list string) (s : Z2mAdapter) : Prop :=
  map_Forall (entryOk sort) (m_devices s).

Definition preservesEntries (sort : list string -> list string) (a : Action) : Prop :=
  forall s, entriesOk sort s -> entriesOk sort (a s).1.

(** The parts of a channel update. *)
Definition updateDeviceOf (u : string * string * QVariant * Z) : string := u.1.1.1.
Definition updateChannelOf (u : string * string * QVariant * Z) : string := u.1.1.2.
Definition updateTimeOf (u : string * string * QVariant * Z) : Z := u.2.

(** The element describes the coordinator. *)
Definition isCoordinator (obj : QJsonObject) : bool :=
  QtString.equalsCI (Json.toString (Json.value obj "type") "") "Coordinator".

(** What the steps of a registration before [adoptCoordinator] leave
    alone. *)
Definition infoFrameOf (s : Z2mAdapter) : QJsonObject * string :=
  (m_pendingBridgeInfo s, m_coordinatorId s).

(** The entry is stored under its name, and the index leads to it. *)
Definition indexed (entry : Z2mDeviceEntry) (s : Z2mAdapter) : Prop :=
  m_mqttByExternal s !! dev_id (e_device entry) = Some (e_mqttId entry)
  /\ exists e, m_devices s !! e_mqttId entry = Some e
               /\ e_mqttId e = e_mqttId entry
               /\ dev_id (e_device e) = dev_id (e_device entry).

(** The coordinator of the sample world, and a bridge info payload. *)
Definition coordinatorObject : QJsonObject :=
  <["friendly_name" := JString "Coordinator"]>
    (<["ieee_address" := JString "0x00"]>
       (<["type" := JString "Coordinator"]> ∅)).

Definition bridgeInfo : QJsonObject := <["version" := JString "2.1.0"]> ∅.

Definition bridgeInfoMessage : Adapter.MqttMessage :=
  Adapter.mkMessage "" (Some (JObject bridgeInfo)).

(** The entry [e] is the device of [entry]: same friendly name, device
    id, channels and bindings; the rest of the device record may
    differ. *)
Definition sameDevice (entry e : Z2mDeviceEntry) : Prop :=
  e_mqttId e = e_mqttId entry
  /\ dev_name (e_device e) = dev_name (e_device entry)
  /\ dev_id (e_device e) = dev_id (e_device entry)
  /\ e_channels e = e_channels entry
  /\ e_bindingsByChannel e = e_bindingsByChannel entry
  /\ e_channelByProperty e = e_channelByProperty entry.

(** The registry holds the device of [entry] under its friendly name. *)
Definition storedAs (entry : Z2mDeviceEntry) (s : Z2mAdapter) : Prop :=
  exists e, m_devices s !! e_mqttId entry = Some e /\ sameDevice entry e.

(** The entry that the expose compiler builds for the lamp of the
    sample world, and the element that renames the lamp. *)
Definition lampEntry : Z2mDeviceEntry :=
  Expose.buildDeviceEntry EnumMap.insertionSortCI (World.deviceObject "lamp" "0x01" true).

Definition deskObject : QJsonObject := World.deviceObject "desk" "0x01" true.

(** ** Vocabulary of the codec statements *)

(** A finite binary64 number within [eps] of a rational, as a
    proposition and as a test. *)
Definition closeTo (d : PrimFloat.float) (q eps : Q) : Prop :=
  exists x, Double.exact d = Some x /\ (Qabs (x - q) <= eps)%Q.

Definition closeTob (d : PrimFloat.float) (q eps : Q) : bool :=
  match Double.exact d with
  | Some x => Qle_bool (Qabs (x - q)) eps
  | None => false
  end.

(** The integers from 0 to [n]. *)
Definition upTo (n : Z) : list Z := List.map Z.of_nat (seq 0 (Z.to_nat n + 1)).


(** Encoding a percentage and decoding the raw level again. *)
Definition percentRoundTrip (percent rawMin rawMax : PrimFloat.float)
    : PrimFloat.float :=
  Codec.scaleToPercent (Codec.scaleFromPercent percent rawMin rawMax) rawMin rawMax.

(** ** Vocabulary of the choices of an enum channel *)

(** The raw keys that [addChannelFromExpose] reads from an array of
    values: the non-empty keys, in the order of the array. *)
Definition rawKeysOf (values : list QJsonValue) : list string :=
  List.filter (fun key => negb (QtString.isEmpty key)) (Expose.enumKeyOf <$> values).

Definition exposeRawKeys (expose : QJsonObject) : list string :=
  rawKeysOf (Json.toArray (Json.value expose "values")).

(** A raw key is usable when the fallback map sends it to an integer
    other than 0. *)
Definition usableKey (fallbackMap : gmap string Z) (key : string) : option Z :=
  match fallbackMap !! key with
  | Some v => if v =? 0 then None else Some v
  | None => None
  end.

(** The option shown for a usable raw key: its value in decimal, and the
    label of the named enum or, failing that, the raw key. *)
Definition enumChoice (enumName key : string) (v : Z) : AdapterConfigOption :=
  let label :=
    if negb (QtString.isEmpty enumName) then EnumMap.enumLabelFor enumName v
    else "" in
  mkOption (QtString.number v) (if QtString.isEmpty label then key else label).

Definition enumChoices (enumName : string) (fallbackMap : gmap string Z)
    (rawKeys : list string) : list AdapterConfigOption :=
  omap (fun key => enumChoice enumName key <$> usableKey fallbackMap key) rawKeys.

(** The constant of the named enum that a raw key normalises to, as the
    loop over the values computes it. *)
Definition knownAliasOf (enumName key : string) : option Z :=
  if negb (QtString.isEmpty enumName) then
    if EnumMap.isKnownEnumName enumName "RockerMode" then EnumMap.mapRockerMode key
    else if EnumMap.isKnownEnumName enumName "SensitivityLevel"
    then EnumMap.mapSensitivityLevel key
    else None
  else None.

(** Scenario S6 of the specification: the two rocker modes. *)
Definition deviceModeExpose : QJsonObject :=
  <["type" := JString "enum"]>
    (<["property" := JString "device_mode"]>
       (<["name" := JString "device_mode"]>
          (<["access" := Json.ofInt 7]>
             (<["values" := JArray [JString "single_rocker"; JString "dual_rocker"]]> ∅)))).

(** * Part II: properties *)

(** ** Order of binary64 numbers *)

Module DoubleFacts.

Import PrimFloat SpecFloat FloatOps FloatAxioms.

Local Open Scope float_scope.

(** On the decoded numbers [SFcompare] is a lexicographic order. *)
Lemma SFcompare_trans (a b c : spec_float) :
  SFcompare a b = Some Lt ->
  SFcompare b c = Some Lt \/ SFcompare b c = Some Eq ->
  SFcompare a c = Some Lt.
Proof.
  destruct a as [sa | sa | | sa ma ea], b as [sb | sb | | sb mb eb],
    c as [sc | sc | | sc mc ec];
    cbn; change (Pos.compare_cont Eq) with Pos.compare;
    try (intros H; discriminate H);
    try (intros _ [H | H]; discriminate H);
    repeat match goal with s : bool |- _ => destruct s end;
    try (intros H; discriminate H);
    try (intros _ [H | H]; discriminate H);
    try (intros _ _; reflexivity);
    intros H1 [H2 | H2]; revert H1 H2;
    destruct (Z.compare_spec ea eb), (Z.compare_spec eb ec), (Z.compare_spec ea ec);
    destruct (Pos.compare_spec ma mb), (Pos.compare_spec mb mc),
      (Pos.compare_spec ma mc);
    cbn; intros; try discriminate; try reflexivity; lia.
Qed.

Lemma SFcompare_trans' (a b c : spec_float) :
  SFcompare a b = Some Lt \/ SFcompare a b = Some Eq ->
  SFcompare b c = Some Lt ->
  SFcompare a c = Some Lt.
Proof.
  destruct a as [sa | sa | | sa ma ea], b as [sb | sb | | sb mb eb],
    c as [sc | sc | | sc mc ec];
    cbn; change (Pos.compare_cont Eq) with Pos.compare;
    try (intros _ H; discriminate H);
    try (intros [H | H]; discriminate H);
    repeat match goal with s : bool |- _ => destruct s end;
    try (intros _ H; discriminate H);
    try (intros [H | H]; discriminate H);
    try (intros _ _; reflexivity);
    intros [H1 | H1] H2; revert H1 H2;
    destruct (Z.compare_spec ea eb), (Z.compare_spec eb ec), (Z.compare_spec ea ec);
    destruct (Pos.compare_spec ma mb), (Pos.compare_spec mb mc),
      (Pos.compare_spec ma mc);
    cbn; intros; try discriminate; try reflexivity; lia.
Qed.

Lemma SFcompare_asym (a b : spec_float) :
  SFcompare a b = Some Lt -> SFcompare b a = Some Gt.
Proof.
  destruct a as [sa | sa | | sa ma ea], b as [sb | sb | | sb mb eb];
    cbn; change (Pos.compare_cont Eq) with Pos.compare;
    repeat match goal with s : bool |- _ => destruct s end;
    try (intros H; discriminate H); try (intros _; reflexivity);
    destruct (Z.compare_spec ea eb), (Z.compare_spec eb ea);
    destruct (Pos.compare_spec ma mb), (Pos.compare_spec mb ma);
    cbn; intros; try discriminate; try reflexivity; lia.
Qed.

(** Two numbers that compare equal are the same number, unless they
    are zeros. *)
Lemma SFcompare_Eq (a b : spec_float) :
  SFcompare a b = Some Eq ->
  a = b \/ (exists sa sb, a = S754_zero sa /\ b = S754_zero sb).
Proof.
  destruct a as [sa | sa | | sa ma ea], b as [sb | sb | | sb mb eb];
    cbn; change (Pos.compare_cont Eq) with Pos.compare;
    try (intros H; discriminate H);
    try (intros _; right; eauto; fail);
    repeat match goal with s : bool |- _ => destruct s end;
    try (intros H; discriminate H); try (intros _; left; reflexivity);
    destruct (Z.compare_spec ea eb); destruct (Pos.compare_spec ma mb);
    cbn; intros; try discriminate; left; subst; reflexivity.
Qed.

Lemma ltb_Lt (x y : float) :
  (x <? y) = true <-> SFcompare (Prim2SF x) (Prim2SF y) = Some Lt.
Proof.
  rewrite ltb_spec. unfold SFltb.
  destruct (SFcompare (Prim2SF x) (Prim2SF y)) as [[] |]; split; congruence.
Qed.

Lemma leb_Le (x y : float) :
  (x <=? y) = true
  <-> SFcompare (Prim2SF x) (Prim2SF y) = Some Lt
      \/ SFcompare (Prim2SF x) (Prim2SF y) = Some Eq.
Proof.
  rewrite leb_spec. unfold SFleb.
  destruct (SFcompare (Prim2SF x) (Prim2SF y)) as [[] |]; split;
    try tauto; try congruence; intros [H | H]; congruence.
Qed.

Lemma ltb_leb_trans (x y z : float) :
  (x <? y) = true -> (y <=? z) = true -> (x <? z) = true.
Proof.
  rewrite !ltb_Lt, leb_Le. apply SFcompare_trans.
Qed.

Lemma leb_ltb_trans (x y z : float) :
  (x <=? y) = true -> (y <? z) = true -> (x <? z) = true.
Proof.
  rewrite !ltb_Lt, leb_Le. apply SFcompare_trans'.
Qed.

Lemma ltb_not_leb (x y : float) : (x <? y) = true -> (y <=? x) = false.
Proof.
  rewrite ltb_Lt. intros H. apply SFcompare_asym in H.
  rewrite leb_spec. unfold SFleb. rewrite H. reflexivity.
Qed.

Lemma leb_not_ltb (x y : float) : (x <=? y) = true -> (y <? x) = false.
Proof.
  intros H. destruct (y <? x) eqn:E; [| reflexivity].
  apply ltb_not_leb in E. congruence.
Qed.

(** Two numbers that are [<=] and not [<] are the same number, unless
    they are zeros. *)
Lemma Prim2SF_same (x y : float) :
  (x <=? y) = true -> (x <? y) = false -> is_zero x = false -> x = y.
Proof.
  rewrite leb_Le. intros [H | H] Hxy Hnz.
  - apply ltb_Lt in H. congruence.
  - apply SFcompare_Eq in H as [H | (sa & sb & Ha & Hb)].
    + apply Prim2SF_inj. exact H.
    + exfalso. apply (f_equal SF2Prim) in Ha. rewrite SF2Prim_Prim2SF in Ha.
      subst x. destruct sa; discriminate Hnz.
Qed.

Lemma ltb_nan_r (x : float) : (x <? nan) = false.
Proof.
  rewrite ltb_spec. unfold SFltb.
  replace (Prim2SF nan) with S754_nan by reflexivity.
  destruct (Prim2SF x); reflexivity.
Qed.

Lemma ltb_nan_l (x : float) : (nan <? x) = false.
Proof. rewrite ltb_spec. reflexivity. Qed.

End DoubleFacts.

(** ** Brightness scaling *)

Module CodecFacts.

Import Codec.

(** *** The codec in exact arithmetic *)

Section Exact.

Local Open Scope Q_scope.








End Exact.

(** *** The codec in binary64 *)

Lemma closeTob_sound (d : PrimFloat.float) (q eps : Q) :
  closeTob d q eps = true -> closeTo d q eps.
Proof.
  unfold closeTob, closeTo. destruct (Double.exact d) as [x |]; [| discriminate].
  intros H. exists x. split; [reflexivity |]. apply Qle_bool_iff. exact H.
Qed.

Lemma upTo_forallb (f : Z -> bool) (n : Z) :
  forallb f (upTo n) = true -> forall z, 0 <= z <= n -> f z = true.
Proof.
  intros Hall z Hz. rewrite forallb_forall in Hall. apply Hall.
  unfold upTo. apply in_map_iff. exists (Z.to_nat z).
  split; [lia |]. apply in_seq. lia.
Qed.


Import PrimFloat.

(** Scenario S2 of the specification: raw 127 of 0..254 is 50 per cent,
    75 per cent is raw 190.5. *)
Example scaleToPercent_127 : scaleToPercent 127 0 254 = 50%float.
Proof. reflexivity. Qed.

Example scaleFromPercent_75 : scaleFromPercent 75 0 254 = 190.5%float.
Proof. reflexivity. Qed.







End CodecFacts.

(** ** Elementary facts on actions *)

Module ActionFacts.

Lemma andThen_run (a b : Action) (s : Z2mAdapter) :
  (a >> b) s = ((b (a s).1).1, (a s).2 ++ (b (a s).1).2).
Proof.
  unfold andThen. destruct (a s) as [s1 e1]. simpl.
  destruct (b s1) as [s2 e2]. reflexivity.
Qed.

Lemma forEach_nil {A : Type} (body : A -> Action) (s : Z2mAdapter) :
  forEach [] body s = (s, []).
Proof. reflexivity. Qed.

Lemma forEach_cons {A : Type} (x : A) (l : list A) (body : A -> Action)
    (s : Z2mAdapter) :
  forEach (x :: l) body s
  = ((forEach l body (body x s).1).1,
     (body x s).2 ++ (forEach l body (body x s).1).2).
Proof. simpl. apply andThen_run. Qed.

Lemma cmdResults_app (e1 e2 : list Effect) :
  cmdResults (e1 ++ e2) = cmdResults e1 ++ cmdResults e2.
Proof. unfold cmdResults. apply omap_app. Qed.

Lemma channelUpdates_app (e1 e2 : list Effect) :
  channelUpdates (e1 ++ e2) = channelUpdates e1 ++ channelUpdates e2.
Proof. unfold channelUpdates. apply omap_app. Qed.

Lemma connectionChanges_app (e1 e2 : list Effect) :
  connectionChanges (e1 ++ e2) = connectionChanges e1 ++ connectionChanges e2.
Proof. unfold connectionChanges. apply omap_app. Qed.

Lemma removedDevices_app (e1 e2 : list Effect) :
  removedDevices (e1 ++ e2) = removedDevices e1 ++ removedDevices e2.
Proof. unfold removedDevices. apply omap_app. Qed.

Lemma appliedPayloads_app (e1 e2 : list Effect) :
  appliedPayloads (e1 ++ e2) = appliedPayloads e1 ++ appliedPayloads e2.
Proof. unfold appliedPayloads. apply omap_app. Qed.

Lemma publishes_app (e1 e2 : list Effect) :
  publishes (e1 ++ e2) = publishes e1 ++ publishes e2.
Proof. unfold publishes. apply omap_app. Qed.

Lemma deviceUpdates_app (e1 e2 : list Effect) :
  deviceUpdates (e1 ++ e2) = deviceUpdates e1 ++ deviceUpdates e2.
Proof. unfold deviceUpdates. apply omap_app. Qed.

End ActionFacts.

(** ** The command pipeline *)

Module CommandFacts.

Import QtString Adapter Spec ActionFacts.

Section WithPlatform.

Variable P : Platform.

Lemma publishCommand_effects (mqttId : string) (payload : QJsonObject)
    (endpoint : string) (s : Z2mAdapter) :
  clientConnected s = true ->
  publishCommand P mqttId payload endpoint s
  = (if publishResult P (m_publishCount s) (setTopic s mqttId endpoint) payload <? 0
     then Some "MQTT publish failed." else None,
     set_publishCount (S (m_publishCount s)) s,
     [Publish (setTopic s mqttId endpoint) payload
        (publishResult P (m_publishCount s) (setTopic s mqttId endpoint) payload)]).
Proof.
  intros Hc. unfold publishCommand, setTopic, publish. rewrite Hc. simpl.
  destruct (isEmpty endpoint); simpl;
    match goal with |- context [?x <? 0] => destruct (x <? 0) end; reflexivity.
Qed.

(** C1. Every call of [updateChannelState] emits exactly one
    [CmdResponse], with [id = cmdId], and its status is decided by the
    first failing check in the order: device not resolvable
    (NotSupported), no binding for the channel (NotSupported), binding
    not writable (NotSupported), adapter not connected
    (TemporarilyOffline), payload encoding fails (InvalidArgument),
    MQTT publish fails (Failure), otherwise Success. *)
Theorem updateChannelState_single_response
    (s : Z2mAdapter) (deviceExternalId channelExternalId : string)
    (value : QVariant) (cmdId now : Z) :
  exists response,
    cmdResults
      (updateChannelState P deviceExternalId channelExternalId value cmdId now s).2
    = [response]
    /\ resp_id response = cmdId
    /\ CommandOutcome P s deviceExternalId channelExternalId value
         (resp_status response).
Proof.
  unfold updateChannelState, respond, emit.
  fold (resolveMqttId s deviceExternalId).
  destruct (m_devices s !! resolveMqttId s deviceExternalId) as [entry |] eqn:Hdev.
  2: { eexists. split; [reflexivity |]. split; [reflexivity |].
       apply UnknownDevice. exact Hdev. }
  destruct (e_bindingsByChannel entry !! channelExternalId) as [binding |] eqn:Hbind.
  2: { eexists. split; [reflexivity |]. split; [reflexivity |].
       eapply UnknownChannel; eassumption. }
  destruct (testFlag (b_flags binding) ChannelFlagWritable) eqn:Hw; simpl.
  2: { eexists. split; [reflexivity |]. split; [reflexivity |].
       eapply ReadOnlyChannel; eassumption. }
  destruct (m_connected s) eqn:Hconn; simpl.
  2: { eexists. split; [reflexivity |]. split; [reflexivity |].
       eapply NotConnected; try eassumption.
       unfold commandPathConnected. rewrite Hconn. reflexivity. }
  destruct (clientConnected s) eqn:Hcl; simpl.
  2: { eexists. split; [reflexivity |]. split; [reflexivity |].
       eapply NotConnected; try eassumption.
       unfold commandPathConnected. rewrite Hconn, Hcl. reflexivity. }
  assert (Hon : commandPathConnected s = true)
    by (unfold commandPathConnected; rewrite Hconn, Hcl; reflexivity).
  destruct (buildCommandPayload P deviceExternalId binding value)
    as [payload | errorString] eqn:Henc.
  2: { eexists. split; [reflexivity |]. split; [reflexivity |].
       eapply EncodingFails; eassumption. }
  rewrite (publishCommand_effects _ _ _ _ Hcl).
  destruct (publishResult P (m_publishCount s)
              (setTopic s (resolveMqttId s deviceExternalId) (b_endpoint binding))
              payload <? 0) eqn:Hpub.
  - eexists. split; [reflexivity |]. split; [reflexivity |].
    eapply PublishFails; try eassumption.
    unfold publishFails. apply Z.ltb_lt. exact Hpub.
  - eexists. split; [reflexivity |]. split; [reflexivity |].
    eapply Accepted; try eassumption.
    unfold publishFails. apply Z.ltb_ge in Hpub. lia.
Qed.

End WithPlatform.

End CommandFacts.

(** ** What a handler leaves out of its trace *)

Module TraceFacts.

Import QtString Adapter ActionFacts.

Section Omits.

Context {X : Type} (f : Effect -> option X).

Lemma omits_skip : omits f skip.
Proof. intros s. reflexivity. Qed.

Lemma omits_modify (g : Z2mAdapter -> Z2mAdapter) : omits f (modify g).
Proof. intros s. reflexivity. Qed.

Lemma omits_emit (e : Effect) : f e = None -> omits f (emit e).
Proof. intros He s. simpl. rewrite He. reflexivity. Qed.

Lemma omits_andThen (a b : Action) : omits f a -> omits f b -> omits f (a >> b).
Proof.
  intros Ha Hb s. rewrite andThen_run. simpl.
  rewrite omap_app, Ha, Hb. reflexivity.
Qed.

Lemma omits_forEach {A : Type} (l : list A) (body : A -> Action) :
  (forall x, omits f (body x)) -> omits f (forEach l body).
Proof.
  intros Hbody. induction l as [| x l IH]; simpl.
  - apply omits_skip.
  - apply omits_andThen; [apply Hbody | exact IH].
Qed.

Lemma omits_pointwise (a : Action) (b : Z2mAdapter -> Action) :
  (forall s, a s = b s s) -> (forall t, omits f (b t)) -> omits f a.
Proof. intros Heq Hb s. rewrite Heq. apply Hb. Qed.

End Omits.

Section Keeps.

Context {A : Type} (g : Z2mAdapter -> A).

Lemma keeps_skip : keeps g skip.
Proof. intros s. reflexivity. Qed.

Lemma keeps_emit (e : Effect) : keeps g (emit e).
Proof. intros s. reflexivity. Qed.

Lemma keeps_modify (h : Z2mAdapter -> Z2mAdapter) :
  (forall s, g (h s) = g s) -> keeps g (modify h).
Proof. intros Hh s. apply Hh. Qed.

Lemma keeps_andThen (a b : Action) : keeps g a -> keeps g b -> keeps g (a >> b).
Proof.
  intros Ha Hb s. rewrite andThen_run. simpl. rewrite Hb, Ha. reflexivity.
Qed.

Lemma keeps_forEach {B : Type} (l : list B) (body : B -> Action) :
  (forall x, keeps g (body x)) -> keeps g (forEach l body).
Proof.
  intros Hbody. induction l as [| x l IH]; simpl.
  - apply keeps_skip.
  - apply keeps_andThen; [apply Hbody | exact IH].
Qed.

End Keeps.

Section Neutral.

Context {A X : Type} (g : Z2mAdapter -> A) (f : Effect -> option X).

Lemma neutral_skip : neutral g f skip.
Proof. intros s. split; reflexivity. Qed.

Lemma neutral_emit (e : Effect) : f e = None -> neutral g f (emit e).
Proof. intros He s. simpl. rewrite He. split; reflexivity. Qed.

Lemma neutral_modify (h : Z2mAdapter -> Z2mAdapter) :
  (forall s, g (h s) = g s) -> neutral g f (modify h).
Proof. intros Hh s. split; [apply Hh | reflexivity]. Qed.

Lemma neutral_andThen (a b : Action) :
  neutral g f a -> neutral g f b -> neutral g f (a >> b).
Proof.
  intros Ha Hb s. rewrite andThen_run. simpl.
  destruct (Ha s) as [Ha1 Ha2]. destruct (Hb (a s).1) as [Hb1 Hb2].
  split; [congruence |]. rewrite omap_app, Ha2, Hb2. reflexivity.
Qed.

Lemma neutral_forEach {B : Type} (l : list B) (body : B -> Action) :
  (forall x, neutral g f (body x)) -> neutral g f (forEach l body).
Proof.
  intros Hbody. induction l as [| x l IH]; simpl.
  - apply neutral_skip.
  - apply neutral_andThen; [apply Hbody | exact IH].
Qed.

Lemma neutral_keeps (a : Action) : neutral g f a -> keeps g a.
Proof. intros Ha s. apply Ha. Qed.

Lemma neutral_omits (a : Action) : neutral g f a -> omits f a.
Proof. intros Ha s. apply Ha. Qed.

End Neutral.

(** Proof search for [neutral]: follow the structure of the handler,
    split its conditionals, close the leaves by computation. *)
Ltac neutral_leaf := simpl; split; reflexivity.

Ltac neutral_with known :=
  repeat first
    [ apply neutral_skip
    | apply neutral_emit; reflexivity
    | known
    | apply neutral_andThen
    | apply neutral_forEach; intros ?
    | apply neutral_modify; intros ?
    | match goal with
      | |- neutral _ _ (fun _ => _) => intros ?; cbv beta
      | |- neutral _ _ (match ?c with _ => _ end) => destruct c
      | |- neutral _ _ (let '(_, _) := ?c in _) => destruct c
      | |- _ /\ _ =>
          match goal with
          | |- context [match ?c with _ => _ end] => destruct c eqn:?
          end
      | |- _ = _ =>
          match goal with
          | |- context [match ?c with _ => _ end] => destruct c eqn:?
          end
      end
    | neutral_leaf ].

Ltac neutral_tac := neutral_with fail.

(** Case analysis on every [match] and [if] of a goal about a handler
    whose trace is a finite list. *)
Ltac split_cases :=
  repeat (simpl;
          match goal with
          | |- context [match ?x with _ => _ end] => destruct x eqn:?
          end);
  simpl; try reflexivity.

End TraceFacts.

(** ** Commands do not update channels locally *)

Module CommandFrame.

Import QtString Adapter Spec ActionFacts TraceFacts CommandFacts.

Section WithPlatform.

Variable P : Platform.

Abbreviation quiet := (omits channelUpdateOf).

Lemma quiet_setConnected (c : bool) : quiet (setConnected c).
Proof.
  intros s. unfold setConnected.
  destruct (Bool.eqb (m_connected s) c); [reflexivity |].
  apply omits_andThen; [apply omits_modify |].
  apply omits_andThen; [| apply omits_emit; reflexivity].
  destruct c; [apply omits_modify | apply omits_skip].
Qed.

Lemma quiet_updateConnectionState : quiet updateConnectionState.
Proof. intros s. apply quiet_setConnected. Qed.

Lemma quiet_connectToBroker : quiet connectToBroker.
Proof. intros s. unfold connectToBroker. split_cases. Qed.

Lemma quiet_disconnectFromBroker : quiet disconnectFromBroker.
Proof. intros s. unfold disconnectFromBroker. split_cases. Qed.

Lemma quiet_publish_ (topic : string) (payload : QJsonObject) :
  quiet (publish_ P topic payload).
Proof. intros s. reflexivity. Qed.

Lemma quiet_start : quiet (start).
Proof.
  unfold start, applyConfig.
  repeat apply omits_andThen; try apply omits_modify.
  apply quiet_connectToBroker.
Qed.

Lemma quiet_stop : quiet stop.
Proof.
  unfold stop, stopReconnectTimer.
  repeat apply omits_andThen; try apply omits_modify.
  - apply quiet_disconnectFromBroker.
  - apply quiet_updateConnectionState.
Qed.

Lemma quiet_adapterConfigUpdated : quiet adapterConfigUpdated.
Proof.
  unfold adapterConfigUpdated, applyConfig.
  repeat apply omits_andThen; try apply omits_modify.
  - apply quiet_disconnectFromBroker.
  - apply quiet_connectToBroker.
Qed.

Lemma quiet_requestFullSync : quiet (requestFullSync P).
Proof.
  unfold requestFullSync.
  repeat apply omits_andThen; try apply omits_modify.
  - intros s. destruct (clientConnected s); reflexivity.
  - intros s. apply omits_forEach. intros x. apply omits_emit. reflexivity.
Qed.

Lemma updateChannelState_trace (s : Z2mAdapter)
    (deviceExternalId channelExternalId : string) (value : QVariant)
    (cmdId now : Z) :
  onlyResponsesAndPublishes
    (updateChannelState P deviceExternalId channelExternalId value cmdId now s).2
  /\ m_devices
       (updateChannelState P deviceExternalId channelExternalId value cmdId now s).1
     = m_devices s.
Proof.
  unfold updateChannelState, respond, emit, onlyResponsesAndPublishes.
  fold (resolveMqttId s deviceExternalId).
  destruct (m_devices s !! resolveMqttId s deviceExternalId) as [entry |];
    [| split; [repeat constructor | reflexivity]].
  destruct (e_bindingsByChannel entry !! channelExternalId) as [binding |];
    [| split; [repeat constructor | reflexivity]].
  destruct (testFlag (b_flags binding) ChannelFlagWritable); simpl;
    [| split; [repeat constructor | reflexivity]].
  destruct (m_connected s); simpl;
    [| split; [repeat constructor | reflexivity]].
  destruct (clientConnected s) eqn:Hcl; simpl;
    [| split; [repeat constructor | reflexivity]].
  destruct (buildCommandPayload P deviceExternalId binding value);
    [| split; [repeat constructor | reflexivity]].
  rewrite (publishCommand_effects _ _ _ _ _ Hcl).
  match goal with |- context [?x <? 0] => destruct (x <? 0) end; simpl;
    (split; [repeat constructor; (left; reflexivity) || (right; reflexivity)
            | reflexivity]).
Qed.

Lemma onlyResponsesAndPublishes_quiet (es : list Effect) :
  onlyResponsesAndPublishes es -> channelUpdates es = [].
Proof.
  induction 1 as [| e es He _ IH]; [reflexivity |].
  unfold channelUpdates. simpl.
  destruct e; simpl in He; destruct He as [He | He]; try discriminate;
    exact IH.
Qed.

Lemma quiet_updateChannelState (d c : string) (v : QVariant) (cmdId now : Z) :
  quiet (updateChannelState P d c v cmdId now).
Proof.
  intros s. apply (onlyResponsesAndPublishes_quiet _).
  apply updateChannelState_trace.
Qed.

Lemma quiet_postSetRefresh (mqttId : string) : quiet (postSetRefresh P mqttId).
Proof. intros s. unfold postSetRefresh. destruct (clientConnected s); reflexivity. Qed.

Lemma quiet_updateDeviceName (d n : string) (cmdId now : Z) :
  quiet (updateDeviceName P d n cmdId now).
Proof.
  intros s. unfold updateDeviceName, respond, emit, publish.
  split_cases.
Qed.

Lemma quiet_invokeAdapterAction (a : string) (p : QJsonObject) (cmdId now : Z) :
  quiet (invokeAdapterAction P a p cmdId now).
Proof.
  intros s. unfold invokeAdapterAction, publish.
  split_cases.
Qed.

Lemma quiet_onMqttConnected : quiet (onMqttConnected P).
Proof.
  unfold onMqttConnected.
  repeat apply omits_andThen; try apply omits_modify.
  - apply quiet_updateConnectionState.
  - intros s. unfold ensureSubscriptions. destruct (clientConnected s); reflexivity.
  - intros s. reflexivity.
Qed.

Lemma quiet_onMqttDisconnected : quiet onMqttDisconnected.
Proof.
  unfold onMqttDisconnected, scheduleReconnect.
  repeat apply omits_andThen; try apply omits_modify.
  apply quiet_updateConnectionState.
Qed.

Lemma quiet_withClient (a : Action) : quiet a -> quiet (withClient a).
Proof. intros Ha s. unfold withClient. destruct (m_client s); [apply Ha | reflexivity]. Qed.

Lemma quiet_renameTimeout (d : string) (now : Z) : quiet (renameTimeout d now).
Proof. intros s. unfold renameTimeout. split_cases. Qed.

(** C8. A call of [updateChannelState] by itself never emits
    [channelStateUpdated]: its trace holds command responses and
    publishes only and the registry is left as it was; the refresh timer
    it arms only publishes; and a step of the adapter that does not
    handle an inbound MQTT message (or the availability default deferred
    by the bridge/devices handler) emits no [channelStateUpdated]. *)
Theorem command_emits_no_channel_update :
  (forall s deviceExternalId channelExternalId value cmdId now,
     let result :=
       updateChannelState P deviceExternalId channelExternalId value cmdId now s in
     channelUpdates result.2 = []
     /\ onlyResponsesAndPublishes result.2
     /\ m_devices result.1 = m_devices s)
  /\ (forall s mqttId,
        channelUpdates (step P (PostSetRefreshTimeout mqttId) s).2 = [])
  /\ (forall s i, messageDriven i \/ channelUpdates (step P i s).2 = []).
Proof.
  split; [| split].
  - intros s d c v cmdId now result. subst result.
    split; [apply quiet_updateChannelState | apply updateChannelState_trace].
  - intros s mqttId. simpl.
    destruct (m_postSetRefreshTimers s !! mqttId) as [[|] |]; try reflexivity.
    apply (omits_andThen _ _ _ (omits_modify _ _) (quiet_postSetRefresh mqttId)).
  - intros s i.
    destruct i as [| | | | d c v cmdId now | d n cmdId now | a p cmdId now | st
                   | | | m t now | | mqttId | [d | a l e c] now];
      simpl; try (left; exact I); right.
    + apply quiet_start.
    + apply quiet_stop.
    + apply quiet_adapterConfigUpdated.
    + apply quiet_requestFullSync.
    + apply quiet_updateChannelState.
    + apply quiet_updateDeviceName.
    + apply quiet_invokeAdapterAction.
    + reflexivity.
    + apply quiet_withClient, quiet_onMqttConnected.
    + apply quiet_withClient, quiet_onMqttDisconnected.
    + simpl. destruct (m_reconnectTimer s) as [t |]; [| reflexivity].
      destruct (rt_active t); [apply quiet_connectToBroker | reflexivity].
    + simpl.
      destruct (m_postSetRefreshTimers s !! mqttId) as [[|] |]; try reflexivity.
      apply (omits_andThen _ _ _ (omits_modify _ _) (quiet_postSetRefresh mqttId)).
    + apply quiet_renameTimeout.
Qed.

End WithPlatform.

End CommandFrame.

(** ** Full sync requests *)

Module FullSyncFacts.

Import QtString Adapter ActionFacts TraceFacts.

Section WithPlatform.

Variable P : Platform.

Lemma announce_all (l : list (string * Z2mDeviceEntry)) (s : Z2mAdapter) :
  forEach l (fun kv => emit (DeviceUpdated (e_device kv.2) (e_channels kv.2))) s
  = (s, map (fun kv => DeviceUpdated (e_device kv.2) (e_channels kv.2)) l).
Proof.
  induction l as [| kv l IH]; [reflexivity |].
  rewrite forEach_cons. simpl. rewrite IH. reflexivity.
Qed.

Lemma deviceUpdates_announcements (l : list (string * Z2mDeviceEntry)) :
  deviceUpdates (map (fun kv => DeviceUpdated (e_device kv.2) (e_channels kv.2)) l)
  = map announcement l.
Proof. induction l as [| kv l IH]; [reflexivity |]. simpl. f_equal. exact IH. Qed.

Lemma publishes_announcements (l : list (string * Z2mDeviceEntry)) :
  publishes (map (fun kv => DeviceUpdated (e_device kv.2) (e_channels kv.2)) l) = [].
Proof. induction l as [| kv l IH]; [reflexivity |]. exact IH. Qed.

Lemma requestFullSync_run (s : Z2mAdapter) :
  (requestFullSync P s).2
  = (if clientConnected s
     then [Publish (m_baseTopic s +:+ "/bridge/request/devices") ∅
             (publishResult P (m_publishCount s)
                (m_baseTopic s +:+ "/bridge/request/devices") ∅)]
     else [])
    ++ map (fun kv => DeviceUpdated (e_device kv.2) (e_channels kv.2))
           (map_to_list (m_devices s)).
Proof.
  unfold requestFullSync. rewrite !andThen_run. simpl.
  change (clientConnected (set_pendingFullSync true s)) with (clientConnected s).
  destruct (clientConnected s); simpl; rewrite announce_all; reflexivity.
Qed.

(** C9. [requestFullSync] emits [deviceUpdated] for every device of the
    registry, with the stored channel list, whatever the state of the
    MQTT client; the request on [bridge/request/devices] is published
    exactly when the client is in its Connected state. *)
Theorem requestFullSync_announces_registry (s : Z2mAdapter) :
  deviceUpdates (requestFullSync P s).2 = map announcement (map_to_list (m_devices s))
  /\ map_Forall
       (fun _ entry =>
          (e_device entry, e_channels entry) ∈ deviceUpdates (requestFullSync P s).2)
       (m_devices s)
  /\ publishes (requestFullSync P s).2
     = (if clientConnected s
        then [(m_baseTopic s +:+ "/bridge/request/devices", ∅)] else []).
Proof.
  rewrite requestFullSync_run, deviceUpdates_app, publishes_app.
  rewrite deviceUpdates_announcements, publishes_announcements.
  assert (Hnone : deviceUpdates
            (if clientConnected s
             then [Publish (m_baseTopic s +:+ "/bridge/request/devices") ∅
                     (publishResult P (m_publishCount s)
                        (m_baseTopic s +:+ "/bridge/request/devices") ∅)]
             else []) = []) by (destruct (clientConnected s); reflexivity).
  rewrite Hnone. simpl.
  split; [reflexivity |]. split.
  - intros k entry Hk.
    apply (list_elem_of_fmap_2 announcement _ (k, entry)).
    apply elem_of_map_to_list. exact Hk.
  - destruct (clientConnected s); reflexivity.
Qed.

End WithPlatform.

End FullSyncFacts.

(** ** State ingest and bridge info: shape of the trace, frame of the state *)

Module IngestFacts.

Import QtString Adapter ActionFacts TraceFacts.

Lemma omap_none {X : Type} (f : Effect -> option X) (es : list Effect) :
  Forall (fun e => f e = None) es -> omap f es = [].
Proof.
  induction 1 as [| e es He _ IH]; [reflexivity |].
  simpl. rewrite He. exact IH.
Qed.

Lemma Forall_flat_map {A B : Type} (Q : B -> Prop) (h : A -> list B) (l : list A) :
  (forall x, Forall Q (h x)) -> Forall Q (flat_map h l).
Proof.
  intros Hh. induction l as [| x l IH]; simpl; [constructor |].
  apply Forall_app. split; [apply Hh | exact IH].
Qed.

Section WithPlatform.

Variable P : Platform.

Lemma bindingUpdate_shape (externalId : string) (payload : QJsonObject) (tsMs : Z)
    (binding : Z2mChannelBinding) :
  Forall (fun e => isIngestSignal e = true)
         (bindingUpdate P externalId payload tsMs binding).
Proof.
  unfold bindingUpdate.
  destruct (b_isAvailability binding); [constructor |].
  destruct (String.eqb (b_channelId binding) "device_software_update").
  - destruct (Json.value payload "update"); repeat constructor.
  - destruct (Json.isUndefined _); [constructor |].
    destruct (decodeValue P binding _); repeat constructor.
Qed.

(** The state payload of a known device: the entry is rewritten in
    place with the same bindings and device id, and the trace starts
    with the replay marker. *)
Lemma handleDeviceStatePayload_known (d : string) (payload : QJsonObject) (ts : Z)
    (s : Z2mAdapter) (entry : Z2mDeviceEntry) :
  m_devices s !! d = Some entry ->
  exists entry' es,
    handleDeviceStatePayload P d payload ts s
    = (set_devices (<[d := entry']> (m_devices s)) s,
       StatePayloadApplied d payload ts :: es)
    /\ Forall (fun e => isIngestSignal e = true) es
    /\ e_bindingsByChannel entry' = e_bindingsByChannel entry
    /\ e_mqttId entry' = e_mqttId entry
    /\ dev_id (e_device entry') = dev_id (e_device entry).
Proof.
  intros Hd. unfold handleDeviceStatePayload. rewrite Hd.
  eexists _, _. split; [reflexivity |].
  repeat split; try reflexivity.
  apply Forall_app. split; [destruct (_ || _); repeat constructor |].
  apply Forall_app. split.
  - destruct (availabilityBindingOf _); [| constructor].
    destruct (connectivityOf P payload ts); repeat constructor.
  - apply Forall_flat_map. intros b. apply bindingUpdate_shape.
Qed.

Lemma ingest_signals_project {X : Type} (f : Effect -> option X) (es : list Effect) :
  (forall dv cs, f (DeviceUpdated dv cs) = None) ->
  (forall dv c v t, f (ChannelStateUpdated dv c v t) = None) ->
  Forall (fun e => isIngestSignal e = true) es -> omap f es = [].
Proof.
  intros Hdu Hcu Hes. apply omap_none.
  eapply Forall_impl; [exact Hes |].
  intros e He. destruct e; try discriminate; [apply Hdu | apply Hcu].
Qed.

Lemma handleDeviceStatePayload_unknown (d : string) (payload : QJsonObject) (ts : Z)
    (s : Z2mAdapter) :
  m_devices s !! d = None ->
  handleDeviceStatePayload P d payload ts s
  = (set_pendingStatePayloads (<[d := payload]> (m_pendingStatePayloads s)) s, []).
Proof. intros Hd. unfold handleDeviceStatePayload. rewrite Hd. reflexivity. Qed.

End WithPlatform.

End IngestFacts.

(** ** The connection state machine *)

Module ConnectionFacts.

Import QtString Adapter ActionFacts TraceFacts IngestFacts.

Section WithPlatform.

Variable P : Platform.

Abbreviation flagNeutral := (neutral connectionFlags connectionChangeOf).

Lemma flagNeutral_publish_ (topic : string) (payload : QJsonObject) :
  flagNeutral (publish_ P topic payload).
Proof. intros s. split; reflexivity. Qed.

Lemma flagNeutral_handleDeviceStatePayload (d : string) (p : QJsonObject) (ts : Z) :
  flagNeutral (handleDeviceStatePayload P d p ts).
Proof.
  intros s. destruct (m_devices s !! d) as [entry |] eqn:Hd.
  - destruct (handleDeviceStatePayload_known P d p ts s entry Hd)
      as (entry' & es & -> & Hes & _).
    split; [reflexivity |]. simpl.
    apply ingest_signals_project; [reflexivity | reflexivity | exact Hes].
  - rewrite (handleDeviceStatePayload_unknown P d p ts s Hd). split; reflexivity.
Qed.

Lemma flagNeutral_handleBridgeInfoPayload (p : QJsonObject) (ts : Z) :
  flagNeutral (handleBridgeInfoPayload p ts).
Proof.
  intros s. unfold handleBridgeInfoPayload.
  destruct (isEmpty (m_coordinatorId s)); [split; reflexivity |].
  destruct (m_devices s !! _) as [entry |]; [| split; reflexivity].
  split; [reflexivity |]. simpl.
  rewrite !omap_app.
  repeat match goal with
         | |- context [match ?c with _ => _ end] => destruct c
         end; reflexivity.
Qed.

Lemma flagNeutral_registerDevice (obj : QJsonObject) (deviceId ieee : string)
    (now : Z) :
  flagNeutral (registerDevice P obj deviceId ieee now).
Proof.
  unfold registerDevice, forgetPreviousName, migratePendingState,
    confirmPendingRename, storeEntry, replayPendingState,
    scheduleAvailabilityDefault, adoptCoordinator.
  neutral_with ltac:(first [ apply flagNeutral_handleDeviceStatePayload
                           | apply flagNeutral_handleBridgeInfoPayload ]).
Qed.

Lemma flagNeutral_removeDevice (k : string) (entry : Z2mDeviceEntry) :
  flagNeutral (removeDevice k entry).
Proof. unfold removeDevice. neutral_tac. Qed.

Lemma flagNeutral_bridgeDeviceStep (now : Z) (value : QJsonValue) (seen : gset string) :
  flagNeutral (bridgeDeviceStep P now value seen).2.
Proof.
  unfold bridgeDeviceStep.
  destruct value; try apply neutral_skip.
  destruct (isEmpty _); [apply neutral_skip |].
  destruct (_ || _); simpl.
  - unfold dropDevice. neutral_with ltac:(apply flagNeutral_removeDevice).
  - apply flagNeutral_registerDevice.
Qed.

Lemma flagNeutral_bridgeDevicesLoop (now : Z) (devices : list QJsonValue)
    (seen : gset string) :
  flagNeutral (bridgeDevicesLoop P now devices seen).2.
Proof.
  revert seen. induction devices as [| value rest IH]; intros seen; simpl.
  - apply neutral_skip.
  - pose proof (flagNeutral_bridgeDeviceStep now value seen) as Hstep.
    destruct (bridgeDeviceStep P now value seen) as [seen1 a1].
    specialize (IH seen1).
    destruct (bridgeDevicesLoop P now rest seen1) as [seen2 a2].
    simpl in *. apply neutral_andThen; assumption.
Qed.

Lemma flagNeutral_sweepUnseen (seen : gset string) : flagNeutral (sweepUnseen seen).
Proof.
  unfold sweepUnseen. intros s. apply neutral_forEach. intros kv.
  destruct (bool_decide _); [apply neutral_skip | apply flagNeutral_removeDevice].
Qed.

Lemma flagNeutral_handleBridgeDevicesPayload (devices : list QJsonValue)
    (fullSnapshot : bool) (now : Z) :
  flagNeutral (handleBridgeDevicesPayload P devices fullSnapshot now).
Proof.
  unfold handleBridgeDevicesPayload.
  pose proof (flagNeutral_bridgeDevicesLoop now devices ∅) as Hloop.
  destruct (bridgeDevicesLoop P now devices ∅) as [seen loop]. simpl in Hloop.
  apply neutral_andThen; [exact Hloop |].
  apply neutral_andThen.
  - destruct fullSnapshot; [apply flagNeutral_sweepUnseen | apply neutral_skip].
  - neutral_tac.
Qed.

Lemma flagNeutral_handleRenameResponse (resp : QJsonObject) (now : Z) :
  flagNeutral (handleRenameResponse resp now).
Proof.
  unfold handleRenameResponse. intros s. cbv beta zeta.
  destruct (String.eqb _ "ok"); [| split; reflexivity].
  apply neutral_forEach. intros kv. unfold renameResponseStep. neutral_tac.
Qed.

Lemma flagNeutral_handleDeviceGetResponse (resp : QJsonObject) (now : Z) :
  flagNeutral (handleDeviceGetResponse resp now).
Proof. unfold handleDeviceGetResponse. neutral_tac. Qed.

Lemma flagNeutral_handleAvailabilityPayload (d p : string) (ts : Z) :
  flagNeutral (handleAvailabilityPayload d p ts).
Proof. unfold handleAvailabilityPayload. neutral_tac. Qed.

Lemma flagNeutral_connectionStep (a : Action) (s : Z2mAdapter) :
  flagNeutral a -> connectedInv s -> connectionStep a s.
Proof.
  intros Ha Hinv. destruct (Ha s) as [Hflags Hconn].
  unfold connectionFlags in Hflags. injection Hflags as Hc Hm Hb.
  unfold connectionStep, connectedInv, connectionChanges in *.
  rewrite Hc, Hm, Hb, Hconn, Bool.eqb_reflx. split; [exact Hinv | reflexivity].
Qed.

(** [updateConnectionState] from any state. *)
Lemma updateConnectionState_run (s : Z2mAdapter) :
  let computed := m_mqttConnected s && m_bridgeOnline s in
  m_connected (updateConnectionState s).1 = computed
  /\ m_mqttConnected (updateConnectionState s).1 = m_mqttConnected s
  /\ m_bridgeOnline (updateConnectionState s).1 = m_bridgeOnline s
  /\ connectionChanges (updateConnectionState s).2
     = (if Bool.eqb (m_connected s) computed then [] else [computed]).
Proof.
  unfold updateConnectionState, setConnected. cbv zeta.
  destruct (Bool.eqb (m_connected s) (m_mqttConnected s && m_bridgeOnline s)) eqn:E.
  - apply Bool.eqb_prop in E. simpl. repeat split; exact E || reflexivity.
  - cbv iota. rewrite !andThen_run. simpl.
    destruct (m_mqttConnected s && m_bridgeOnline s); simpl;
      unfold stopReconnectTimer, modify; simpl;
      try destruct (m_reconnectTimer s); repeat split; reflexivity.
Qed.

(** A handler that changes the MQTT or bridge flag, recomputes the
    connected flag, and goes on without touching the three flags. *)
Lemma update_connectionStep (pre post : Action) (s : Z2mAdapter) :
  neutral m_connected connectionChangeOf pre ->
  flagNeutral post ->
  connectionStep (pre >> updateConnectionState >> post) s.
Proof.
  intros Hpre Hpost. unfold connectionStep. rewrite !andThen_run. simpl.
  destruct (Hpre s) as [Hc Hnone].
  destruct (updateConnectionState_run (pre s).1) as (Hu1 & Hu2 & Hu3 & Hu4).
  cbv zeta in *.
  destruct (Hpost (updateConnectionState (pre s).1).1) as [Hflags Hnone'].
  unfold connectionFlags in Hflags. injection Hflags as Hp1 Hp2 Hp3.
  unfold connectedInv.
  rewrite Hp1, Hp2, Hp3, Hu1, Hu2, Hu3. split; [reflexivity |].
  unfold connectionChanges in *. rewrite !omap_app, Hnone, Hnone', Hu4, Hc.
  simpl. rewrite app_nil_r. reflexivity.
Qed.

Lemma connectionStep_ext (a b : Action) (s : Z2mAdapter) :
  a s = b s -> connectionStep a s -> connectionStep b s.
Proof. unfold connectionStep. intros ->. trivial. Qed.

Lemma handleBridgeState_connectionStep (online : bool) (s : Z2mAdapter) :
  connectionStep (handleBridgeState P online) s.
Proof.
  unfold handleBridgeState. apply update_connectionStep.
  - apply neutral_modify. reflexivity.
  - neutral_with ltac:(apply flagNeutral_publish_).
Qed.

Lemma flagNeutral_connectToBroker : flagNeutral connectToBroker.
Proof. unfold connectToBroker. neutral_tac. Qed.

Lemma flagNeutral_disconnectFromBroker : flagNeutral disconnectFromBroker.
Proof. unfold disconnectFromBroker. neutral_tac. Qed.

Lemma flagNeutral_start : flagNeutral start.
Proof.
  unfold start, applyConfig.
  neutral_with ltac:(apply flagNeutral_connectToBroker).
Qed.

Lemma flagNeutral_adapterConfigUpdated : flagNeutral adapterConfigUpdated.
Proof.
  unfold adapterConfigUpdated, applyConfig.
  neutral_with ltac:(first [ apply flagNeutral_connectToBroker
                           | apply flagNeutral_disconnectFromBroker ]).
Qed.

Lemma flagNeutral_requestFullSync : flagNeutral (requestFullSync P).
Proof.
  unfold requestFullSync.
  neutral_with ltac:(apply flagNeutral_publish_).
Qed.

Lemma flagNeutral_updateChannelState (d c : string) (v : QVariant) (cmdId now : Z) :
  flagNeutral (updateChannelState P d c v cmdId now).
Proof.
  intros s. unfold updateChannelState, respond, emit.
  destruct (m_devices s !! _) as [entry |]; [| split; reflexivity].
  destruct (e_bindingsByChannel entry !! c) as [binding |]; [| split; reflexivity].
  destruct (negb (testFlag _ _)); [split; reflexivity |].
  destruct (m_connected s) eqn:Hc; [| split; reflexivity].
  destruct (clientConnected s) eqn:Hcl; [| split; reflexivity].
  simpl.
  destruct (buildCommandPayload P d binding v); [| split; reflexivity].
  rewrite (CommandFacts.publishCommand_effects _ _ _ _ _ Hcl).
  match goal with |- context [?x <? 0] => destruct (x <? 0) end;
    split; reflexivity.
Qed.

Lemma flagNeutral_updateDeviceName (d n : string) (cmdId now : Z) :
  flagNeutral (updateDeviceName P d n cmdId now).
Proof.
  unfold updateDeviceName, publish, respond, emit.
  neutral_tac.
Qed.

Lemma flagNeutral_invokeAdapterAction (a : string) (p : QJsonObject)
    (cmdId now : Z) :
  flagNeutral (invokeAdapterAction P a p cmdId now).
Proof.
  unfold invokeAdapterAction, publish.
  neutral_tac.
Qed.

Lemma flagNeutral_postSetRefresh (mqttId : string) :
  flagNeutral (postSetRefresh P mqttId).
Proof.
  unfold postSetRefresh.
  neutral_with ltac:(apply flagNeutral_publish_).
Qed.

Lemma flagNeutral_runTask (task : Task) (now : Z) : flagNeutral (runTask task now).
Proof.
  destruct task; simpl; unfold renameTimeout, availabilityDefault; neutral_tac.
Qed.

Lemma flagNeutral_handleBridgeInfo (p : QJsonObject) (ts : Z) :
  flagNeutral (handleBridgeInfoPayload p ts).
Proof. apply flagNeutral_handleBridgeInfoPayload. Qed.

Lemma handleBridgeTopic_connectionStep (suffix : string) (message : MqttMessage)
    (now : Z) (s : Z2mAdapter) :
  connectedInv s -> connectionStep (handleBridgeTopic P suffix message now) s.
Proof.
  intros Hinv. unfold handleBridgeTopic. cbv zeta.
  repeat match goal with
         | |- connectionStep (if ?c then _ else _) _ => destruct c
         | |- connectionStep (match ?c with _ => _ end) _ => destruct c
         end;
    first [ apply handleBridgeState_connectionStep
          | apply flagNeutral_connectionStep; [| exact Hinv];
            first [ apply neutral_skip
                  | apply neutral_emit; reflexivity
                  | apply flagNeutral_handleRenameResponse
                  | apply flagNeutral_handleDeviceGetResponse
                  | apply flagNeutral_handleBridgeInfoPayload
                  | apply flagNeutral_handleBridgeDevicesPayload ] ].
Qed.

Lemma handleMqttMessage_connectionStep (message : MqttMessage) (topic : string)
    (now : Z) (s : Z2mAdapter) :
  connectedInv s -> connectionStep (handleMqttMessage P message topic now) s.
Proof.
  intros Hinv.
  assert (Hidle : connectionStep skip s)
    by (apply flagNeutral_connectionStep; [apply neutral_skip | exact Hinv]).
  unfold connectionStep, handleMqttMessage in *. cbv zeta.
  destruct (negb (startsWith topic _)); [exact Hidle |].
  destruct (startsWith _ "bridge/");
    [apply handleBridgeTopic_connectionStep; exact Hinv |].
  destruct (endsWith _ "/availability").
  { destruct (_ <=? 0); [exact Hidle |].
    apply (flagNeutral_connectionStep _ s
             (flagNeutral_handleAvailabilityPayload _ _ _) Hinv). }
  destruct (_ || _); [exact Hidle |].
  destruct (contains _ "/"); [exact Hidle |].
  destruct (docObject message); [| exact Hidle].
  apply (flagNeutral_connectionStep _ s
           (flagNeutral_handleDeviceStatePayload _ _ _) Hinv).
Qed.

Lemma stop_connectionStep (s : Z2mAdapter) : connectionStep stop s.
Proof.
  apply (connectionStep_ext
           ((stopReconnectTimer >> disconnectFromBroker
             >> modify (set_postSetRefreshTimers ∅) >> modify (set_client None)
             >> modify (set_mqttConnected false))
            >> updateConnectionState >> skip)).
  - unfold stop. rewrite !andThen_run. simpl. rewrite ?app_nil_r, <- ?app_assoc.
    reflexivity.
  - apply update_connectionStep; [| apply neutral_skip].
    unfold stopReconnectTimer, disconnectFromBroker. neutral_tac.
Qed.

Lemma step_connectionStep (i : Input) (s : Z2mAdapter) :
  connectedInv s -> connectionStep (step P i) s.
Proof.
  intros Hinv.
  assert (Hidle : connectionStep skip s)
    by (apply flagNeutral_connectionStep; [apply neutral_skip | exact Hinv]).
  destruct i as [| | | | d c v cmdId now | d n cmdId now | a p cmdId now | st
                 | | | m t now | | mqttId | task now]; simpl.
  - apply flagNeutral_connectionStep; [apply flagNeutral_start | exact Hinv].
  - apply stop_connectionStep.
  - apply flagNeutral_connectionStep;
      [apply flagNeutral_adapterConfigUpdated | exact Hinv].
  - apply flagNeutral_connectionStep; [apply flagNeutral_requestFullSync | exact Hinv].
  - apply flagNeutral_connectionStep;
      [apply flagNeutral_updateChannelState | exact Hinv].
  - apply flagNeutral_connectionStep; [apply flagNeutral_updateDeviceName | exact Hinv].
  - apply flagNeutral_connectionStep;
      [apply flagNeutral_invokeAdapterAction | exact Hinv].
  - apply flagNeutral_connectionStep; [| exact Hinv]. neutral_tac.
  - unfold connectionStep, withClient in *. destruct (m_client s); [| exact Hidle].
    unfold onMqttConnected. apply update_connectionStep.
    + apply neutral_modify. reflexivity.
    + unfold ensureSubscriptions. neutral_with ltac:(apply flagNeutral_publish_).
  - unfold connectionStep, withClient in *. destruct (m_client s); [| exact Hidle].
    apply (connectionStep_ext
             (modify (set_mqttConnected false) >> updateConnectionState
              >> scheduleReconnect)); [reflexivity |].
    apply update_connectionStep.
    + apply neutral_modify. reflexivity.
    + unfold scheduleReconnect. neutral_tac.
  - unfold connectionStep, withClient in *. destruct (m_client s); [| exact Hidle].
    apply handleMqttMessage_connectionStep. exact Hinv.
  - unfold connectionStep in *. destruct (m_reconnectTimer s) as [t |]; [| exact Hidle].
    destruct (rt_active t); [| exact Hidle].
    apply (flagNeutral_connectionStep _ s flagNeutral_connectToBroker Hinv).
  - unfold connectionStep in *.
    destruct (m_postSetRefreshTimers s !! mqttId) as [[|] |]; try exact Hidle.
    apply (flagNeutral_connectionStep
             (modify (fun s => set_postSetRefreshTimers
                                 (<[mqttId := false]> (m_postSetRefreshTimers s)) s)
              >> postSetRefresh P mqttId) s); [| exact Hinv].
    apply neutral_andThen; [apply neutral_modify; reflexivity |].
    apply flagNeutral_postSetRefresh.
  - apply flagNeutral_connectionStep; [apply flagNeutral_runTask | exact Hinv].
Qed.

Lemma run_nil (s : Z2mAdapter) : run P [] s = (s, []).
Proof. reflexivity. Qed.

Lemma run_cons (i : Input) (inputs : list Input) (s : Z2mAdapter) :
  run P (i :: inputs) s
  = ((run P inputs (step P i s).1).1,
     (step P i s).2 ++ (run P inputs (step P i s).1).2).
Proof. simpl. apply andThen_run. Qed.

Lemma run_connectedInv (inputs : list Input) (s : Z2mAdapter) :
  connectedInv s -> connectedInv (run P inputs s).1.
Proof.
  revert s. induction inputs as [| i inputs IH]; intros s Hinv; [exact Hinv |].
  rewrite run_cons. simpl. apply IH. apply step_connectionStep. exact Hinv.
Qed.

Lemma initial_connectedInv (info : AdapterInfo) : connectedInv (initialAdapter info).
Proof. reflexivity. Qed.

(** C6. In every state the adapter reaches from its construction, the
    connected flag equals [mqtt_connected && bridge_online]; and every
    further step keeps that, emitting [connectionStateChanged] with the
    computed value exactly when it differs from the previous connected
    flag, and nothing otherwise. *)
Theorem connected_flag_invariant (info : AdapterInfo) (inputs : list Input)
    (i : Input) :
  let s := (run P inputs (initialAdapter info)).1 in
  let s' := (step P i s).1 in
  let computed := m_mqttConnected s' && m_bridgeOnline s' in
  m_connected s = m_mqttConnected s && m_bridgeOnline s
  /\ m_connected s' = computed
  /\ connectionChanges (step P i s).2
     = (if Bool.eqb (m_connected s) computed then [] else [computed]).
Proof.
  intros s s' computed.
  assert (Hinv : connectedInv s)
    by (apply run_connectedInv, initial_connectedInv).
  destruct (step_connectionStep i s Hinv) as [Hinv' Hemit].
  fold s' in Hinv', Hemit. unfold connectedInv in Hinv'. fold computed in Hinv'.
  split; [exact Hinv |]. split; [exact Hinv' |].
  rewrite Hemit, Hinv'. reflexivity.
Qed.

End WithPlatform.

End ConnectionFacts.

(** ** The stable enum map *)

Module EnumMapFacts.

Import QtString EnumMap.

(** *** The case-insensitive order *)

Lemma str_leb_refl (a : string) : str_leb a a = true.
Proof.
  induction a as [| x a IH]; [reflexivity |]. simpl.
  rewrite Nat.ltb_irrefl. exact IH.
Qed.

Lemma str_leb_total (a b : string) : str_leb a b = true \/ str_leb b a = true.
Proof.
  revert b. induction a as [| x a IH]; intros [| y b]; simpl; auto.
  destruct (Nat.ltb_spec (nat_of_ascii x) (nat_of_ascii y)) as [Hxy | Hxy]; [auto |].
  destruct (Nat.ltb_spec (nat_of_ascii y) (nat_of_ascii x)) as [Hyx | Hyx]; [auto |].
  apply IH.
Qed.

Lemma str_leb_trans (a b c : string) :
  str_leb a b = true -> str_leb b c = true -> str_leb a c = true.
Proof.
  revert b c. induction a as [| x a IH]; intros [| y b] [| z c]; simpl;
    try reflexivity; try discriminate.
  destruct (Nat.ltb_spec (nat_of_ascii x) (nat_of_ascii y)) as [Hxy | Hxy];
    destruct (Nat.ltb_spec (nat_of_ascii y) (nat_of_ascii z)) as [Hyz | Hyz];
    destruct (Nat.ltb_spec (nat_of_ascii x) (nat_of_ascii z)) as [Hxz | Hxz];
    try reflexivity; try discriminate; try lia;
    destruct (Nat.ltb_spec (nat_of_ascii y) (nat_of_ascii x)) as [Hyx | Hyx];
    destruct (Nat.ltb_spec (nat_of_ascii z) (nat_of_ascii y)) as [Hzy | Hzy];
    destruct (Nat.ltb_spec (nat_of_ascii z) (nat_of_ascii x)) as [Hzx | Hzx];
    try reflexivity; try discriminate; try lia.
  apply IH.
Qed.

Lemma ci_le_total (a b : string) : ci_le a b \/ ci_le b a.
Proof. apply str_leb_total. Qed.

Lemma ci_le_trans (a b c : string) : ci_le a b -> ci_le b c -> ci_le a c.
Proof. apply str_leb_trans. Qed.

(** *** The reference sort meets the contract of [QStringList::sort] *)

Lemma insertCI_perm (x : string) (l : list string) : insertCI x l ≡ₚ x :: l.
Proof.
  induction l as [| y l IH]; simpl; [reflexivity |].
  destruct (ci_leb x y); [reflexivity |].
  rewrite IH. apply perm_swap.
Qed.

Lemma insertionSortCI_perm (l : list string) : insertionSortCI l ≡ₚ l.
Proof.
  induction l as [| x l IH]; simpl; [reflexivity |].
  unfold insertionSortCI in *. simpl. rewrite insertCI_perm, IH. reflexivity.
Qed.

Lemma insertCI_sorted (x : string) (l : list string) :
  StronglySorted ci_le l -> StronglySorted ci_le (insertCI x l).
Proof.
  induction 1 as [| y l Hl IH Hy]; simpl.
  - repeat constructor.
  - destruct (ci_leb x y) eqn:Hxy.
    + constructor; [constructor; assumption |].
      constructor; [exact Hxy |].
      eapply Forall_impl; [exact Hy |]. intros z Hz.
      eapply ci_le_trans; eassumption.
    + constructor; [exact IH |].
      rewrite (insertCI_perm x l). constructor; [| exact Hy].
      destruct (ci_le_total x y) as [H | H]; [| exact H].
      unfold ci_le in H. congruence.
Qed.

Lemma insertionSortCI_sorted (l : list string) :
  StronglySorted ci_le (insertionSortCI l).
Proof.
  induction l as [| x l IH]; [constructor |].
  unfold insertionSortCI in *. simpl. apply insertCI_sorted. exact IH.
Qed.

Lemma StronglySorted_sublist {A : Type} (R : A -> A -> Prop) (l1 l2 : list A) :
  l1 `sublist_of` l2 -> StronglySorted R l2 -> StronglySorted R l1.
Proof.
  induction 1 as [| x l1 l2 Hsub IH | x l1 l2 Hsub IH]; intros Hs.
  - constructor.
  - apply StronglySorted_inv in Hs as [Hs Hx].
    constructor; [apply IH; exact Hs |].
    apply Forall_forall. intros y Hy.
    rewrite Forall_forall in Hx. apply Hx.
    eapply elem_of_sublist; eassumption.
  - apply StronglySorted_inv in Hs as [Hs _]. apply IH. exact Hs.
Qed.

(** *** The two loops *)

Lemma wrap32_id (z : Z) : INT_MIN <= z <= INT_MAX -> wrap32 z = z.
Proof.
  unfold wrap32, INT_MIN, INT_MAX. intros H.
  rewrite Z.mod_small by lia. lia.
Qed.

Lemma Json_toInt_range (val : QJsonValue) (def : Z) :
  INT_MIN <= def <= INT_MAX -> INT_MIN <= Json.toInt val def <= INT_MAX.
Proof.
  intros Hdef. destruct val; try exact Hdef.
  unfold Json.toInt.
  destruct (Z.pos (Qden (Qred d)) =? 1); [| exact Hdef].
  unfold inIntRange. cbn [andb].
  destruct (INT_MIN <=? Qnum (Qred d)) eqn:E1; [| exact Hdef].
  destruct (Qnum (Qred d) <=? INT_MAX) eqn:E2; [| exact Hdef].
  apply Z.leb_le in E1, E2. cbn [andb]. lia.
Qed.

Lemma positiveInt_Some (val : QJsonValue) (v : Z) :
  positiveInt val = Some v ->
  Json.isDouble val = true /\ v = Json.toInt val 0 /\ 0 < v <= INT_MAX.
Proof.
  unfold positiveInt. destruct (Json.isDouble val); [| discriminate].
  simpl. destruct (0 <? Json.toInt val 0) eqn:E; [| discriminate].
  intros [= <-]. apply Z.ltb_lt in E.
  pose proof (Json_toInt_range val 0) as Hr. unfold INT_MIN, INT_MAX in *.
  repeat split; lia.
Qed.

Lemma existingStep_kept (key : string) (val : QJsonValue) (acc : gmap string Z * Z) :
  existingStep key val acc
  = match positiveInt val with
    | Some v => (<[key := v]> acc.1, if acc.2 <? v then v else acc.2)
    | None => acc
    end.
Proof.
  unfold existingStep, positiveInt. destruct acc as [m M]. simpl.
  destruct (Json.isDouble val); simpl; [| reflexivity].
  destruct (Z.leb_spec (Json.toInt val 0) 0) as [Hle | Hgt].
  - destruct (Z.ltb_spec 0 (Json.toInt val 0)); [lia | reflexivity].
  - destruct (Z.ltb_spec 0 (Json.toInt val 0)); [reflexivity | lia].
Qed.

(** The first loop computes the kept entries and their maximum. *)
Lemma existing_loop (existing : QJsonObject) :
  let acc := map_fold existingStep (∅, 0) existing in
  acc.1 = keptEntries existing
  /\ isMaxValue acc.1 acc.2
  /\ 0 <= acc.2 <= INT_MAX.
Proof.
  apply (map_fold_weak_ind
           (fun (acc : gmap string Z * Z) (m : QJsonObject) =>
              acc.1 = keptEntries m /\ isMaxValue acc.1 acc.2
              /\ 0 <= acc.2 <= INT_MAX)).
  - unfold keptEntries. rewrite omap_empty. repeat split.
    + intros k v Hk. simpl in Hk. rewrite lookup_empty in Hk. discriminate.
    + left. reflexivity.
    + reflexivity.
    + discriminate.
  - intros key val m acc Hfresh (Hkept & [Hub Hatt] & Hrange).
    rewrite existingStep_kept. unfold keptEntries in *.
    destruct (positiveInt val) as [v |] eqn:Hpos.
    + apply positiveInt_Some in Hpos as Hv. destruct Hv as (_ & _ & Hv).
      rewrite (omap_insert_Some _ _ _ _ _ Hpos). simpl. rewrite Hkept.
      split; [reflexivity |]. split; [split |].
      * intros k w Hk. destruct (decide (key = k)) as [-> | Hne].
        -- rewrite lookup_insert_eq in Hk. injection Hk as <-.
           destruct (Z.ltb_spec acc.2 v); lia.
        -- rewrite lookup_insert_ne in Hk by exact Hne.
           rewrite <- Hkept in Hk. specialize (Hub k w Hk).
           destruct (Z.ltb_spec acc.2 v); lia.
      * right. destruct (Z.ltb_spec acc.2 v) as [Hlt | Hge].
        -- exists key. apply lookup_insert_eq.
        -- destruct Hatt as [H0 | [k Hk]]; [lia |].
           exists k. destruct (decide (key = k)) as [-> | Hne].
           ++ rewrite Hkept, lookup_omap, Hfresh in Hk. discriminate.
           ++ rewrite lookup_insert_ne by exact Hne. rewrite <- Hkept. exact Hk.
      * destruct (Z.ltb_spec acc.2 v); lia.
    + rewrite (omap_insert_None _ _ _ _ Hpos).
      rewrite delete_id by (rewrite lookup_omap, Hfresh; reflexivity).
      repeat split; try assumption; apply Hrange.
Qed.

(** The second loop: the new keys, in the order of the list, receive
    the integers that follow the maximum. *)
Lemma rawKeys_loop (l : list string) (m : gmap string Z) (M : Z) :
  0 <= M -> M + Z.of_nat (length l) <= INT_MAX ->
  exists news,
    NoDup news
    /\ news `sublist_of` l
    /\ (forall k, k ∈ news <-> k ∈ l /\ k <> "" /\ m !! k = None)
    /\ (forall (i : nat) k, news !! i = Some k ->
          (foldl rawKeyStep (m, M) l).1 !! k = Some (M + 1 + Z.of_nat i))
    /\ (forall k, k ∉ news -> (foldl rawKeyStep (m, M) l).1 !! k = m !! k).
Proof.
  revert m M. induction l as [| key l IH]; intros m M HM Hbound.
  - exists []. split; [constructor |]. split; [constructor |].
    split; [| split].
    + intros k. split; [intros Hk; inversion Hk | intros (Hk & _); inversion Hk].
    + intros i k Hk. destruct i; discriminate.
    + reflexivity.
  - simpl in Hbound.
    change (foldl rawKeyStep (m, M) (key :: l))
      with (foldl rawKeyStep (rawKeyStep (m, M) key) l).
    assert (Hskip : forall news : list string,
              (isEmpty key = true \/ is_Some (m !! key)) ->
              (forall k, k ∈ news <-> k ∈ l /\ k <> "" /\ m !! k = None) ->
              forall k, k ∈ news <-> k ∈ key :: l /\ k <> "" /\ m !! k = None).
    { intros news Hwhy Hmem k. rewrite Hmem. split.
      - intros (Hk & Hne & Hnone). split; [right; exact Hk | split; assumption].
      - intros (Hk & Hne & Hnone). split; [| split; assumption].
        apply elem_of_cons in Hk as [-> | Hk]; [| exact Hk]. exfalso.
        destruct Hwhy as [He | [v Hv]]; [| congruence].
        destruct key; [congruence | discriminate]. }
    destruct (isEmpty key) eqn:Hempty.
    { assert (Hstep : rawKeyStep (m, M) key = (m, M))
        by (unfold rawKeyStep; rewrite Hempty; reflexivity).
      rewrite Hstep.
      destruct (IH m M HM ltac:(lia)) as (news & Hnd & Hsub & Hmem & Hval & Hrest).
      exists news. split; [exact Hnd |]. split; [apply sublist_cons; exact Hsub |].
      split; [apply Hskip; [left; reflexivity | exact Hmem] |].
      split; assumption. }
    destruct (bool_decide (is_Some (m !! key))) eqn:Hin.
    { assert (Hstep : rawKeyStep (m, M) key = (m, M))
        by (unfold rawKeyStep; rewrite Hempty, Hin; reflexivity).
      rewrite Hstep.
      apply bool_decide_eq_true in Hin.
      destruct (IH m M HM ltac:(lia)) as (news & Hnd & Hsub & Hmem & Hval & Hrest).
      exists news. split; [exact Hnd |]. split; [apply sublist_cons; exact Hsub |].
      split; [apply Hskip; [right; exact Hin | exact Hmem] |].
      split; assumption. }
    assert (Hw : wrap32 (M + 1) = M + 1)
      by (apply wrap32_id; unfold INT_MIN, INT_MAX in *; lia).
    assert (Hstep : rawKeyStep (m, M) key = (<[key := M + 1]> m, M + 1))
      by (unfold rawKeyStep; rewrite Hempty, Hin, Hw; reflexivity).
    rewrite Hstep.
    apply bool_decide_eq_false in Hin.
    assert (Hfresh : m !! key = None).
    { destruct (m !! key) eqn:E; [| reflexivity]. exfalso. apply Hin. eauto. }
    destruct (IH (<[key := M + 1]> m) (M + 1) ltac:(lia) ltac:(lia))
      as (news & Hnd & Hsub & Hmem & Hval & Hrest).
    assert (Hkey : key ∉ news).
    { intros Hk. apply Hmem in Hk as (_ & _ & Hk).
      rewrite lookup_insert_eq in Hk. discriminate. }
    exists (key :: news).
    split; [constructor; assumption |].
    split; [apply sublist_skip; exact Hsub |].
    split; [| split].
    + intros k. split.
      * intros Hk. apply elem_of_cons in Hk as [-> | Hk].
        -- split; [left |]. split; [| exact Hfresh].
           destruct key; [discriminate | discriminate].
        -- apply Hmem in Hk as (Hk & Hne & Hnone).
           split; [right; exact Hk |]. split; [exact Hne |].
           destruct (decide (key = k)) as [-> | Hkk].
           ++ rewrite lookup_insert_eq in Hnone. discriminate.
           ++ rewrite lookup_insert_ne in Hnone by exact Hkk. exact Hnone.
      * intros (Hk & Hne & Hnone).
        destruct (decide (key = k)) as [-> | Hkk]; [left |].
        right. apply Hmem. apply elem_of_cons in Hk as [-> | Hk]; [congruence |].
        split; [exact Hk |]. split; [exact Hne |].
        rewrite lookup_insert_ne by exact Hkk. exact Hnone.
    + intros i k Hk. destruct i as [| i]; simpl in Hk.
      * injection Hk as <-. rewrite (Hrest key Hkey), lookup_insert_eq.
        f_equal. lia.
      * rewrite (Hval i k Hk). f_equal. lia.
    + intros k Hk. apply not_elem_of_cons in Hk as [Hne Hk].
      rewrite (Hrest k Hk). apply lookup_insert_ne. congruence.
Qed.

Lemma keptEntries_lookup (existing : QJsonObject) (k : string) (v : Z) :
  keptEntries existing !! k = Some v
  <-> exists val, existing !! k = Some val /\ positiveInt val = Some v.
Proof.
  unfold keptEntries. rewrite lookup_omap_Some.
  split; intros (val & H1 & H2); exists val; split; assumption.
Qed.

Lemma keptEntries_positive (existing : QJsonObject) (k : string) (v : Z) :
  keptEntries existing !! k = Some v -> 0 < v.
Proof.
  intros Hk. apply keptEntries_lookup in Hk as (val & _ & Hv).
  apply positiveInt_Some in Hv. lia.
Qed.

Lemma isMaxValue_unique (existing : QJsonObject) (M1 M2 : Z) :
  isMaxValue (keptEntries existing) M1 -> isMaxValue (keptEntries existing) M2 ->
  M1 = M2.
Proof.
  intros [Hub1 Hatt1] [Hub2 Hatt2].
  destruct Hatt1 as [-> | [k1 Hk1]]; destruct Hatt2 as [-> | [k2 Hk2]].
  - reflexivity.
  - pose proof (keptEntries_positive _ _ _ Hk2). specialize (Hub1 _ _ Hk2). lia.
  - pose proof (keptEntries_positive _ _ _ Hk1). specialize (Hub2 _ _ Hk1). lia.
  - specialize (Hub1 _ _ Hk2). specialize (Hub2 _ _ Hk1). lia.
Qed.

(** C3. The stable enum map is deterministic and extension-preserving:
    (a) the same inputs give the same map; (b) every key of the
    existing map with a positive integer value keeps that value; (c) the
    new non-empty raw keys, taken in case-insensitive sorted order,
    receive the integers that follow the current maximum [M]: the i-th
    new key is mapped to [M + 1 + i]. The sort is any function meeting
    the contract of [QStringList::sort(Qt::CaseInsensitive)], and the
    increments stay in the range of [int]. *)
Theorem buildStableEnumMap_stable (sort : list string -> list string)
    (rawKeys : list string) (existing : QJsonObject) (M : Z) :
  (forall l, sort l ≡ₚ l) ->
  (forall l, StronglySorted ci_le (sort l)) ->
  isMaxValue (keptEntries existing) M ->
  M + Z.of_nat (length rawKeys) <= INT_MAX ->
  (forall rawKeys' existing',
     rawKeys' = rawKeys -> existing' = existing ->
     buildStableEnumMap sort rawKeys' existing'
     = buildStableEnumMap sort rawKeys existing)
  /\ (forall k val v,
        existing !! k = Some val -> positiveInt val = Some v ->
        buildStableEnumMap sort rawKeys existing !! k = Some v)
  /\ exists news,
       NoDup news
       /\ StronglySorted ci_le news
       /\ (forall k, k ∈ news
                     <-> k ∈ rawKeys /\ k <> "" /\ keptEntries existing !! k = None)
       /\ (forall (i : nat) k,
             news !! i = Some k ->
             buildStableEnumMap sort rawKeys existing !! k
             = Some (M + 1 + Z.of_nat i)).
Proof.
  intros Hperm Hsorted Hmax Hbound.
  split; [intros ? ? -> ->; reflexivity |].
  unfold buildStableEnumMap.
  destruct (existing_loop existing) as (Hkept & Hmax' & Hrange).
  destruct (map_fold existingStep (∅, 0) existing) as [m Mx]. simpl in *.
  subst m. assert (Mx = M) as -> by (eapply isMaxValue_unique; eassumption).
  destruct (rawKeys_loop (sort rawKeys) (keptEntries existing) M)
    as (news & Hnd & Hsub & Hmem & Hval & Hrest).
  { lia. }
  { rewrite (Permutation_length (Hperm rawKeys)). exact Hbound. }
  split.
  - intros k val v Hk Hv.
    assert (Hkv : keptEntries existing !! k = Some v)
      by (apply keptEntries_lookup; eauto).
    rewrite Hrest; [exact Hkv |].
    intros Hin. apply Hmem in Hin as (_ & _ & Hnone). congruence.
  - exists news. split; [exact Hnd |].
    split; [eapply StronglySorted_sublist; [exact Hsub | apply Hsorted] |].
    split; [| exact Hval].
    intros k. rewrite Hmem. rewrite (Hperm rawKeys). reflexivity.
Qed.

Lemma sample_keptEntries :
  keptEntries sampleEnumMap
  = <["dual_rocker" := 2]> (<["single_rocker" := 1]> ∅).
Proof. reflexivity. Qed.

Lemma sample_isMaxValue : isMaxValue (keptEntries sampleEnumMap) 2.
Proof.
  rewrite sample_keptEntries. split.
  - intros k v Hk.
    apply lookup_insert_Some in Hk as [[_ <-] | [_ Hk]]; [lia |].
    apply lookup_insert_Some in Hk as [[_ <-] | [_ Hk]]; [lia |].
    rewrite lookup_empty in Hk. discriminate.
  - right. exists "dual_rocker". reflexivity.
Qed.

Lemma buildStableEnumMap_stable_witness :
  buildStableEnumMap insertionSortCI sampleRawKeys sampleEnumMap !! "single_rocker"
  = Some 1
  /\ exists news,
       NoDup news
       /\ StronglySorted ci_le news
       /\ (forall k, k ∈ news
                     <-> k ∈ sampleRawKeys /\ k <> ""
                         /\ keptEntries sampleEnumMap !! k = None)
       /\ (forall (i : nat) k,
             news !! i = Some k ->
             buildStableEnumMap insertionSortCI sampleRawKeys sampleEnumMap !! k
             = Some (2 + 1 + Z.of_nat i)).
Proof.
  destruct (buildStableEnumMap_stable insertionSortCI sampleRawKeys sampleEnumMap 2
              insertionSortCI_perm insertionSortCI_sorted sample_isMaxValue)
    as (_ & Hkeep & Hnew).
  - vm_compute. discriminate.
  - split; [| exact Hnew].
    apply (Hkeep "single_rocker" (Json.ofInt 1) 1); reflexivity.
Defined.

(** The sample evaluated: the persisted keys keep 1 and 2, and the new
    keys follow in case-insensitive order, [alpha] before [Zeta]. *)
Example sample_enum_map :
  buildStableEnumMap insertionSortCI sampleRawKeys sampleEnumMap
  = <["Zeta" := 4]> (<["alpha" := 3]>
      (<["dual_rocker" := 2]> (<["single_rocker" := 1]> ∅))).
Proof. reflexivity. Qed.

End EnumMapFacts.

(** ** The expose compiler *)

Module ExposeFacts.

Import QtString EnumMap Expose.

Section Compile.

Variable sort : list string -> list string.

(** [addChannelFromExpose] either returns the entry as it was or
    appends one channel with its binding, under a fresh channel id. *)
Lemma addChannelFromExpose_cases (expose : QJsonObject) (entry : Z2mDeviceEntry) :
  addChannelFromExpose sort expose entry = entry
  \/ exists channel binding channelId property,
       addChannelFromExpose sort expose entry
       = mkEntry (e_device entry) (e_mqttId entry) (e_channels entry ++ [channel])
                 (<[channelId := binding]> (e_bindingsByChannel entry))
                 (<[property := channelId
                                :: default [] (e_channelByProperty entry !! property)]>
                    (e_channelByProperty entry))
       /\ e_bindingsByChannel entry !! channelId = None
       /\ ch_id channel = channelId
       /\ b_channelId binding = channelId
       /\ b_isAvailability binding = false
       /\ b_dataType binding = ch_dataType channel
       /\ (if String.eqb (exposeType expose) "enum"
           then ch_dataType channel = TEnum
                /\ ch_choices channel = tab_choices (exposeEnumTables sort expose)
                /\ b_enumRawToValue binding
                   = tab_rawToValue (exposeEnumTables sort expose)
                /\ b_enumValueToRaw binding
                   = tab_valueToRaw (exposeEnumTables sort expose)
           else ch_choices channel = []
                /\ b_enumRawToValue binding = ∅
                /\ b_enumValueToRaw binding = ∅).
Proof.
  unfold addChannelFromExpose.
  repeat match goal with
         | |- (if ?c then entry else _) = entry \/ _ =>
             destruct c eqn:?; [left; reflexivity |]
         | |- (let x := _ in _) = entry \/ _ => cbv zeta beta
         end.
  right. eexists _, _, _, _. split; [reflexivity |].
  split.
  { match goal with
    | H : bool_decide (is_Some ?x) = false |- ?y = None =>
        change (x = None); apply bool_decide_eq_false in H;
        destruct x; [exfalso; apply H; eauto | reflexivity]
    end. }
  split; [reflexivity |]. split; [reflexivity |]. split; [reflexivity |].
  split; [reflexivity |].
  unfold exposeType.
  cbn [ch_dataType ch_choices b_enumRawToValue b_enumValueToRaw].
  destruct (String.eqb (trimmed (Json.toString (Json.value expose "type") "")) "enum");
    repeat split; reflexivity.
Qed.

(** *** The tables built from the raw keys *)

Section Tables.

Variables (enumName : string) (fallbackMap : gmap string Z).

Lemma enumTablesOf_inv (rawKeys : list string) :
  tablesInv fallbackMap rawKeys (enumTablesOf enumName fallbackMap rawKeys).
Proof.
  unfold enumTablesOf, tablesInv.
  induction rawKeys as [| key l IH] using rev_ind.
  - cbn [foldl tab_rawToValue tab_choices tab_valueToRaw].
    split; [| split; [| split]].
    + intros k v. rewrite lookup_empty. split; [discriminate |].
      intros (Hk & _). inversion Hk.
    + split; reflexivity.
    + intros v k Hk. rewrite lookup_empty in Hk. discriminate.
    + intros k v Hk. rewrite lookup_empty in Hk. discriminate.
  - rewrite foldl_snoc.
    destruct IH as (Hr & Hc & Hv & Hrv).
    set (t := foldl (choiceStep enumName fallbackMap) (mkTables [] ∅ ∅) l) in *.
    unfold choiceStep.
    destruct (Z.eqb_spec (default 0 (fallbackMap !! key)) 0) as [Hzero | Hnz].
    + split; [| split; [| split]]; try assumption.
      intros k v. rewrite Hr, elem_of_app, list_elem_of_singleton.
      split; [intros (Hk & Hf & Hne); auto |].
      intros ([Hk | ->] & Hf & Hne); [auto |].
      rewrite Hf in Hzero. simpl in Hzero. contradiction.
    + set (mapped := default 0 (fallbackMap !! key)) in *.
      assert (Hf : fallbackMap !! key = Some mapped).
      { unfold mapped in *. destruct (fallbackMap !! key); [reflexivity |].
        simpl in Hnz. contradiction. }
      cbn [tab_rawToValue tab_choices tab_valueToRaw].
      split; [| split; [| split]].
      * intros k v. rewrite elem_of_app, list_elem_of_singleton.
        destruct (decide (key = k)) as [<- | Hne].
        -- rewrite lookup_insert_eq. split.
           ++ intros [= <-]. auto.
           ++ intros (_ & Hf' & _). congruence.
        -- rewrite lookup_insert_ne by exact Hne. rewrite Hr.
           split; [intros (Hk & Hf' & Hv'); auto |].
           intros ([Hk | ->] & Hf' & Hv'); [auto | contradiction].
      * split.
        -- intros Habs. apply app_eq_nil in Habs as [_ Habs]. discriminate.
        -- intros Habs. exfalso.
           exact (insert_non_empty (tab_rawToValue t) key mapped Habs).
      * intros v k.
        destruct (bool_decide (is_Some (tab_valueToRaw t !! mapped))) eqn:Hseen.
        -- intros Hk. specialize (Hv v k Hk).
           destruct (decide (key = k)) as [<- | Hne].
           ++ apply Hr in Hv as (_ & Hf' & _). rewrite lookup_insert_eq. congruence.
           ++ rewrite lookup_insert_ne by exact Hne. exact Hv.
        -- apply bool_decide_eq_false in Hseen.
           destruct (decide (mapped = v)) as [<- | Hne].
           ++ rewrite lookup_insert_eq. intros [= <-]. apply lookup_insert_eq.
           ++ rewrite lookup_insert_ne by exact Hne. intros Hk.
              specialize (Hv v k Hk).
              destruct (decide (key = k)) as [<- | Hkk].
              ** apply Hr in Hv as (_ & Hf' & _). congruence.
              ** rewrite lookup_insert_ne by exact Hkk. exact Hv.
      * intros k v.
        destruct (decide (key = k)) as [<- | Hne].
        -- rewrite lookup_insert_eq. intros [= <-].
           destruct (bool_decide (is_Some (tab_valueToRaw t !! mapped))) eqn:Hseen.
           ++ apply bool_decide_eq_true in Hseen. exact Hseen.
           ++ rewrite lookup_insert_eq. eauto.
        -- rewrite lookup_insert_ne by exact Hne. intros Hk.
           specialize (Hrv k v Hk).
           destruct (bool_decide (is_Some (tab_valueToRaw t !! mapped)));
             [exact Hrv |].
           destruct (decide (mapped = v)) as [<- | Hmv].
           ++ rewrite lookup_insert_eq. eauto.
           ++ rewrite lookup_insert_ne by exact Hmv. exact Hrv.
Qed.

End Tables.


(** *** The fallback map *)

Lemma mapRockerMode_range (raw : string) (v : Z) :
  mapRockerMode raw = Some v -> 1 <= v <= 5.
Proof.
  unfold mapRockerMode. cbv zeta.
  repeat match goal with
         | |- (if ?c then _ else _) = _ -> _ => destruct c
         end; intros [= <-] || discriminate; lia.
Qed.

Lemma mapSensitivityLevel_range (raw : string) (v : Z) :
  mapSensitivityLevel raw = Some v -> 1 <= v <= 5.
Proof.
  unfold mapSensitivityLevel. cbv zeta.
  repeat match goal with
         | |- (if ?c then _ else _) = _ -> _ => destruct c
         end; intros [= <-] || discriminate; lia.
Qed.

Lemma knownAlias_range (enumName key : string) (v : Z) :
  knownAlias enumName key v -> 1 <= v <= 5.
Proof.
  intros [[_ H] | [_ H]];
    [eapply mapRockerMode_range | eapply mapSensitivityLevel_range]; exact H.
Qed.

Lemma scanValue_inv (enumName : string) (acc : EnumScan) (val : QJsonValue) :
  (forall k v, scan_normalizedMap acc !! k = Some v -> knownAlias enumName k v) ->
  (forall k v, scan_normalizedMap (scanValue enumName acc val) !! k = Some v ->
               knownAlias enumName k v)
  /\ (length (scan_rawKeys (scanValue enumName acc val))
      <= S (length (scan_rawKeys acc)))%nat.
Proof.
  intros Hacc. unfold scanValue. cbv zeta.
  destruct (isEmpty (enumKeyOf val)); [split; [exact Hacc | lia] |].
  cbn [scan_normalizedMap scan_rawKeys].
  split; [| rewrite length_app; simpl; lia].
  intros k v.
  destruct (negb (isEmpty enumName)); [| apply Hacc].
  destruct (isKnownEnumName enumName "RockerMode") eqn:Hr.
  { destruct (mapRockerMode (enumKeyOf val)) as [mapped |] eqn:Hm; [| apply Hacc].
    destruct (decide (enumKeyOf val = k)) as [<- | Hne].
    - rewrite lookup_insert_eq. intros [= <-]. left. split; assumption.
    - rewrite lookup_insert_ne by exact Hne. apply Hacc. }
  destruct (isKnownEnumName enumName "SensitivityLevel") eqn:Hs; [| apply Hacc].
  destruct (mapSensitivityLevel (enumKeyOf val)) as [mapped |] eqn:Hm; [| apply Hacc].
  destruct (decide (enumKeyOf val = k)) as [<- | Hne].
  - rewrite lookup_insert_eq. intros [= <-]. right. split; assumption.
  - rewrite lookup_insert_ne by exact Hne. apply Hacc.
Qed.

Lemma scan_fold_inv (enumName : string) (values : list QJsonValue) (acc : EnumScan) :
  (forall k v, scan_normalizedMap acc !! k = Some v -> knownAlias enumName k v) ->
  (forall k v,
     scan_normalizedMap (foldl (scanValue enumName) acc values) !! k = Some v ->
     knownAlias enumName k v)
  /\ (length (scan_rawKeys (foldl (scanValue enumName) acc values))
      <= length (scan_rawKeys acc) + length values)%nat.
Proof.
  revert acc. induction values as [| val values IH]; intros acc Hacc.
  - simpl. split; [exact Hacc | lia].
  - simpl. destruct (scanValue_inv enumName acc val Hacc) as [Hnm Hlen].
    destruct (IH _ Hnm) as [Hnm' Hlen']. split; [exact Hnm' | lia].
Qed.

Lemma scanValues_inv (enumName : string) (values : list QJsonValue) :
  (forall k v, scan_normalizedMap (scanValues enumName values) !! k = Some v ->
               knownAlias enumName k v)
  /\ (length (scan_rawKeys (scanValues enumName values)) <= length values)%nat.
Proof.
  unfold scanValues. cbv zeta.
  apply (scan_fold_inv enumName values).
  intros k v Hk. simpl in Hk. rewrite lookup_empty in Hk. discriminate.
Qed.

Lemma numeric_fallback (rawKeys : list string) (m : gmap string Z) :
  (forall k n, m !! k = Some n -> toInt k = Some n) ->
  forall k n, foldl numericStep m rawKeys !! k = Some n -> toInt k = Some n.
Proof.
  revert m. induction rawKeys as [| key l IH]; intros m Hm; [exact Hm |].
  simpl. apply IH. unfold numericStep.
  destruct (toInt key) as [numeric |] eqn:Hkey; [| exact Hm].
  intros k n. destruct (decide (key = k)) as [<- | Hne].
  - rewrite lookup_insert_eq. intros [= <-]. exact Hkey.
  - rewrite lookup_insert_ne by exact Hne. apply Hm.
Qed.

Lemma Qred_inject_Z (v : Z) : Qred (inject_Z v) = inject_Z v.
Proof.
  unfold Qred, inject_Z.
  pose proof (Z.ggcd_gcd v 1) as Hg.
  pose proof (Z.ggcd_correct_divisors v 1) as Hd.
  destruct (Z.ggcd v 1) as [g [a b]]. simpl in Hg, Hd.
  rewrite Z.gcd_1_r in Hg. subst g. destruct Hd as [Ha Hb].
  rewrite Z.mul_1_l in Ha, Hb. subst a b. reflexivity.
Qed.

Lemma positiveInt_ofInt (v : Z) : 1 <= v <= 5 -> positiveInt (Json.ofInt v) = Some v.
Proof.
  intros Hv. unfold positiveInt, Json.ofInt, Json.toInt, Json.isDouble.
  rewrite Qred_inject_Z.
  simpl. unfold inIntRange, INT_MIN, INT_MAX.
  destruct (Z.leb_spec (-2147483648) v); [| lia].
  destruct (Z.leb_spec v 2147483647); [| lia].
  simpl. destruct (Z.ltb_spec 0 v); [reflexivity | lia].
Qed.

Lemma keptEntries_normalized (normalized : gmap string Z) :
  (forall k v, normalized !! k = Some v -> 1 <= v <= 5) ->
  keptEntries (Json.ofInt <$> normalized) = normalized.
Proof.
  intros Hrange. apply map_eq. intros k. unfold keptEntries.
  rewrite lookup_omap, lookup_fmap.
  destruct (normalized !! k) as [v |] eqn:Hk; [| reflexivity].
  simpl. apply positiveInt_ofInt. eapply Hrange. exact Hk.
Qed.

(** In the stable map, two raw keys share a value only when the
    normalised map gave it to both. *)
Lemma stable_fallback_shared (rawKeys : list string) (normalized : gmap string Z) :
  (forall l, sort l ≡ₚ l) ->
  (forall k v, normalized !! k = Some v -> 1 <= v <= 5) ->
  Z.of_nat (length rawKeys) <= INT_MAX - 5 ->
  forall k1 k2 v,
    k1 <> k2 ->
    buildStableEnumMap sort rawKeys (Json.ofInt <$> normalized) !! k1 = Some v ->
    buildStableEnumMap sort rawKeys (Json.ofInt <$> normalized) !! k2 = Some v ->
    normalized !! k1 = Some v /\ normalized !! k2 = Some v.
Proof.
  intros Hperm Hrange Hlen k1 k2 v Hne. unfold buildStableEnumMap.
  destruct (EnumMapFacts.existing_loop (Json.ofInt <$> normalized))
    as (Hkept & [Hub Hatt] & HM).
  destruct (map_fold existingStep (∅, 0) (Json.ofInt <$> normalized)) as [m M].
  simpl in *. rewrite (keptEntries_normalized _ Hrange) in Hkept. subst m.
  assert (HM5 : M <= 5).
  { destruct Hatt as [-> | [k Hk]]; [lia |]. apply Hrange in Hk. lia. }
  destruct (EnumMapFacts.rawKeys_loop (sort rawKeys) normalized M)
    as (news & Hnd & _ & _ & Hval & Hrest).
  { lia. }
  { rewrite (Permutation_length (Hperm rawKeys)). unfold INT_MAX in *. lia. }
  intros H1 H2.
  destruct (decide (k1 ∈ news)) as [Hin1 | Hout1];
    destruct (decide (k2 ∈ news)) as [Hin2 | Hout2].
  - apply list_elem_of_lookup in Hin1 as [i1 Hi1].
    apply list_elem_of_lookup in Hin2 as [i2 Hi2].
    rewrite (Hval _ _ Hi1) in H1. rewrite (Hval _ _ Hi2) in H2.
    injection H1 as H1. injection H2 as H2.
    assert (i1 = i2) as -> by lia. congruence.
  - apply list_elem_of_lookup in Hin1 as [i1 Hi1].
    rewrite (Hval _ _ Hi1) in H1. rewrite (Hrest _ Hout2) in H2.
    apply Hub in H2. injection H1 as <-. lia.
  - apply list_elem_of_lookup in Hin2 as [i2 Hi2].
    rewrite (Hval _ _ Hi2) in H2. rewrite (Hrest _ Hout1) in H1.
    apply Hub in H1. injection H2 as <-. lia.
  - rewrite (Hrest _ Hout1) in H1. rewrite (Hrest _ Hout2) in H2.
    split; assumption.
Qed.

Lemma fallback_shared (expose : QJsonObject) :
  (forall l, sort l ≡ₚ l) ->
  Z.of_nat (length (Json.toArray (Json.value expose "values"))) <= INT_MAX - 5 ->
  forall k1 k2 v,
    k1 <> k2 ->
    exposeFallbackMap sort expose !! k1 = Some v ->
    exposeFallbackMap sort expose !! k2 = Some v ->
    sameValueAliases (enumNameOf (exposeProperty expose)) k1 k2 v.
Proof.
  intros Hperm Hlen k1 k2 v Hne. unfold exposeFallbackMap, fallbackMapOf, exposeScan.
  destruct (scanValues_inv (enumNameOf (exposeProperty expose))
              (Json.toArray (Json.value expose "values"))) as [Hnm Hkeys].
  set (sc := scanValues _ _) in *.
  destruct (scan_allNumeric sc).
  - intros H1 H2. right. split;
      (eapply numeric_fallback; [| eassumption]);
      intros k n Hk; rewrite lookup_empty in Hk; discriminate.
  - intros H1 H2. left.
    destruct (stable_fallback_shared (scan_rawKeys sc) (scan_normalizedMap sc)
                Hperm) with (k1 := k1) (k2 := k2) (v := v) as [Ha Hb];
      try assumption.
    + intros k w Hk. eapply knownAlias_range. eapply Hnm. exact Hk.
    + lia.
    + split; apply Hnm; assumption.
Qed.

(** *** The raw keys *)

Lemma scan_rawKeys_fold (enumName : string) (values : list QJsonValue)
    (acc : EnumScan) :
  scan_rawKeys (foldl (scanValue enumName) acc values)
  = scan_rawKeys acc ++ rawKeysOf values.
Proof.
  revert acc. induction values as [| val values IH]; intros acc.
  - simpl. rewrite app_nil_r. reflexivity.
  - simpl. rewrite IH. unfold rawKeysOf. cbn [fmap list_fmap List.filter].
    unfold scanValue. cbv zeta.
    destruct (isEmpty (enumKeyOf val)); cbn [negb scan_rawKeys];
      [reflexivity |].
    rewrite <- app_assoc. reflexivity.
Qed.

Lemma scan_rawKeys_values (enumName : string) (values : list QJsonValue) :
  scan_rawKeys (scanValues enumName values) = rawKeysOf values.
Proof. unfold scanValues. cbv zeta. apply scan_rawKeys_fold. Qed.

Lemma rawKeysOf_nonempty (values : list QJsonValue) (key : string) :
  key ∈ rawKeysOf values -> key <> "".
Proof.
  unfold rawKeysOf. rewrite list_elem_of_In, filter_In.
  intros [_ Hne] ->. discriminate Hne.
Qed.

(** [allNumeric] holds when the array is not empty and every raw key
    reads as an integer. *)
Lemma scan_allNumeric_fold (enumName : string) (values : list QJsonValue)
    (acc : EnumScan) :
  scan_allNumeric (foldl (scanValue enumName) acc values) = true ->
  scan_allNumeric acc = true
  /\ forall key, key ∈ rawKeysOf values -> is_Some (toInt key).
Proof.
  revert acc. induction values as [| val values IH]; intros acc.
  - simpl. intros H. split; [exact H |]. intros key Hk. inversion Hk.
  - simpl. intros H. apply IH in H as [Hacc Hkeys].
    unfold rawKeysOf. cbn [fmap list_fmap List.filter].
    fold (rawKeysOf values).
    revert Hacc. unfold scanValue. cbv zeta.
    destruct (isEmpty (enumKeyOf val)); cbn [negb]; [intros Hacc; split; assumption |].
    cbn [scan_allNumeric].
    destruct (toInt (enumKeyOf val)) as [n |] eqn:Hn; [| discriminate].
    intros Hacc. split; [exact Hacc |].
    intros key. rewrite elem_of_cons. intros [-> | Hk]; [eauto | auto].
Qed.

Lemma scan_allNumeric_keys (enumName : string) (values : list QJsonValue) :
  scan_allNumeric (scanValues enumName values) = true ->
  values <> [] /\ forall key, key ∈ rawKeysOf values -> is_Some (toInt key).
Proof.
  unfold scanValues. cbv zeta. intros H.
  apply scan_allNumeric_fold in H as [Hacc Hkeys]. split; [| exact Hkeys].
  destruct values; [discriminate Hacc | discriminate].
Qed.

(** *** The choices *)

Lemma usableKey_default (fallbackMap : gmap string Z) (key : string) :
  usableKey fallbackMap key
  = if default 0 (fallbackMap !! key) =? 0 then None
    else Some (default 0 (fallbackMap !! key)).
Proof.
  unfold usableKey. destruct (fallbackMap !! key) as [v |]; reflexivity.
Qed.

Lemma enumTablesOf_choices (enumName : string) (fallbackMap : gmap string Z)
    (rawKeys : list string) :
  tab_choices (enumTablesOf enumName fallbackMap rawKeys)
  = enumChoices enumName fallbackMap rawKeys.
Proof.
  unfold enumTablesOf, enumChoices.
  induction rawKeys as [| key l IH] using rev_ind; [reflexivity |].
  rewrite foldl_snoc, omap_app. cbn [omap list_omap].
  rewrite usableKey_default, <- IH.
  set (t := foldl (choiceStep enumName fallbackMap) (mkTables [] ∅ ∅) l).
  unfold choiceStep. cbv zeta.
  destruct (default 0 (fallbackMap !! key) =? 0).
  - cbn. rewrite app_nil_r. reflexivity.
  - reflexivity.
Qed.

Lemma enumChoices_nonempty (enumName : string) (fallbackMap : gmap string Z)
    (rawKeys : list string) :
  enumChoices enumName fallbackMap rawKeys <> []
  <-> exists key, key ∈ rawKeys /\ is_Some (usableKey fallbackMap key).
Proof.
  unfold enumChoices. induction rawKeys as [| key l IH].
  - split; [intros H; contradiction |]. intros (key & Hk & _). inversion Hk.
  - cbn [omap list_omap].
    destruct (usableKey fallbackMap key) as [v |] eqn:Hu; cbn.
    + split; [| discriminate]. intros _. exists key.
      split; [left | rewrite Hu; eauto].
    + rewrite IH. split.
      * intros (k & Hk & Hs). exists k. split; [right; exact Hk | exact Hs].
      * intros (k & Hk & Hs). apply elem_of_cons in Hk as [-> | Hk].
        -- rewrite Hu in Hs. destruct Hs as [? Hs]. discriminate.
        -- eauto.
Qed.

(** *** Which raw keys are usable *)

Lemma numeric_fallback_lookup (rawKeys : list string) (m : gmap string Z)
    (key : string) :
  key ∈ rawKeys -> foldl numericStep m rawKeys !! key = toInt key \/ toInt key = None.
Proof.
  revert m. induction rawKeys as [| k l IH] using rev_ind; intros m Hk.
  - inversion Hk.
  - rewrite foldl_snoc. unfold numericStep at 1.
    apply elem_of_app in Hk as [Hk | Hk].
    + destruct (toInt k) as [n |] eqn:Hn; [| apply IH; exact Hk].
      destruct (decide (k = key)) as [<- | Hne].
      * rewrite lookup_insert_eq. left. congruence.
      * rewrite lookup_insert_ne by exact Hne. apply IH. exact Hk.
    + apply list_elem_of_singleton in Hk as ->.
      destruct (toInt k) as [n |] eqn:Hn; [| right; reflexivity].
      rewrite lookup_insert_eq. left. reflexivity.
Qed.

Lemma stable_fallback_covers (rawKeys : list string) (normalized : gmap string Z) :
  (forall l, sort l ≡ₚ l) ->
  (forall k v, normalized !! k = Some v -> 1 <= v <= 5) ->
  Z.of_nat (length rawKeys) <= INT_MAX - 5 ->
  forall key,
    key ∈ rawKeys -> key <> "" ->
    exists v,
      buildStableEnumMap sort rawKeys (Json.ofInt <$> normalized) !! key = Some v
      /\ 0 < v
      /\ (forall w, normalized !! key = Some w -> v = w).
Proof.
  intros Hperm Hrange Hlen key Hkey Hne. unfold buildStableEnumMap.
  destruct (EnumMapFacts.existing_loop (Json.ofInt <$> normalized))
    as (Hkept & [Hub Hatt] & HM).
  destruct (map_fold existingStep (∅, 0) (Json.ofInt <$> normalized)) as [m M].
  simpl in *. rewrite (keptEntries_normalized _ Hrange) in Hkept. subst m.
  assert (HM5 : M <= 5).
  { destruct Hatt as [-> | [k Hk]]; [lia |]. apply Hrange in Hk. lia. }
  destruct (EnumMapFacts.rawKeys_loop (sort rawKeys) normalized M)
    as (news & Hnd & _ & Hmem & Hval & Hrest).
  { lia. }
  { rewrite (Permutation_length (Hperm rawKeys)). unfold INT_MAX in *. lia. }
  destruct (normalized !! key) as [w |] eqn:Hw.
  - exists w. rewrite Hrest.
    + split; [exact Hw |]. split; [apply Hrange in Hw; lia |].
      intros ? [= <-]. reflexivity.
    + intros Hin. apply Hmem in Hin as (_ & _ & Hnone). congruence.
  - assert (Hin : key ∈ news).
    { apply Hmem. split; [rewrite (Hperm rawKeys); exact Hkey |]. split; assumption. }
    apply list_elem_of_lookup in Hin as [i Hi].
    exists (M + 1 + Z.of_nat i). split; [apply Hval; exact Hi |].
    split; [lia |]. intros w Habs. discriminate.
Qed.

(** *** The normalised map *)

Lemma scan_normalized_fold (enumName : string) (values : list QJsonValue)
    (acc : EnumScan) (key : string) (w : Z) :
  knownAliasOf enumName key = Some w ->
  key ∈ rawKeysOf values \/ scan_normalizedMap acc !! key = Some w ->
  scan_normalizedMap (foldl (scanValue enumName) acc values) !! key = Some w.
Proof.
  intros Hw. revert acc. induction values as [| val values IH]; intros acc.
  - simpl. intros [Hk | Hk]; [inversion Hk | exact Hk].
  - simpl. intros Hk. apply IH.
    unfold rawKeysOf in Hk. cbn [fmap list_fmap List.filter] in Hk.
    fold (rawKeysOf values) in Hk.
    unfold scanValue. cbv zeta.
    destruct (isEmpty (enumKeyOf val)) eqn:He; cbn [negb] in Hk; [exact Hk |].
    cbn [scan_normalizedMap].
    assert (Hhere : enumKeyOf val = key ->
                    (if negb (isEmpty enumName)
                     then if isKnownEnumName enumName "RockerMode"
                          then match mapRockerMode (enumKeyOf val) with
                               | Some mapped =>
                                   <[enumKeyOf val := mapped]> (scan_normalizedMap acc)
                               | None => scan_normalizedMap acc
                               end
                          else if isKnownEnumName enumName "SensitivityLevel"
                               then match mapSensitivityLevel (enumKeyOf val) with
                                    | Some mapped =>
                                        <[enumKeyOf val := mapped]>
                                          (scan_normalizedMap acc)
                                    | None => scan_normalizedMap acc
                                    end
                               else scan_normalizedMap acc
                     else scan_normalizedMap acc) !! key = Some w).
    { intros ->. revert Hw. unfold knownAliasOf.
      destruct (negb (isEmpty enumName)); [| discriminate].
      destruct (isKnownEnumName enumName "RockerMode").
      - intros ->. apply lookup_insert_eq.
      - destruct (isKnownEnumName enumName "SensitivityLevel"); [| discriminate].
        intros ->. apply lookup_insert_eq. }
    destruct (decide (enumKeyOf val = key)) as [Heq | Hne]; [right; auto |].
    destruct Hk as [Hk | Hk].
    + apply elem_of_cons in Hk as [-> | Hk]; [contradiction | left; exact Hk].
    + right.
      destruct (negb (isEmpty enumName)); [| exact Hk].
      destruct (isKnownEnumName enumName "RockerMode").
      * destruct (mapRockerMode (enumKeyOf val));
          [rewrite lookup_insert_ne by exact Hne |]; exact Hk.
      * destruct (isKnownEnumName enumName "SensitivityLevel"); [| exact Hk].
        destruct (mapSensitivityLevel (enumKeyOf val));
          [rewrite lookup_insert_ne by exact Hne |]; exact Hk.
Qed.

Lemma scan_allNumeric_false_fold (enumName : string) (values : list QJsonValue)
    (acc : EnumScan) :
  scan_allNumeric (foldl (scanValue enumName) acc values) = false ->
  scan_allNumeric acc = false
  \/ exists key, key ∈ rawKeysOf values /\ toInt key = None.
Proof.
  revert acc. induction values as [| val values IH]; intros acc.
  - simpl. intros H. left. exact H.
  - simpl. intros H. apply IH in H as [H | (key & Hk & Hn)].
    + revert H. unfold scanValue. cbv zeta.
      unfold rawKeysOf. cbn [fmap list_fmap List.filter].
      destruct (isEmpty (enumKeyOf val)); cbn [negb]; [intros H; left; exact H |].
      cbn [scan_allNumeric].
      destruct (toInt (enumKeyOf val)) as [n |] eqn:Hn; [intros H; left; exact H |].
      intros _. right. exists (enumKeyOf val). split; [left | exact Hn].
    + right. exists key. split; [| exact Hn].
      unfold rawKeysOf. cbn [fmap list_fmap List.filter].
      destruct (negb (isEmpty (enumKeyOf val))); [right |]; exact Hk.
Qed.

(** *** The fallback map on the raw keys *)

Lemma fallback_on_keys (expose : QJsonObject) (key : string) :
  (forall l, sort l ≡ₚ l) ->
  Z.of_nat (length (Json.toArray (Json.value expose "values"))) <= INT_MAX - 5 ->
  key ∈ exposeRawKeys expose ->
  ((forall k, k ∈ exposeRawKeys expose -> is_Some (toInt k))
   /\ exposeFallbackMap sort expose !! key = toInt key)
  \/ ((exists k, k ∈ exposeRawKeys expose /\ toInt k = None)
      /\ exists v,
           exposeFallbackMap sort expose !! key = Some v
           /\ 0 < v
           /\ forall w,
                knownAliasOf (enumNameOf (exposeProperty expose)) key = Some w ->
                v = w).
Proof.
  intros Hperm Hlen Hkey.
  unfold exposeFallbackMap, fallbackMapOf, exposeScan, exposeRawKeys in *.
  set (enumName := enumNameOf (exposeProperty expose)) in *.
  set (values := Json.toArray (Json.value expose "values")) in *.
  destruct (scanValues_inv enumName values) as [Hnm Hkeys].
  pose proof (scan_rawKeys_values enumName values) as Hraw.
  destruct (scan_allNumeric (scanValues enumName values)) eqn:Hall.
  - left. apply scan_allNumeric_keys in Hall as [_ Hnum].
    split; [exact Hnum |]. rewrite Hraw.
    destruct (numeric_fallback_lookup (rawKeysOf values) ∅ key Hkey) as [H | H];
      [exact H |].
    destruct (Hnum key Hkey) as [n Hn]. congruence.
  - right. split.
    + unfold scanValues in Hall. cbv zeta in Hall.
      apply scan_allNumeric_false_fold in Hall as [Hall | Hall]; [| exact Hall].
      cbn [scan_allNumeric] in Hall. destruct values; [inversion Hkey | discriminate].
    + rewrite Hraw in *.
      destruct (stable_fallback_covers (rawKeysOf values)
                  (scan_normalizedMap (scanValues enumName values)) Hperm)
        with (key := key) as (v & Hv & Hpos & Hnorm).
      * intros k w Hk. eapply knownAlias_range. eapply Hnm. exact Hk.
      * lia.
      * exact Hkey.
      * eapply rawKeysOf_nonempty. exact Hkey.
      * exists v. split; [exact Hv |]. split; [exact Hpos |].
        intros w Hw. apply Hnorm. unfold scanValues. cbv zeta.
        apply (scan_normalized_fold enumName values _ key w Hw). left. exact Hkey.
Qed.

Lemma usable_on_keys (expose : QJsonObject) (key : string) :
  (forall l, sort l ≡ₚ l) ->
  Z.of_nat (length (Json.toArray (Json.value expose "values"))) <= INT_MAX - 5 ->
  key ∈ exposeRawKeys expose ->
  is_Some (usableKey (exposeFallbackMap sort expose) key)
  <-> (exists k, k ∈ exposeRawKeys expose /\ toInt k = None) \/ toInt key <> Some 0.
Proof.
  intros Hperm Hlen Hkey. unfold usableKey.
  destruct (fallback_on_keys expose key Hperm Hlen Hkey)
    as [[Hnum ->] | [Hsome (v & -> & Hpos & _)]].
  - destruct (Hnum key Hkey) as [n Hn]. rewrite Hn.
    destruct (Z.eqb_spec n 0) as [-> | Hnz].
    + split; [intros [? H]; discriminate |].
      intros [(k & Hk & Hnone) | Habs]; [| contradiction].
      destruct (Hnum k Hk) as [? Hk']. congruence.
    + split; [| eauto]. intros _. right. congruence.
  - destruct (Z.eqb_spec v 0) as [-> | _]; [lia |].
    split; [intros _; left; exact Hsome | eauto].
Qed.

(** C7, as the code has it. For the channel that [addChannelFromExpose]
    appends, with its binding. An expose of type [enum] gives data type
    Enum, and then [choices] holds one option for each usable raw key of
    [values], in their order; every raw key is usable, and mapped to a
    positive value, unless all of them spell integers, in which case a
    key is mapped to its integer and the spellings of 0 are left out. So
    [choices] is non-empty exactly when [values] names a raw key that
    does not spell 0. A raw key that normalises to a constant of the
    named enum is mapped to that constant. An expose of another type
    has no choices, Enum or not. [choices] is empty exactly when
    [enum_raw_to_value] is; two raw strings share a value only when
    they are aliases (both normalise to the same constant of the named
    enum, or both spell the same integer); [enum_value_to_raw] is a
    right inverse of [enum_raw_to_value] and covers each of its values,
    none of which is zero. *)
Theorem enum_channel_tables (expose : QJsonObject) (entry : Z2mDeviceEntry)
    (channel : Channel) (binding : Z2mChannelBinding) :
  (forall l, sort l ≡ₚ l) ->
  Z.of_nat (length (Json.toArray (Json.value expose "values"))) <= INT_MAX - 5 ->
  e_channels (addChannelFromExpose sort expose entry) = e_channels entry ++ [channel] ->
  e_bindingsByChannel (addChannelFromExpose sort expose entry) !! ch_id channel
  = Some binding ->
  (exposeType expose = "enum" -> ch_dataType channel = TEnum)
  /\ (ch_choices channel = [] <-> b_enumRawToValue binding = ∅)
  /\ (forall k1 k2 v,
        k1 <> k2 ->
        b_enumRawToValue binding !! k1 = Some v ->
        b_enumRawToValue binding !! k2 = Some v ->
        sameValueAliases (enumNameOf (exposeProperty expose)) k1 k2 v)
  /\ (forall v k, b_enumValueToRaw binding !! v = Some k ->
                  b_enumRawToValue binding !! k = Some v)
  /\ (forall k v, b_enumRawToValue binding !! k = Some v ->
                  v <> 0 /\ is_Some (b_enumValueToRaw binding !! v))
  /\ (exposeType expose = "enum" ->
      ch_choices channel
      = enumChoices (enumNameOf (exposeProperty expose))
          (exposeFallbackMap sort expose) (exposeRawKeys expose)
      /\ (ch_choices channel <> []
          <-> exists key, key ∈ exposeRawKeys expose /\ toInt key <> Some 0)
      /\ (forall key v,
            b_enumRawToValue binding !! key = Some v
            <-> key ∈ exposeRawKeys expose
                /\ usableKey (exposeFallbackMap sort expose) key = Some v)
      /\ (forall key,
            key ∈ exposeRawKeys expose ->
            ((forall k, k ∈ exposeRawKeys expose -> is_Some (toInt k))
             /\ exposeFallbackMap sort expose !! key = toInt key)
            \/ ((exists k, k ∈ exposeRawKeys expose /\ toInt k = None)
                /\ exists v,
                     exposeFallbackMap sort expose !! key = Some v
                     /\ 0 < v
                     /\ forall w,
                          knownAliasOf (enumNameOf (exposeProperty expose)) key
                          = Some w ->
                          v = w)))
  /\ (exposeType expose <> "enum" ->
      ch_choices channel = [] /\ b_enumRawToValue binding = ∅).
Proof.
  intros Hperm Hlen Hch Hbind.
  destruct (addChannelFromExpose_cases expose entry)
    as [Hsame | (ch & b & cid & prop & Heq & _ & Hid & _ & _ & _ & Htab)].
  { rewrite Hsame in Hch. exfalso.
    apply (f_equal length) in Hch. rewrite length_app in Hch. simpl in Hch. lia. }
  rewrite Heq in Hch, Hbind. simpl in Hch, Hbind.
  apply app_inj_tail in Hch as [_ ->].
  rewrite Hid, lookup_insert_eq in Hbind. injection Hbind as ->.
  destruct (String.eqb_spec (exposeType expose) "enum") as [Henum | Hother].
  - destruct Htab as (Hty & Hchoices & Hr2v & Hv2r).
    rewrite Hchoices, Hr2v, Hv2r. clear Hchoices Hr2v Hv2r.
    pose proof (enumTablesOf_inv (enumNameOf (exposeProperty expose))
                  (exposeFallbackMap sort expose)
                  (scan_rawKeys (exposeScan expose))) as (Hr & Hc & Hv & Hrv).
    pose proof (enumTablesOf_choices (enumNameOf (exposeProperty expose))
                  (exposeFallbackMap sort expose)
                  (scan_rawKeys (exposeScan expose))) as Hlist.
    fold (exposeEnumTables sort expose) in Hr, Hc, Hv, Hrv, Hlist.
    assert (Hkeys : scan_rawKeys (exposeScan expose) = exposeRawKeys expose)
      by apply scan_rawKeys_values.
    rewrite Hkeys in Hr, Hlist.
    split; [intros _; exact Hty |]. split; [exact Hc |].
    split; [| split; [exact Hv |]].
    { intros k1 k2 v Hne H1 H2.
      apply Hr in H1 as (_ & H1 & _). apply Hr in H2 as (_ & H2 & _).
      eapply fallback_shared; eassumption. }
    split.
    { intros k v Hk. split; [| eapply Hrv; exact Hk]. apply Hr in Hk. apply Hk. }
    split; [| intros Habs; contradiction].
    intros _. split; [exact Hlist |]. split; [| split].
    + rewrite Hlist, enumChoices_nonempty. split.
      * intros (key & Hkey & Hus).
        apply (usable_on_keys expose key Hperm Hlen Hkey) in Hus
          as [(k & Hk & Hnone) | Hnz].
        -- exists k. split; [exact Hk | congruence].
        -- exists key. split; assumption.
      * intros (key & Hkey & Hnz). exists key. split; [exact Hkey |].
        apply (usable_on_keys expose key Hperm Hlen Hkey). right. exact Hnz.
    + intros key v. rewrite Hr. unfold usableKey. split.
      * intros (Hkey & -> & Hnz). split; [exact Hkey |].
        destruct (Z.eqb_spec v 0); [contradiction | reflexivity].
      * intros (Hkey & Hus). split; [exact Hkey |].
        destruct (exposeFallbackMap sort expose !! key) as [w |]; [| discriminate].
        destruct (Z.eqb_spec w 0); [discriminate |].
        injection Hus as <-. split; [reflexivity | assumption].
    + intros key Hkey. apply fallback_on_keys; assumption.
  - destruct Htab as (-> & -> & ->).
    split; [intros Habs; contradiction |].
    split; [split; reflexivity |].
    split; [intros ? ? ? _ H; rewrite lookup_empty in H; discriminate |].
    split; [intros ? ? H; rewrite lookup_empty in H; discriminate |].
    split; [intros ? ? H; rewrite lookup_empty in H; discriminate |].
    split; [intros Habs; contradiction |].
    intros _. split; reflexivity.
Qed.

End Compile.

(** Scenario S6 follows: the two rocker modes give the choices 1,
    SingleRocker and 2, DualRocker; and the two spellings of the single
    rocker mode are aliases. *)
Lemma enum_channel_tables_witness :
  exists channel binding,
    e_channels (addChannelFromExpose insertionSortCI deviceModeExpose Sample.emptyEntry)
    = e_channels Sample.emptyEntry ++ [channel]
    /\ e_bindingsByChannel
         (addChannelFromExpose insertionSortCI deviceModeExpose Sample.emptyEntry)
         !! ch_id channel = Some binding
    /\ ch_dataType channel = TEnum
    /\ ch_choices channel
       = [mkOption "1" "SingleRocker"; mkOption "2" "DualRocker"]
    /\ b_enumRawToValue binding !! "dual_rocker" = Some 2
    /\ sameValueAliases "RockerMode" "single_rocker" "singlerocker" 1.
Proof.
  eexists _, _. split; [reflexivity |]. split; [reflexivity |].
  destruct (enum_channel_tables insertionSortCI Sample.rockerExpose Sample.emptyEntry
              _ _ EnumMapFacts.insertionSortCI_perm
              ltac:(vm_compute; discriminate) eq_refl eq_refl)
    as (_ & _ & Hshared & _).
  destruct (enum_channel_tables insertionSortCI deviceModeExpose Sample.emptyEntry
              _ _ EnumMapFacts.insertionSortCI_perm
              ltac:(vm_compute; discriminate) eq_refl eq_refl)
    as (Hty & _ & _ & _ & _ & Henum & _).
  destruct (Henum eq_refl) as (Hchoices & _ & Htable & Hkeys).
  split; [apply Hty; reflexivity |].
  assert (Husable : forall key w,
            key ∈ exposeRawKeys deviceModeExpose -> toInt key = None ->
            knownAliasOf "RockerMode" key = Some w ->
            usableKey (exposeFallbackMap insertionSortCI deviceModeExpose) key
            = Some w).
  { intros key w Hkey Hnone Hw. unfold usableKey.
    destruct (Hkeys key Hkey) as [[Hnum _] | [_ (v & -> & Hpos & Halias)]].
    - destruct (Hnum key Hkey) as [n Hn]. congruence.
    - rewrite <- (Halias w Hw). destruct (Z.eqb_spec v 0); [lia | reflexivity]. }
  assert (H1 : usableKey (exposeFallbackMap insertionSortCI deviceModeExpose)
                 "single_rocker" = Some 1).
  { apply Husable; [left | reflexivity | reflexivity]. }
  assert (H2 : usableKey (exposeFallbackMap insertionSortCI deviceModeExpose)
                 "dual_rocker" = Some 2).
  { apply Husable; [right; left | reflexivity | reflexivity]. }
  split.
  - rewrite Hchoices.
    change (exposeRawKeys deviceModeExpose) with ["single_rocker"; "dual_rocker"].
    unfold enumChoices. cbn [omap list_omap]. rewrite H1, H2. reflexivity.
  - split; [apply Htable; split; [right; left | exact H2] |].
    apply (Hshared "single_rocker" "singlerocker" 1);
      [discriminate | reflexivity | reflexivity].
Defined.

(** Against C7 as the spec words it: a numeric [illumination] expose and
    an enum expose without values both give an Enum channel with no
    choices, and the two spellings of the single rocker mode both map
    to 1. *)
Lemma enum_channel_counterexample :
  (exists channel,
     e_channels (addChannelFromExpose insertionSortCI Sample.illuminationExpose
                   Sample.emptyEntry) = [channel]
     /\ ch_dataType channel = TEnum /\ ch_choices channel = [])
  /\ (exists channel,
        e_channels (addChannelFromExpose insertionSortCI Sample.bareEnumExpose
                      Sample.emptyEntry) = [channel]
        /\ ch_dataType channel = TEnum /\ ch_choices channel = [])
  /\ (exists channel binding,
        e_channels (addChannelFromExpose insertionSortCI Sample.rockerExpose
                      Sample.emptyEntry) = [channel]
        /\ e_bindingsByChannel
             (addChannelFromExpose insertionSortCI Sample.rockerExpose Sample.emptyEntry)
             !! ch_id channel = Some binding
        /\ ch_dataType channel = TEnum
        /\ b_enumRawToValue binding !! "single_rocker" = Some 1
        /\ b_enumRawToValue binding !! "singlerocker" = Some 1).
Proof.
  split; [| split].
  - eexists. split; [reflexivity |]. split; reflexivity.
  - eexists. split; [reflexivity |]. split; reflexivity.
  - eexists _, _. split; [reflexivity |]. split; [reflexivity |].
    split; [reflexivity |]. split; reflexivity.
Qed.

End ExposeFacts.

(** ** Entries built from the device array *)

Module EntryFacts.

Import QtString Expose.

Section Compile.

Variable sort : list string -> list string.

Lemma addChannelFromExpose_mqttId (expose : QJsonObject) (entry : Z2mDeviceEntry) :
  e_mqttId (addChannelFromExpose sort expose entry) = e_mqttId entry
  /\ e_device (addChannelFromExpose sort expose entry) = e_device entry.
Proof.
  destruct (ExposeFacts.addChannelFromExpose_cases sort expose entry)
    as [-> | (ch & b & cid & prop & -> & _)]; split; reflexivity.
Qed.

Lemma exposes_fold_mqttId (exposes : list QJsonObject) (entry : Z2mDeviceEntry) :
  e_mqttId (foldl (fun e expose => addChannelFromExpose sort expose e) entry exposes)
  = e_mqttId entry
  /\ e_device (foldl (fun e expose => addChannelFromExpose sort expose e) entry exposes)
     = e_device entry.
Proof.
  revert entry. induction exposes as [| expose l IH]; intros entry; [split; reflexivity |].
  simpl. destruct (IH (addChannelFromExpose sort expose entry)) as [-> ->].
  apply addChannelFromExpose_mqttId.
Qed.

Lemma buildDeviceEntry_mqttId (obj : QJsonObject) :
  e_mqttId (buildDeviceEntry sort obj) = friendlyNameOf obj.
Proof.
  unfold buildDeviceEntry. cbv zeta. cbn [e_mqttId].
  match goal with |- e_mqttId (foldl ?f ?e ?l) = _ =>
    destruct (exposes_fold_mqttId l e) as [-> _] end.
  reflexivity.
Qed.

End Compile.

End EntryFacts.

(** ** State payloads that arrive before the device *)

Module ReplayFacts.

Import QtString Adapter ActionFacts TraceFacts IngestFacts.

Section WithPlatform.

Variable P : Platform.

Abbreviation bufferNeutral := (neutral m_pendingStatePayloads appliedPayloadOf).

Lemma bufferNeutral_handleBridgeInfoPayload (p : QJsonObject) (ts : Z) :
  bufferNeutral (handleBridgeInfoPayload p ts).
Proof.
  intros s. unfold handleBridgeInfoPayload.
  destruct (isEmpty (m_coordinatorId s)); [split; reflexivity |].
  destruct (m_devices s !! _) as [entry |]; [| split; reflexivity].
  split; [reflexivity |]. simpl.
  rewrite !omap_app.
  repeat match goal with
         | |- context [match ?c with _ => _ end] => destruct c
         end; reflexivity.
Qed.

Lemma bufferNeutral_removeDevice (k : string) (entry : Z2mDeviceEntry) :
  bufferNeutral (removeDevice k entry).
Proof. unfold removeDevice. neutral_tac. Qed.

Lemma bufferNeutral_forgetPreviousName (existing : option Z2mDeviceEntry)
    (renameDetected : bool) (previous : string) :
  bufferNeutral (forgetPreviousName existing renameDetected previous).
Proof. unfold forgetPreviousName. neutral_tac. Qed.

Lemma bufferNeutral_confirmPendingRename (ieee : string) (entry : Z2mDeviceEntry)
    (now : Z) :
  bufferNeutral (confirmPendingRename ieee entry now).
Proof. unfold confirmPendingRename. neutral_tac. Qed.

Lemma bufferNeutral_storeEntry (entry : Z2mDeviceEntry) :
  bufferNeutral (storeEntry entry).
Proof. unfold storeEntry. neutral_tac. Qed.

Lemma bufferNeutral_scheduleAvailabilityDefault (entry : Z2mDeviceEntry)
    (availability : string) (lastSeenMs : Z) :
  bufferNeutral (scheduleAvailabilityDefault entry availability lastSeenMs).
Proof. unfold scheduleAvailabilityDefault. neutral_tac. Qed.

Lemma bufferNeutral_adoptCoordinator (obj : QJsonObject) (entry : Z2mDeviceEntry)
    (now : Z) :
  bufferNeutral (adoptCoordinator obj entry now).
Proof.
  unfold adoptCoordinator.
  neutral_with ltac:(apply bufferNeutral_handleBridgeInfoPayload).
Qed.

(** A handler that is neutral for the buffer can be skipped on either
    side of one that is not. *)
Lemma bufferNeutral_before (a b : Action) (s : Z2mAdapter) :
  bufferNeutral a ->
  appliedPayloads ((a >> b) s).2 = appliedPayloads (b (a s).1).2
  /\ m_pendingStatePayloads ((a >> b) s).1 = m_pendingStatePayloads (b (a s).1).1.
Proof.
  intros Ha. rewrite andThen_run. simpl. rewrite appliedPayloads_app.
  unfold appliedPayloads at 1. rewrite (proj2 (Ha s)). split; reflexivity.
Qed.

Lemma bufferNeutral_after (a b : Action) (s : Z2mAdapter) :
  bufferNeutral b ->
  appliedPayloads ((a >> b) s).2 = appliedPayloads (a s).2
  /\ m_pendingStatePayloads ((a >> b) s).1 = m_pendingStatePayloads (a s).1.
Proof.
  intros Hb. rewrite andThen_run. simpl. rewrite appliedPayloads_app.
  unfold appliedPayloads at 2. rewrite (proj2 (Hb (a s).1)), (proj1 (Hb (a s).1)).
  rewrite app_nil_r. split; reflexivity.
Qed.

Lemma handleDeviceStatePayload_replay (d : string) (payload : QJsonObject) (ts : Z)
    (s : Z2mAdapter) (entry : Z2mDeviceEntry) :
  m_devices s !! d = Some entry ->
  appliedPayloads (handleDeviceStatePayload P d payload ts s).2 = [(d, payload, ts)]
  /\ m_pendingStatePayloads (handleDeviceStatePayload P d payload ts s).1
     = m_pendingStatePayloads s.
Proof.
  intros Hd.
  destruct (handleDeviceStatePayload_known P d payload ts s entry Hd)
    as (entry' & es & -> & Hes & _).
  split; [| reflexivity]. simpl. unfold appliedPayloads. simpl. f_equal.
  apply (ingest_signals_project appliedPayloadOf es); [reflexivity | reflexivity | exact Hes].
Qed.

(** The replay step: the payload buffered under the name of the stored
    entry is handled once and leaves the buffer. *)
Lemma replayPendingState_run (entry stored : Z2mDeviceEntry) (now : Z)
    (s : Z2mAdapter) :
  m_devices s !! e_mqttId entry = Some stored ->
  appliedPayloads (replayPendingState P entry now s).2
  = match m_pendingStatePayloads s !! e_mqttId entry with
    | Some pending => [(e_mqttId entry, pending, now)]
    | None => []
    end
  /\ m_pendingStatePayloads (replayPendingState P entry now s).1
     = delete (e_mqttId entry) (m_pendingStatePayloads s).
Proof.
  intros Hstored. unfold replayPendingState.
  destruct (m_pendingStatePayloads s !! e_mqttId entry) as [pending |] eqn:Hp.
  - rewrite andThen_run. cbn [modify fst snd app].
    match goal with |- context [handleDeviceStatePayload P ?d ?p ?t ?s0] =>
      destruct (handleDeviceStatePayload_replay d p t s0 stored) as [-> ->] end;
      [exact Hstored |].
    split; reflexivity.
  - split; [reflexivity |]. simpl. symmetry. apply delete_id. exact Hp.
Qed.

Lemma storeEntry_lookup (entry : Z2mDeviceEntry) (s : Z2mAdapter) :
  m_devices (storeEntry entry s).1 !! e_mqttId entry = Some entry.
Proof.
  unfold storeEntry. rewrite !andThen_run. cbn [modify emit fst snd].
  destruct (negb (isEmpty (dev_id (e_device entry)))); simpl; apply lookup_insert_eq.
Qed.

Lemma migratePendingState_run (deviceId ieee : string) (s0 s : Z2mAdapter) :
  m_pendingStatePayloads s0 = m_pendingStatePayloads s ->
  m_pendingStatePayloads
    (migratePendingState (renames s deviceId ieee) (previousMqttIdOf s ieee)
       deviceId s0).1 !! deviceId
  = bufferedFor s deviceId ieee.
Proof.
  intros Hs0. unfold migratePendingState, bufferedFor. cbn [modify fst].
  destruct (renames s deviceId ieee) eqn:Hren; [| rewrite Hs0; reflexivity].
  rewrite Hs0.
  destruct (m_pendingStatePayloads s !! previousMqttIdOf s ieee) as [pending |];
    [| rewrite Hs0; reflexivity].
  simpl. unfold renames in Hren.
  apply andb_true_iff in Hren as [_ Hne]. apply negb_true_iff in Hne.
  apply String.eqb_neq in Hne.
  rewrite lookup_delete_ne by exact Hne. apply lookup_insert_eq.
Qed.

(** Registration of an element: the trace holds the replay of the
    buffered payload, once, and the buffer has no payload for the
    device afterwards. *)
Lemma registerDevice_replay (obj : QJsonObject) (ieee : string) (now : Z)
    (s : Z2mAdapter) :
  appliedPayloads (registerDevice P obj (friendlyNameOf obj) ieee now s).2
  = match bufferedFor s (friendlyNameOf obj) ieee with
    | Some pending => [(friendlyNameOf obj, pending, now)]
    | None => []
    end
  /\ m_pendingStatePayloads (registerDevice P obj (friendlyNameOf obj) ieee now s).1
     !! friendlyNameOf obj = None.
Proof.
  unfold registerDevice. cbv zeta.
  fold (renames s (friendlyNameOf obj) ieee).
  set (existing := if negb (isEmpty (previousMqttIdOf s ieee))
                   then m_devices s !! previousMqttIdOf s ieee else None).
  set (entry := match existing with
                | Some old => renamedEntry (friendlyNameOf obj) old
                | None => Expose.buildDeviceEntry (sortCI P) obj
                end).
  assert (Hid : e_mqttId entry = friendlyNameOf obj).
  { subst entry. destruct existing; [reflexivity |].
    apply EntryFacts.buildDeviceEntry_mqttId. }
  clearbody entry. clearbody existing.
  match goal with |- context [scheduleAvailabilityDefault entry ?a ?l] =>
    generalize a l; intros availability lastSeenMs end.
  destruct (bufferNeutral_before
              (forgetPreviousName existing (renames s (friendlyNameOf obj) ieee)
                 (previousMqttIdOf s ieee))
              (migratePendingState (renames s (friendlyNameOf obj) ieee)
                 (previousMqttIdOf s ieee) (friendlyNameOf obj)
               >> confirmPendingRename ieee entry now
               >> storeEntry entry
               >> replayPendingState P entry now
               >> scheduleAvailabilityDefault entry availability lastSeenMs
               >> adoptCoordinator obj entry now) s
              (bufferNeutral_forgetPreviousName _ _ _)) as [-> ->].
  set (s1 := (forgetPreviousName existing _ _ s).1).
  assert (H1 : m_pendingStatePayloads s1 = m_pendingStatePayloads s)
    by apply bufferNeutral_forgetPreviousName.
  pose proof (migratePendingState_run (friendlyNameOf obj) ieee s1 s H1) as H2.
  rewrite andThen_run. cbn [fst snd].
  set (s2 := (migratePendingState _ _ _ s1).1) in *.
  change (migratePendingState (renames s (friendlyNameOf obj) ieee)
            (previousMqttIdOf s ieee) (friendlyNameOf obj) s1).2 with (@nil Effect).
  cbn [app].
  destruct (bufferNeutral_before (confirmPendingRename ieee entry now)
              (storeEntry entry
               >> replayPendingState P entry now
               >> scheduleAvailabilityDefault entry availability lastSeenMs
               >> adoptCoordinator obj entry now) s2
              (bufferNeutral_confirmPendingRename _ _ _)) as [-> ->].
  set (s3 := (confirmPendingRename ieee entry now s2).1).
  assert (H3 : m_pendingStatePayloads s3 = m_pendingStatePayloads s2)
    by apply bufferNeutral_confirmPendingRename.
  destruct (bufferNeutral_before (storeEntry entry)
              (replayPendingState P entry now
               >> scheduleAvailabilityDefault entry availability lastSeenMs
               >> adoptCoordinator obj entry now) s3
              (bufferNeutral_storeEntry _)) as [-> ->].
  set (s4 := (storeEntry entry s3).1).
  assert (H4 : m_pendingStatePayloads s4 = m_pendingStatePayloads s3)
    by apply bufferNeutral_storeEntry.
  destruct (bufferNeutral_after (replayPendingState P entry now)
              (scheduleAvailabilityDefault entry availability lastSeenMs
               >> adoptCoordinator obj entry now) s4) as [-> ->].
  { apply neutral_andThen;
      [apply bufferNeutral_scheduleAvailabilityDefault
      | apply bufferNeutral_adoptCoordinator]. }
  destruct (replayPendingState_run entry entry now s4 (storeEntry_lookup entry s3))
    as [-> ->].
  rewrite H4, H3, Hid, H2. split; [reflexivity |]. apply lookup_delete_eq.
Qed.

Lemma dropDevice_run (deviceId ieee : string) (s : Z2mAdapter) :
  appliedPayloads (dropDevice deviceId ieee s).2 = []
  /\ m_pendingStatePayloads (dropDevice deviceId ieee s).1
     !! knownNameOf s deviceId ieee = None.
Proof.
  unfold dropDevice. cbv zeta. fold (knownNameOf s deviceId ieee).
  rewrite andThen_run. cbn [modify fst snd]. rewrite app_nil_r.
  split; [| apply lookup_delete_eq].
  destruct (m_devices s !! knownNameOf s deviceId ieee) as [entry |]; [| reflexivity].
  apply bufferNeutral_removeDevice.
Qed.

(** C5, as the code has it. A state payload for a device that is not in
    the registry is stored in [pending_state_payloads] under the
    device's name, in place of an earlier one. When an element of the
    device array registers the device, the payload found in the buffer
    for it (moved over from the previous name if the element renames the
    device) is handled as a state payload exactly once, and the buffer
    holds no payload for the device afterwards; an element that is not
    interviewed or not supported removes the buffered payload without a
    replay. *)
Theorem pending_state_replayed_once (s : Z2mAdapter) :
  (forall deviceId payload tsMs,
     match m_devices s !! deviceId with
     | None =>
         handleDeviceStatePayload P deviceId payload tsMs s
         = (set_pendingStatePayloads
              (<[deviceId := payload]> (m_pendingStatePayloads s)) s, [])
     | Some _ =>
         appliedPayloads (handleDeviceStatePayload P deviceId payload tsMs s).2
         = [(deviceId, payload, tsMs)]
         /\ m_pendingStatePayloads (handleDeviceStatePayload P deviceId payload tsMs s).1
            = m_pendingStatePayloads s
     end)
  /\ (forall obj seen now,
        let result := (bridgeDeviceStep P now (JObject obj) seen).2 s in
        if isEmpty (friendlyNameOf obj) then result = (s, [])
        else if registrable obj then
          appliedPayloads result.2
          = match bufferedFor s (friendlyNameOf obj) (ieeeAddressOf obj) with
            | Some pending => [(friendlyNameOf obj, pending, now)]
            | None => []
            end
          /\ m_pendingStatePayloads result.1 !! friendlyNameOf obj = None
        else
          appliedPayloads result.2 = []
          /\ m_pendingStatePayloads result.1
             !! knownNameOf s (friendlyNameOf obj) (ieeeAddressOf obj) = None).
Proof.
  split.
  - intros deviceId payload tsMs.
    destruct (m_devices s !! deviceId) as [entry |] eqn:Hd.
    + eapply handleDeviceStatePayload_replay. exact Hd.
    + apply handleDeviceStatePayload_unknown. exact Hd.
  - intros obj seen now. unfold bridgeDeviceStep. cbv zeta.
    fold (friendlyNameOf obj). fold (ieeeAddressOf obj).
    destruct (isEmpty (friendlyNameOf obj)); [reflexivity |].
    unfold registrable.
    destruct (Json.toBool (Json.value obj "interview_completed") true);
      destruct (Json.toBool (Json.value obj "supported") true);
      cbn [negb orb andb snd];
      first [apply registerDevice_replay | apply dropDevice_run].
Qed.

End WithPlatform.

(** One buffered payload is replayed once by the snapshot that brings
    the device. *)
Example replay_scenario :
  let result :=
    run referencePlatform
      (World.connectInputs
       ++ [World.stateOn 1000; World.snapshot [World.lamp] 2000])
      (initialAdapter World.info) in
  appliedPayloads result.2 = [("lamp", World.lampState "ON", 2000)]
  /\ channelUpdates result.2
     = [("0x01", "connectivity", VInt (connectivityCode CsConnected), 2000);
        ("0x01", "state", VBool true, 2000)]
  /\ m_pendingStatePayloads result.1 = ∅.
Proof. split; [reflexivity |]. split; reflexivity. Qed.

(** Against C5 as the spec words it: of two payloads that arrive before
    the device only the second is replayed, the first is never handled;
    and a payload that waits while the bridge reports the device as not
    interviewed is dropped, so the later registration replays nothing. *)
Lemma pending_state_counterexample :
  (let result :=
     run referencePlatform
       (World.connectInputs
        ++ [World.stateOn 1000; World.stateOff 2000;
            World.snapshot [World.lamp] 3000])
       (initialAdapter World.info) in
   appliedPayloads result.2 = [("lamp", World.lampState "OFF", 3000)])
  /\ (let result :=
        run referencePlatform
          (World.connectInputs
           ++ [World.stateOn 1000; World.snapshot [World.lampInInterview] 2000;
               World.snapshot [World.lamp] 3000])
          (initialAdapter World.info) in
      appliedPayloads result.2 = []).
Proof. split; reflexivity. Qed.

End ReplayFacts.

(** ** Snapshots and responses of the device list *)

Module SnapshotFacts.

Import QtString Adapter ActionFacts TraceFacts IngestFacts.

Section WithPlatform.

Variable P : Platform.

(** *** What the loop leaves alone *)

Section Frame.

(** A registry key that the array does not mention. *)
Variable k : string.

Abbreviation entryAt := (fun s : Z2mAdapter => m_devices s !! k).

Lemma pointsNoNew_keeps (a : Action) : keeps m_mqttByExternal a -> pointsNoNew k a.
Proof. intros Ha s key. rewrite Ha. auto. Qed.

Lemma pointsNoNew_andThen (a b : Action) :
  pointsNoNew k a -> pointsNoNew k b -> pointsNoNew k (a >> b).
Proof.
  intros Ha Hb s key. rewrite andThen_run. cbn [fst]. intros H.
  apply Ha, Hb, H.
Qed.

Lemma removeDevice_frame (mqttId : string) (entry : Z2mDeviceEntry) :
  mqttId <> k ->
  keeps entryAt (removeDevice mqttId entry)
  /\ pointsNoNew k (removeDevice mqttId entry).
Proof.
  intros Hne. unfold removeDevice. split.
  - intros s. rewrite !andThen_run. cbn [modify emit fst snd].
    destruct (negb (isEmpty (dev_id (e_device entry)))); simpl;
      apply lookup_delete_ne; exact Hne.
  - intros s key. rewrite !andThen_run. cbn [modify emit fst snd].
    destruct (negb (isEmpty (dev_id (e_device entry)))); simpl; [| auto].
    intros H. apply lookup_delete_Some in H. apply H.
Qed.

Lemma dropDevice_frame (deviceId ieee : string) (s : Z2mAdapter) :
  deviceId <> k ->
  m_mqttByExternal s !! ieee <> Some k ->
  entryAt (dropDevice deviceId ieee s).1 = entryAt s
  /\ (forall key, m_mqttByExternal (dropDevice deviceId ieee s).1 !! key = Some k ->
                  m_mqttByExternal s !! key = Some k).
Proof.
  intros Hd Hext. unfold dropDevice. cbv zeta.
  fold (knownNameOf s deviceId ieee).
  assert (Hk : knownNameOf s deviceId ieee <> k).
  { unfold knownNameOf. destruct (isEmpty ieee); [exact Hd |].
    destruct (m_mqttByExternal s !! ieee) as [x |]; simpl; congruence. }
  rewrite andThen_run. cbn [modify fst snd].
  destruct (m_devices s !! knownNameOf s deviceId ieee) as [entry |]; simpl.
  - destruct (removeDevice_frame _ entry Hk) as [H1 H2].
    split; [apply H1 | apply H2].
  - split; [reflexivity | auto].
Qed.

Lemma handleDeviceStatePayload_frame (d : string) (payload : QJsonObject) (ts : Z) :
  d <> k ->
  keeps entryAt (handleDeviceStatePayload P d payload ts)
  /\ keeps m_mqttByExternal (handleDeviceStatePayload P d payload ts).
Proof.
  intros Hne. split; intros s; unfold handleDeviceStatePayload;
    destruct (m_devices s !! d); simpl; try reflexivity.
  apply lookup_insert_ne. exact Hne.
Qed.

(** The bridge info handler rewrites the entry of the coordinator,
    nothing else. *)
Lemma handleBridgeInfoPayload_frame (payload : QJsonObject) (ts : Z) (s : Z2mAdapter) :
  (isEmpty (m_coordinatorId s) = true
   \/ default (m_coordinatorId s) (m_mqttByExternal s !! m_coordinatorId s) <> k) ->
  entryAt (handleBridgeInfoPayload payload ts s).1 = entryAt s
  /\ m_mqttByExternal (handleBridgeInfoPayload payload ts s).1 = m_mqttByExternal s.
Proof.
  intros Hc. unfold handleBridgeInfoPayload.
  destruct (isEmpty (m_coordinatorId s)) eqn:He; [split; reflexivity |].
  destruct Hc as [Hc | Hc]; [discriminate |].
  destruct (m_devices s !! _) as [entry |]; [| split; reflexivity].
  split; [| reflexivity]. cbn [fst m_devices set_devices].
  apply lookup_insert_ne. exact Hc.
Qed.

Lemma forgetPreviousName_frame (existing : option Z2mDeviceEntry)
    (renameDetected : bool) (previous : string) :
  (previous <> k \/ renameDetected = false) ->
  keeps entryAt (forgetPreviousName existing renameDetected previous)
  /\ keeps m_mqttByExternal (forgetPreviousName existing renameDetected previous).
Proof.
  intros Hp. unfold forgetPreviousName. split; intros s; cbn [modify fst];
    destruct existing; try reflexivity; destruct renameDetected; try reflexivity.
  destruct Hp as [Hp | Hp]; [| discriminate].
  simpl. apply lookup_delete_ne. exact Hp.
Qed.

Lemma migratePendingState_frame (renameDetected : bool) (previous deviceId : string) :
  keeps entryAt (migratePendingState renameDetected previous deviceId)
  /\ keeps m_mqttByExternal (migratePendingState renameDetected previous deviceId).
Proof.
  unfold migratePendingState. split; intros s; cbn [modify fst];
    destruct renameDetected; try reflexivity;
    destruct (m_pendingStatePayloads s !! previous); reflexivity.
Qed.

Lemma confirmPendingRename_frame (ieee : string) (entry : Z2mDeviceEntry) (now : Z) :
  keeps entryAt (confirmPendingRename ieee entry now)
  /\ keeps m_mqttByExternal (confirmPendingRename ieee entry now).
Proof.
  unfold confirmPendingRename. split; intros s;
    destruct (negb (isEmpty ieee)); try reflexivity;
    destruct (m_pendingRename s !! ieee) as [pending |]; try reflexivity;
    destruct (String.eqb _ _); reflexivity.
Qed.

Lemma storeEntry_frame (entry : Z2mDeviceEntry) (s : Z2mAdapter) :
  e_mqttId entry <> k ->
  entryAt (storeEntry entry s).1 = entryAt s
  /\ (forall key, m_mqttByExternal (storeEntry entry s).1 !! key = Some k ->
                  m_mqttByExternal s !! key = Some k)
  /\ (isEmpty (dev_id (e_device entry)) = true
      \/ m_mqttByExternal (storeEntry entry s).1 !! dev_id (e_device entry)
         = Some (e_mqttId entry)).
Proof.
  intros Hne. unfold storeEntry. rewrite !andThen_run. cbn [modify emit fst snd].
  destruct (isEmpty (dev_id (e_device entry))); simpl.
  - split; [apply lookup_insert_ne; exact Hne |]. split; [auto | left; reflexivity].
  - split; [apply lookup_insert_ne; exact Hne |].
    split; [| right; apply lookup_insert_eq].
    intros key. destruct (decide (dev_id (e_device entry) = key)) as [<- | Hk].
    + rewrite lookup_insert_eq. congruence.
    + rewrite lookup_insert_ne by exact Hk. auto.
Qed.

Lemma replayPendingState_frame (entry : Z2mDeviceEntry) (now : Z) :
  e_mqttId entry <> k ->
  keeps entryAt (replayPendingState P entry now)
  /\ keeps m_mqttByExternal (replayPendingState P entry now).
Proof.
  intros Hne. unfold replayPendingState. split; intros s;
    destruct (m_pendingStatePayloads s !! e_mqttId entry) as [pending |];
    try reflexivity; rewrite andThen_run; cbn [modify fst snd];
    destruct (handleDeviceStatePayload_frame (e_mqttId entry) pending now Hne)
      as [H1 H2]; [rewrite H1 | rewrite H2]; reflexivity.
Qed.

Lemma scheduleAvailabilityDefault_frame (entry : Z2mDeviceEntry)
    (availability : string) (lastSeenMs : Z) (s : Z2mAdapter) :
  (scheduleAvailabilityDefault entry availability lastSeenMs s).1 = s.
Proof.
  unfold scheduleAvailabilityDefault. destruct (availabilityBindingOf entry); reflexivity.
Qed.

Lemma adoptCoordinator_frame (obj : QJsonObject) (entry : Z2mDeviceEntry) (now : Z)
    (s : Z2mAdapter) :
  e_mqttId entry <> k ->
  (isEmpty (dev_id (e_device entry)) = true
   \/ m_mqttByExternal s !! dev_id (e_device entry) = Some (e_mqttId entry)) ->
  entryAt (adoptCoordinator obj entry now s).1 = entryAt s
  /\ m_mqttByExternal (adoptCoordinator obj entry now s).1 = m_mqttByExternal s.
Proof.
  intros Hne Hidx. unfold adoptCoordinator.
  destruct (equalsCI _ _); [| split; reflexivity].
  rewrite andThen_run. cbn [modify fst snd].
  set (s1 := set_coordinatorId (dev_id (e_device entry)) s).
  destruct (negb (bool_decide (size (m_pendingBridgeInfo s1) = 0%nat)));
    [| split; reflexivity].
  rewrite andThen_run. cbn [modify fst snd].
  destruct (handleBridgeInfoPayload_frame (m_pendingBridgeInfo s1) now s1) as [H1 H2].
  { subst s1. cbn [m_coordinatorId m_mqttByExternal set_coordinatorId].
    destruct Hidx as [He | Hidx]; [left; exact He |].
    right. rewrite Hidx. exact Hne. }
  split; [exact H1 | exact H2].
Qed.

Lemma registerDevice_frame (obj : QJsonObject) (ieee : string) (now : Z)
    (s : Z2mAdapter) :
  friendlyNameOf obj <> k ->
  m_mqttByExternal s !! ieee <> Some k ->
  entryAt (registerDevice P obj (friendlyNameOf obj) ieee now s).1 = entryAt s
  /\ (forall key,
        m_mqttByExternal (registerDevice P obj (friendlyNameOf obj) ieee now s).1
          !! key = Some k ->
        m_mqttByExternal s !! key = Some k).
Proof.
  intros Hname Hext. unfold registerDevice. cbv zeta.
  fold (renames s (friendlyNameOf obj) ieee).
  assert (Hprev : previousMqttIdOf s ieee <> k
                  \/ renames s (friendlyNameOf obj) ieee = false).
  { unfold renames, previousMqttIdOf.
    destruct (isEmpty ieee); [right; reflexivity |].
    destruct (m_mqttByExternal s !! ieee) as [x |]; simpl;
      [left; congruence | right; reflexivity]. }
  set (existing := if negb (isEmpty (previousMqttIdOf s ieee))
                   then m_devices s !! previousMqttIdOf s ieee else None).
  set (entry := match existing with
                | Some old => renamedEntry (friendlyNameOf obj) old
                | None => Expose.buildDeviceEntry (sortCI P) obj
                end).
  assert (Hid : e_mqttId entry <> k).
  { replace (e_mqttId entry) with (friendlyNameOf obj); [exact Hname |].
    subst entry. destruct existing; [reflexivity |].
    symmetry. apply EntryFacts.buildDeviceEntry_mqttId. }
  clearbody entry. clearbody existing.
  match goal with |- context [scheduleAvailabilityDefault entry ?a ?l] =>
    generalize a l; intros availability lastSeenMs end.
  generalize dependent (renames s (friendlyNameOf obj) ieee).
  generalize (previousMqttIdOf s ieee). intros previous renameDetected Hprev.
  rewrite !andThen_run. cbn [fst].
  destruct (forgetPreviousName_frame existing renameDetected previous Hprev)
    as [Hd1 He1].
  set (s1 := (forgetPreviousName existing renameDetected previous s).1).
  destruct (migratePendingState_frame renameDetected previous (friendlyNameOf obj))
    as [Hd2 He2].
  set (s2 := (migratePendingState renameDetected previous (friendlyNameOf obj) s1).1).
  destruct (confirmPendingRename_frame ieee entry now) as [Hd3 He3].
  set (s3 := (confirmPendingRename ieee entry now s2).1).
  destruct (storeEntry_frame entry s3 Hid) as (Hd4 & He4 & Hidx).
  set (s4 := (storeEntry entry s3).1) in *.
  destruct (replayPendingState_frame entry now Hid) as [Hd5 He5].
  set (s5 := (replayPendingState P entry now s4).1).
  pose proof (scheduleAvailabilityDefault_frame entry availability lastSeenMs s5) as H6.
  rewrite H6.
  destruct (adoptCoordinator_frame obj entry now s5 Hid) as [Hd7 He7].
  { subst s5. rewrite He5. exact Hidx. }
  split.
  - rewrite Hd7. subst s5. rewrite Hd5, Hd4. subst s3. rewrite Hd3.
    subst s2. rewrite Hd2. subst s1. apply Hd1.
  - intros key. rewrite He7. subst s5. rewrite He5. intros H.
    apply He4 in H. subst s3. rewrite He3 in H. subst s2. rewrite He2 in H.
    subst s1. rewrite He1 in H. exact H.
Qed.

(** One element of the array that mentions neither the name [k] nor an
    address of [k]. *)
Lemma bridgeDeviceStep_frame (now : Z) (value : QJsonValue) (seen : gset string)
    (s : Z2mAdapter) :
  k ∉ payloadNames [value] ->
  (forall ieee, ieee ∈ payloadAddresses [value] ->
                m_mqttByExternal s !! ieee <> Some k) ->
  entryAt ((bridgeDeviceStep P now value seen).2 s).1 = entryAt s
  /\ (forall key,
        m_mqttByExternal ((bridgeDeviceStep P now value seen).2 s).1 !! key = Some k ->
        m_mqttByExternal s !! key = Some k).
Proof.
  intros Hname Haddr. unfold bridgeDeviceStep.
  destruct value as [| | | | | | obj]; try (split; [reflexivity | auto]).
  cbv zeta. fold (friendlyNameOf obj). fold (ieeeAddressOf obj).
  assert (Hn : friendlyNameOf obj <> k).
  { intros <-. apply Hname. simpl. apply list_elem_of_singleton. reflexivity. }
  assert (Ha : m_mqttByExternal s !! ieeeAddressOf obj <> Some k).
  { apply Haddr. simpl. apply list_elem_of_singleton. reflexivity. }
  destruct (isEmpty (friendlyNameOf obj)); [split; [reflexivity | auto] |].
  destruct (_ || _); cbn [snd].
  - apply dropDevice_frame; assumption.
  - apply registerDevice_frame; assumption.
Qed.

Lemma bridgeDevicesLoop_frame (now : Z) (devices : list QJsonValue) :
  forall (seen : gset string) (s : Z2mAdapter),
    k ∉ payloadNames devices ->
    (forall ieee, ieee ∈ payloadAddresses devices ->
                  m_mqttByExternal s !! ieee <> Some k) ->
    entryAt ((bridgeDevicesLoop P now devices seen).2 s).1 = entryAt s
    /\ (forall key,
          m_mqttByExternal ((bridgeDevicesLoop P now devices seen).2 s).1 !! key
          = Some k ->
          m_mqttByExternal s !! key = Some k).
Proof.
  induction devices as [| value rest IH]; intros seen s Hname Haddr.
  - split; [reflexivity | auto].
  - simpl.
    change (value :: rest) with ([value] ++ rest) in Hname, Haddr.
    unfold payloadNames, payloadAddresses in Hname, Haddr.
    rewrite omap_app in Hname, Haddr.
    fold (payloadNames [value]) (payloadNames rest) in Hname.
    fold (payloadAddresses [value]) (payloadAddresses rest) in Haddr.
    assert (Hn1 : k ∉ payloadNames [value])
      by (intros H; apply Hname, elem_of_app; left; exact H).
    assert (Hn2 : k ∉ payloadNames rest)
      by (intros H; apply Hname, elem_of_app; right; exact H).
    assert (Ha1 : forall ieee, ieee ∈ payloadAddresses [value] ->
                               m_mqttByExternal s !! ieee <> Some k)
      by (intros ieee H; apply Haddr, elem_of_app; left; exact H).
    assert (Ha2 : forall ieee, ieee ∈ payloadAddresses rest ->
                               m_mqttByExternal s !! ieee <> Some k)
      by (intros ieee H; apply Haddr, elem_of_app; right; exact H).
    destruct (bridgeDeviceStep_frame now value seen s Hn1 Ha1) as [Hd1 He1].
    destruct (bridgeDeviceStep P now value seen) as [seen1 a1].
    specialize (IH seen1 (a1 s).1 Hn2).
    destruct (bridgeDevicesLoop P now rest seen1) as [seen2 a2].
    cbn [snd] in *. rewrite andThen_run. cbn [fst].
    destruct IH as [Hd2 He2].
    { intros ieee Hin Habs. apply (Ha2 ieee Hin). apply He1. exact Habs. }
    split; [rewrite Hd2; exact Hd1 |].
    intros key H. apply He1, He2, H.
Qed.

End Frame.

(** *** The names the loop has seen *)

Lemma bridgeDevicesLoop_seen (now : Z) (devices : list QJsonValue) :
  forall seen : gset string,
    (bridgeDevicesLoop P now devices seen).1
    = list_to_set (registeredNames devices) ∪ seen.
Proof.
  induction devices as [| value rest IH]; intros seen.
  - simpl. symmetry. apply (left_id_L ∅ (∪)).
  - simpl.
    destruct (bridgeDeviceStep P now value seen) as [seen1 a1] eqn:Hstep.
    pose proof (IH seen1) as IH1.
    destruct (bridgeDevicesLoop P now rest seen1) as [seen2 a2].
    cbn [fst] in *. subst seen2.
    unfold bridgeDeviceStep in Hstep.
    destruct value as [| | | | | | obj]; try (injection Hstep as <- _; reflexivity).
    cbv zeta in Hstep. fold (friendlyNameOf obj) in Hstep.
    unfold registrable.
    destruct (isEmpty (friendlyNameOf obj)); [injection Hstep as <- _; reflexivity |].
    destruct (Json.toBool (Json.value obj "interview_completed") true);
      destruct (Json.toBool (Json.value obj "supported") true);
      cbn [negb orb andb] in *; injection Hstep as <- _;
      try reflexivity.
    simpl. apply set_eq. intros x. rewrite !elem_of_union. tauto.
Qed.

Lemma registeredNames_payloadNames (devices : list QJsonValue) (k : string) :
  k ∈ registeredNames devices -> k ∈ payloadNames devices.
Proof.
  induction devices as [| value rest IH]; [intros H; exact H |].
  simpl. destruct value as [| | | | | | obj]; try exact IH.
  destruct (_ && _); [| intros H; apply elem_of_cons; right; apply IH, H].
  intros H. apply elem_of_cons in H as [-> | H]; apply elem_of_cons;
    [left; reflexivity | right; apply IH, H].
Qed.

(** *** The sweep *)

Abbreviation sweepBody seen :=
  (fun kv : string * Z2mDeviceEntry =>
     if bool_decide (kv.1 ∈ seen) then skip else removeDevice kv.1 kv.2).

Lemma removeDevice_run (mqttId : string) (entry : Z2mDeviceEntry) (s : Z2mAdapter) :
  removeDevice mqttId entry s
  = (let s1 :=
       if negb (isEmpty (dev_id (e_device entry)))
       then set_mqttByExternal
              (delete (dev_id (e_device entry)) (m_mqttByExternal s)) s
       else s in
     set_devices (delete mqttId (m_devices s1)) s1,
     [DeviceRemoved (dev_id (e_device entry))]).
Proof. reflexivity. Qed.

Lemma sweepBody_shrinks (seen : gset string) (kv : string * Z2mDeviceEntry)
    (s : Z2mAdapter) :
  (forall key, m_devices s !! key = None -> m_devices (sweepBody seen kv s).1 !! key = None)
  /\ (forall key, m_mqttByExternal s !! key = None ->
                  m_mqttByExternal (sweepBody seen kv s).1 !! key = None).
Proof.
  cbv beta. destruct (bool_decide (kv.1 ∈ seen)); [split; auto |].
  rewrite removeDevice_run. cbn [fst].
  split; intros key H.
  - destruct (negb _); simpl; apply lookup_delete_None; right; exact H.
  - destruct (negb _); simpl; [apply lookup_delete_None; right |]; exact H.
Qed.

Lemma sweep_shrinks (seen : gset string) (l : list (string * Z2mDeviceEntry)) :
  forall s,
    (forall key, m_devices s !! key = None ->
                 m_devices (forEach l (sweepBody seen) s).1 !! key = None)
    /\ (forall key, m_mqttByExternal s !! key = None ->
                    m_mqttByExternal (forEach l (sweepBody seen) s).1 !! key = None).
Proof.
  induction l as [| kv l IH]; intros s; [split; auto |].
  rewrite forEach_cons. cbn [fst].
  destruct (sweepBody_shrinks seen kv s) as [H1 H2].
  destruct (IH (sweepBody seen kv s).1) as [H3 H4].
  split; intros key H; [apply H3, H1, H | apply H4, H2, H].
Qed.

Lemma sweep_removes (seen : gset string) (l : list (string * Z2mDeviceEntry)) :
  forall s k entry,
    (k, entry) ∈ l -> k ∉ seen ->
    DeviceRemoved (dev_id (e_device entry)) ∈ (forEach l (sweepBody seen) s).2
    /\ m_devices (forEach l (sweepBody seen) s).1 !! k = None
    /\ (isEmpty (dev_id (e_device entry)) = true
        \/ m_mqttByExternal (forEach l (sweepBody seen) s).1
             !! dev_id (e_device entry) = None).
Proof.
  induction l as [| kv l IH]; intros s k entry Hin Hk; [inversion Hin |].
  rewrite forEach_cons. cbn [fst snd].
  apply elem_of_cons in Hin as [<- | Hin].
  - destruct (sweep_shrinks seen l (sweepBody seen (k, entry) s).1) as [H1 H2].
    cbv beta in *. cbn [fst snd] in *.
    rewrite bool_decide_eq_false_2 in * by exact Hk.
    rewrite removeDevice_run in *. cbn [fst snd] in *.
    split; [apply elem_of_app; left; apply list_elem_of_singleton; reflexivity |].
    split; [apply H1; destruct (negb _); simpl; apply lookup_delete_eq |].
    destruct (isEmpty (dev_id (e_device entry))) eqn:He; [left; reflexivity |].
    right. apply H2. simpl. apply lookup_delete_eq.
  - destruct (IH (sweepBody seen kv s).1 k entry Hin Hk) as (H1 & H2 & H3).
    split; [apply elem_of_app; right; exact H1 |]. split; assumption.
Qed.

Lemma sweepUnseen_run (seen : gset string) (s : Z2mAdapter) :
  (forall k, is_Some (m_devices (sweepUnseen seen s).1 !! k) -> k ∈ seen)
  /\ (forall k entry,
        m_devices s !! k = Some entry -> k ∉ seen ->
        DeviceRemoved (dev_id (e_device entry)) ∈ (sweepUnseen seen s).2
        /\ m_devices (sweepUnseen seen s).1 !! k = None
        /\ (isEmpty (dev_id (e_device entry)) = true
            \/ m_mqttByExternal (sweepUnseen seen s).1 !! dev_id (e_device entry)
               = None)).
Proof.
  unfold sweepUnseen. split.
  - intros k [entry' Hk]. destruct (decide (k ∈ seen)) as [Hin | Hout]; [exact Hin |].
    exfalso. destruct (m_devices s !! k) as [entry |] eqn:Hs.
    + apply elem_of_map_to_list in Hs.
      destruct (sweep_removes seen _ s k entry Hs Hout) as (_ & H & _).
      congruence.
    + destruct (sweep_shrinks seen (map_to_list (m_devices s)) s) as [H _].
      rewrite (H k Hs) in Hk. discriminate.
  - intros k entry Hs Hout. apply sweep_removes; [| exact Hout].
    apply elem_of_map_to_list. exact Hs.
Qed.

(** *** The handler *)

Lemma mentions_false (s : Z2mAdapter) (devices : list QJsonValue) (k : string) :
  mentions s devices k = false ->
  (k ∉ payloadNames devices)
  /\ (forall ieee, ieee ∈ payloadAddresses devices ->
                   m_mqttByExternal s !! ieee <> Some k).
Proof.
  unfold mentions. intros H. apply orb_false_iff in H as [Hn Ha].
  apply bool_decide_eq_false in Hn. split; [exact Hn |].
  intros ieee Hin Hk.
  assert (Habs : existsb (fun ieee => bool_decide (m_mqttByExternal s !! ieee = Some k))
                   (payloadAddresses devices) = true).
  { apply existsb_exists. exists ieee. split; [apply list_elem_of_In, Hin |].
    apply bool_decide_eq_true. exact Hk. }
  congruence.
Qed.

Lemma handleBridgeDevicesPayload_run (devices : list QJsonValue) (fullSnapshot : bool)
    (now : Z) (s : Z2mAdapter) :
  let seen := (bridgeDevicesLoop P now devices ∅).1 in
  let loop := (bridgeDevicesLoop P now devices ∅).2 in
  let swept := (if fullSnapshot then sweepUnseen seen else skip) (loop s).1 in
  m_devices (handleBridgeDevicesPayload P devices fullSnapshot now s).1
  = m_devices swept.1
  /\ m_mqttByExternal (handleBridgeDevicesPayload P devices fullSnapshot now s).1
     = m_mqttByExternal swept.1
  /\ (forall e, e ∈ swept.2 ->
                e ∈ (handleBridgeDevicesPayload P devices fullSnapshot now s).2).
Proof.
  unfold handleBridgeDevicesPayload.
  destruct (bridgeDevicesLoop P now devices ∅) as [seen loop]. cbn [fst snd].
  rewrite !andThen_run. cbn [fst snd].
  set (swept := (if fullSnapshot then sweepUnseen seen else skip) (loop s).1).
  split; [destruct (m_pendingFullSync swept.1); reflexivity |].
  split; [destruct (m_pendingFullSync swept.1); reflexivity |].
  intros e He. apply elem_of_app. right. apply elem_of_app. left. exact He.
Qed.

Lemma handleBridgeTopic_devices (text : string) (doc : QJsonValue) (now : Z)
    (fullSnapshot : bool) :
  handleBridgeTopic P
    (if fullSnapshot then "bridge/devices" else "bridge/response/devices")
    (mkMessage text (Some doc)) now
  = match deviceArrayOf doc with
    | [] => skip
    | value :: rest => handleBridgeDevicesPayload P (value :: rest) fullSnapshot now
    end.
Proof. destruct fullSnapshot; reflexivity. Qed.

(** C4, as the code has it. A device list with an empty array changes
    nothing, on either topic. For a non-empty array and a registry entry
    that the array does not mention (not by friendly name, not by an
    address that the index maps to it): the full snapshot on
    [bridge/devices] emits [deviceRemoved] for it, removes it and clears
    its index entry, and leaves in the registry only the names that the
    array registers; the same array on [bridge/response/devices] leaves
    the entry as it was. *)
Theorem device_list_removal (s : Z2mAdapter) (text : string) (doc : QJsonValue)
    (now : Z) (k : string) (entry : Z2mDeviceEntry) :
  let devices := deviceArrayOf doc in
  let message := mkMessage text (Some doc) in
  let full := handleBridgeTopic P "bridge/devices" message now s in
  let resp := handleBridgeTopic P "bridge/response/devices" message now s in
  m_devices s !! k = Some entry ->
  mentions s devices k = false ->
  match devices with
  | [] => full = (s, []) /\ resp = (s, [])
  | _ :: _ =>
      DeviceRemoved (dev_id (e_device entry)) ∈ full.2
      /\ m_devices full.1 !! k = None
      /\ (isEmpty (dev_id (e_device entry)) = true
          \/ m_mqttByExternal full.1 !! dev_id (e_device entry) = None)
      /\ (forall k', is_Some (m_devices full.1 !! k') -> k' ∈ registeredNames devices)
      /\ m_devices resp.1 !! k = Some entry
  end.
Proof.
  intros devices message full resp Hk Hm.
  subst full resp message.
  rewrite (handleBridgeTopic_devices text doc now true).
  rewrite (handleBridgeTopic_devices text doc now false).
  fold devices. destruct devices as [| value rest] eqn:Hdev; [split; reflexivity |].
  rewrite <- Hdev in *. clear Hdev value rest.
  destruct (mentions_false s devices k Hm) as [Hname Haddr].
  destruct (bridgeDevicesLoop_frame k now devices ∅ s Hname Haddr) as [Hloop _].
  pose proof (bridgeDevicesLoop_seen now devices ∅) as Hseen.
  rewrite (right_id_L ∅ (∪)) in Hseen.
  assert (Hout : k ∉ (bridgeDevicesLoop P now devices ∅).1).
  { rewrite Hseen, elem_of_list_to_set. intros H.
    apply Hname, registeredNames_payloadNames, H. }
  destruct (handleBridgeDevicesPayload_run devices true now s) as (Hd & He & Ht).
  destruct (handleBridgeDevicesPayload_run devices false now s) as (Hd' & _).
  cbv zeta in Hd, He, Ht, Hd'. cbn [skip fst] in Hd'.
  rewrite Hk in Hloop.
  destruct (sweepUnseen_run (bridgeDevicesLoop P now devices ∅).1
              ((bridgeDevicesLoop P now devices ∅).2 s).1) as [Hkeys Hrem].
  destruct (Hrem k entry Hloop Hout) as (H1 & H2 & H3).
  rewrite Hd, He, Hd'.
  split; [apply Ht, H1 |]. split; [exact H2 |]. split; [exact H3 |].
  split; [| exact Hloop].
  intros k' Hk'. apply Hkeys in Hk'.
  rewrite Hseen, elem_of_list_to_set in Hk'. exact Hk'.
Qed.

End WithPlatform.

Lemma device_list_removal_witness :
  let s :=
    (run referencePlatform
       (World.connectInputs ++ [World.snapshot [World.lamp; World.plug] 1000])
       (initialAdapter World.info)).1 in
  let message := mkMessage "" (Some (JArray [World.lamp])) in
  m_devices s !! "plug" = Some World.plugEntry
  /\ DeviceRemoved "0x02"
       ∈ (handleBridgeTopic referencePlatform "bridge/devices" message 2000 s).2
  /\ m_devices
       (handleBridgeTopic referencePlatform "bridge/devices" message 2000 s).1
       !! "plug" = None
  /\ m_devices
       (handleBridgeTopic referencePlatform "bridge/response/devices" message 2000 s).1
       !! "plug" = Some World.plugEntry.
Proof.
  intros s message.
  assert (Hk : m_devices s !! "plug" = Some World.plugEntry) by reflexivity.
  assert (Hm : mentions s (deviceArrayOf (JArray [World.lamp])) "plug" = false)
    by reflexivity.
  split; [exact Hk |].
  destruct (device_list_removal referencePlatform s "" (JArray [World.lamp]) 2000
              "plug" World.plugEntry Hk Hm) as (H1 & H2 & _ & _ & H3).
  split; [exact H1 |]. split; [exact H2 | exact H3].
Defined.

(** Against C4 as the spec words it: a full snapshot with an empty array
    removes no entry; a full snapshot that renames a device drops the
    old name without [deviceRemoved]; and a response whose element is
    not interviewed removes the entry that the index knows for its
    address, under whatever name. *)
Lemma device_list_counterexample :
  let s :=
    (run referencePlatform
       (World.connectInputs ++ [World.snapshot [World.lamp; World.plug] 1000])
       (initialAdapter World.info)).1 in
  (let result := step referencePlatform (World.snapshot [] 2000) s in
   removedDevices result.2 = []
   /\ (map_to_list (m_devices result.1)).*1 = ["lamp"; "plug"])
  /\ (let result :=
        step referencePlatform
          (World.snapshot [JObject (World.deviceObject "desk" "0x01" true); World.plug]
             2000) s in
      removedDevices result.2 = []
      /\ (map_to_list (m_devices result.1)).*1 = ["desk"; "plug"])
  /\ (let result :=
        step referencePlatform
          (World.response [JObject (World.deviceObject "desk" "0x01" false)] 2000) s in
      removedDevices result.2 = ["0x01"]
      /\ (map_to_list (m_devices result.1)).*1 = ["plug"]).
Proof.
  intros s. split; [| split]; split; reflexivity.
Qed.

End SnapshotFacts.

(** ** The connectivity channel of a known device *)

Module RegistryFacts.

Import QtString Adapter ActionFacts TraceFacts IngestFacts.

(** *** Entries built by the expose compiler *)

Lemma find_availability (m : gmap string Z2mChannelBinding) :
  m !! "connectivity" = Some Expose.availabilityBinding ->
  (forall c b, m !! c = Some b -> b_isAvailability b = true ->
               b = Expose.availabilityBinding) ->
  List.find b_isAvailability (map_to_list m).*2 = Some Expose.availabilityBinding.
Proof.
  intros Hconn Honly.
  destruct (List.find b_isAvailability (map_to_list m).*2) as [b |] eqn:Hfind.
  - apply find_some in Hfind as [Hin Hb].
    apply list_elem_of_In, list_elem_of_fmap in Hin as ([c b'] & -> & Hin).
    apply elem_of_map_to_list in Hin. f_equal. eapply Honly; eassumption.
  - exfalso.
    assert (Hin : In Expose.availabilityBinding (map_to_list m).*2).
    { apply list_elem_of_In, list_elem_of_fmap.
      exists ("connectivity", Expose.availabilityBinding). split; [reflexivity |].
      apply elem_of_map_to_list. exact Hconn. }
    pose proof (find_none _ _ Hfind _ Hin) as Habs. discriminate Habs.
Qed.

Section Compile.

Variable sort : list string -> list string.

Lemma addChannelFromExpose_plain (expose : QJsonObject) (entry : Z2mDeviceEntry) :
  plainBindings entry -> plainBindings (Expose.addChannelFromExpose sort expose entry).
Proof.
  intros Hplain.
  destruct (ExposeFacts.addChannelFromExpose_cases sort expose entry)
    as [-> | (ch & b & cid & prop & -> & _ & _ & _ & Hb & _)]; [exact Hplain |].
  intros c b'. cbn [e_bindingsByChannel].
  destruct (decide (cid = c)) as [<- | Hne].
  - rewrite lookup_insert_eq. intros [= <-]. exact Hb.
  - rewrite lookup_insert_ne by exact Hne. apply Hplain.
Qed.

Lemma exposes_fold_plain (exposes : list QJsonObject) (entry : Z2mDeviceEntry) :
  plainBindings entry ->
  plainBindings
    (foldl (fun e expose => Expose.addChannelFromExpose sort expose e) entry exposes).
Proof.
  revert entry. induction exposes as [| expose l IH]; intros entry H; [exact H |].
  simpl. apply IH, addChannelFromExpose_plain, H.
Qed.

Lemma buildDeviceEntry_connectivity (obj : QJsonObject) :
  hasConnectivityBinding (Expose.buildDeviceEntry sort obj).
Proof.
  unfold hasConnectivityBinding, availabilityBindingOf, Expose.buildDeviceEntry.
  cbv zeta. cbn [e_bindingsByChannel].
  match goal with
  | |- context [foldl ?f ?e ?l] =>
      assert (Hplain : plainBindings (foldl f e l));
      [apply exposes_fold_plain; intros c b Hc; discriminate Hc |];
      generalize dependent (foldl f e l); intros built Hplain
  end.
  apply find_availability.
  - rewrite lookup_insert_ne by discriminate. apply lookup_insert_eq.
  - intros c b.
    destruct (decide ("device_software_update" = c)) as [<- | Hne1].
    { rewrite lookup_insert_eq. intros [= <-]. discriminate. }
    rewrite lookup_insert_ne by exact Hne1.
    destruct (decide ("connectivity" = c)) as [<- | Hne2].
    { rewrite lookup_insert_eq. intros [= <-]. reflexivity. }
    rewrite lookup_insert_ne by exact Hne2.
    intros Hc Hb. rewrite (Hplain c b Hc) in Hb. discriminate.
Qed.

End Compile.

(** *** Handlers keep the registry well formed *)

Abbreviation registryNeutral := (neutral m_devices (fun _ : Effect => @None unit)).

Lemma preserves_neutral (a : Action) : registryNeutral a -> preservesRegistry a.
Proof. intros Ha s Hs. unfold registryOk. rewrite (proj1 (Ha s)). exact Hs. Qed.

Lemma preserves_andThen (a b : Action) :
  preservesRegistry a -> preservesRegistry b -> preservesRegistry (a >> b).
Proof. intros Ha Hb s Hs. rewrite andThen_run. cbn [fst]. apply Hb, Ha, Hs. Qed.

Lemma preserves_skip : preservesRegistry skip.
Proof. intros s Hs. exact Hs. Qed.

Lemma preserves_forEach {A : Type} (l : list A) (body : A -> Action) :
  (forall x, preservesRegistry (body x)) -> preservesRegistry (forEach l body).
Proof.
  intros Hbody. induction l as [| x l IH]; simpl.
  - apply preserves_skip.
  - apply preserves_andThen; [apply Hbody | exact IH].
Qed.

Lemma registryOk_insert (k : string) (entry : Z2mDeviceEntry) (s : Z2mAdapter) :
  hasConnectivityBinding entry -> registryOk s ->
  registryOk (set_devices (<[k := entry]> (m_devices s)) s).
Proof. intros He Hs. apply map_Forall_insert_2; assumption. Qed.

Lemma registryOk_delete (k : string) (s : Z2mAdapter) :
  registryOk s -> registryOk (set_devices (delete k (m_devices s)) s).
Proof. intros Hs. apply map_Forall_delete. exact Hs. Qed.

Section WithPlatform.

Variable P : Platform.

Lemma preserves_handleDeviceStatePayload (d : string) (p : QJsonObject) (ts : Z) :
  preservesRegistry (handleDeviceStatePayload P d p ts).
Proof.
  intros s Hs. unfold handleDeviceStatePayload.
  destruct (m_devices s !! d) as [entry |] eqn:Hd; [| exact Hs].
  cbn [fst]. apply registryOk_insert; [| exact Hs]. exact (Hs d entry Hd).
Qed.

Lemma preserves_handleBridgeInfoPayload (p : QJsonObject) (ts : Z) :
  preservesRegistry (handleBridgeInfoPayload p ts).
Proof.
  intros s Hs. unfold handleBridgeInfoPayload.
  destruct (isEmpty (m_coordinatorId s)); [exact Hs |].
  destruct (m_devices s !! _) as [entry |] eqn:Hd; [| exact Hs].
  cbn [fst]. apply registryOk_insert; [| exact Hs]. exact (Hs _ entry Hd).
Qed.

Lemma preserves_removeDevice (k : string) (entry : Z2mDeviceEntry) :
  preservesRegistry (removeDevice k entry).
Proof.
  intros s Hs. rewrite SnapshotFacts.removeDevice_run. cbn [fst].
  destruct (negb _); apply registryOk_delete; exact Hs.
Qed.

Lemma preserves_registerDevice (obj : QJsonObject) (deviceId ieee : string) (now : Z) :
  preservesRegistry (registerDevice P obj deviceId ieee now).
Proof.
  intros s Hs. unfold registerDevice. cbv zeta.
  set (existing := if negb (isEmpty (previousMqttIdOf s ieee))
                   then m_devices s !! previousMqttIdOf s ieee else None).
  set (entry := match existing with
                | Some old => renamedEntry deviceId old
                | None => Expose.buildDeviceEntry (sortCI P) obj
                end).
  assert (Hentry : hasConnectivityBinding entry).
  { subst entry. destruct existing as [old |] eqn:Hex.
    - subst existing. destruct (negb _); [| discriminate].
      exact (Hs _ old Hex).
    - apply buildDeviceEntry_connectivity. }
  clearbody entry. clearbody existing.
  generalize (previousMqttIdOf s ieee). intros previous.
  refine ((_ : preservesRegistry _) s Hs). clear s Hs.
  repeat apply preserves_andThen.
  - intros s Hs. unfold forgetPreviousName. cbn [modify fst].
    destruct existing; [| exact Hs].
    destruct (_ && _); [apply registryOk_delete |]; exact Hs.
  - apply preserves_neutral. unfold migratePendingState. neutral_tac.
  - apply preserves_neutral. unfold confirmPendingRename. neutral_tac.
  - intros s Hs. apply registryOk_insert; assumption.
  - apply preserves_neutral. neutral_tac.
  - apply preserves_neutral. neutral_tac.
  - intros s Hs. unfold replayPendingState.
    destruct (m_pendingStatePayloads s !! e_mqttId entry); [| exact Hs].
    apply (preserves_andThen _ _ (preserves_neutral _ ltac:(neutral_tac))
             (preserves_handleDeviceStatePayload _ _ _)). exact Hs.
  - apply preserves_neutral. unfold scheduleAvailabilityDefault. neutral_tac.
  - intros s Hs. unfold adoptCoordinator.
    destruct (equalsCI _ _); [| exact Hs].
    rewrite andThen_run. cbn [modify fst].
    destruct (negb _); [| exact Hs].
    rewrite andThen_run. cbn [modify fst].
    apply preserves_handleBridgeInfoPayload. exact Hs.
Qed.

Lemma preserves_bridgeDeviceStep (now : Z) (value : QJsonValue) (seen : gset string) :
  preservesRegistry (bridgeDeviceStep P now value seen).2.
Proof.
  unfold bridgeDeviceStep.
  destruct value; try apply preserves_skip.
  destruct (isEmpty _); [apply preserves_skip |].
  destruct (_ || _); cbn [snd]; [| apply preserves_registerDevice].
  intros s Hs. unfold dropDevice. cbv zeta. rewrite andThen_run. cbn [modify fst].
  destruct (m_devices s !! _) as [entry |]; [| exact Hs].
  apply preserves_removeDevice. exact Hs.
Qed.

Lemma preserves_bridgeDevicesLoop (now : Z) (devices : list QJsonValue)
    (seen : gset string) :
  preservesRegistry (bridgeDevicesLoop P now devices seen).2.
Proof.
  revert seen. induction devices as [| value rest IH]; intros seen; simpl.
  - apply preserves_skip.
  - pose proof (preserves_bridgeDeviceStep now value seen) as Hstep.
    destruct (bridgeDeviceStep P now value seen) as [seen1 a1].
    specialize (IH seen1).
    destruct (bridgeDevicesLoop P now rest seen1) as [seen2 a2].
    cbn [snd] in *. apply preserves_andThen; assumption.
Qed.

Lemma preserves_handleBridgeDevicesPayload (devices : list QJsonValue)
    (fullSnapshot : bool) (now : Z) :
  preservesRegistry (handleBridgeDevicesPayload P devices fullSnapshot now).
Proof.
  unfold handleBridgeDevicesPayload.
  pose proof (preserves_bridgeDevicesLoop now devices ∅) as Hloop.
  destruct (bridgeDevicesLoop P now devices ∅) as [seen loop]. cbn [snd] in Hloop.
  apply preserves_andThen; [exact Hloop |].
  apply preserves_andThen.
  - destruct fullSnapshot; [| apply preserves_skip].
    unfold sweepUnseen. intros s. apply preserves_forEach. intros kv.
    destruct (bool_decide _); [apply preserves_skip | apply preserves_removeDevice].
  - apply preserves_neutral. neutral_tac.
Qed.

Lemma registryNeutral_publish_ (topic : string) (payload : QJsonObject) :
  registryNeutral (publish_ P topic payload).
Proof. intros s. split; reflexivity. Qed.

Lemma registryNeutral_updateConnectionState : registryNeutral updateConnectionState.
Proof. unfold updateConnectionState, setConnected, stopReconnectTimer. neutral_tac. Qed.

Lemma registryNeutral_connectToBroker : registryNeutral connectToBroker.
Proof. unfold connectToBroker. neutral_tac. Qed.

Lemma registryNeutral_disconnectFromBroker : registryNeutral disconnectFromBroker.
Proof. unfold disconnectFromBroker. neutral_tac. Qed.

Lemma registryNeutral_handleBridgeState (online : bool) :
  registryNeutral (handleBridgeState P online).
Proof.
  unfold handleBridgeState.
  neutral_with ltac:(first [ apply registryNeutral_updateConnectionState
                           | apply registryNeutral_publish_ ]).
Qed.

Lemma registryNeutral_handleRenameResponse (resp : QJsonObject) (now : Z) :
  registryNeutral (handleRenameResponse resp now).
Proof.
  unfold handleRenameResponse. intros s. cbv beta zeta.
  destruct (String.eqb _ "ok"); [| split; reflexivity].
  apply neutral_forEach. intros kv. unfold renameResponseStep. neutral_tac.
Qed.

Lemma preserves_handleBridgeTopic (suffix : string) (message : MqttMessage) (now : Z) :
  preservesRegistry (handleBridgeTopic P suffix message now).
Proof.
  unfold handleBridgeTopic. cbv zeta.
  repeat match goal with
         | |- preservesRegistry (if ?c then _ else _) => destruct c
         | |- preservesRegistry (match ?c with _ => _ end) => destruct c
         end;
    first [ apply preserves_skip
          | apply preserves_handleBridgeInfoPayload
          | apply preserves_handleBridgeDevicesPayload
          | apply preserves_neutral;
            first [ apply registryNeutral_handleBridgeState
                  | apply registryNeutral_handleRenameResponse
                  | apply neutral_emit; reflexivity
                  | unfold handleDeviceGetResponse; neutral_tac ] ].
Qed.

Lemma preserves_handleMqttMessage (message : MqttMessage) (topic : string) (now : Z) :
  preservesRegistry (handleMqttMessage P message topic now).
Proof.
  intros s Hs. unfold handleMqttMessage. cbv zeta.
  destruct (negb (startsWith topic _)); [exact Hs |].
  destruct (startsWith _ "bridge/"); [apply preserves_handleBridgeTopic, Hs |].
  destruct (endsWith _ "/availability").
  { destruct (_ <=? 0); [exact Hs |].
    apply preserves_neutral; [| exact Hs].
    unfold handleAvailabilityPayload. neutral_tac. }
  destruct (_ || _); [exact Hs |].
  destruct (contains _ "/"); [exact Hs |].
  destruct (docObject message); [| exact Hs].
  apply preserves_handleDeviceStatePayload, Hs.
Qed.

Lemma registryNeutral_updateChannelState (d c : string) (v : QVariant)
    (cmdId now : Z) :
  registryNeutral (updateChannelState P d c v cmdId now).
Proof.
  intros s. split; [apply CommandFrame.updateChannelState_trace |].
  generalize (updateChannelState P d c v cmdId now s).2.
  intros l. induction l; [reflexivity | assumption].
Qed.

Lemma preserves_step (i : Input) : preservesRegistry (step P i).
Proof.
  destruct i as [| | | | d c v cmdId now | d n cmdId now | a p cmdId now | st
                 | | | m t now | | mqttId | task now]; simpl.
  - apply preserves_neutral. unfold start, applyConfig.
    neutral_with ltac:(apply registryNeutral_connectToBroker).
  - apply preserves_neutral. unfold stop, stopReconnectTimer.
    neutral_with ltac:(first [ apply registryNeutral_disconnectFromBroker
                             | apply registryNeutral_updateConnectionState ]).
  - apply preserves_neutral. unfold adapterConfigUpdated, applyConfig.
    neutral_with ltac:(first [ apply registryNeutral_connectToBroker
                             | apply registryNeutral_disconnectFromBroker ]).
  - apply preserves_neutral. unfold requestFullSync.
    neutral_with ltac:(apply registryNeutral_publish_).
  - apply preserves_neutral, registryNeutral_updateChannelState.
  - apply preserves_neutral. unfold updateDeviceName, publish, respond, emit.
    neutral_tac.
  - apply preserves_neutral. unfold invokeAdapterAction, publish. neutral_tac.
  - apply preserves_neutral. neutral_tac.
  - intros s Hs. unfold withClient. destruct (m_client s); [| exact Hs].
    apply preserves_neutral; [| exact Hs].
    unfold onMqttConnected, ensureSubscriptions.
    neutral_with ltac:(first [ apply registryNeutral_updateConnectionState
                             | apply registryNeutral_publish_ ]).
  - intros s Hs. unfold withClient. destruct (m_client s); [| exact Hs].
    apply preserves_neutral; [| exact Hs].
    unfold onMqttDisconnected, scheduleReconnect.
    neutral_with ltac:(apply registryNeutral_updateConnectionState).
  - intros s Hs. unfold withClient. destruct (m_client s); [| exact Hs].
    apply preserves_handleMqttMessage, Hs.
  - apply preserves_neutral.
    neutral_with ltac:(apply registryNeutral_connectToBroker).
  - apply preserves_neutral. unfold postSetRefresh.
    neutral_with ltac:(apply registryNeutral_publish_).
  - apply preserves_neutral.
    destruct task; simpl; unfold renameTimeout, availabilityDefault; neutral_tac.
Qed.

Lemma run_registryOk (inputs : list Input) (s : Z2mAdapter) :
  registryOk s -> registryOk (run P inputs s).1.
Proof.
  revert s. induction inputs as [| i inputs IH]; intros s Hs; [exact Hs |].
  rewrite ConnectionFacts.run_cons. cbn [fst]. apply IH, preserves_step, Hs.
Qed.

(** C10. In every state the adapter reaches from its construction, an
    availability message for a known device whose state string
    (trimmed, lower case) is neither [online] nor [offline] is not
    dropped: the handler emits [channelStateUpdated] on the channel
    [connectivity] of the device with the value of
    [ConnectivityStatus::Unknown], and nothing else. *)
Theorem availability_unknown_state (info : AdapterInfo) (inputs : list Input)
    (deviceId payload : string) (tsMs : Z) (entry : Z2mDeviceEntry) :
  let s := (run P inputs (initialAdapter info)).1 in
  m_devices s !! deviceId = Some entry ->
  toLower (trimmed payload) <> "online" ->
  toLower (trimmed payload) <> "offline" ->
  handleAvailabilityPayload deviceId payload tsMs s
  = (s, [ChannelStateUpdated (dev_id (e_device entry)) "connectivity"
           (VInt (connectivityCode CsUnknown)) tsMs]).
Proof.
  intros s Hd Hon Hoff.
  assert (Hs : registryOk s).
  { apply run_registryOk. intros k e Hk. simpl in Hk.
    rewrite lookup_empty in Hk. discriminate. }
  unfold handleAvailabilityPayload. rewrite Hd.
  rewrite (Hs deviceId entry Hd). cbv zeta.
  apply String.eqb_neq in Hon, Hoff. rewrite Hon, Hoff. reflexivity.
Qed.

End WithPlatform.

Lemma availability_unknown_state_witness :
  let s :=
    (run referencePlatform
       (World.connectInputs ++ [World.snapshot [World.lamp; World.plug] 1000])
       (initialAdapter World.info)).1 in
  m_devices s !! "plug" = Some World.plugEntry
  /\ handleAvailabilityPayload "plug" " Degraded " 2000 s
     = (s, [ChannelStateUpdated "0x02" "connectivity" (VInt 0) 2000]).
Proof.
  intros s.
  assert (Hk : m_devices s !! "plug" = Some World.plugEntry) by reflexivity.
  split; [exact Hk |].
  apply (availability_unknown_state referencePlatform World.info
           (World.connectInputs ++ [World.snapshot [World.lamp; World.plug] 1000])
           "plug" " Degraded " 2000 World.plugEntry Hk); discriminate.
Defined.

(** The same through the router, for a JSON availability payload. *)
Example availability_scenario :
  let s :=
    (run referencePlatform
       (World.connectInputs ++ [World.snapshot [World.lamp] 1000])
       (initialAdapter World.info)).1 in
  channelUpdates
    (step referencePlatform
       (MqttMessageReceived
          (mkMessage (stateLiteral "degraded")
             (Some (JObject (<["state" := JString "degraded"]> ∅))))
          "zigbee2mqtt/lamp/availability" 2000) s).2
  = [("0x01", "connectivity", VInt (connectivityCode CsUnknown), 2000)].
Proof. reflexivity. Qed.

End RegistryFacts.

(** ** Commands and state payloads are inverse to each other *)

Module CommandCodecFacts.

Import QtString Codec Adapter.

Section Saturation.

Import PrimFloat.

Local Open Scope float_scope.

Lemma ltb_leb (x y : float) : (x <? y) = true -> (x <=? y) = true.
Proof.
  intros H. apply DoubleFacts.leb_Le. left. apply DoubleFacts.ltb_Lt. exact H.
Qed.

Lemma qBound_below (mn v mx : float) :
  (mn <? mx) = true -> (v <=? mn) = true -> Double.qBound mn v mx = mn.
Proof.
  intros Hlt Hv. unfold Double.qBound, Double.qMin, Double.qMax.
  destruct (mx <? v) eqn:E.
  - pose proof (DoubleFacts.ltb_leb_trans _ _ _ E Hv) as H.
    apply DoubleFacts.ltb_not_leb in H. apply ltb_leb in Hlt. congruence.
  - rewrite (DoubleFacts.leb_not_ltb _ _ Hv). reflexivity.
Qed.

Lemma qBound_nan (mn mx : float) : Double.qBound mn nan mx = mn.
Proof.
  unfold Double.qBound, Double.qMin, Double.qMax.
  rewrite (DoubleFacts.ltb_nan_r mx), (DoubleFacts.ltb_nan_r mn). reflexivity.
Qed.

Lemma qBound_above (mn v mx : float) :
  (mn <? mx) = true -> (mx <=? v) = true -> is_zero mx = false ->
  Double.qBound mn v mx = mx.
Proof.
  intros Hlt Hv Hnz. unfold Double.qBound, Double.qMin, Double.qMax.
  destruct (mx <? v) eqn:E.
  - rewrite Hlt. reflexivity.
  - assert (Hsame : mx = v) by (apply DoubleFacts.Prim2SF_same; assumption).
    rewrite <- Hsame, Hlt. reflexivity.
Qed.

Lemma qBound_top (mn mx : float) :
  (mn <? mx) = true -> Double.qBound mn mx mx = mx.
Proof.
  intros Hlt. unfold Double.qBound, Double.qMin, Double.qMax.
  destruct (mx <? mx); rewrite Hlt; reflexivity.
Qed.

(** Outside the branch that passes the argument through, the two
    functions see their argument only through [qBound]. *)
Lemma scaleToPercent_clamped (raw rawMin rawMax : float) :
  (rawMin <? rawMax) = true ->
  scaleToPercent raw rawMin rawMax
  = ((Double.qBound rawMin raw rawMax - rawMin) / (rawMax - rawMin)) * 100.
Proof.
  intros Hlt. unfold scaleToPercent.
  rewrite (DoubleFacts.ltb_not_leb _ _ Hlt). reflexivity.
Qed.

Lemma scaleFromPercent_clamped (percent rawMin rawMax : float) :
  (rawMin <? rawMax) = true ->
  scaleFromPercent percent rawMin rawMax
  = rawMin + ((rawMax - rawMin) * (Double.qBound 0 percent 100 / 100)).
Proof.
  intros Hlt. unfold scaleFromPercent.
  rewrite (DoubleFacts.ltb_not_leb _ _ Hlt). reflexivity.
Qed.

Lemma ends_checked :
  forallb (fun rawMax =>
             (rawMax =? 0)%Z
             || ((0 <? Double.ofInt rawMax)
                 && negb (is_zero (Double.ofInt rawMax))
                 && Leibniz.eqb (scaleToPercent 0 0 (Double.ofInt rawMax)) 0
                 && Leibniz.eqb (scaleToPercent (Double.ofInt rawMax) 0
                                   (Double.ofInt rawMax)) 100
                 && Leibniz.eqb (scaleFromPercent 0 0 (Double.ofInt rawMax)) 0
                 && Leibniz.eqb (scaleFromPercent 100 0 (Double.ofInt rawMax))
                      (Double.ofInt rawMax)))
          (upTo 255) = true.
Proof. vm_compute. reflexivity. Qed.

(** X1. The two scaling functions saturate on every scale [0..rawMax]
    with [rawMax <= 255], whatever the double they are given: a reading
    at or below 0, or NaN, is exactly 0 per cent and a reading at or
    above [rawMax] exactly 100; a percentage at or below 0, or NaN,
    gives raw 0 and one at or above 100 gives [rawMax] exactly. *)
Theorem scaling_saturates (raw percent : float) (rawMax : Z) :
  (0 < rawMax <= 255)%Z ->
  ((raw <=? 0) = true \/ raw = nan ->
   scaleToPercent raw 0 (Double.ofInt rawMax) = 0)
  /\ ((Double.ofInt rawMax <=? raw) = true ->
      scaleToPercent raw 0 (Double.ofInt rawMax) = 100)
  /\ ((percent <=? 0) = true \/ percent = nan ->
      scaleFromPercent percent 0 (Double.ofInt rawMax) = 0)
  /\ ((100 <=? percent) = true ->
      scaleFromPercent percent 0 (Double.ofInt rawMax) = Double.ofInt rawMax).
Proof.
  intros Hmax.
  pose proof (CodecFacts.upTo_forallb _ 255 ends_checked rawMax ltac:(lia)) as Hends.
  cbv beta in Hends.
  destruct (Z.eqb_spec rawMax 0) as [-> | _]; [lia |].
  cbn [orb] in Hends.
  repeat match type of Hends with
         | (_ && _)%bool = true => apply andb_prop in Hends as [Hends ?]
         end.
  repeat match goal with
         | H : Leibniz.eqb _ _ = true |- _ => apply FloatAxioms.Leibniz.eqb_spec in H
         | H : negb _ = true |- _ => apply negb_true_iff in H
         end.
  set (top := Double.ofInt rawMax) in *.
  assert (H100 : (0 <? 100) = true) by reflexivity.
  repeat split.
  - intros Hraw.
    rewrite scaleToPercent_clamped by assumption.
    assert (Hq : Double.qBound 0 raw top = Double.qBound 0 0 top).
    { rewrite (qBound_below 0 0 top) by (assumption || reflexivity).
      destruct Hraw as [Hraw | ->]; [apply qBound_below; assumption |].
      apply qBound_nan. }
    rewrite Hq, <- scaleToPercent_clamped by assumption. assumption.
  - intros Hraw.
    rewrite scaleToPercent_clamped by assumption.
    assert (Hq : Double.qBound 0 raw top = Double.qBound 0 top top).
    { rewrite (qBound_above 0 raw top) by assumption.
      symmetry. apply qBound_top. assumption. }
    rewrite Hq, <- scaleToPercent_clamped by assumption. assumption.
  - intros Hp.
    rewrite scaleFromPercent_clamped by assumption.
    assert (Hq : Double.qBound 0 percent 100 = Double.qBound 0 0 100).
    { rewrite (qBound_below 0 0 100) by reflexivity.
      destruct Hp as [Hp | ->]; [apply qBound_below; assumption |].
      apply qBound_nan. }
    rewrite Hq, <- scaleFromPercent_clamped by assumption. assumption.
  - intros Hp.
    rewrite scaleFromPercent_clamped by assumption.
    assert (Hq : Double.qBound 0 percent 100 = Double.qBound 0 100 100).
    { rewrite (qBound_above 0 percent 100) by (assumption || reflexivity).
      reflexivity. }
    rewrite Hq, <- scaleFromPercent_clamped by assumption. assumption.
Qed.

Lemma scaling_saturates_witness :
  scaleToPercent 300 0 254 = 100
  /\ scaleToPercent (-3) 0 254 = 0
  /\ scaleFromPercent nan 0 254 = 0
  /\ scaleFromPercent 120 0 254 = 254.
Proof.
  destruct (scaling_saturates 300 120 254 ltac:(lia)) as (_ & Hhigh & _ & Hfull).
  destruct (scaling_saturates (-3) nan 254 ltac:(lia)) as (Hlow & _ & Hnan & _).
  split; [apply Hhigh; reflexivity |].
  split; [apply Hlow; left; reflexivity |].
  split; [apply Hnan; right; reflexivity |].
  apply Hfull. reflexivity.
Defined.

Lemma percents_checked :
  forallb (fun rawMax =>
             forallb (fun percent =>
                        closeTob (percentRoundTrip (Double.ofInt percent) 0
                                    (Double.ofInt rawMax))
                                 (inject_Z percent) (1 # 2 ^ 46))
                     (upTo 100))
          (upTo 255) = true.
Proof. vm_compute. reflexivity. Qed.

(** X2. A percentage survives the way to the raw value and back up to
    rounding: on every scale [0..rawMax] with [rawMax <= 255], encoding
    a whole percentage and decoding the raw value gives the percentage
    back within [2^-46]. *)
Theorem percent_round_trip (percent rawMax : Z) :
  (0 <= percent <= 100)%Z -> (0 <= rawMax <= 255)%Z ->
  closeTo (percentRoundTrip (Double.ofInt percent) 0 (Double.ofInt rawMax))
          (inject_Z percent) (1 # 2 ^ 46).
Proof.
  intros Hp Hmax. apply CodecFacts.closeTob_sound.
  apply (CodecFacts.upTo_forallb
           (fun percent => closeTob (percentRoundTrip (Double.ofInt percent) 0
                                       (Double.ofInt rawMax))
                                    (inject_Z percent) (1 # 2 ^ 46)) 100);
    [| exact Hp].
  apply (CodecFacts.upTo_forallb
           (fun rawMax =>
              forallb (fun percent =>
                         closeTob (percentRoundTrip (Double.ofInt percent) 0
                                     (Double.ofInt rawMax))
                                  (inject_Z percent) (1 # 2 ^ 46))
                      (upTo 100)) 255 percents_checked).
  exact Hmax.
Qed.

Lemma percent_round_trip_witness :
  closeTo (percentRoundTrip 7 0 254) 7 (1 # 2 ^ 46).
Proof. apply (percent_round_trip 7 254); lia. Defined.

End Saturation.

Section WithPlatform.

Variable P : Platform.

Lemma commands_checked :
  forallb (fun percent =>
             let raw :=
               Double.toQ (scaleFromPercent (Double.ofQ (inject_Z percent))
                             (Double.ofQ 0) (Double.ofQ 254)) in
             let decoded :=
               Double.toQ (scaleToPercent (Double.ofQ raw)
                             (Double.ofQ 0) (Double.ofQ 254)) in
             Qle_bool (Qabs (raw - 254 * inject_Z percent / 100)) (1 # 2 ^ 45)
             && Qle_bool (Qabs (decoded - inject_Z percent)) (1 # 2 ^ 47))
          (upTo 100) = true.
Proof. vm_compute. reflexivity. Qed.

(** X3. A brightness command, echoed by the device in its state payload,
    decodes to the commanded percentage up to rounding: for a Brightness
    binding on the Zigbee level scale 0..254 and a whole percentage [p],
    the command sends a raw number within [2^-45] of [2.54 p], and that
    number decodes to [p] within [2^-47]. *)
Theorem brightness_command_round_trip (deviceId : string)
    (binding : Z2mChannelBinding) (p : Z) :
  b_kind binding = KBrightness ->
  b_dataType binding <> TEnum ->
  b_rawMin binding = 0%Q ->
  b_rawMax binding = 254%Q ->
  0 <= p <= 100 ->
  exists raw decoded,
    buildCommandPayload P deviceId binding (VDouble (inject_Z p))
    = inl (<[b_property binding := JDouble raw]> ∅)
    /\ decodeValue P binding (JDouble raw) = VDouble decoded
    /\ (Qabs (raw - 254 * inject_Z p / 100) <= 1 # 2 ^ 45)%Q
    /\ (Qabs (decoded - inject_Z p) <= 1 # 2 ^ 47)%Q.
Proof.
  intros Hkind Htype Hmin Hmax Hp.
  pose proof (CodecFacts.upTo_forallb _ 100 commands_checked p Hp) as Hchk.
  cbv beta zeta in Hchk. apply andb_prop in Hchk as [Hraw Hdec].
  apply Qle_bool_iff in Hraw, Hdec.
  eexists _, _.
  unfold buildCommandPayload, decodeValue.
  rewrite bool_decide_eq_false_2 by exact Htype. rewrite Hkind, Hmin, Hmax.
  cbn [Variant.toDouble Json.toDouble].
  split; [reflexivity |]. split; [reflexivity |].
  split; [exact Hraw | exact Hdec].
Qed.

(** X4. An on/off command, echoed by the device, decodes to the
    commanded state, as long as the two literals of the binding differ
    (case ignored). *)
Theorem onoff_command_round_trip (deviceId : string) (binding : Z2mChannelBinding)
    (on : bool) :
  b_kind binding = KPowerOnOff ->
  b_dataType binding <> TEnum ->
  equalsCI (offLiteral binding) (onLiteral binding) = false ->
  buildCommandPayload P deviceId binding (VBool on)
  = inl (<[b_property binding :=
             JString (if on then onLiteral binding else offLiteral binding)]> ∅)
  /\ decodeValue P binding
       (JString (if on then onLiteral binding else offLiteral binding))
     = VBool on.
Proof.
  intros Hkind Htype Hdiff.
  unfold buildCommandPayload, decodeValue, onLiteral, offLiteral in *.
  rewrite bool_decide_eq_false_2 by exact Htype. rewrite Hkind.
  cbn [Variant.toBool].
  destruct (negb (isEmpty (b_valueOn binding)) || negb (isEmpty (b_valueOff binding)));
    destruct on; (split; [reflexivity |]); f_equal;
    try exact Hdiff; unfold equalsCI; apply String.eqb_refl.
Qed.

(** X5. An enum command, echoed by the device, decodes to the commanded
    value: for an enum channel that the expose compiler adds (kind
    Unknown or AmbientLightLevel) and a value [v] of its table, the
    command sends the raw string of [v], and that raw string decodes to
    [v]. *)
Theorem enum_command_round_trip (sort : list string -> list string)
    (expose : QJsonObject) (entry : Z2mDeviceEntry) (channelId deviceId : string)
    (binding : Z2mChannelBinding) (v : Z) (raw : string) :
  e_bindingsByChannel entry !! channelId = None ->
  e_bindingsByChannel (Expose.addChannelFromExpose sort expose entry) !! channelId
  = Some binding ->
  exposeType expose = "enum" ->
  b_kind binding = KUnknown \/ b_kind binding = KAmbientLightLevel ->
  b_enumValueToRaw binding !! v = Some raw ->
  buildCommandPayload P deviceId binding (VInt v)
  = inl (<[b_property binding := JString raw]> ∅)
  /\ decodeValue P binding (JString raw) = VInt v.
Proof.
  intros Hnew Hbind Henum Hkind Hraw.
  destruct (ExposeFacts.addChannelFromExpose_cases sort expose entry)
    as [Hsame | (ch & b & cid & prop & Heq & _ & _ & _ & _ & Hty & Htab)].
  { rewrite Hsame in Hbind. congruence. }
  rewrite Heq in Hbind. cbn [e_bindingsByChannel] in Hbind.
  destruct (decide (cid = channelId)) as [-> | Hne];
    [| rewrite lookup_insert_ne in Hbind by exact Hne; congruence].
  rewrite lookup_insert_eq in Hbind. injection Hbind as ->.
  rewrite Henum in Htab. cbn [String.eqb Ascii.eqb Bool.eqb] in Htab.
  destruct Htab as (Hch & _ & Hr2v & Hv2r).
  assert (Hdt : b_dataType binding = TEnum) by congruence.
  pose proof (ExposeFacts.enumTablesOf_inv
                (Expose.enumNameOf (exposeProperty expose))
                (exposeFallbackMap sort expose)
                (Expose.scan_rawKeys (exposeScan expose))) as (_ & _ & Hback & _).
  fold (exposeEnumTables sort expose) in Hback.
  rewrite <- Hr2v, <- Hv2r in Hback. apply Hback in Hraw as Hval.
  split.
  - unfold buildCommandPayload. rewrite bool_decide_eq_true_2 by exact Hdt.
    unfold encodeEnumValue. cbn [Variant.isNumericType Variant.toInt].
    rewrite Hraw. reflexivity.
  - unfold decodeValue, decodeEnumValue.
    destruct Hkind as [-> | ->]; [rewrite Hdt |]; rewrite Hval; reflexivity.
Qed.

End WithPlatform.

Lemma enum_command_round_trip_witness :
  buildCommandPayload referencePlatform "0x01" rockerBinding (VInt 1)
  = inl (<["device_mode" := JString "single_rocker"]> ∅)
  /\ decodeValue referencePlatform rockerBinding (JString "single_rocker") = VInt 1.
Proof.
  apply (enum_command_round_trip referencePlatform EnumMap.insertionSortCI
           Sample.rockerExpose Sample.emptyEntry "device_mode" "0x01" rockerBinding
           1 "single_rocker");
    [reflexivity | reflexivity | reflexivity | left; reflexivity | reflexivity].
Defined.

Lemma brightness_command_round_trip_witness :
  exists raw decoded,
    buildCommandPayload referencePlatform "0x01" brightnessBinding (VDouble 75)
    = inl (<["brightness" := JDouble raw]> ∅)
    /\ decodeValue referencePlatform brightnessBinding (JDouble raw) = VDouble decoded
    /\ (Qabs (raw - 254 * 75 / 100) <= 1 # 2 ^ 45)%Q
    /\ (Qabs (decoded - 75) <= 1 # 2 ^ 47)%Q.
Proof.
  apply (brightness_command_round_trip referencePlatform "0x01" brightnessBinding 75);
    [reflexivity | vm_compute; discriminate | reflexivity | reflexivity | lia].
Defined.

Lemma onoff_command_round_trip_witness :
  buildCommandPayload referencePlatform "0x01" stateBinding (VBool false)
  = inl (<["state" := JString "OFF"]> ∅)
  /\ decodeValue referencePlatform stateBinding (JString "OFF") = VBool false.
Proof.
  apply (onoff_command_round_trip referencePlatform "0x01" stateBinding false);
    [reflexivity | vm_compute; discriminate | reflexivity].
Defined.

End CommandCodecFacts.

(** ** Answers to commands, renames and actions *)

Module AnswerFacts.

Import QtString Adapter Spec ActionFacts TraceFacts.

Section WithPlatform.

Variable P : Platform.

(** X6. A rename is never acknowledged at once. [updateDeviceName]
    either answers immediately with a status other than Success and
    leaves the pending renames alone, or it answers nothing, publishes
    the rename request, records the pending rename and schedules its
    timeout after 10 s. In the second case the timeout, if nothing
    answered before, emits exactly one Failure response with the id of
    the command; and a timeout that fires again is silent. *)
Theorem rename_answered_once (s : Z2mAdapter) (deviceId name : string)
    (cmdId now : Z) :
  let r := updateDeviceName P deviceId name cmdId now s in
  ((exists response,
      cmdResults r.2 = [response]
      /\ resp_id response = cmdId
      /\ resp_status response <> Success
      /\ scheduled r.2 = []
      /\ m_pendingRename r.1 = m_pendingRename s)
   \/ (cmdResults r.2 = []
       /\ publishes r.2 = [renameRequest s deviceId name]
       /\ scheduled r.2 = [(10000, TaskRenameTimeout deviceId)]
       /\ m_pendingRename s !! deviceId = None
       /\ m_pendingRename r.1
          = <[deviceId := mkPendingRename cmdId (trimmed name) now]> (m_pendingRename s)
       /\ forall t,
            cmdResults (renameTimeout deviceId t r.1).2
            = [mkCmdResponse cmdId Failure "Rename timeout" t]))
  /\ (forall s0 t t',
        (renameTimeout deviceId t' (renameTimeout deviceId t s0).1).2 = []).
Proof.
  intros r. split.
  - subst r. unfold updateDeviceName, respond, emit, publish, renameRequest.
    cbv zeta.
    destruct (isEmpty (trimmed name));
      [left; eexists; repeat split; discriminate |].
    destruct (isEmpty (default deviceId (m_mqttByExternal s !! deviceId)));
      [left; eexists; repeat split; discriminate |].
    destruct (bool_decide (is_Some (m_pendingRename s !! deviceId))) eqn:Hpend;
      [left; eexists; repeat split; discriminate |].
    destruct (negb (m_connected s) || negb (clientConnected s));
      [left; eexists; repeat split; discriminate |].
    destruct (_ <? 0);
      [left; eexists; repeat split; discriminate |].
    right. cbn [fst snd app]. repeat split.
    + apply bool_decide_eq_false in Hpend.
      destruct (m_pendingRename s !! deviceId); [exfalso; apply Hpend; eauto | reflexivity].
    + intros t. unfold renameTimeout.
      cbn [m_pendingRename set_pendingRename set_publishCount].
      rewrite lookup_insert_eq. reflexivity.
  - intros s0 t t'. unfold renameTimeout.
    destruct (m_pendingRename s0 !! deviceId) as [pending |] eqn:Hp; cbn [fst].
    + cbn [m_pendingRename set_pendingRename]. rewrite lookup_delete_eq. reflexivity.
    + rewrite Hp. reflexivity.
Qed.

(** X7. Every action is answered at most once, and the two bridge
    actions exactly once: [permitJoin] and [restartZ2M] give one result
    with the id of the call, Success exactly when the client is
    connected, the bridge is online and the publish is accepted, and
    they publish only then; any other action publishes nothing and gets
    the answer of the interface (Success for [settings], NotImplemented
    otherwise) unless the call is untracked. *)
Theorem adapter_action_result (s : Z2mAdapter) (actionId : string)
    (params : QJsonObject) (cmdId now : Z) :
  let r := invokeAdapterAction P actionId params cmdId now s in
  if isBridgeAction actionId then
    exists response,
      actionResults r.2 = [response]
      /\ resp_id response = cmdId
      /\ (if clientConnected s && m_bridgeOnline s then
            publishes r.2 = [actionRequest s actionId]
            /\ resp_status response
               = (if publishResult P (m_publishCount s) (actionRequest s actionId).1
                       (actionRequest s actionId).2 <? 0
                  then Failure else Success)
          else publishes r.2 = [] /\ resp_status response = Failure)
  else
    publishes r.2 = []
    /\ actionResults r.2
       = (if cmdId =? 0 then []
          else [mkCmdResponse cmdId
                  (if String.eqb actionId "settings" then Success else NotImplemented)
                  (if String.eqb actionId "settings" then ""
                   else "AdapterInterface action not supported") now]).
Proof.
  intros r. subst r. unfold invokeAdapterAction, isBridgeAction, actionRequest, publish.
  cbv zeta.
  destruct (String.eqb actionId "permitJoin") eqn:Hp;
    destruct (String.eqb actionId "restartZ2M") eqn:Hr; cbn [negb andb orb];
    try (destruct (clientConnected s); cbn [negb andb];
         [destruct (m_bridgeOnline s); cbn [negb];
          [| eexists; repeat split; reflexivity]
         | eexists; repeat split; reflexivity];
         cbn [fst snd];
         match goal with |- context [?x <? 0] => destruct (x <? 0) end;
         eexists; repeat split; reflexivity).
  destruct (String.eqb actionId "settings"); destruct (cmdId =? 0);
    split; reflexivity.
Qed.

Lemma offline_updateChannelState (s : Z2mAdapter) (d c : string) (v : QVariant)
    (cmdId now : Z) :
  m_connected s = false ->
  publishes (updateChannelState P d c v cmdId now s).2 = []
  /\ (updateChannelState P d c v cmdId now s).1 = s
  /\ exists response,
       cmdResults (updateChannelState P d c v cmdId now s).2 = [response]
       /\ resp_id response = cmdId
       /\ (resp_status response = NotSupported
           \/ resp_status response = TemporarilyOffline).
Proof.
  intros Hoff. unfold updateChannelState, respond, emit. rewrite Hoff.
  destruct (m_devices s !! _) as [entry |];
    [| repeat split; eexists; repeat split; left; reflexivity].
  destruct (e_bindingsByChannel entry !! c) as [binding |];
    [| repeat split; eexists; repeat split; left; reflexivity].
  destruct (negb (testFlag _ _));
    [repeat split; eexists; repeat split; left; reflexivity |].
  cbn [negb orb]. repeat split. eexists. repeat split. right. reflexivity.
Qed.

(** X8. [stop] takes the adapter offline and keeps what it knows: the
    client is gone, both connection flags are off,
    [connectionStateChanged] is emitted with [false] exactly when the
    adapter was connected, the refresh timers are dropped, and the
    registry, the index and the buffered state payloads are as before.
    In the state it leaves, every channel command is answered once,
    without a publish and never with Success. *)
Theorem stop_goes_offline (s : Z2mAdapter) :
  let s' := (stop s).1 in
  m_client s' = None
  /\ m_connected s' = false
  /\ m_mqttConnected s' = false
  /\ m_postSetRefreshTimers s' = ∅
  /\ connectionChanges (stop s).2 = (if m_connected s then [false] else [])
  /\ publishes (stop s).2 = []
  /\ m_devices s' = m_devices s
  /\ m_mqttByExternal s' = m_mqttByExternal s
  /\ m_pendingStatePayloads s' = m_pendingStatePayloads s
  /\ forall d c v cmdId now,
       publishes (updateChannelState P d c v cmdId now s').2 = []
       /\ exists response,
            cmdResults (updateChannelState P d c v cmdId now s').2 = [response]
            /\ resp_id response = cmdId
            /\ (resp_status response = NotSupported
                \/ resp_status response = TemporarilyOffline).
Proof.
  intros s'.
  assert (Hrun :
    m_client s' = None /\ m_connected s' = false /\ m_mqttConnected s' = false
    /\ m_postSetRefreshTimers s' = ∅
    /\ connectionChanges (stop s).2 = (if m_connected s then [false] else [])
    /\ publishes (stop s).2 = []
    /\ m_devices s' = m_devices s /\ m_mqttByExternal s' = m_mqttByExternal s
    /\ m_pendingStatePayloads s' = m_pendingStatePayloads s).
  { subst s'. destruct s as [info client timer connected mqttConnected bridgeOnline
                             lastSeen fullSync retry base devices ext renames
                             pending refresh coordinator bridgeInfo count].
    unfold stop, stopReconnectTimer, disconnectFromBroker, updateConnectionState,
      setConnected.
    unfold andThen, modify, emit, skip.
    destruct timer as [t |]; destruct client as [c |]; destruct connected; simpl;
      try destruct (bool_decide (cl_state c = Connected)
                    || bool_decide (cl_state c = Connecting));
      simpl; repeat split. }
  destruct Hrun as (H1 & H2 & H3 & H4 & H5 & H6 & H7 & H8 & H9).
  repeat (split; [assumption |]).
  intros d c v cmdId now.
  destruct (offline_updateChannelState s' d c v cmdId now H2) as (Hp & _ & Hr).
  split; assumption.
Qed.

Lemma quietOffline_skip : quietOffline skip.
Proof. intros s Hs. repeat split. exact Hs. Qed.

Lemma quietOffline_andThen (a b : Action) :
  quietOffline a -> quietOffline b -> quietOffline (a >> b).
Proof.
  intros Ha Hb s Hs. rewrite andThen_run. cbn [fst snd].
  destruct (Ha s Hs) as (Ha1 & Ha2 & Ha3).
  destruct (Hb (a s).1 Ha1) as (Hb1 & Hb2 & Hb3).
  split; [exact Hb1 |].
  unfold subscriptions in *. rewrite publishes_app, omap_app, Ha2, Ha3, Hb2, Hb3.
  split; reflexivity.
Qed.

Lemma quietOffline_forEach {A : Type} (l : list A) (body : A -> Action) :
  (forall x, quietOffline (body x)) -> quietOffline (forEach l body).
Proof.
  intros Hbody. induction l as [| x l IH]; simpl.
  - apply quietOffline_skip.
  - apply quietOffline_andThen; [apply Hbody | exact IH].
Qed.

(** Proof search for [quietOffline]: follow the handler, use the
    hypothesis at the guards, close the leaves by computation. *)
Ltac offline_leaf Hs :=
  intros s Hs;
  destruct s as [info client timer connected mqttConnected bridgeOnline
                 lastSeen fullSync retry base devices ext renames
                 pending refresh coordinator bridgeInfo count];
  unfold clientConnected in *; cbn in Hs |- *;
  repeat first
    [ progress rewrite Hs
    | progress cbn
    | rewrite orb_true_r
    | match goal with
      | |- context [match ?c with _ => _ end] =>
          lazymatch c with
          | context [match _ with _ => _ end] => fail
          | _ => destruct c eqn:?
          end
      end ];
  repeat split; try assumption; try reflexivity.

Ltac offline_tac :=
  repeat first
    [ apply quietOffline_skip
    | apply quietOffline_andThen
    | apply quietOffline_forEach; intros ?
    | match goal with
      | |- quietOffline (match ?c with _ => _ end) => destruct c
      | |- quietOffline _ =>
          let s := fresh "s" in
          let Hs := fresh "Hs" in
          offline_leaf Hs
      end ].

Lemma quietOffline_connectToBroker : quietOffline connectToBroker.
Proof. unfold connectToBroker. offline_tac. Qed.

Lemma quietOffline_disconnectFromBroker : quietOffline disconnectFromBroker.
Proof. unfold disconnectFromBroker. offline_tac. Qed.

Lemma quietOffline_updateConnectionState : quietOffline updateConnectionState.
Proof.
  unfold updateConnectionState, setConnected, stopReconnectTimer, andThen, modify,
    emit, skip.
  offline_tac.
Qed.

Lemma quietOffline_applyConfig : quietOffline applyConfig.
Proof. unfold applyConfig, modify. offline_tac. Qed.

Lemma quietOffline_start : quietOffline start.
Proof.
  unfold start.
  repeat apply quietOffline_andThen;
    first [ apply quietOffline_applyConfig | apply quietOffline_connectToBroker
          | unfold modify; offline_tac ].
Qed.

Lemma quietOffline_stop : quietOffline stop.
Proof.
  unfold stop.
  repeat apply quietOffline_andThen;
    first [ apply quietOffline_disconnectFromBroker
          | apply quietOffline_updateConnectionState
          | unfold stopReconnectTimer, modify; offline_tac ].
Qed.

Lemma quietOffline_adapterConfigUpdated : quietOffline adapterConfigUpdated.
Proof.
  unfold adapterConfigUpdated.
  repeat apply quietOffline_andThen;
    first [ apply quietOffline_disconnectFromBroker | apply quietOffline_applyConfig
          | apply quietOffline_connectToBroker ].
Qed.

Lemma quietOffline_requestFullSync : quietOffline (requestFullSync P).
Proof.
  unfold requestFullSync.
  repeat apply quietOffline_andThen.
  - unfold modify. offline_tac.
  - intros s Hs. rewrite Hs. repeat split. exact Hs.
  - intros s Hs.
    refine (quietOffline_forEach (map_to_list (m_devices s)) _ _ s Hs).
    intros kv s0 Hs0. repeat split. exact Hs0.
Qed.

Lemma quietOffline_updateChannelState (d c : string) (v : QVariant) (cmdId now : Z) :
  quietOffline (updateChannelState P d c v cmdId now).
Proof.
  intros s Hs. unfold updateChannelState, respond, emit. rewrite Hs, orb_true_r.
  destruct (m_devices s !! _) as [entry |]; [| repeat split; exact Hs].
  destruct (e_bindingsByChannel entry !! c) as [binding |]; [| repeat split; exact Hs].
  destruct (negb (testFlag _ _)); repeat split; exact Hs.
Qed.

Lemma quietOffline_updateDeviceName (d n : string) (cmdId now : Z) :
  quietOffline (updateDeviceName P d n cmdId now).
Proof.
  intros s Hs. unfold updateDeviceName, respond, emit. cbv zeta.
  rewrite Hs, orb_true_r.
  destruct (isEmpty (trimmed n)); [repeat split; exact Hs |].
  destruct (isEmpty _); [repeat split; exact Hs |].
  destruct (bool_decide _); repeat split; exact Hs.
Qed.

Lemma quietOffline_invokeAdapterAction (a : string) (p : QJsonObject) (cmdId now : Z) :
  quietOffline (invokeAdapterAction P a p cmdId now).
Proof.
  intros s Hs. unfold invokeAdapterAction. cbv zeta. rewrite Hs. cbn [negb].
  destruct (_ && _); [| repeat split; exact Hs].
  destruct (String.eqb a "settings"); destruct (cmdId =? 0); repeat split; exact Hs.
Qed.

(** X9. Outside the handlers of broker traffic nothing is sent while the
    MQTT client is not in its Connected state: a call of the host or a
    timer then publishes nothing and subscribes to nothing. *)
Theorem no_publish_while_disconnected (s : Z2mAdapter) (i : Input) :
  clientConnected s = false ->
  isBrokerTraffic i = false ->
  publishes (step P i s).2 = [] /\ subscriptions (step P i s).2 = [].
Proof.
  intros Hoff Htraffic.
  assert (Hquiet : forall a, quietOffline a ->
            publishes (a s).2 = [] /\ subscriptions (a s).2 = [])
    by (intros a Ha; apply (Ha s Hoff)).
  destruct i as [| | | | d c v cmdId now | d n cmdId now | a p cmdId now | st
                 | | | m t now | | mqttId | [d | av ls e c] now];
    try discriminate Htraffic; cbn [step runTask].
  - apply Hquiet, quietOffline_start.
  - apply Hquiet, quietOffline_stop.
  - apply Hquiet, quietOffline_adapterConfigUpdated.
  - apply Hquiet, quietOffline_requestFullSync.
  - apply Hquiet, quietOffline_updateChannelState.
  - apply Hquiet, quietOffline_updateDeviceName.
  - apply Hquiet, quietOffline_invokeAdapterAction.
  - split; reflexivity.
  - unfold withClient. destruct (m_client s); [| split; reflexivity].
    apply Hquiet. unfold onMqttDisconnected, scheduleReconnect.
    repeat apply quietOffline_andThen;
      [unfold modify; offline_tac | apply quietOffline_updateConnectionState |].
    intros s0 Hs0. unfold modify. cbn [fst snd].
    destruct (_ <=? 0); repeat split; exact Hs0.
  - destruct (m_reconnectTimer s) as [t |]; [| split; reflexivity].
    destruct (rt_active t); [| split; reflexivity].
    apply Hquiet, quietOffline_connectToBroker.
  - destruct (m_postSetRefreshTimers s !! mqttId) as [[|] |]; try (split; reflexivity).
    apply Hquiet. apply quietOffline_andThen; [unfold modify; offline_tac |].
    intros s0 Hs0. unfold postSetRefresh. rewrite Hs0. repeat split. exact Hs0.
  - unfold renameTimeout. destruct (m_pendingRename s !! d); split; reflexivity.
  - unfold availabilityDefault. cbv zeta.
    repeat match goal with
           | |- context [match ?c with _ => _ end] => destruct c
           end; split; reflexivity.
Qed.

End WithPlatform.

Lemma no_publish_while_disconnected_witness :
  publishes (step referencePlatform RequestFullSync (initialAdapter World.info)).2 = []
  /\ subscriptions
       (step referencePlatform RequestFullSync (initialAdapter World.info)).2 = [].
Proof.
  apply (no_publish_while_disconnected referencePlatform (initialAdapter World.info)
           RequestFullSync); reflexivity.
Defined.

End AnswerFacts.

(** ** The settings and the reconnect timer *)

Module ConfigFacts.

Import QtString Adapter ActionFacts TraceFacts IngestFacts.

Abbreviation silent := (fun _ : Effect => @None unit).
Abbreviation linkNeutral := (neutral linkOf silent).
Abbreviation frameNeutral := (neutral dataFrameOf fullSyncOf).
Abbreviation configNeutral := (neutral configOf silent).

Lemma andThen_state (a b : Action) (s : Z2mAdapter) :
  ((a >> b) s).1 = (b (a s).1).1.
Proof. rewrite andThen_run. reflexivity. Qed.

Section WithPlatform.

Variable P : Platform.


Lemma omap_silent (es : list Effect) : omap silent es = [].
Proof. induction es as [| e es IH]; [reflexivity | exact IH]. Qed.

Lemma linkNeutral_config (a : Action) : linkNeutral a -> configNeutral a.
Proof.
  intros Ha s. destruct (Ha s) as [Hl He]. split; [| exact He].
  unfold linkOf in Hl. unfold configOf. congruence.
Qed.

Lemma linkNeutral_timerKept (a : Action) : linkNeutral a -> timerKept a.
Proof.
  intros Ha s Ht _. destruct (Ha s) as [Hl _].
  unfold linkOf in Hl. unfold timerActive in *.
  replace (m_reconnectTimer (a s).1) with (m_reconnectTimer s) by congruence.
  exact Ht.
Qed.

(** *** The handlers of device data leave the link alone *)

Lemma frameNeutral_link (a : Action) : frameNeutral a -> linkNeutral a.
Proof.
  intros Ha s. destruct (Ha s) as [Hl _]. split; [| apply omap_silent].
  unfold dataFrameOf in Hl. unfold linkOf. congruence.
Qed.

Lemma frameNeutral_publish_ (topic : string) (payload : QJsonObject) :
  frameNeutral (publish_ P topic payload).
Proof. intros s. split; reflexivity. Qed.

Lemma frameNeutral_handleDeviceStatePayload (d : string) (p : QJsonObject) (ts : Z) :
  frameNeutral (handleDeviceStatePayload P d p ts).
Proof.
  intros s. destruct (m_devices s !! d) as [entry |] eqn:Hd.
  - destruct (handleDeviceStatePayload_known P d p ts s entry Hd)
      as (entry' & es & -> & Hes & _).
    split; [reflexivity |]. simpl.
    apply ingest_signals_project; [reflexivity | reflexivity | exact Hes].
  - rewrite (handleDeviceStatePayload_unknown P d p ts s Hd). split; reflexivity.
Qed.

Lemma frameNeutral_handleBridgeInfoPayload (p : QJsonObject) (ts : Z) :
  frameNeutral (handleBridgeInfoPayload p ts).
Proof.
  intros s. unfold handleBridgeInfoPayload.
  destruct (isEmpty (m_coordinatorId s)); [split; reflexivity |].
  destruct (m_devices s !! _) as [entry |]; [| split; reflexivity].
  split; [reflexivity |]. simpl.
  rewrite !omap_app.
  repeat match goal with
         | |- context [match ?c with _ => _ end] => destruct c
         end; reflexivity.
Qed.

Lemma frameNeutral_removeDevice (k : string) (entry : Z2mDeviceEntry) :
  frameNeutral (removeDevice k entry).
Proof. unfold removeDevice. neutral_tac. Qed.

Lemma frameNeutral_registerDevice (obj : QJsonObject) (deviceId ieee : string)
    (now : Z) :
  frameNeutral (registerDevice P obj deviceId ieee now).
Proof.
  unfold registerDevice, forgetPreviousName, migratePendingState,
    confirmPendingRename, storeEntry, replayPendingState,
    scheduleAvailabilityDefault, adoptCoordinator.
  neutral_with ltac:(first [ apply frameNeutral_handleDeviceStatePayload
                           | apply frameNeutral_handleBridgeInfoPayload ]).
Qed.

Lemma frameNeutral_bridgeDeviceStep (now : Z) (value : QJsonValue) (seen : gset string) :
  frameNeutral (bridgeDeviceStep P now value seen).2.
Proof.
  unfold bridgeDeviceStep.
  destruct value; try apply neutral_skip.
  destruct (isEmpty _); [apply neutral_skip |].
  destruct (_ || _); simpl.
  - unfold dropDevice. neutral_with ltac:(apply frameNeutral_removeDevice).
  - apply frameNeutral_registerDevice.
Qed.

Lemma frameNeutral_bridgeDevicesLoop (now : Z) (devices : list QJsonValue)
    (seen : gset string) :
  frameNeutral (bridgeDevicesLoop P now devices seen).2.
Proof.
  revert seen. induction devices as [| value rest IH]; intros seen; simpl.
  - apply neutral_skip.
  - pose proof (frameNeutral_bridgeDeviceStep now value seen) as Hstep.
    destruct (bridgeDeviceStep P now value seen) as [seen1 a1].
    specialize (IH seen1).
    destruct (bridgeDevicesLoop P now rest seen1) as [seen2 a2].
    simpl in *. apply neutral_andThen; assumption.
Qed.

Lemma frameNeutral_sweepUnseen (seen : gset string) : frameNeutral (sweepUnseen seen).
Proof.
  unfold sweepUnseen. intros s. apply neutral_forEach. intros kv.
  destruct (bool_decide _); [apply neutral_skip | apply frameNeutral_removeDevice].
Qed.

Lemma linkNeutral_publish_ (topic : string) (payload : QJsonObject) :
  linkNeutral (publish_ P topic payload).
Proof. apply frameNeutral_link, frameNeutral_publish_. Qed.

Lemma linkNeutral_handleDeviceStatePayload (d : string) (p : QJsonObject) (ts : Z) :
  linkNeutral (handleDeviceStatePayload P d p ts).
Proof. apply frameNeutral_link, frameNeutral_handleDeviceStatePayload. Qed.

Lemma linkNeutral_handleBridgeInfoPayload (p : QJsonObject) (ts : Z) :
  linkNeutral (handleBridgeInfoPayload p ts).
Proof. apply frameNeutral_link, frameNeutral_handleBridgeInfoPayload. Qed.

Lemma linkNeutral_handleBridgeDevicesPayload (devices : list QJsonValue)
    (fullSnapshot : bool) (now : Z) :
  linkNeutral (handleBridgeDevicesPayload P devices fullSnapshot now).
Proof.
  unfold handleBridgeDevicesPayload.
  pose proof (frameNeutral_bridgeDevicesLoop now devices ∅) as Hloop.
  destruct (bridgeDevicesLoop P now devices ∅) as [seen loop]. simpl in Hloop.
  apply neutral_andThen; [apply frameNeutral_link, Hloop |].
  apply neutral_andThen; [| neutral_tac].
  destruct fullSnapshot; [| apply neutral_skip].
  apply frameNeutral_link, frameNeutral_sweepUnseen.
Qed.

Lemma frameNeutral_handleRenameResponse (resp : QJsonObject) (now : Z) :
  frameNeutral (handleRenameResponse resp now).
Proof.
  unfold handleRenameResponse. intros s. cbv beta zeta.
  destruct (String.eqb _ "ok"); [| split; reflexivity].
  apply neutral_forEach. intros kv. unfold renameResponseStep. neutral_tac.
Qed.

Lemma frameNeutral_handleAvailabilityPayload (d p : string) (ts : Z) :
  frameNeutral (handleAvailabilityPayload d p ts).
Proof. unfold handleAvailabilityPayload. neutral_tac. Qed.

Lemma frameNeutral_connectToBroker : frameNeutral connectToBroker.
Proof. unfold connectToBroker. neutral_tac. Qed.

Lemma frameNeutral_disconnectFromBroker : frameNeutral disconnectFromBroker.
Proof. unfold disconnectFromBroker. neutral_tac. Qed.

Lemma linkNeutral_connectToBroker : linkNeutral connectToBroker.
Proof. apply frameNeutral_link, frameNeutral_connectToBroker. Qed.

Lemma linkNeutral_disconnectFromBroker : linkNeutral disconnectFromBroker.
Proof. apply frameNeutral_link, frameNeutral_disconnectFromBroker. Qed.

(** A message on a bridge topic reports the state of the bridge, or
    carries a device list, or is handled without a change of the link
    and of the full-sync flag. *)
Lemma handleBridgeTopic_cases (suffix : string) (message : MqttMessage) (now : Z) :
  (exists online, handleBridgeTopic P suffix message now = handleBridgeState P online)
  \/ (exists devices fullSnapshot,
        handleBridgeTopic P suffix message now
        = handleBridgeDevicesPayload P devices fullSnapshot now)
  \/ frameNeutral (handleBridgeTopic P suffix message now).
Proof.
  unfold handleBridgeTopic. cbv zeta.
  repeat match goal with
         | |- _ \/ _ \/ neutral _ _ (if ?c then _ else _) => destruct c
         | |- _ \/ _ \/ neutral _ _ (match ?c with _ => _ end) => destruct c
         end;
    first [ left; eexists; reflexivity
          | right; left; eexists _, _; reflexivity
          | right; right;
            first [ apply neutral_skip
                  | apply neutral_emit; reflexivity
                  | apply frameNeutral_handleBridgeInfoPayload
                  | apply frameNeutral_handleRenameResponse
                  | unfold handleDeviceGetResponse; neutral_tac ] ].
Qed.

Lemma handleMqttMessage_cases (message : MqttMessage) (topic : string) (now : Z)
    (s : Z2mAdapter) :
  (exists online, handleMqttMessage P message topic now s = handleBridgeState P online s)
  \/ (exists devices fullSnapshot,
        handleMqttMessage P message topic now s
        = handleBridgeDevicesPayload P devices fullSnapshot now s)
  \/ (exists a, frameNeutral a /\ handleMqttMessage P message topic now s = a s).
Proof.
  assert (Hidle : forall t : Z2mAdapter * list Effect, t = (s, []) ->
            exists a, frameNeutral a /\ t = a s).
  { intros t ->. exists skip. split; [apply neutral_skip | reflexivity]. }
  unfold handleMqttMessage. cbv zeta.
  destruct (negb (startsWith topic _)); [right; right; apply Hidle; reflexivity |].
  destruct (startsWith _ "bridge/").
  { destruct (handleBridgeTopic_cases
                (mid topic (String.length (m_baseTopic s +:+ "/"))) message now)
      as [[online Hb] | [(devices & full & Hb) | Hn]].
    - left. exists online. rewrite Hb. reflexivity.
    - right. left. exists devices, full. rewrite Hb. reflexivity.
    - right. right. eexists. split; [exact Hn | reflexivity]. }
  right. right.
  destruct (endsWith _ "/availability").
  { destruct (_ <=? 0); [apply Hidle; reflexivity |].
    eexists. split; [apply frameNeutral_handleAvailabilityPayload | reflexivity]. }
  destruct (_ || _); [apply Hidle; reflexivity |].
  destruct (contains _ "/"); [apply Hidle; reflexivity |].
  destruct (docObject message); [| apply Hidle; reflexivity].
  eexists. split; [apply frameNeutral_handleDeviceStatePayload | reflexivity].
Qed.

(** The commands of the host, and the timers. *)
Lemma frameNeutral_step (i : Input) :
  match i with
  | Start | Stop | AdapterConfigUpdated | RequestFullSync | MqttConnected
  | MqttDisconnected | MqttMessageReceived _ _ _ => False
  | _ => True
  end ->
  frameNeutral (step P i).
Proof.
  destruct i as [| | | | d c v cmdId now | d n cmdId now | a p cmdId now | st
                 | | | m t now | | mqttId | task now];
    try contradiction; intros _; simpl.
  - intros s. unfold updateChannelState, respond, emit.
    destruct (m_devices s !! _) as [entry |]; [| split; reflexivity].
    destruct (e_bindingsByChannel entry !! c) as [binding |]; [| split; reflexivity].
    destruct (negb (testFlag _ _)); [split; reflexivity |].
    destruct (m_connected s); [| split; reflexivity].
    destruct (clientConnected s) eqn:Hcl; [| split; reflexivity].
    simpl. destruct (buildCommandPayload P d binding v); [| split; reflexivity].
    rewrite (CommandFacts.publishCommand_effects _ _ _ _ _ Hcl).
    match goal with |- context [?x <? 0] => destruct (x <? 0) end; split; reflexivity.
  - unfold updateDeviceName, publish, respond, emit. neutral_tac.
  - unfold invokeAdapterAction, publish. neutral_tac.
  - neutral_tac.
  - neutral_with ltac:(apply frameNeutral_connectToBroker).
  - unfold postSetRefresh. neutral_with ltac:(apply frameNeutral_publish_).
  - destruct task; simpl; unfold renameTimeout, availabilityDefault; neutral_tac.
Qed.

Lemma linkNeutral_step (i : Input) :
  match i with
  | Start | Stop | AdapterConfigUpdated | MqttConnected | MqttDisconnected
  | MqttMessageReceived _ _ _ => False
  | _ => True
  end ->
  linkNeutral (step P i).
Proof.
  destruct i; try contradiction; intros _;
    try (apply frameNeutral_link, frameNeutral_step; exact I).
  simpl. unfold requestFullSync. neutral_with ltac:(apply linkNeutral_publish_).
Qed.

Lemma handleMqttMessage_link (message : MqttMessage) (topic : string) (now : Z)
    (s : Z2mAdapter) :
  (exists online, handleMqttMessage P message topic now s = handleBridgeState P online s)
  \/ (exists a, linkNeutral a /\ handleMqttMessage P message topic now s = a s).
Proof.
  destruct (handleMqttMessage_cases message topic now s)
    as [Hb | [(devices & full & Hd) | (a & Ha & Heq)]].
  - left. exact Hb.
  - right. eexists. split; [apply linkNeutral_handleBridgeDevicesPayload | exact Hd].
  - right. exists a. split; [apply frameNeutral_link, Ha | exact Heq].
Qed.

(** *** The settings *)

Lemma configNeutral_updateConnectionState : configNeutral updateConnectionState.
Proof. unfold updateConnectionState, setConnected, stopReconnectTimer. neutral_tac. Qed.

Lemma configNeutral_handleBridgeState (online : bool) :
  configNeutral (handleBridgeState P online).
Proof.
  unfold handleBridgeState.
  neutral_with ltac:(first [ apply configNeutral_updateConnectionState
                           | apply linkNeutral_config, linkNeutral_publish_ ]).
Qed.

Lemma configNeutral_step (i : Input) :
  readsConfig i = false -> configNeutral (step P i).
Proof.
  destruct i as [| | | | d c v cmdId now | d n cmdId now | a p cmdId now | st
                 | | | m t now | | mqttId | task now];
    try discriminate; intros _;
    try (apply linkNeutral_config, linkNeutral_step; exact I); simpl.
  - unfold stop, stopReconnectTimer.
    neutral_with ltac:(first [ apply linkNeutral_config, linkNeutral_disconnectFromBroker
                             | apply configNeutral_updateConnectionState ]).
  - unfold withClient, onMqttConnected, ensureSubscriptions.
    neutral_with ltac:(first [ apply configNeutral_updateConnectionState
                             | apply linkNeutral_config, linkNeutral_publish_ ]).
  - unfold withClient, onMqttDisconnected, scheduleReconnect.
    neutral_with ltac:(apply configNeutral_updateConnectionState).
  - unfold withClient. intros s. destruct (m_client s); [| split; reflexivity].
    destruct (handleMqttMessage_link m t now s) as [[online ->] | [a0 [Ha ->]]].
    + apply configNeutral_handleBridgeState.
    + apply linkNeutral_config, Ha.
Qed.

Lemma retryOk_applyConfig (s : Z2mAdapter) : retryOk (applyConfig s).1.
Proof.
  unfold applyConfig, modify, retryOk. cbn [fst]. cbv zeta.
  match goal with
  | |- context [Json.toInt ?v ?d] =>
      pose proof (EnumMapFacts.Json_toInt_range v d) as Hr; set (retry := Json.toInt v d) in *
  end.
  assert (Hgoal : 1000 <= (if 1000 <=? retry then retry else 10000) <= INT_MAX).
  { unfold INT_MIN, INT_MAX in *. destruct (Z.leb_spec 1000 retry); lia. }
  destruct (m_client _); exact Hgoal.
Qed.

Lemma retryOk_step (i : Input) (s : Z2mAdapter) :
  retryOk s -> retryOk (step P i s).1.
Proof.
  intros Hs. destruct (readsConfig i) eqn:Hi.
  - assert (Hconn : forall s0, retryOk s0 -> retryOk (connectToBroker s0).1).
    { intros s0 H0. destruct (linkNeutral_connectToBroker s0) as [Hl _].
      unfold linkOf in Hl. unfold retryOk in *.
      replace (m_retryIntervalMs (connectToBroker s0).1) with (m_retryIntervalMs s0)
        by congruence.
      exact H0. }
    destruct i; try discriminate; simpl.
    + unfold start. rewrite !andThen_state. apply Hconn.
      unfold modify at 1. cbn [fst].
      pose proof (retryOk_applyConfig (modify (set_pendingFullSync false) s).1) as Ha.
      unfold retryOk in *.
      destruct (m_client (applyConfig (modify (set_pendingFullSync false) s).1).1);
        exact Ha.
    + unfold adapterConfigUpdated. rewrite !andThen_state. apply Hconn.
      apply retryOk_applyConfig.
  - destruct (configNeutral_step i Hi s) as [Hc _].
    unfold configOf in Hc. unfold retryOk in *.
    replace (m_retryIntervalMs (step P i s).1) with (m_retryIntervalMs s) by congruence.
    exact Hs.
Qed.

Lemma retryOk_run (inputs : list Input) (s : Z2mAdapter) :
  retryOk s -> retryOk (run P inputs s).1.
Proof.
  revert s. induction inputs as [| i rest IH]; intros s Hs; [exact Hs |].
  simpl. rewrite andThen_state. apply IH, retryOk_step, Hs.
Qed.

(** *** The reconnect timer *)

Lemma timerActive_scheduleReconnect (s : Z2mAdapter) :
  retryOk s \/ timerActive s = true -> timerActive (scheduleReconnect s).1 = true.
Proof.
  intros Hs. unfold scheduleReconnect, modify. cbn [fst].
  destruct (Z.leb_spec (m_retryIntervalMs s) 0) as [Hle | Hlt]; [| reflexivity].
  destruct Hs as [[Hr _] | Ht]; [lia | exact Ht].
Qed.

Lemma updateConnectionState_timer (s : Z2mAdapter) :
  m_retryIntervalMs (updateConnectionState s).1 = m_retryIntervalMs s
  /\ m_client (updateConnectionState s).1 = m_client s
  /\ (m_connected (updateConnectionState s).1 = false ->
      m_reconnectTimer (updateConnectionState s).1 = m_reconnectTimer s).
Proof.
  unfold updateConnectionState, setConnected.
  destruct (Bool.eqb (m_connected s) _) eqn:Heq; [auto |].
  destruct (m_mqttConnected s && m_bridgeOnline s); simpl.
  - destruct (m_reconnectTimer s); simpl; repeat split; discriminate.
  - auto.
Qed.

Lemma timerKept_handleBridgeState (online : bool) :
  timerKept (handleBridgeState P online).
Proof.
  intros s Ht Hc. unfold handleBridgeState in *.
  rewrite !andThen_state in *.
  set (s1 := (modify (set_bridgeOnline online) s).1) in *.
  destruct (updateConnectionState_timer s1) as (_ & _ & Hu).
  set (s2 := (updateConnectionState s1).1) in *.
  assert (Hlast : forall r : Z2mAdapter * list Effect,
            r = (if online && negb (m_lastSeenRequested s2)
                 then (publish_ P (m_baseTopic s2 +:+ "/bridge/request/options")
                         lastSeenOptions
                       >> modify (set_lastSeenRequested true)) s2
                 else (s2, [])) ->
            m_connected r.1 = m_connected s2
            /\ m_reconnectTimer r.1 = m_reconnectTimer s2).
  { intros r ->. destruct (online && _); split; reflexivity. }
  destruct (Hlast _ eq_refl) as [Hc2 Ht2].
  unfold timerActive in *. rewrite Ht2, Hu by congruence. exact Ht.
Qed.

(** X10. In every state that the adapter reaches the retry interval is
    at least one second, whatever the configuration holds; so the
    reconnect timer runs, with that interval, after every disconnect
    that the MQTT client reports. *)
Theorem reconnect_timer_armed (info : AdapterInfo) (inputs : list Input) :
  let s := (run P inputs (initialAdapter info)).1 in
  retryOk s
  /\ match m_client s with
     | Some _ =>
         m_reconnectTimer (step P MqttDisconnected s).1
         = Some (mkReconnectTimer (m_retryIntervalMs s) true)
     | None => step P MqttDisconnected s = (s, [])
     end.
Proof.
  intros s.
  assert (Hs : retryOk s).
  { apply retryOk_run. unfold retryOk, INT_MAX. simpl. lia. }
  split; [exact Hs |].
  simpl. unfold withClient. destruct (m_client s); [| reflexivity].
  unfold onMqttDisconnected. rewrite !andThen_state.
  set (s1 := (modify (set_mqttConnected false) s).1).
  destruct (updateConnectionState_timer s1) as (Hr & _ & _).
  unfold scheduleReconnect, modify. cbn [fst]. rewrite Hr.
  change (m_retryIntervalMs s1) with (m_retryIntervalMs s).
  destruct Hs as [Hlow _].
  destruct (Z.leb_spec (m_retryIntervalMs s) 0); [lia | reflexivity].
Qed.

(** X11. A running reconnect timer is stopped only by [stop] or by a
    step that leaves the adapter connected: after any other step it is
    still running. *)
Theorem reconnect_timer_kept (i : Input) (s : Z2mAdapter) :
  timerActive s = true -> i <> Stop -> m_connected (step P i s).1 = false ->
  timerActive (step P i s).1 = true.
Proof.
  intros Ht Hi Hc. revert s Ht Hc. change (timerKept (step P i)). revert Hi.
  assert (Hneutral : forall a, neutral m_reconnectTimer silent a -> timerKept a).
  { intros a Ha s Ht _. destruct (Ha s) as [Hl _].
    unfold timerActive in *. rewrite Hl. exact Ht. }
  destruct i as [| | | | d c v cmdId now | d n cmdId now | a p cmdId now | st
                 | | | m t now | | mqttId | task now];
    try congruence; intros _;
    try (apply linkNeutral_timerKept, linkNeutral_step; exact I); simpl.
  - apply Hneutral. unfold start, applyConfig, connectToBroker. neutral_tac.
  - apply Hneutral.
    unfold adapterConfigUpdated, disconnectFromBroker, applyConfig, connectToBroker.
    neutral_tac.
  - intros s Ht Hc. unfold withClient in *.
    destruct (m_client s); [| exact Ht].
    unfold onMqttConnected in *. rewrite !andThen_state in *.
    set (s1 := (modify (set_mqttConnected true) s).1) in *.
    destruct (updateConnectionState_timer s1) as (_ & _ & Hu).
    set (s2 := (updateConnectionState s1).1) in *.
    assert (Hsub : (ensureSubscriptions s2).1 = s2)
      by (unfold ensureSubscriptions; destruct (negb _); reflexivity).
    rewrite Hsub in *. unfold timerActive in *.
    change (m_connected (publish_ P (m_baseTopic s2 +:+ "/bridge/request/info") ∅ s2).1)
      with (m_connected s2) in Hc.
    change (m_reconnectTimer
              (publish_ P (m_baseTopic s2 +:+ "/bridge/request/info") ∅ s2).1)
      with (m_reconnectTimer s2).
    rewrite Hu by exact Hc. exact Ht.
  - intros s Ht Hc. unfold withClient in *.
    destruct (m_client s); [| exact Ht].
    unfold onMqttDisconnected in *. rewrite !andThen_state in *.
    apply timerActive_scheduleReconnect. right.
    set (s1 := (modify (set_mqttConnected false) s).1) in *.
    destruct (updateConnectionState_timer s1) as (_ & _ & Hu).
    assert (Hc1 : m_connected (updateConnectionState s1).1 = false).
    { revert Hc. unfold scheduleReconnect, modify. cbn [fst].
      destruct (_ <=? 0); intros Hc; exact Hc. }
    unfold timerActive in *. rewrite Hu by exact Hc1. exact Ht.
  - intros s Ht Hc. unfold withClient in *.
    destruct (m_client s); [| exact Ht].
    destruct (handleMqttMessage_link m t now s) as [[online Hb] | [a0 [Ha Hb]]];
      rewrite Hb in *.
    + apply timerKept_handleBridgeState; assumption.
    + apply (linkNeutral_timerKept _ Ha); assumption.
Qed.

(** X12. The base topic and the retry interval change only where the
    configuration is applied, in [start] and [adapterConfigUpdated]: no
    message of the broker, command or timer changes them. *)
Theorem settings_change_only_on_reload (i : Input) (s : Z2mAdapter) :
  readsConfig i = false ->
  m_retryIntervalMs (step P i s).1 = m_retryIntervalMs s
  /\ m_baseTopic (step P i s).1 = m_baseTopic s.
Proof.
  intros Hi. destruct (configNeutral_step i Hi s) as [Hc _].
  unfold configOf in Hc. split; congruence.
Qed.

End WithPlatform.

Lemma reconnect_timer_kept_witness :
  timerActive droppedLink = true
  /\ timerActive (step referencePlatform (World.stateOn 1000) droppedLink).1 = true.
Proof.
  split; [reflexivity |].
  apply (reconnect_timer_kept referencePlatform (World.stateOn 1000) droppedLink);
    [reflexivity | discriminate | reflexivity].
Defined.

Lemma settings_change_only_on_reload_witness :
  m_retryIntervalMs (step referencePlatform (World.stateOn 1000) droppedLink).1
  = m_retryIntervalMs droppedLink
  /\ m_baseTopic (step referencePlatform (World.stateOn 1000) droppedLink).1
     = m_baseTopic droppedLink.
Proof.
  apply (settings_change_only_on_reload referencePlatform (World.stateOn 1000)
           droppedLink).
  reflexivity.
Defined.

End ConfigFacts.

(** ** Full syncs *)

Module SyncFacts.

Import QtString Adapter ActionFacts TraceFacts IngestFacts ConfigFacts.

Section WithPlatform.

Variable P : Platform.

Abbreviation syncNeutral := (neutral m_pendingFullSync fullSyncOf).

Lemma frameNeutral_sync (a : Action) : frameNeutral a -> syncNeutral a.
Proof.
  intros Ha s. destruct (Ha s) as [Hl He]. split; [| exact He].
  unfold dataFrameOf in Hl. congruence.
Qed.

Lemma fullSyncs_app (e1 e2 : list Effect) :
  fullSyncs (e1 ++ e2) = fullSyncs e1 ++ fullSyncs e2.
Proof. unfold fullSyncs. apply omap_app. Qed.

(** X13. A device list completes the full sync that was requested, and
    only that: the flag is cleared, and [fullSyncCompleted] is emitted
    exactly when the flag was set, once, after every other signal of the
    list. *)
Theorem full_sync_completes_once (devices : list QJsonValue) (fullSnapshot : bool)
    (now : Z) (s : Z2mAdapter) :
  let r := handleBridgeDevicesPayload P devices fullSnapshot now s in
  m_pendingFullSync r.1 = false
  /\ exists es,
       fullSyncs es = []
       /\ r.2 = es ++ (if m_pendingFullSync s then [FullSyncCompleted] else []).
Proof.
  unfold handleBridgeDevicesPayload.
  pose proof (frameNeutral_bridgeDevicesLoop P now devices ∅) as Hloop.
  destruct (bridgeDevicesLoop P now devices ∅) as [seen loop]. cbn [snd] in Hloop.
  assert (Hsweep : syncNeutral (if fullSnapshot then sweepUnseen seen else skip)).
  { destruct fullSnapshot; [apply frameNeutral_sync, frameNeutral_sweepUnseen
                           | apply neutral_skip]. }
  cbv zeta. rewrite !andThen_run. cbn [fst snd].
  destruct (frameNeutral_sync _ Hloop s) as [Hflag1 Hnone1].
  set (r1 := loop s) in *.
  destruct (Hsweep r1.1) as [Hflag2 Hnone2].
  set (r2 := (if fullSnapshot then sweepUnseen seen else skip) r1.1) in *.
  rewrite <- Hflag1, <- Hflag2.
  destruct (m_pendingFullSync r2.1) eqn:Hr; cbn [fst snd].
  - split; [reflexivity |]. exists (r1.2 ++ r2.2).
    split; [rewrite fullSyncs_app; unfold fullSyncs; rewrite Hnone1, Hnone2; reflexivity |].
    rewrite <- app_assoc. reflexivity.
  - split; [exact Hr |]. exists (r1.2 ++ r2.2).
    split; [rewrite fullSyncs_app; unfold fullSyncs; rewrite Hnone1, Hnone2; reflexivity |].
    rewrite <- app_assoc. reflexivity.
Qed.

Lemma syncNeutral_updateConnectionState : syncNeutral updateConnectionState.
Proof. unfold updateConnectionState, setConnected, stopReconnectTimer. neutral_tac. Qed.

Lemma sync_neutral_step (a : Action) (s : Z2mAdapter) (n : nat) :
  syncNeutral a ->
  (length (fullSyncs (a s).2) + fullSyncOwed (a s).1 <= fullSyncOwed s + n)%nat.
Proof.
  intros Ha. destruct (Ha s) as [Hflag Hnone].
  unfold fullSyncs, fullSyncOwed. rewrite Hnone, Hflag. simpl. lia.
Qed.

(** One step emits at most the full sync that was owed, and owes one
    more only when it is a request. *)
Lemma sync_step (i : Input) (s : Z2mAdapter) :
  (length (fullSyncs (step P i s).2) + fullSyncOwed (step P i s).1
   <= fullSyncOwed s + (if isFullSyncRequest i then 1 else 0))%nat.
Proof.
  destruct i as [| | | | d c v cmdId now | d n cmdId now | a p cmdId now | st
                 | | | m t now | | mqttId | task now];
    try (apply sync_neutral_step, frameNeutral_sync, frameNeutral_step; exact I);
    cbn [step isFullSyncRequest].
  - unfold start.
    match goal with
    | |- context [(modify _ >> ?b) s] =>
        assert (Hb : syncNeutral b)
          by (unfold applyConfig, connectToBroker; neutral_tac)
    end.
    rewrite andThen_run.
    set (s1 := (modify (set_pendingFullSync false) s).1).
    destruct (Hb s1) as [Hflag Hnone]. cbn [fst snd].
    rewrite fullSyncs_app. unfold fullSyncs at 2. rewrite Hnone.
    unfold fullSyncOwed at 1. rewrite Hflag. simpl. lia.
  - apply sync_neutral_step. unfold stop, stopReconnectTimer.
    neutral_with ltac:(first [ apply frameNeutral_sync, frameNeutral_disconnectFromBroker
                             | apply syncNeutral_updateConnectionState ]).
  - apply sync_neutral_step.
    unfold adapterConfigUpdated, disconnectFromBroker, applyConfig, connectToBroker.
    neutral_tac.
  - unfold requestFullSync.
    match goal with
    | |- context [(modify _ >> ?b) s] =>
        assert (Hb : syncNeutral b)
          by neutral_with ltac:(apply frameNeutral_sync, frameNeutral_publish_)
    end.
    rewrite andThen_run.
    set (s1 := (modify (set_pendingFullSync true) s).1).
    destruct (Hb s1) as [Hflag Hnone]. cbn [fst snd].
    rewrite fullSyncs_app. unfold fullSyncs at 2. rewrite Hnone.
    unfold fullSyncOwed at 1. rewrite Hflag. simpl. lia.
  - apply sync_neutral_step. unfold withClient, onMqttConnected, ensureSubscriptions.
    neutral_with ltac:(first [ apply syncNeutral_updateConnectionState
                             | apply frameNeutral_sync, frameNeutral_publish_ ]).
  - apply sync_neutral_step. unfold withClient, onMqttDisconnected, scheduleReconnect.
    neutral_with ltac:(apply syncNeutral_updateConnectionState).
  - unfold withClient. destruct (m_client s); [| simpl; lia].
    destruct (handleMqttMessage_cases P m t now s)
      as [[online ->] | [(devices & full & ->) | (a0 & Ha & ->)]].
    + apply sync_neutral_step. unfold handleBridgeState.
      neutral_with ltac:(first [ apply syncNeutral_updateConnectionState
                               | apply frameNeutral_sync, frameNeutral_publish_ ]).
    + destruct (full_sync_completes_once devices full now s)
        as (Hflag & es & Hnone & ->).
      unfold fullSyncOwed at 1. rewrite Hflag, fullSyncs_app, Hnone.
      unfold fullSyncOwed. destruct (m_pendingFullSync s); simpl; lia.
    + apply sync_neutral_step, frameNeutral_sync, Ha.
Qed.

Lemma sync_run (inputs : list Input) (s : Z2mAdapter) :
  (length (fullSyncs (run P inputs s).2) + fullSyncOwed (run P inputs s).1
   <= fullSyncOwed s + fullSyncRequests inputs)%nat.
Proof.
  revert s. induction inputs as [| i rest IH]; intros s.
  - simpl. unfold fullSyncRequests. simpl. lia.
  - cbn [run]. rewrite andThen_run. cbn [fst snd].
    rewrite fullSyncs_app, length_app.
    pose proof (sync_step i s) as Hi. specialize (IH (step P i s).1).
    assert (Hcount : fullSyncRequests (i :: rest)
                     = ((if isFullSyncRequest i then 1 else 0)
                        + fullSyncRequests rest)%nat).
    { unfold fullSyncRequests. rewrite filter_cons.
      destruct (isFullSyncRequest i) eqn:Hq.
      - rewrite decide_True by reflexivity. reflexivity.
      - rewrite decide_False by discriminate. reflexivity. }
    rewrite Hcount. lia.
Qed.

(** X14. The adapter never reports more completed full syncs than the
    host requested: over any run from the initial state the number of
    [fullSyncCompleted] signals, plus one if a request is still open, is
    at most the number of [requestFullSync] calls. *)
Theorem full_syncs_answer_requests (info : AdapterInfo) (inputs : list Input) :
  let r := run P inputs (initialAdapter info) in
  (length (fullSyncs r.2) + fullSyncOwed r.1 <= fullSyncRequests inputs)%nat.
Proof.
  intros r. subst r.
  pose proof (sync_run inputs (initialAdapter info)) as H.
  unfold fullSyncOwed at 2 in H. simpl in H. exact H.
Qed.

End WithPlatform.

End SyncFacts.

(** ** The channels of a compiled device *)

Module ChannelFacts.

Import QtString Expose.

Lemma flagsFromAccess_cases (access : Z) :
  flagsFromAccess access
  = if negb (Z.land access kAccessSet =? 0)
    then (if negb (Z.land access kAccessState =? 0) then 15 else 2)
    else 13.
Proof.
  unfold flagsFromAccess.
  destruct (negb (Z.land access kAccessState =? 0));
    destruct (negb (Z.land access kAccessSet =? 0)); reflexivity.
Qed.

Section Compile.

Variable sort : list string -> list string.

(** [addChannelFromExpose] either returns the entry as it was or
    appends one channel and stores its binding under the channel's id;
    the two agree on kind, data type and flags. *)
Lemma compiled_channel (expose : QJsonObject) (entry : Z2mDeviceEntry) :
  addChannelFromExpose sort expose entry = entry
  \/ exists channel binding byProperty,
       addChannelFromExpose sort expose entry
       = mkEntry (e_device entry) (e_mqttId entry) (e_channels entry ++ [channel])
                 (<[ch_id channel := binding]> (e_bindingsByChannel entry))
                 byProperty
       /\ e_bindingsByChannel entry !! ch_id channel = None
       /\ b_channelId binding = ch_id channel
       /\ b_kind binding = ch_kind channel
       /\ b_dataType binding = ch_dataType channel
       /\ b_flags binding = ch_flags channel
       /\ b_isAvailability binding = false
       /\ ch_flags channel <> ChannelFlagNone
       /\ (testFlag (ch_flags channel) ChannelFlagWritable = true ->
           Z.land (exposeAccess expose) kAccessSet <> 0)
       /\ (dev_deviceClass (e_device entry) = DcSensor ->
           isSensorMeasurementKind (ch_kind channel) = true ->
           ch_flags channel = ChannelFlagDefaultRead).
Proof.
  unfold addChannelFromExpose.
  repeat match goal with
         | |- (if ?c then entry else _) = entry \/ _ =>
             destruct c eqn:?; [left; reflexivity |]
         | |- (let x := _ in _) = entry \/ _ => cbv zeta beta
         end.
  right. eexists (mkChannel _ _ _ _ _ _ _ _ _ _ _), _, _.
  split; [reflexivity |].
  cbn [ch_id ch_kind ch_dataType ch_flags b_channelId b_kind b_dataType b_flags
       b_isAvailability].
  split.
  { match goal with
    | H : bool_decide (is_Some ?x) = false |- ?y = None =>
        change (x = None); apply bool_decide_eq_false in H;
        destruct x; [exfalso; apply H; eauto | reflexivity]
    end. }
  do 5 (split; [reflexivity |]).
  fold (exposeAccess expose). rewrite flagsFromAccess_cases.
  destruct (negb (Z.land (exposeAccess expose) kAccessSet =? 0)) eqn:Hset;
    destruct (negb (Z.land (exposeAccess expose) kAccessState =? 0));
    destruct (bool_decide (dev_deviceClass (e_device entry) = DcSensor)) eqn:Hclass;
    try apply bool_decide_eq_false in Hclass;
    repeat match goal with
           | |- context [if ?c then _ else _] => destruct c eqn:?
           end;
    (split; [discriminate |]);
    (split; [intros Hw; try discriminate Hw;
             apply negb_true_iff, Z.eqb_neq in Hset; exact Hset |]);
    intros Hc Hk; first [reflexivity | contradiction | discriminate ].
Qed.

Lemma compiledOk_addChannelFromExpose (expose : QJsonObject)
    (entry : Z2mDeviceEntry) :
  compiledOk entry -> compiledOk (addChannelFromExpose sort expose entry).
Proof.
  intros (Hnd & Hch & Hb).
  destruct (compiled_channel expose entry)
    as [-> | (channel & binding & byProperty & -> & Hfresh & Hid & Hkind & Hty
              & Hflags & _ & _ & _ & Hsensor)];
    [exact (conj Hnd (conj Hch Hb)) |].
  unfold compiledOk, channelBound. cbn [e_channels e_bindingsByChannel e_device].
  assert (Hnew : ch_id channel ∉ ch_id <$> e_channels entry).
  { intros Hin. apply list_elem_of_fmap in Hin as (ch & Heq & Hin).
    destruct (Hch ch Hin) as (b & Hlk & _). rewrite <- Heq, Hfresh in Hlk.
    discriminate. }
  split; [| split].
  - rewrite fmap_app. apply NoDup_app. split; [exact Hnd |]. split.
    + intros c Hc Hc'. apply list_elem_of_singleton in Hc'. subst c. exact (Hnew Hc).
    + apply NoDup_singleton.
  - intros ch Hin. apply elem_of_app in Hin as [Hin | Hin].
    + destruct (Hch ch Hin) as (b & Hlk & Hrest). exists b. split; [| exact Hrest].
      rewrite lookup_insert_ne; [exact Hlk |].
      intros Heq. rewrite <- Heq, Hfresh in Hlk. discriminate.
    + apply list_elem_of_singleton in Hin. subst ch. exists binding.
      rewrite lookup_insert_eq. repeat split; assumption.
  - intros c b Hlk. rewrite fmap_app.
    destruct (decide (c = ch_id channel)) as [-> | Hne].
    + rewrite lookup_insert_eq in Hlk. injection Hlk as <-.
      split; [exact Hid |]. split.
      * apply elem_of_app. right. apply list_elem_of_singleton. reflexivity.
      * intros Hc Hk. rewrite Hflags. apply Hsensor; [exact Hc |].
        rewrite <- Hkind. exact Hk.
    + rewrite lookup_insert_ne in Hlk by congruence.
      destruct (Hb c b Hlk) as (H1 & H2 & H3).
      split; [exact H1 |]. split; [| exact H3].
      apply elem_of_app. left. exact H2.
Qed.

Lemma compiledOk_fold (exposes : list QJsonObject) (entry : Z2mDeviceEntry) :
  compiledOk entry ->
  compiledOk (foldl (fun e expose => addChannelFromExpose sort expose e) entry exposes).
Proof.
  revert entry. induction exposes as [| expose rest IH]; intros entry He; [exact He |].
  simpl. apply IH, compiledOk_addChannelFromExpose, He.
Qed.

(** The entry that [buildDeviceEntry] folds from the exposes, before
    the two implicit channels are appended. *)
Lemma buildDeviceEntry_compiled (obj : QJsonObject) :
  exists e0,
    compiledOk e0
    /\ e_device (buildDeviceEntry sort obj) = e_device e0
    /\ e_channels (buildDeviceEntry sort obj)
       = e_channels e0 ++ [availabilityChannel; updateChannel]
    /\ e_bindingsByChannel (buildDeviceEntry sort obj)
       = <["device_software_update" := updateBinding]>
           (<["connectivity" := availabilityBinding]> (e_bindingsByChannel e0)).
Proof.
  unfold buildDeviceEntry. cbv zeta.
  match goal with
  | |- context [foldl ?f ?e ?l] => exists (foldl f e l)
  end.
  split; [| repeat split].
  apply compiledOk_fold. unfold compiledOk. cbn [e_channels e_bindingsByChannel].
  split; [apply NoDup_nil_2 |]. split.
  - intros ch Hin. apply elem_of_nil in Hin. contradiction.
  - intros c b Hlk. rewrite lookup_empty in Hlk. discriminate.
Qed.

(** X15. Every channel that [buildDeviceEntry] announces has a binding
    under its id, and every binding belongs to an announced channel and
    is stored under its own channel id. The ids of the channels compiled
    from the exposes are distinct, and a channel agrees with its binding
    on kind, data type and flags unless an expose took the id of one of
    the two implicit channels. *)
Theorem built_entry_channels_bound (obj : QJsonObject) :
  let e := buildDeviceEntry sort obj in
  exists compiled,
    e_channels e = compiled ++ [availabilityChannel; updateChannel]
    /\ NoDup (ch_id <$> compiled)
    /\ (forall ch, ch ∈ e_channels e ->
          exists b, e_bindingsByChannel e !! ch_id ch = Some b
                    /\ b_channelId b = ch_id ch)
    /\ (forall ch, ch ∈ e_channels e ->
          ch ∈ [availabilityChannel; updateChannel]
          \/ (ch_id ch <> "connectivity" /\ ch_id ch <> "device_software_update") ->
          channelBound e ch)
    /\ (forall c b, e_bindingsByChannel e !! c = Some b ->
          b_channelId b = c /\ exists ch, ch ∈ e_channels e /\ ch_id ch = c).
Proof.
  intros e. subst e.
  destruct (buildDeviceEntry_compiled obj) as (e0 & (Hnd & Hch & Hb) & _ & Hchs & Hbs).
  exists (e_channels e0). split; [exact Hchs |]. split; [exact Hnd |].
  assert (Himplicit : forall ch, ch ∈ [availabilityChannel; updateChannel] ->
            channelBound (buildDeviceEntry sort obj) ch).
  { intros ch Hin. unfold channelBound. rewrite Hbs.
    apply elem_of_cons in Hin as [-> | Hin];
      [| apply list_elem_of_singleton in Hin; subst ch].
    - exists availabilityBinding. split; [| repeat split].
      rewrite lookup_insert_ne by discriminate. apply lookup_insert_eq.
    - exists updateBinding. split; [| repeat split]. apply lookup_insert_eq. }
  assert (Hplain : forall ch, ch ∈ e_channels e0 ->
            ch_id ch <> "connectivity" -> ch_id ch <> "device_software_update" ->
            channelBound (buildDeviceEntry sort obj) ch).
  { intros ch Hin H1 H2. destruct (Hch ch Hin) as (b & Hlk & Hrest).
    exists b. split; [| exact Hrest]. rewrite Hbs.
    rewrite !lookup_insert_ne by congruence. exact Hlk. }
  split; [| split].
  - intros ch Hin. rewrite Hchs in Hin. apply elem_of_app in Hin as [Hin | Hin].
    + destruct (decide (ch_id ch = "device_software_update")) as [Hu | Hu].
      { exists updateBinding. rewrite Hbs, Hu. split; [apply lookup_insert_eq |].
        reflexivity. }
      destruct (decide (ch_id ch = "connectivity")) as [Hc | Hc].
      { exists availabilityBinding. rewrite Hbs, Hc.
        split; [| reflexivity].
        rewrite lookup_insert_ne by discriminate. apply lookup_insert_eq. }
      destruct (Hplain ch Hin Hc Hu) as (b & Hlk & Hid & _). exists b. auto.
    + destruct (Himplicit ch Hin) as (b & Hlk & Hid & _). exists b. auto.
  - intros ch Hin [Himp | [H1 H2]]; [apply Himplicit, Himp |].
    rewrite Hchs in Hin. apply elem_of_app in Hin as [Hin | Hin].
    + apply Hplain; assumption.
    + apply Himplicit, Hin.
  - intros c b Hlk. rewrite Hbs in Hlk. rewrite Hchs.
    destruct (decide (c = "device_software_update")) as [-> | Hu].
    { rewrite lookup_insert_eq in Hlk. injection Hlk as <-. split; [reflexivity |].
      exists updateChannel. split; [| reflexivity].
      apply elem_of_app. right. apply elem_of_cons. right.
      apply list_elem_of_singleton. reflexivity. }
    rewrite lookup_insert_ne in Hlk by congruence.
    destruct (decide (c = "connectivity")) as [-> | Hc].
    { rewrite lookup_insert_eq in Hlk. injection Hlk as <-. split; [reflexivity |].
      exists availabilityChannel. split; [| reflexivity].
      apply elem_of_app. right. apply elem_of_cons. left. reflexivity. }
    rewrite lookup_insert_ne in Hlk by congruence.
    destruct (Hb c b Hlk) as (Hid & Hin & _). split; [exact Hid |].
    apply list_elem_of_fmap in Hin as (ch & -> & Hin).
    exists ch. split; [| reflexivity]. apply elem_of_app. left. exact Hin.
Qed.

(** X16. On a device classed as a sensor no measurement is writable,
    whatever access its expose claims: the binding is readable and not
    writable, and [updateChannelState] on it is answered, once, with
    NotSupported, and nothing is published. *)
Theorem sensor_measurements_read_only (obj : QJsonObject) (c : string)
    (b : Z2mChannelBinding) :
  dev_deviceClass (e_device (buildDeviceEntry sort obj)) = DcSensor ->
  e_bindingsByChannel (buildDeviceEntry sort obj) !! c = Some b ->
  isSensorMeasurementKind (b_kind b) = true ->
  testFlag (b_flags b) ChannelFlagReadable = true
  /\ testFlag (b_flags b) ChannelFlagWritable = false
  /\ forall (P : Platform) (s : Z2mAdapter) (entry : Z2mDeviceEntry)
        (d : string) (v : QVariant) (cmdId now : Z),
       m_devices s !! default d (m_mqttByExternal s !! d) = Some entry ->
       e_bindingsByChannel entry !! c = Some b ->
       Adapter.updateChannelState P d c v cmdId now s
       = (s, [CmdResult (mkCmdResponse cmdId NotSupported "Channel is read-only" now)]).
Proof.
  intros Hclass Hlk Hkind.
  destruct (buildDeviceEntry_compiled obj) as (e0 & (_ & _ & Hb) & Hdev & _ & Hbs).
  assert (Hflags : b_flags b = ChannelFlagDefaultRead).
  { rewrite Hbs in Hlk.
    destruct (decide (c = "device_software_update")) as [-> | Hu].
    { rewrite lookup_insert_eq in Hlk. injection Hlk as <-. reflexivity. }
    rewrite lookup_insert_ne in Hlk by congruence.
    destruct (decide (c = "connectivity")) as [-> | Hc].
    { rewrite lookup_insert_eq in Hlk. injection Hlk as <-. reflexivity. }
    rewrite lookup_insert_ne in Hlk by congruence.
    destruct (Hb c b Hlk) as (_ & _ & Hs). apply Hs; [| exact Hkind].
    rewrite <- Hdev. exact Hclass. }
  rewrite Hflags. split; [reflexivity |]. split; [reflexivity |].
  intros P s entry d v cmdId now Hd Hc.
  unfold Adapter.updateChannelState. cbv zeta. rewrite Hd, Hc, Hflags. reflexivity.
Qed.

(** X17. A compiled channel is never without flags, and it is writable
    only if the expose grants set access. *)
Theorem writable_needs_set_access (expose : QJsonObject) (entry : Z2mDeviceEntry)
    (channel : Channel) :
  e_channels (addChannelFromExpose sort expose entry) = e_channels entry ++ [channel] ->
  ch_flags channel <> ChannelFlagNone
  /\ (testFlag (ch_flags channel) ChannelFlagWritable = true ->
      Z.land (exposeAccess expose) kAccessSet <> 0).
Proof.
  intros Hch.
  destruct (compiled_channel expose entry)
    as [Hsame | (ch & b & byProperty & Heq & _ & _ & _ & _ & _ & _ & Hne & Hw & _)].
  { rewrite Hsame in Hch. exfalso.
    apply (f_equal length) in Hch. rewrite length_app in Hch. simpl in Hch. lia. }
  rewrite Heq in Hch. cbn [e_channels] in Hch.
  apply app_inj_tail in Hch as [_ ->]. split; assumption.
Qed.

End Compile.

Lemma sensor_measurements_read_only_witness :
  testFlag (b_flags (compiledBinding
                       (<["type" := JString "numeric"]>
                          (<["property" := JString "temperature"]>
                             (<["access" := Json.ofInt 3]> ∅)))
                       "temperature")) ChannelFlagWritable = true
  /\ exists b,
       e_bindingsByChannel thermometerEntry !! "temperature" = Some b
       /\ testFlag (b_flags b) ChannelFlagWritable = false.
Proof.
  split; [reflexivity |].
  exists (default defaultBinding (e_bindingsByChannel thermometerEntry !! "temperature")).
  split; [reflexivity |].
  refine (proj1 (proj2 (sensor_measurements_read_only EnumMap.insertionSortCI
                          thermometer "temperature" _ _ _ _)));
    reflexivity.
Defined.

Lemma writable_needs_set_access_witness :
  exists channel,
    e_channels (addChannelFromExpose EnumMap.insertionSortCI World.stateExpose
                  Sample.emptyEntry)
    = e_channels Sample.emptyEntry ++ [channel]
    /\ testFlag (ch_flags channel) ChannelFlagWritable = true
    /\ Z.land (exposeAccess World.stateExpose) kAccessSet <> 0.
Proof.
  eexists. split; [reflexivity |]. split; [reflexivity |].
  refine (proj2 (writable_needs_set_access EnumMap.insertionSortCI
                   World.stateExpose Sample.emptyEntry _ _) _);
    reflexivity.
Defined.

End ChannelFacts.

(** ** The class of a device *)

Module ClassFacts.

Import QtString Expose.

Lemma classStep_flags (acc : ClassScan) (expose : QJsonObject) :
  hasLight (classStep acc expose)
  = hasLight acc || existsb (String.eqb (rawProperty expose)) lightProperties
  /\ hasSwitch (classStep acc expose)
     = hasSwitch acc || existsb (String.eqb (rawProperty expose)) switchProperties
  /\ hasButton (classStep acc expose)
     = hasButton acc || existsb (String.eqb (rawProperty expose)) buttonProperties
  /\ hasSensor (classStep acc expose)
     = hasSensor acc || existsb (String.eqb (rawProperty expose)) sensorProperties.
Proof.
  unfold classStep, rawProperty. cbv zeta.
  generalize (Json.toString (Json.value expose "property") ""). intros p.
  destruct acc as [l s n b]. cbn [hasLight hasSwitch hasSensor hasButton].
  unfold lightProperties, switchProperties, buttonProperties, sensorProperties.
  cbn [existsb].
  repeat match goal with
         | |- context [String.eqb p ?lit] =>
             destruct (String.eqb_spec p lit) as [-> | ?]; cbn
         end;
    rewrite ?orb_true_r, ?orb_false_r; repeat split; reflexivity.
Qed.

Lemma exposesAny_cons (props : list string) (expose : QJsonObject)
    (rest : list QJsonObject) :
  exposesAny props (expose :: rest)
  = existsb (String.eqb (rawProperty expose)) props || exposesAny props rest.
Proof. reflexivity. Qed.

Lemma classScan_fold (exposes : list QJsonObject) (acc : ClassScan) :
  hasLight (foldl classStep acc exposes)
  = hasLight acc || exposesAny lightProperties exposes
  /\ hasSwitch (foldl classStep acc exposes)
     = hasSwitch acc || exposesAny switchProperties exposes
  /\ hasButton (foldl classStep acc exposes)
     = hasButton acc || exposesAny buttonProperties exposes
  /\ hasSensor (foldl classStep acc exposes)
     = hasSensor acc || exposesAny sensorProperties exposes.
Proof.
  revert acc. induction exposes as [| expose rest IH]; intros acc.
  - cbn [foldl]. unfold exposesAny. cbn [existsb].
    rewrite !orb_false_r. repeat split; reflexivity.
  - cbn [foldl]. rewrite !exposesAny_cons.
    destruct (IH (classStep acc expose)) as (Hl & Hs & Hb & Hn).
    destruct (classStep_flags acc expose) as (Hl1 & Hs1 & Hb1 & Hn1).
    rewrite Hl, Hs, Hb, Hn, Hl1, Hs1, Hb1, Hn1, !orb_assoc.
    repeat split; reflexivity.
Qed.

Lemma exposesAny_elem (props : list string) (exposes : list QJsonObject) :
  exposesAny props exposes = true
  <-> exists expose, expose ∈ exposes /\ rawProperty expose ∈ props.
Proof.
  unfold exposesAny. rewrite existsb_exists. split.
  - intros (e & Hin & Hp). apply existsb_exists in Hp as (p & Hp & Heq).
    apply String.eqb_eq in Heq. subst p.
    exists e. split; apply list_elem_of_In; assumption.
  - intros (e & Hin & Hp). exists e. split; [apply list_elem_of_In, Hin |].
    apply existsb_exists. exists (rawProperty e).
    split; [apply list_elem_of_In, Hp | apply String.eqb_refl].
Qed.

(** X18. The class of a device depends only on which properties its
    exposes carry, not on their order or number: a device with a light
    property is a light; otherwise one with [state] is a switch;
    otherwise one with [action] is a button; otherwise one with a
    measurement is a sensor; otherwise the class is unknown. *)
Theorem inferDeviceClass_priority (exposes : list QJsonObject) :
  inferDeviceClass exposes
  = (if exposesAny lightProperties exposes then DcLight
     else if exposesAny switchProperties exposes then DcSwitch
     else if exposesAny buttonProperties exposes then DcButton
     else if exposesAny sensorProperties exposes then DcSensor
     else DcUnknown)
  /\ forall exposes' : list QJsonObject,
       (forall expose, expose ∈ exposes <-> expose ∈ exposes') ->
       inferDeviceClass exposes' = inferDeviceClass exposes.
Proof.
  assert (Heq : forall l, inferDeviceClass l
                = (if exposesAny lightProperties l then DcLight
                   else if exposesAny switchProperties l then DcSwitch
                   else if exposesAny buttonProperties l then DcButton
                   else if exposesAny sensorProperties l then DcSensor
                   else DcUnknown)).
  { intros l. unfold inferDeviceClass. cbv zeta.
    destruct (classScan_fold l (mkClassScan false false false false))
      as (-> & -> & -> & ->).
    reflexivity. }
  split; [apply Heq |].
  intros exposes' Hsame.
  assert (Hany : forall props, exposesAny props exposes' = exposesAny props exposes).
  { intros props. apply eq_true_iff_eq. rewrite !exposesAny_elem.
    split; intros (e & Hin & Hp); exists e; (split; [apply Hsame, Hin | exact Hp]). }
  rewrite !Heq, !Hany. reflexivity.
Qed.

End ClassFacts.

(** ** Where the entries of the registry come from *)

Module OriginFacts.

Import QtString Adapter ActionFacts TraceFacts IngestFacts RegistryFacts.

Section WithPlatform.

Variable P : Platform.

Abbreviation keepsEntries := (preservesEntries (sortCI P)).

Lemma entries_neutral (a : Action) : registryNeutral a -> keepsEntries a.
Proof. intros Ha s Hs. unfold entriesOk. rewrite (proj1 (Ha s)). exact Hs. Qed.

Lemma entries_andThen (a b : Action) :
  keepsEntries a -> keepsEntries b -> keepsEntries (a >> b).
Proof. intros Ha Hb s Hs. rewrite andThen_run. cbn [fst]. apply Hb, Ha, Hs. Qed.

Lemma entries_skip : keepsEntries skip.
Proof. intros s Hs. exact Hs. Qed.

Lemma entries_forEach {A : Type} (l : list A) (body : A -> Action) :
  (forall x, keepsEntries (body x)) -> keepsEntries (forEach l body).
Proof.
  intros Hbody. induction l as [| x l IH]; simpl.
  - apply entries_skip.
  - apply entries_andThen; [apply Hbody | exact IH].
Qed.

Lemma entriesOk_insert (k : string) (entry : Z2mDeviceEntry) (s : Z2mAdapter) :
  entryOk (sortCI P) k entry -> entriesOk (sortCI P) s ->
  entriesOk (sortCI P) (set_devices (<[k := entry]> (m_devices s)) s).
Proof. intros He Hs. apply map_Forall_insert_2; assumption. Qed.

Lemma entriesOk_delete (k : string) (s : Z2mAdapter) :
  entriesOk (sortCI P) s ->
  entriesOk (sortCI P) (set_devices (delete k (m_devices s)) s).
Proof. intros Hs. apply map_Forall_delete. exact Hs. Qed.

(** The device record of an entry may change, its name and id apart. *)
Lemma entryOk_setDevice (k : string) (d : Device) (entry : Z2mDeviceEntry) :
  dev_name d = dev_name (e_device entry) ->
  dev_id d = dev_id (e_device entry) ->
  entryOk (sortCI P) k entry -> entryOk (sortCI P) k (setDevice d entry).
Proof.
  intros Hname Hid (Hk & Hn & Hne & obj & Hch & Hb & Hp & Hi).
  split; [exact Hk |]. split; [cbn [setDevice e_device]; congruence |].
  split; [cbn [setDevice e_device]; rewrite Hid; exact Hne |].
  exists obj. unfold compiledFrom, setDevice.
  cbn [e_channels e_bindingsByChannel e_channelByProperty e_device].
  rewrite Hid. repeat split; assumption.
Qed.

Lemma entryOk_renamed (k deviceId : string) (old : Z2mDeviceEntry) :
  entryOk (sortCI P) k old -> entryOk (sortCI P) deviceId (renamedEntry deviceId old).
Proof.
  intros (_ & _ & Hne & obj & Hch & Hb & Hp & Hi).
  split; [reflexivity |]. split; [reflexivity |]. split; [exact Hne |].
  exists obj. repeat split; assumption.
Qed.

Lemma buildDeviceEntry_device (obj : QJsonObject) :
  dev_name (e_device (Expose.buildDeviceEntry (sortCI P) obj)) = friendlyNameOf obj
  /\ dev_id (e_device (Expose.buildDeviceEntry (sortCI P) obj))
     = (if negb (isEmpty (ieeeAddressOf obj)) then ieeeAddressOf obj
        else friendlyNameOf obj).
Proof.
  unfold Expose.buildDeviceEntry. cbv zeta. cbn [e_device].
  match goal with
  | |- dev_name (e_device (foldl ?f ?e ?l)) = _ /\ _ =>
      destruct (EntryFacts.exposes_fold_mqttId (sortCI P) l e) as [_ ->]
  end.
  split; reflexivity.
Qed.

Lemma entryOk_built (obj : QJsonObject) :
  isEmpty (friendlyNameOf obj) = false ->
  entryOk (sortCI P) (e_mqttId (Expose.buildDeviceEntry (sortCI P) obj))
          (Expose.buildDeviceEntry (sortCI P) obj).
Proof.
  intros Hname. destruct (buildDeviceEntry_device obj) as [Hn Hid].
  split; [reflexivity |]. split.
  - rewrite EntryFacts.buildDeviceEntry_mqttId. exact Hn.
  - split.
    + rewrite Hid. destruct (isEmpty (ieeeAddressOf obj)) eqn:Hi; [exact Hname | exact Hi].
    + exists obj. repeat split; reflexivity.
Qed.

Lemma entries_handleDeviceStatePayload (d : string) (p : QJsonObject) (ts : Z) :
  keepsEntries (handleDeviceStatePayload P d p ts).
Proof.
  intros s Hs. unfold handleDeviceStatePayload.
  destruct (m_devices s !! d) as [entry |] eqn:Hd; [| exact Hs].
  cbn [fst]. apply entriesOk_insert; [| exact Hs].
  apply (entryOk_setDevice d _ entry); [reflexivity | reflexivity |].
  exact (Hs d entry Hd).
Qed.

Lemma entries_handleBridgeInfoPayload (p : QJsonObject) (ts : Z) :
  keepsEntries (handleBridgeInfoPayload p ts).
Proof.
  intros s Hs. unfold handleBridgeInfoPayload.
  destruct (isEmpty (m_coordinatorId s)); [exact Hs |].
  destruct (m_devices s !! _) as [entry |] eqn:Hd; [| exact Hs].
  cbn [fst]. apply entriesOk_insert; [| exact Hs].
  apply entryOk_setDevice; [reflexivity | reflexivity |].
  exact (Hs _ entry Hd).
Qed.

Lemma entries_removeDevice (k : string) (entry : Z2mDeviceEntry) :
  keepsEntries (removeDevice k entry).
Proof.
  intros s Hs. rewrite SnapshotFacts.removeDevice_run. cbn [fst].
  destruct (negb _); apply entriesOk_delete; exact Hs.
Qed.

Lemma entries_registerDevice (obj : QJsonObject) (deviceId ieee : string) (now : Z) :
  isEmpty (friendlyNameOf obj) = false ->
  keepsEntries (registerDevice P obj deviceId ieee now).
Proof.
  intros Hname s Hs. unfold registerDevice. cbv zeta.
  set (existing := if negb (isEmpty (previousMqttIdOf s ieee))
                   then m_devices s !! previousMqttIdOf s ieee else None).
  set (entry := match existing with
                | Some old => renamedEntry deviceId old
                | None => Expose.buildDeviceEntry (sortCI P) obj
                end).
  assert (Hentry : entryOk (sortCI P) (e_mqttId entry) entry).
  { subst entry. destruct existing as [old |] eqn:Hex.
    - subst existing. destruct (negb _); [| discriminate].
      apply (entryOk_renamed (previousMqttIdOf s ieee)). exact (Hs _ old Hex).
    - apply entryOk_built, Hname. }
  clearbody entry. clearbody existing.
  generalize (previousMqttIdOf s ieee). intros previous.
  refine ((_ : keepsEntries _) s Hs). clear s Hs.
  repeat apply entries_andThen.
  - intros s Hs. unfold forgetPreviousName. cbn [modify fst].
    destruct existing; [| exact Hs].
    destruct (_ && _); [apply entriesOk_delete |]; exact Hs.
  - apply entries_neutral. unfold migratePendingState. neutral_tac.
  - apply entries_neutral. unfold confirmPendingRename. neutral_tac.
  - intros s Hs. apply entriesOk_insert; assumption.
  - apply entries_neutral. neutral_tac.
  - apply entries_neutral. neutral_tac.
  - intros s Hs. unfold replayPendingState.
    destruct (m_pendingStatePayloads s !! e_mqttId entry); [| exact Hs].
    apply (entries_andThen _ _ (entries_neutral _ ltac:(neutral_tac))
             (entries_handleDeviceStatePayload _ _ _)). exact Hs.
  - apply entries_neutral. unfold scheduleAvailabilityDefault. neutral_tac.
  - intros s Hs. unfold adoptCoordinator.
    destruct (equalsCI _ _); [| exact Hs].
    rewrite andThen_run. cbn [modify fst].
    destruct (negb _); [| exact Hs].
    rewrite andThen_run. cbn [modify fst].
    apply entries_handleBridgeInfoPayload. exact Hs.
Qed.

Lemma entries_bridgeDeviceStep (now : Z) (value : QJsonValue) (seen : gset string) :
  keepsEntries (bridgeDeviceStep P now value seen).2.
Proof.
  unfold bridgeDeviceStep.
  destruct value; try apply entries_skip.
  destruct (isEmpty _) eqn:Hname; [apply entries_skip |].
  destruct (_ || _); cbn [snd]; [| apply entries_registerDevice, Hname].
  intros s Hs. unfold dropDevice. cbv zeta. rewrite andThen_run. cbn [modify fst].
  destruct (m_devices s !! _) as [entry |]; [| exact Hs].
  apply entries_removeDevice. exact Hs.
Qed.

Lemma entries_bridgeDevicesLoop (now : Z) (devices : list QJsonValue)
    (seen : gset string) :
  keepsEntries (bridgeDevicesLoop P now devices seen).2.
Proof.
  revert seen. induction devices as [| value rest IH]; intros seen; simpl.
  - apply entries_skip.
  - pose proof (entries_bridgeDeviceStep now value seen) as Hstep.
    destruct (bridgeDeviceStep P now value seen) as [seen1 a1].
    specialize (IH seen1).
    destruct (bridgeDevicesLoop P now rest seen1) as [seen2 a2].
    cbn [snd] in *. apply entries_andThen; assumption.
Qed.

Lemma entries_handleBridgeDevicesPayload (devices : list QJsonValue)
    (fullSnapshot : bool) (now : Z) :
  keepsEntries (handleBridgeDevicesPayload P devices fullSnapshot now).
Proof.
  unfold handleBridgeDevicesPayload.
  pose proof (entries_bridgeDevicesLoop now devices ∅) as Hloop.
  destruct (bridgeDevicesLoop P now devices ∅) as [seen loop]. cbn [snd] in Hloop.
  apply entries_andThen; [exact Hloop |].
  apply entries_andThen.
  - destruct fullSnapshot; [| apply entries_skip].
    unfold sweepUnseen. intros s. apply entries_forEach. intros kv.
    destruct (bool_decide _); [apply entries_skip | apply entries_removeDevice].
  - apply entries_neutral. neutral_tac.
Qed.

Lemma entries_handleBridgeTopic (suffix : string) (message : MqttMessage) (now : Z) :
  keepsEntries (handleBridgeTopic P suffix message now).
Proof.
  unfold handleBridgeTopic. cbv zeta.
  repeat match goal with
         | |- preservesEntries _ (if ?c then _ else _) => destruct c
         | |- preservesEntries _ (match ?c with _ => _ end) => destruct c
         end;
    first [ apply entries_skip
          | apply entries_handleBridgeInfoPayload
          | apply entries_handleBridgeDevicesPayload
          | apply entries_neutral;
            first [ apply registryNeutral_handleBridgeState
                  | apply registryNeutral_handleRenameResponse
                  | apply neutral_emit; reflexivity
                  | unfold handleDeviceGetResponse; neutral_tac ] ].
Qed.

Lemma entries_handleMqttMessage (message : MqttMessage) (topic : string) (now : Z) :
  keepsEntries (handleMqttMessage P message topic now).
Proof.
  intros s Hs. unfold handleMqttMessage. cbv zeta.
  destruct (negb (startsWith topic _)); [exact Hs |].
  destruct (startsWith _ "bridge/"); [apply entries_handleBridgeTopic, Hs |].
  destruct (endsWith _ "/availability").
  { destruct (_ <=? 0); [exact Hs |].
    apply entries_neutral; [| exact Hs].
    unfold handleAvailabilityPayload. neutral_tac. }
  destruct (_ || _); [exact Hs |].
  destruct (contains _ "/"); [exact Hs |].
  destruct (docObject message); [| exact Hs].
  apply entries_handleDeviceStatePayload, Hs.
Qed.

Lemma entries_step (i : Input) : keepsEntries (step P i).
Proof.
  destruct i as [| | | | d c v cmdId now | d n cmdId now | a p cmdId now | st
                 | | | m t now | | mqttId | task now]; simpl.
  - apply entries_neutral. unfold start, applyConfig.
    neutral_with ltac:(apply registryNeutral_connectToBroker).
  - apply entries_neutral. unfold stop, stopReconnectTimer.
    neutral_with ltac:(first [ apply registryNeutral_disconnectFromBroker
                             | apply registryNeutral_updateConnectionState ]).
  - apply entries_neutral. unfold adapterConfigUpdated, applyConfig.
    neutral_with ltac:(first [ apply registryNeutral_connectToBroker
                             | apply registryNeutral_disconnectFromBroker ]).
  - apply entries_neutral. unfold requestFullSync.
    neutral_with ltac:(apply registryNeutral_publish_).
  - apply entries_neutral, registryNeutral_updateChannelState.
  - apply entries_neutral. unfold updateDeviceName, publish, respond, emit.
    neutral_tac.
  - apply entries_neutral. unfold invokeAdapterAction, publish. neutral_tac.
  - apply entries_neutral. neutral_tac.
  - intros s Hs. unfold withClient. destruct (m_client s); [| exact Hs].
    apply entries_neutral; [| exact Hs].
    unfold onMqttConnected, ensureSubscriptions.
    neutral_with ltac:(first [ apply registryNeutral_updateConnectionState
                             | apply registryNeutral_publish_ ]).
  - intros s Hs. unfold withClient. destruct (m_client s); [| exact Hs].
    apply entries_neutral; [| exact Hs].
    unfold onMqttDisconnected, scheduleReconnect.
    neutral_with ltac:(apply registryNeutral_updateConnectionState).
  - intros s Hs. unfold withClient. destruct (m_client s); [| exact Hs].
    apply entries_handleMqttMessage, Hs.
  - apply entries_neutral.
    neutral_with ltac:(apply registryNeutral_connectToBroker).
  - apply entries_neutral. unfold postSetRefresh.
    neutral_with ltac:(apply registryNeutral_publish_).
  - apply entries_neutral.
    destruct task; simpl; unfold renameTimeout, availabilityDefault; neutral_tac.
Qed.

Lemma run_entriesOk (inputs : list Input) (s : Z2mAdapter) :
  entriesOk (sortCI P) s -> entriesOk (sortCI P) (run P inputs s).1.
Proof.
  revert s. induction inputs as [| i inputs IH]; intros s Hs; [exact Hs |].
  rewrite ConnectionFacts.run_cons. cbn [fst]. apply IH, entries_step, Hs.
Qed.

(** X19. In every state that the adapter reaches, each entry of the
    registry is stored under its own friendly name, which is also the
    name of its device record, its device id is not empty, and its
    channels, bindings and device id are those that [buildDeviceEntry]
    compiled from an element of some device list: state payloads, bridge
    info and renames never change them. *)
Theorem registry_entries_compiled (info : AdapterInfo) (inputs : list Input) :
  map_Forall
    (fun k e =>
       e_mqttId e = k /\ dev_name (e_device e) = k
       /\ isEmpty (dev_id (e_device e)) = false
       /\ exists obj, compiledFrom (sortCI P) obj e)
    (m_devices (run P inputs (initialAdapter info)).1).
Proof.
  apply (run_entriesOk inputs (initialAdapter info)).
  intros k e Hk. simpl in Hk. rewrite lookup_empty in Hk. discriminate.
Qed.

End WithPlatform.

End OriginFacts.

(** ** The channel updates of a state payload *)

Module PayloadFacts.

Import QtString Adapter ActionFacts TraceFacts IngestFacts RegistryFacts.

Section WithPlatform.

Variable P : Platform.

(** One binding gives at most one update, on its own channel, and the
    availability binding gives none. *)
Lemma bindingUpdate_one (externalId : string) (payload : QJsonObject) (tsMs : Z)
    (binding : Z2mChannelBinding) :
  channelUpdates (bindingUpdate P externalId payload tsMs binding) = []
  \/ (b_isAvailability binding = false
      /\ exists v,
           channelUpdates (bindingUpdate P externalId payload tsMs binding)
           = [(externalId, b_channelId binding, v, tsMs)]).
Proof.
  unfold bindingUpdate.
  destruct (b_isAvailability binding); [left; reflexivity |].
  destruct (String.eqb (b_channelId binding) "device_software_update").
  - destruct (Json.value payload "update");
      first [ left; reflexivity | right; split; [reflexivity | eexists; reflexivity] ].
  - destruct (Json.isUndefined _); [left; reflexivity |].
    destruct (decodeValue P binding _);
      first [ left; reflexivity | right; split; [reflexivity | eexists; reflexivity] ].
Qed.

Lemma channelUpdates_bindings (externalId : string) (payload : QJsonObject) (tsMs : Z)
    (l : list (string * Z2mChannelBinding)) :
  NoDup l.*1 ->
  (forall c b, (c, b) ∈ l -> b_channelId b = c) ->
  let updates :=
    channelUpdates (flat_map (bindingUpdate P externalId payload tsMs) l.*2) in
  NoDup (updateChannelOf <$> updates)
  /\ Forall (fun u => updateDeviceOf u = externalId /\ updateTimeOf u = tsMs
                      /\ exists b, (updateChannelOf u, b) ∈ l
                                   /\ b_isAvailability b = false) updates.
Proof.
  induction l as [| [c b] l IH]; intros Hnd Hkey; cbn zeta.
  - split; [apply NoDup_nil_2 | constructor].
  - cbn [fmap list_fmap flat_map snd] in *. rewrite channelUpdates_app, fmap_app.
    apply NoDup_cons in Hnd as [Hc Hnd].
    destruct IH as [IHnd IHall];
      [exact Hnd | intros c' b' Hin; apply Hkey; apply elem_of_cons; right; exact Hin |].
    assert (Hrest : Forall (fun u => updateDeviceOf u = externalId
                                     /\ updateTimeOf u = tsMs
                                     /\ exists b0, (updateChannelOf u, b0) ∈ (c, b) :: l
                                                   /\ b_isAvailability b0 = false)
                      (channelUpdates
                         (flat_map (bindingUpdate P externalId payload tsMs) l.*2))).
    { eapply Forall_impl; [exact IHall |].
      intros u (Hd & Ht & b0 & Hin & Hb0). split; [exact Hd |]. split; [exact Ht |].
      exists b0. split; [apply elem_of_cons; right; exact Hin | exact Hb0]. }
    destruct (bindingUpdate_one externalId payload tsMs b) as [-> | (Hb & v & ->)].
    + split; [exact IHnd | exact Hrest].
    + assert (Hid : b_channelId b = c) by (apply Hkey; apply elem_of_cons; left; reflexivity).
      rewrite Hid. split.
      * cbn. apply NoDup_cons. split; [| exact IHnd].
        intros Hin. apply list_elem_of_fmap in Hin as (u & Hu & Hin).
        rewrite Forall_forall in IHall.
        destruct (IHall u Hin) as (_ & _ & b0 & Hin0 & _).
        apply Hc. apply list_elem_of_fmap. exists (c, b0).
        split; [reflexivity |]. rewrite Hu. exact Hin0.
      * cbn. constructor; [| exact Hrest].
        split; [reflexivity |]. split; [reflexivity |].
        exists b. split; [apply elem_of_cons; left; reflexivity | exact Hb].
Qed.

(** X20. In every state that the adapter reaches, one state payload
    reports each channel at most once: the channel ids of the updates
    that [handleDeviceStatePayload] emits are distinct, every update
    carries the id of the device and the time of the payload, and its
    channel is one that the device binds. A payload for an unknown
    device gives no update. *)
Theorem state_payload_channels_distinct (info : AdapterInfo) (inputs : list Input)
    (deviceId : string) (payload : QJsonObject) (tsMs : Z) :
  let s := (run P inputs (initialAdapter info)).1 in
  let updates := channelUpdates (handleDeviceStatePayload P deviceId payload tsMs s).2 in
  NoDup (updateChannelOf <$> updates)
  /\ match m_devices s !! deviceId with
     | Some entry =>
         Forall (fun u => updateDeviceOf u = dev_id (e_device entry)
                          /\ updateTimeOf u = tsMs
                          /\ is_Some (e_bindingsByChannel entry !! updateChannelOf u))
                updates
     | None => updates = []
     end.
Proof.
  intros s updates. subst updates.
  assert (Hok : registryOk s).
  { apply run_registryOk. intros k e Hk. simpl in Hk.
    rewrite lookup_empty in Hk. discriminate. }
  pose proof (OriginFacts.registry_entries_compiled P info inputs) as Horigin.
  fold s in Horigin.
  destruct (m_devices s !! deviceId) as [entry |] eqn:Hd.
  2: { rewrite (handleDeviceStatePayload_unknown P _ _ _ _ Hd).
       split; [apply NoDup_nil_2 | reflexivity]. }
  destruct (Horigin deviceId entry Hd) as (_ & _ & _ & obj & _ & Hbind & _ & _).
  pose proof (Hok deviceId entry Hd) as Havail.
  destruct (ChannelFacts.built_entry_channels_bound (sortCI P) obj)
    as (compiled & _ & _ & _ & _ & Hkeyed).
  destruct (ChannelFacts.buildDeviceEntry_compiled (sortCI P) obj)
    as (e0 & _ & _ & _ & Hbs).
  rewrite <- Hbind in Hkeyed, Hbs.
  assert (Hconn : e_bindingsByChannel entry !! "connectivity"
                  = Some Expose.availabilityBinding).
  { rewrite Hbs. rewrite lookup_insert_ne by discriminate. apply lookup_insert_eq. }
  unfold handleDeviceStatePayload. rewrite Hd. cbv zeta. cbn [snd].
  change (availabilityBindingOf (setDeviceMeta ?m entry))
    with (availabilityBindingOf entry).
  rewrite Havail.
  change (e_bindingsByChannel (setDeviceMeta ?m entry))
    with (e_bindingsByChannel entry).
  change (dev_id (e_device (setDeviceMeta ?m entry)))
    with (dev_id (e_device entry)).
  destruct (channelUpdates_bindings (dev_id (e_device entry)) payload tsMs
              (map_to_list (e_bindingsByChannel entry))) as [Hnd Hall].
  { apply NoDup_fst_map_to_list. }
  { intros c b Hin. apply elem_of_map_to_list in Hin. apply (Hkeyed c b Hin). }
  cbv zeta in Hnd, Hall.
  set (rest := channelUpdates
                 (flat_map (bindingUpdate P (dev_id (e_device entry)) payload tsMs)
                    (map_to_list (e_bindingsByChannel entry)).*2)) in *.
  assert (Hrest : Forall (fun u => updateDeviceOf u = dev_id (e_device entry)
                                   /\ updateTimeOf u = tsMs
                                   /\ is_Some (e_bindingsByChannel entry
                                               !! updateChannelOf u)) rest).
  { eapply Forall_impl; [exact Hall |].
    intros u (Hdv & Ht & b & Hin & _). split; [exact Hdv |]. split; [exact Ht |].
    exists b. apply elem_of_map_to_list. exact Hin. }
  rewrite !channelUpdates_app.
  change (channelUpdates [StatePayloadApplied deviceId payload tsMs]) with
    (@nil (string * string * QVariant * Z)).
  assert (Hmeta : forall (c : bool) dv chs,
            channelUpdates (if c then [DeviceUpdated dv chs] else []) = [])
    by (intros [] ? ?; reflexivity).
  rewrite Hmeta. cbn [app].
  destruct (connectivityOf P payload tsMs) as [status |]; cbn [app channelUpdates omap];
    [| split; [exact Hnd | exact Hrest]].
  fold (channelUpdates
          (flat_map (bindingUpdate P (dev_id (e_device entry)) payload tsMs)
             (map_to_list (e_bindingsByChannel entry)).*2)).
  fold rest. split.
  - cbn. apply NoDup_cons. split; [| exact Hnd].
    intros Hin. apply list_elem_of_fmap in Hin as (u & Hu & Hin).
    rewrite Forall_forall in Hall.
    destruct (Hall u Hin) as (_ & _ & b & Hb & Hplain).
    rewrite <- Hu in Hb. apply elem_of_map_to_list in Hb.
    change (b_channelId Expose.availabilityBinding) with "connectivity" in Hb.
    rewrite Hconn in Hb. injection Hb as <-. discriminate Hplain.
  - constructor; [| exact Hrest].
    split; [reflexivity |]. split; [reflexivity |].
    exists Expose.availabilityBinding. exact Hconn.
Qed.

End WithPlatform.

End PayloadFacts.

(** ** Bridge info that arrives before the coordinator *)

Module BridgeInfoFacts.

Import QtString Adapter ActionFacts TraceFacts IngestFacts RegistryFacts.

Lemma andThen_assoc (a b c : Action) (s : Z2mAdapter) :
  (a >> (b >> c)) s = ((a >> b) >> c) s.
Proof. rewrite !andThen_run. cbn [fst snd]. rewrite app_assoc. reflexivity. Qed.

Lemma modify_andThen (f : Z2mAdapter -> Z2mAdapter) (b : Action) (s : Z2mAdapter) :
  (modify f >> b) s = b (f s).
Proof. unfold andThen, modify. destruct (b (f s)). reflexivity. Qed.

Lemma andThen_modify (a : Action) (f : Z2mAdapter -> Z2mAdapter) (s : Z2mAdapter) :
  (a >> modify f) s = (f (a s).1, (a s).2).
Proof. rewrite andThen_run. unfold modify. cbn [fst snd]. rewrite app_nil_r. reflexivity. Qed.

Lemma metaUpdates_app (e1 e2 : list Effect) :
  metaUpdates (e1 ++ e2) = metaUpdates e1 ++ metaUpdates e2.
Proof. unfold metaUpdates. apply omap_app. Qed.

Section WithPlatform.

Variable P : Platform.

Abbreviation infoNeutral := (neutral infoFrameOf metaUpdateOf).

Lemma infoNeutral_handleDeviceStatePayload (d : string) (p : QJsonObject) (ts : Z) :
  infoNeutral (handleDeviceStatePayload P d p ts).
Proof.
  intros s. destruct (m_devices s !! d) as [entry |] eqn:Hd.
  - destruct (handleDeviceStatePayload_known P d p ts s entry Hd)
      as (entry' & es & -> & Hes & _).
    split; [reflexivity |]. simpl.
    apply ingest_signals_project; [reflexivity | reflexivity | exact Hes].
  - rewrite (handleDeviceStatePayload_unknown P d p ts s Hd). split; reflexivity.
Qed.

Lemma indexed_handleDeviceStatePayload (entry : Z2mDeviceEntry) (p : QJsonObject)
    (ts : Z) (s : Z2mAdapter) :
  indexed entry s ->
  indexed entry (handleDeviceStatePayload P (e_mqttId entry) p ts s).1.
Proof.
  intros (Hidx & e & He & Hk & Hid).
  destruct (handleDeviceStatePayload_known P (e_mqttId entry) p ts s e He)
    as (e' & es & -> & _ & _ & Hk' & Hid').
  split; [exact Hidx |]. exists e'. cbn [fst m_devices set_devices].
  rewrite lookup_insert_eq. split; [reflexivity |]. split; congruence.
Qed.

Lemma indexed_storeEntry (entry : Z2mDeviceEntry) (s : Z2mAdapter) :
  isEmpty (dev_id (e_device entry)) = false ->
  indexed entry (storeEntry entry s).1.
Proof.
  intros Hid. unfold storeEntry. rewrite !andThen_run. unfold modify, emit.
  cbn [fst]. rewrite Hid. cbn [negb m_mqttByExternal m_devices set_mqttByExternal
                                 set_devices].
  split; [apply lookup_insert_eq |].
  exists entry. split; [| split; reflexivity].
  change (<[e_mqttId entry := entry]> (m_devices s) !! e_mqttId entry = Some entry).
  apply lookup_insert_eq.
Qed.

Lemma indexed_replayPendingState (entry : Z2mDeviceEntry) (now : Z) (s : Z2mAdapter) :
  indexed entry s -> indexed entry (replayPendingState P entry now s).1.
Proof.
  intros Hs. unfold replayPendingState.
  destruct (m_pendingStatePayloads s !! e_mqttId entry); [| exact Hs].
  rewrite andThen_run. cbn [fst]. apply indexed_handleDeviceStatePayload. exact Hs.
Qed.

(** The steps of a registration before [adoptCoordinator]: the buffered
    bridge info stays, no adapter meta is announced, and the entry is
    stored and indexed. *)
Lemma registration_prefix (existing : option Z2mDeviceEntry) (renameDetected : bool)
    (previous deviceId ieee : string) (entry : Z2mDeviceEntry)
    (availability : string) (lastSeenMs now : Z) (s : Z2mAdapter) :
  isEmpty (dev_id (e_device entry)) = false ->
  let pre :=
    forgetPreviousName existing renameDetected previous
    >> migratePendingState renameDetected previous deviceId
    >> confirmPendingRename ieee entry now
    >> storeEntry entry
    >> replayPendingState P entry now
    >> scheduleAvailabilityDefault entry availability lastSeenMs in
  m_pendingBridgeInfo (pre s).1 = m_pendingBridgeInfo s
  /\ metaUpdates (pre s).2 = []
  /\ indexed entry (pre s).1.
Proof.
  intros Hid pre.
  assert (Hn : infoNeutral pre).
  { subst pre.
    unfold forgetPreviousName, migratePendingState, confirmPendingRename, storeEntry,
      replayPendingState, scheduleAvailabilityDefault.
    neutral_with ltac:(apply infoNeutral_handleDeviceStatePayload). }
  destruct (Hn s) as [Hstate Heff]. unfold infoFrameOf in Hstate.
  split; [congruence |]. split; [exact Heff |].
  subst pre. rewrite !andThen_run. cbn [fst].
  assert (Hsched : forall s0, (scheduleAvailabilityDefault entry availability
                                 lastSeenMs s0).1 = s0).
  { intros s0. unfold scheduleAvailabilityDefault.
    destruct (availabilityBindingOf entry); reflexivity. }
  rewrite Hsched. apply indexed_replayPendingState, indexed_storeEntry, Hid.
Qed.

Lemma registerDevice_split (obj : QJsonObject) (deviceId ieee : string) (now : Z)
    (s : Z2mAdapter) :
  exists existing renameDetected previous entry availability lastSeenMs,
    registerDevice P obj deviceId ieee now s
    = ((forgetPreviousName existing renameDetected previous
        >> migratePendingState renameDetected previous deviceId
        >> confirmPendingRename ieee entry now
        >> storeEntry entry
        >> replayPendingState P entry now
        >> scheduleAvailabilityDefault entry availability lastSeenMs)
       >> adoptCoordinator obj entry now) s
    /\ entry = match (if negb (isEmpty (previousMqttIdOf s ieee))
                      then m_devices s !! previousMqttIdOf s ieee else None) with
               | Some old => renamedEntry deviceId old
               | None => Expose.buildDeviceEntry (sortCI P) obj
               end.
Proof.
  unfold registerDevice. cbv zeta. eexists _, _, _, _, _, _.
  split; [| reflexivity].
  rewrite !andThen_run. cbn [fst snd]. rewrite <- !app_assoc. reflexivity.
Qed.

Lemma bridge_info_patch (payload : QJsonObject) (ts : Z) (s : Z2mAdapter)
    (entry : Z2mDeviceEntry) :
  isEmpty (m_coordinatorId s) = false ->
  m_devices s !! default (m_coordinatorId s) (m_mqttByExternal s !! m_coordinatorId s)
  = Some entry ->
  let r := handleBridgeInfoPayload payload ts s in
  (exists patch, metaUpdates r.2 = [patch]
                 /\ patch !! "bridge_info" = Some (JObject payload))
  /\ m_pendingBridgeInfo r.1 = m_pendingBridgeInfo s
  /\ m_coordinatorId r.1 = m_coordinatorId s
  /\ exists entry',
       m_devices r.1
       !! default (m_coordinatorId s) (m_mqttByExternal s !! m_coordinatorId s)
       = Some entry'
       /\ dev_deviceClass (e_device entry') = DcGateway
       /\ dev_id (e_device entry') = dev_id (e_device entry).
Proof.
  intros Hc Hd r. subst r. unfold handleBridgeInfoPayload. rewrite Hc, Hd. cbv zeta.
  cbn [fst snd]. split; [| split; [reflexivity | split; [reflexivity |]]].
  - eexists. split.
    + unfold metaUpdates. rewrite !omap_app. cbn [omap metaUpdateOf app].
      assert (Hquiet : forall l : list Effect,
                Forall (fun e => isChannelStateUpdated e = true) l ->
                omap metaUpdateOf l = []).
      { intros l Hl. apply omap_none. eapply Forall_impl; [exact Hl |].
        intros e0 He0. destruct e0; try discriminate; reflexivity. }
      match goal with
      | |- _ ++ omap _ ?a ++ omap _ ?b = _ =>
          rewrite (Hquiet a), (Hquiet b); [reflexivity | |]
      end.
      * destruct (Json.value payload "update"); try constructor.
        destruct (_ !! "device_software_update"); repeat constructor.
      * destruct (_ && _); [| constructor].
        destruct (availabilityBindingOf _); repeat constructor.
    + unfold Expose.insertIf.
      repeat match goal with
             | |- context [if ?c then _ else _] => destruct c
             end;
        rewrite ?lookup_insert_ne by discriminate; apply lookup_insert_eq.
  - eexists. cbn [m_devices set_devices]. rewrite lookup_insert_eq.
    split; [reflexivity |]. split; reflexivity.
Qed.

Lemma adoptCoordinator_applies (obj : QJsonObject) (entry : Z2mDeviceEntry)
    (now : Z) (s : Z2mAdapter) :
  isCoordinator obj = true ->
  m_pendingBridgeInfo s <> ∅ ->
  isEmpty (dev_id (e_device entry)) = false ->
  indexed entry s ->
  let r := adoptCoordinator obj entry now s in
  m_pendingBridgeInfo r.1 = ∅
  /\ exists patch entry',
       metaUpdates r.2 = [patch]
       /\ patch !! "bridge_info" = Some (JObject (m_pendingBridgeInfo s))
       /\ m_devices r.1 !! e_mqttId entry = Some entry'
       /\ dev_deviceClass (e_device entry') = DcGateway
       /\ m_coordinatorId r.1 = dev_id (e_device entry').
Proof.
  intros Hcoord Hbuf Hid (Hidx & e & He & Hek & Heid) r. subst r.
  set (s7 := set_coordinatorId (dev_id (e_device entry)) s).
  assert (Hrun : adoptCoordinator obj entry now s
                 = (set_pendingBridgeInfo ∅
                      (handleBridgeInfoPayload (m_pendingBridgeInfo s) now s7).1,
                    (handleBridgeInfoPayload (m_pendingBridgeInfo s) now s7).2)).
  { assert (Hsize : bool_decide (size (m_pendingBridgeInfo s7) = 0%nat) = false).
    { apply bool_decide_eq_false. intros Hz. apply Hbuf, map_size_empty_iff, Hz. }
    unfold adoptCoordinator. unfold isCoordinator in Hcoord. rewrite Hcoord.
    rewrite modify_andThen. fold s7. rewrite Hsize. cbn [negb].
    rewrite andThen_modify. reflexivity. }
  rewrite Hrun. cbn [fst snd].
  destruct (bridge_info_patch (m_pendingBridgeInfo s) now s7 e)
    as ((patch & Hp & Hb) & _ & Hcid & entry' & Hd' & Hclass & Hid').
  { exact Hid. }
  { cbn [s7 m_coordinatorId set_coordinatorId m_mqttByExternal m_devices].
    rewrite Hidx. exact He. }
  split; [reflexivity |].
  exists patch, entry'.
  split; [exact Hp |]. split; [exact Hb |].
  cbn [m_devices set_pendingBridgeInfo m_coordinatorId].
  split; [| split; [exact Hclass |]].
  - revert Hd'. cbn [s7 m_coordinatorId set_coordinatorId m_mqttByExternal].
    rewrite Hidx. cbn [default]. intros Hd'. exact Hd'.
  - rewrite Hcid, Hid', Heid. reflexivity.
Qed.

(** X21. Bridge info that arrived before the coordinator was known is
    not lost. In a state that the adapter reaches with such a payload
    buffered, the element of a device list that registers the
    coordinator applies it: the adapter meta is announced once, with the
    buffered payload under [bridge_info]; the buffer is emptied; the
    coordinator is stored under its friendly name as a gateway, and its
    device id is the coordinator id of the adapter. *)
Theorem buffered_bridge_info_applied (info : AdapterInfo) (inputs : list Input)
    (obj : QJsonObject) (seen : gset string) (now : Z) :
  let s := (run P inputs (initialAdapter info)).1 in
  let r := (bridgeDeviceStep P now (JObject obj) seen).2 s in
  isEmpty (friendlyNameOf obj) = false ->
  registrable obj = true ->
  isCoordinator obj = true ->
  m_pendingBridgeInfo s <> ∅ ->
  m_pendingBridgeInfo r.1 = ∅
  /\ exists patch entry,
       metaUpdates r.2 = [patch]
       /\ patch !! "bridge_info" = Some (JObject (m_pendingBridgeInfo s))
       /\ m_devices r.1 !! friendlyNameOf obj = Some entry
       /\ dev_deviceClass (e_device entry) = DcGateway
       /\ m_coordinatorId r.1 = dev_id (e_device entry).
Proof.
  intros s r Hname Hreg Hcoord Hbuf. subst r.
  pose proof (OriginFacts.registry_entries_compiled P info inputs) as Horigin.
  fold s in Horigin.
  unfold bridgeDeviceStep. fold (friendlyNameOf obj). rewrite Hname.
  unfold registrable in Hreg. apply andb_true_iff in Hreg as [Hi Hsup].
  rewrite Hi, Hsup. cbn [negb orb snd].
  destruct (registerDevice_split obj (friendlyNameOf obj)
              (trimmed (Json.toString (Json.value obj "ieee_address") "")) now s)
    as (existing & renameDetected & previous & entry & availability & lastSeenMs
        & -> & Hentry).
  assert (Hkey : e_mqttId entry = friendlyNameOf obj
                 /\ isEmpty (dev_id (e_device entry)) = false).
  { rewrite Hentry.
    destruct (if negb (isEmpty (previousMqttIdOf s _)) then _ else None)
      as [old |] eqn:Hex.
    - split; [reflexivity |]. cbn [renamedEntry e_device dev_id].
      destruct (negb _); [| discriminate].
      destruct (Horigin _ old Hex) as (_ & _ & Hne & _). exact Hne.
    - split; [apply EntryFacts.buildDeviceEntry_mqttId |].
      destruct (OriginFacts.buildDeviceEntry_device P obj) as [_ ->].
      destruct (isEmpty (ieeeAddressOf obj)) eqn:Hie; [exact Hname | exact Hie]. }
  destruct Hkey as [Hkey Hid]. clear Hentry.
  rewrite andThen_run.
  destruct (registration_prefix existing renameDetected previous (friendlyNameOf obj)
              (trimmed (Json.toString (Json.value obj "ieee_address") "")) entry
              availability lastSeenMs now s Hid)
    as (Hinfo & Hmeta & Hidx).
  cbv zeta in Hinfo, Hmeta, Hidx.
  set (pre := (forgetPreviousName existing renameDetected previous
               >> migratePendingState renameDetected previous (friendlyNameOf obj)
               >> confirmPendingRename
                    (trimmed (Json.toString (Json.value obj "ieee_address") ""))
                    entry now
               >> storeEntry entry
               >> replayPendingState P entry now
               >> scheduleAvailabilityDefault entry availability lastSeenMs) s) in *.
  cbn [fst snd]. rewrite metaUpdates_app, Hmeta. cbn [app].
  rewrite <- Hinfo in Hbuf.
  destruct (adoptCoordinator_applies obj entry now pre.1 Hcoord Hbuf Hid Hidx)
    as (Hempty & patch & entry' & Hp & Hb & Hd & Hclass & Hcid).
  split; [exact Hempty |]. exists patch, entry'.
  rewrite <- Hkey, <- Hinfo. repeat split; assumption.
Qed.

End WithPlatform.

Lemma buffered_bridge_info_applied_witness :
  let s :=
    (run referencePlatform
       (World.connectInputs
        ++ [MqttMessageReceived bridgeInfoMessage "zigbee2mqtt/bridge/info" 500])
       (initialAdapter World.info)).1 in
  let r :=
    (bridgeDeviceStep referencePlatform 1000 (JObject coordinatorObject) ∅).2 s in
  m_pendingBridgeInfo s = bridgeInfo
  /\ m_pendingBridgeInfo r.1 = ∅
  /\ exists patch entry,
       metaUpdates r.2 = [patch]
       /\ patch !! "bridge_info" = Some (JObject (m_pendingBridgeInfo s))
       /\ m_devices r.1 !! friendlyNameOf coordinatorObject = Some entry
       /\ dev_deviceClass (e_device entry) = DcGateway
       /\ m_coordinatorId r.1 = dev_id (e_device entry).
Proof.
  cbv zeta.
  assert (Hb : m_pendingBridgeInfo
                 (run referencePlatform
                    (World.connectInputs
                     ++ [MqttMessageReceived bridgeInfoMessage
                           "zigbee2mqtt/bridge/info" 500])
                    (initialAdapter World.info)).1 = bridgeInfo)
    by (vm_compute; reflexivity).
  split; [exact Hb |].
  pose proof (buffered_bridge_info_applied referencePlatform World.info
                (World.connectInputs
                 ++ [MqttMessageReceived bridgeInfoMessage "zigbee2mqtt/bridge/info"
                       500])
                coordinatorObject ∅ 1000) as Happlied.
  cbv zeta in Happlied.
  apply Happlied; [reflexivity | reflexivity | reflexivity |].
  rewrite Hb. apply insert_non_empty.
Defined.

End BridgeInfoFacts.

(** ** A device that the bridge renames *)

Module RenameFacts.

Import QtString Adapter ActionFacts TraceFacts IngestFacts.

Section WithPlatform.

Variable P : Platform.

Abbreviation keepsAll := (neutral m_pendingFullSync removedDeviceOf).

Lemma keepsAll_handleDeviceStatePayload (d : string) (p : QJsonObject) (ts : Z) :
  keepsAll (handleDeviceStatePayload P d p ts).
Proof.
  intros s. destruct (m_devices s !! d) as [entry |] eqn:Hd.
  - destruct (handleDeviceStatePayload_known P d p ts s entry Hd)
      as (entry' & es & -> & Hes & _).
    split; [reflexivity |]. simpl.
    apply ingest_signals_project; [reflexivity | reflexivity | exact Hes].
  - rewrite (handleDeviceStatePayload_unknown P d p ts s Hd). split; reflexivity.
Qed.

Lemma keepsAll_handleBridgeInfoPayload (p : QJsonObject) (ts : Z) :
  keepsAll (handleBridgeInfoPayload p ts).
Proof.
  intros s. unfold handleBridgeInfoPayload.
  destruct (isEmpty (m_coordinatorId s)); [split; reflexivity |].
  destruct (m_devices s !! _) as [entry |]; [| split; reflexivity].
  split; [reflexivity |]. simpl.
  rewrite !omap_app.
  repeat match goal with
         | |- context [match ?c with _ => _ end] => destruct c
         end; reflexivity.
Qed.

Lemma keepsAll_registerDevice (obj : QJsonObject) (deviceId ieee : string) (now : Z) :
  keepsAll (registerDevice P obj deviceId ieee now).
Proof.
  unfold registerDevice, forgetPreviousName, migratePendingState,
    confirmPendingRename, storeEntry, replayPendingState,
    scheduleAvailabilityDefault, adoptCoordinator.
  neutral_with ltac:(first [ apply keepsAll_handleDeviceStatePayload
                           | apply keepsAll_handleBridgeInfoPayload ]).
Qed.

Lemma sameDevice_refl (entry : Z2mDeviceEntry) : sameDevice entry entry.
Proof. repeat split; reflexivity. Qed.

Lemma sameDevice_setDevice (entry e : Z2mDeviceEntry) (d : Device) :
  dev_name d = dev_name (e_device e) -> dev_id d = dev_id (e_device e) ->
  sameDevice entry e -> sameDevice entry (setDevice d e).
Proof.
  intros Hn Hi (H1 & H2 & H3 & H4 & H5 & H6).
  unfold sameDevice, setDevice.
  cbn [e_mqttId e_device e_channels e_bindingsByChannel e_channelByProperty].
  rewrite Hn, Hi. repeat split; assumption.
Qed.

Lemma storedAs_storeEntry (entry : Z2mDeviceEntry) (s : Z2mAdapter) :
  storedAs entry (storeEntry entry s).1.
Proof.
  exists entry. split; [apply ReplayFacts.storeEntry_lookup | apply sameDevice_refl].
Qed.

Lemma storedAs_handleDeviceStatePayload (entry : Z2mDeviceEntry) (d : string)
    (p : QJsonObject) (ts : Z) (s : Z2mAdapter) :
  storedAs entry s -> storedAs entry (handleDeviceStatePayload P d p ts s).1.
Proof.
  intros (e & He & Hsame). unfold handleDeviceStatePayload.
  destruct (m_devices s !! d) as [e0 |] eqn:Hd; [| exists e; split; assumption].
  unfold storedAs. cbv zeta. unfold set_devices. cbn [fst m_devices].
  destruct (decide (d = e_mqttId entry)) as [-> | Hne].
  - rewrite He in Hd. injection Hd as <-.
    eexists. split; [apply lookup_insert_eq |].
    apply (sameDevice_setDevice entry e); [reflexivity | reflexivity | exact Hsame].
  - exists e. split; [| exact Hsame]. rewrite lookup_insert_ne by exact Hne. exact He.
Qed.

Lemma storedAs_handleBridgeInfoPayload (entry : Z2mDeviceEntry) (p : QJsonObject)
    (ts : Z) (s : Z2mAdapter) :
  storedAs entry s -> storedAs entry (handleBridgeInfoPayload p ts s).1.
Proof.
  intros (e & He & Hsame). unfold handleBridgeInfoPayload.
  destruct (isEmpty (m_coordinatorId s)); [exists e; split; assumption |].
  set (key := default (m_coordinatorId s) (m_mqttByExternal s !! m_coordinatorId s)).
  destruct (m_devices s !! key) as [e0 |] eqn:Hd; [| exists e; split; assumption].
  unfold storedAs. cbv zeta. unfold set_devices. cbn [fst m_devices].
  destruct (decide (key = e_mqttId entry)) as [Heq | Hne].
  - rewrite Heq in *. rewrite He in Hd. injection Hd as <-.
    eexists. split; [apply lookup_insert_eq |].
    apply (sameDevice_setDevice entry e); [reflexivity | reflexivity | exact Hsame].
  - exists e. split; [| exact Hsame]. rewrite lookup_insert_ne by exact Hne. exact He.
Qed.

Lemma storedAs_replayPendingState (entry : Z2mDeviceEntry) (now : Z) (s : Z2mAdapter) :
  storedAs entry s -> storedAs entry (replayPendingState P entry now s).1.
Proof.
  intros Hs. unfold replayPendingState.
  destruct (m_pendingStatePayloads s !! e_mqttId entry); [| exact Hs].
  rewrite andThen_run. cbn [fst]. apply storedAs_handleDeviceStatePayload. exact Hs.
Qed.

Lemma storedAs_adoptCoordinator (obj : QJsonObject) (entry : Z2mDeviceEntry) (now : Z)
    (s : Z2mAdapter) :
  storedAs entry s -> storedAs entry (adoptCoordinator obj entry now s).1.
Proof.
  intros Hs. unfold adoptCoordinator.
  destruct (equalsCI _ _); [| exact Hs].
  rewrite andThen_run. unfold modify at 1. cbn [fst].
  destruct (negb _); [| exact Hs].
  rewrite andThen_run. unfold modify. cbn [fst].
  destruct (storedAs_handleBridgeInfoPayload entry
              (m_pendingBridgeInfo (set_coordinatorId (dev_id (e_device entry)) s))
              now (set_coordinatorId (dev_id (e_device entry)) s) Hs)
    as (e & He & Hsame).
  exists e. split; assumption.
Qed.

(** X22. A device that the bridge renames stays the same device. When an
    element of a device list gives a new friendly name to an address
    that the index maps to a registered entry, the entry moves to the
    new name: nothing is announced as removed, the old name is free, the
    entry under the new name has the device id, the channels and the
    bindings of the old one, and [deviceUpdated] announces the device
    under its new name with the old channels. *)
Theorem rename_keeps_device (s : Z2mAdapter) (obj : QJsonObject) (seen : gset string)
    (now : Z) (previous : string) (old : Z2mDeviceEntry) :
  let r := (bridgeDeviceStep P now (JObject obj) seen).2 s in
  isEmpty (friendlyNameOf obj) = false ->
  registrable obj = true ->
  isEmpty (ieeeAddressOf obj) = false ->
  m_mqttByExternal s !! ieeeAddressOf obj = Some previous ->
  isEmpty previous = false ->
  previous <> friendlyNameOf obj ->
  m_devices s !! previous = Some old ->
  removedDevices r.2 = []
  /\ m_devices r.1 !! previous = None
  /\ (exists e,
        m_devices r.1 !! friendlyNameOf obj = Some e
        /\ dev_name (e_device e) = friendlyNameOf obj
        /\ dev_id (e_device e) = dev_id (e_device old)
        /\ e_channels e = e_channels old
        /\ e_bindingsByChannel e = e_bindingsByChannel old)
  /\ DeviceUpdated (e_device (renamedEntry (friendlyNameOf obj) old)) (e_channels old)
     ∈ r.2.
Proof.
  intros r Hname Hreg Hieee Hidx Hprev Hne Hold. subst r.
  unfold bridgeDeviceStep. fold (friendlyNameOf obj) (ieeeAddressOf obj).
  rewrite Hname. unfold registrable in Hreg. apply andb_true_iff in Hreg as [Hi Hsup].
  rewrite Hi, Hsup. cbn [negb orb snd].
  split.
  { apply (proj2 (keepsAll_registerDevice obj (friendlyNameOf obj)
                    (ieeeAddressOf obj) now s)). }
  unfold registerDevice. cbv zeta.
  assert (Hp : previousMqttIdOf s (ieeeAddressOf obj) = previous).
  { unfold previousMqttIdOf. rewrite Hieee, Hidx. reflexivity. }
  rewrite Hp, Hprev. cbn [negb andb]. rewrite Hold.
  assert (Hneq : String.eqb previous (friendlyNameOf obj) = false)
    by (apply String.eqb_neq, Hne).
  rewrite Hneq. cbn [negb].
  set (entry := renamedEntry (friendlyNameOf obj) old).
  set (availability := if isEmpty _ then _ else _).
  set (lastSeenMs := lastSeenMsFromValue P (Json.value obj "last_seen")).
  assert (Hkey : e_mqttId entry <> previous) by (intros Heq; apply Hne; symmetry; exact Heq).
  rewrite !andThen_run. cbn [fst snd].
  set (s1 := (forgetPreviousName (Some old) true previous s).1).
  set (s2 := (migratePendingState true previous (friendlyNameOf obj) s1).1).
  set (s3 := (confirmPendingRename (ieeeAddressOf obj) entry now s2).1).
  set (s4 := (storeEntry entry s3).1).
  set (s5 := (replayPendingState P entry now s4).1).
  set (s6 := (scheduleAvailabilityDefault entry availability lastSeenMs s5).1).
  assert (H6 : s6 = s5) by apply SnapshotFacts.scheduleAvailabilityDefault_frame.
  split; [| split].
  - assert (H1 : m_devices s1 !! previous = None) by apply lookup_delete_eq.
    destruct (SnapshotFacts.migratePendingState_frame previous true previous
                (friendlyNameOf obj)) as [Hm _].
    destruct (SnapshotFacts.confirmPendingRename_frame previous (ieeeAddressOf obj)
                entry now) as [Hc _].
    destruct (SnapshotFacts.storeEntry_frame previous entry s3 Hkey)
      as (Hst & _ & Hindex).
    destruct (SnapshotFacts.replayPendingState_frame P previous entry now Hkey)
      as [Hr Hri].
    destruct (SnapshotFacts.adoptCoordinator_frame previous obj entry now s6 Hkey)
      as [Ha _].
    { rewrite H6. destruct Hindex as [He | He]; [left; exact He | right].
      fold s4 in He. unfold s5. rewrite Hri. exact He. }
    cbv beta in Hst, Ha. rewrite Ha, H6.
    unfold keeps in Hr, Hc, Hm. cbv beta in Hr, Hc, Hm.
    unfold s5. rewrite Hr. unfold s4. rewrite Hst.
    unfold s3. rewrite Hc. unfold s2. rewrite Hm. exact H1.
  - assert (Hstored : storedAs entry
                        (adoptCoordinator obj entry now s6).1).
    { apply storedAs_adoptCoordinator. rewrite H6.
      apply storedAs_replayPendingState, storedAs_storeEntry. }
    destruct Hstored as (e & He & _ & Hn & Hid & Hch & Hb & _).
    exists e. split; [exact He |]. repeat split; assumption.
  - apply elem_of_app. right. apply elem_of_app. right. apply elem_of_app. right.
    apply elem_of_app. left. unfold storeEntry. rewrite !andThen_run.
    cbn [modify emit fst snd app]. apply elem_of_cons. left. reflexivity.
Qed.

End WithPlatform.

Lemma rename_keeps_device_witness :
  let s :=
    (run referencePlatform
       (World.connectInputs ++ [World.snapshot [World.lamp] 1000])
       (initialAdapter World.info)).1 in
  let r := (bridgeDeviceStep referencePlatform 2000 (JObject deskObject) ∅).2 s in
  m_devices s !! "lamp" = Some lampEntry
  /\ removedDevices r.2 = []
  /\ m_devices r.1 !! "lamp" = None
  /\ (exists e,
        m_devices r.1 !! friendlyNameOf deskObject = Some e
        /\ dev_name (e_device e) = friendlyNameOf deskObject
        /\ dev_id (e_device e) = dev_id (e_device lampEntry)
        /\ e_channels e = e_channels lampEntry
        /\ e_bindingsByChannel e = e_bindingsByChannel lampEntry)
  /\ DeviceUpdated (e_device (renamedEntry (friendlyNameOf deskObject) lampEntry))
       (e_channels lampEntry)
     ∈ r.2.
Proof.
  cbv zeta.
  assert (Hold : m_devices
                   (run referencePlatform
                      (World.connectInputs ++ [World.snapshot [World.lamp] 1000])
                      (initialAdapter World.info)).1 !! "lamp" = Some lampEntry)
    by reflexivity.
  split; [exact Hold |].
  pose proof (rename_keeps_device referencePlatform
                (run referencePlatform
                   (World.connectInputs ++ [World.snapshot [World.lamp] 1000])
                   (initialAdapter World.info)).1
                deskObject ∅ 2000 "lamp" lampEntry) as Hrename.
  cbv zeta in Hrename.
  apply Hrename;
    [reflexivity | reflexivity | reflexivity | reflexivity | reflexivity
    | discriminate | exact Hold].
Defined.

End RenameFacts.
